(** * The terminal emulation engine of extraterm (class [Terminal])

    A shallow embedding of the byte-stream engine found in
    packages/extraterm-char-render-canvas/src/BoxDrawingCharacters.ts:
    the write scheduler ([_processOneWriteChunk]), the parser
    ([_processWriteData] and the [_processData...] handlers), the CSI and
    ESC operations on the screen buffer, and the helpers they use.

    Conventions of the model.

    - A JavaScript number is an exact integer of [Z]; the two agree as long
      as the magnitudes stay below 2^53.  The bitwise operators are the
      32-bit ones, with their wrap-around written out ([Js.int32]).
    - A one-character JavaScript string is its UTF-16 code unit, a [Z];
      a string is a [list Z].
    - An array is a list.  A row of the screen is a list of optional cells:
      [None] is an array hole, which reads as [undefined].
    - The object is threaded explicitly: every method is a function
      [Terminal -> Terminal], or [Terminal -> Res Terminal] where the
      method can throw or leave the integer model.
    - The renderer (DOM nodes, timers, [_lineToHTML], the cursor overlay
      drawn by [refresh]) is the external collaborator: only what it does
      to the engine's own fields is modelled. *)

From Stdlib Require Import String Ascii ZArith List Bool Lia.
Import ListNotations.
Open Scope Z_scope.

(** ** Results: a method returns, throws, or leaves the model *)

Inductive Stop : Type :=
| TypeError      (* JavaScript throws: a method or index of [undefined] *)
| Unmodelled.    (* NaN, a coercion of a string to a number, or a loop
                    whose counter never reaches zero *)

Inductive Res (A : Type) : Type :=
| Ok (a : A)
| Err (e : Stop).
Arguments Ok {A} a.
Arguments Err {A} e.

Definition bind {A B : Type} (r : Res A) (k : A -> Res B) : Res B :=
  match r with
  | Ok a => k a
  | Err e => Err e
  end.

Notation "x <- r ;; k" := (bind r (fun x => k))
  (at level 61, r at next level, right associativity).
Notation "' p <- r ;; k" := (bind r (fun v => let p := v in k))
  (at level 61, p pattern, r at next level, right associativity).

(** ** JavaScript primitives *)

Module Js.

(** ToInt32: the value every bitwise operator works on. *)
Definition int32 (n : Z) : Z := (n + 2147483648) mod 4294967296 - 2147483648.

Definition band (a b : Z) : Z := Z.land (int32 a) (int32 b).
Definition bor (a b : Z) : Z := Z.lor (int32 a) (int32 b).
Definition bnot (a : Z) : Z := Z.lnot (int32 a).
Definition shl (a b : Z) : Z := int32 (Z.shiftl (int32 a) (b mod 32)).
Definition shr (a b : Z) : Z := Z.shiftr (int32 a) (b mod 32).

(** Strings: code units; [str] reads an ASCII literal. *)
Definition str (s : string) : list Z :=
  map (fun a => Z.of_N (N_of_ascii a)) (list_ascii_of_string s).

Fixpoint digits (fuel : nat) (n : Z) (acc : list Z) : list Z :=
  let acc' := (48 + n mod 10) :: acc in
  match fuel with
  | O => acc'
  | S f => if n <? 10 then acc' else digits f (n / 10) acc'
  end.

(** Number.prototype.toString of an integer: its decimal digits.  This is
    what the code prints for an integer that a double holds exactly and
    prints in full, [|n| <= 2^53]; from 1e21 on JavaScript prints the
    exponent form, which [dec] does not show. *)
Definition dec (n : Z) : list Z :=
  if n <? 0 then 45 :: digits (Z.to_nat (Z.log2 (- n))) (- n) []
  else digits (Z.to_nat (Z.log2 n)) n [].

Fixpoint eqs (a b : list Z) : bool :=
  match a, b with
  | [], [] => true
  | c :: a', d :: b' => (c =? d) && eqs a' b'
  | _, _ => false
  end.

(** [name.indexOf(term) === 0] *)
Fixpoint startsWith (name term : list Z) : bool :=
  match term, name with
  | [], _ => true
  | c :: term', d :: name' => (c =? d) && startsWith name' term'
  | _ :: _, [] => false
  end.

(** [a.indexOf(c)] from the head of [a]: the offset of the first [c]. *)
Fixpoint indexOf (a : list Z) (c : Z) : option nat :=
  match a with
  | [] => None
  | d :: a' => if d =? c then Some O
               else match indexOf a' c with
                    | Some k => Some (S k)
                    | None => None
                    end
  end.

Section Arrays.
Context {A : Type}.

Definition len (a : list A) : Z := Z.of_nat (length a).

(** [a[i]]: [None] is [undefined]. *)
Definition get (a : list A) (i : Z) : option A :=
  if i <? 0 then None else nth_error a (Z.to_nat i).

Definition push (a : list A) (v : A) : list A := a ++ [v].

Definition pop (a : list A) : list A := removelast a.

(** The relative index of splice and slice. *)
Definition rel (a : list A) (start : Z) : nat :=
  if start <? 0 then Z.to_nat (Z.max (len a + start) 0)
  else Z.to_nat (Z.min start (len a)).

(** [a.splice(start, count, ...items)], the array afterwards. *)
Definition splice (a : list A) (start count : Z) (items : list A) : list A :=
  let s := rel a start in
  let c := Z.to_nat (Z.min (Z.max count 0) (len a - Z.of_nat s)) in
  firstn s a ++ items ++ skipn (s + c) a.

(** [a.slice(start)] *)
Definition slice (a : list A) (start : Z) : list A := skipn (rel a start) a.

(** [a.slice(0, n)] for [n >= 0] *)
Definition sliceTo (a : list A) (n : Z) : list A := firstn (rel a n) a.
End Arrays.

(** [a[i] = v] on an array that may have holes: a negative [i] names a
    property, not an element; an [i] past the end leaves holes.  [put]
    stores a value that may itself be [null] or [undefined]. *)
Definition put {A : Type} (a : list (option A)) (i : Z) (v : option A)
  : list (option A) :=
  if i <? 0 then a
  else
    let n := Z.to_nat i in
    if (n <? length a)%nat then firstn n a ++ v :: skipn (S n) a
    else a ++ repeat None (n - length a) ++ [v].

Definition set {A : Type} (a : list (option A)) (i : Z) (v : A)
  : list (option A) := put a i (Some v).

(** [a[i]] on such an array *)
Definition at_ {A : Type} (a : list (option A)) (i : Z) : option A :=
  match get a i with
  | Some (Some v) => Some v
  | _ => None
  end.

End Js.

Definition ESC : Z := 27.
Definition BEL : Z := 7.
Definition NUL : Z := 0.
Definition SP : Z := 32.

(** ** Colours: [Terminal.colors], [Terminal.vcolors], [matchColor] *)

Definition tangoColors : list (Z * Z * Z) :=
  [ (0x2e, 0x34, 0x36); (0xcc, 0x00, 0x00); (0x4e, 0x9a, 0x06); (0xc4, 0xa0, 0x00);
    (0x34, 0x65, 0xa4); (0x75, 0x50, 0x7b); (0x06, 0x98, 0x9a); (0xd3, 0xd7, 0xcf);
    (0x55, 0x57, 0x53); (0xef, 0x29, 0x29); (0x8a, 0xe2, 0x34); (0xfc, 0xe9, 0x4f);
    (0x72, 0x9f, 0xcf); (0xad, 0x7f, 0xa8); (0x34, 0xe2, 0xe2); (0xee, 0xee, 0xec) ].

Definition cubeSteps : list Z := [0x00; 0x5f; 0x87; 0xaf; 0xd7; 0xff].

Definition cubeColor (i : Z) : Z * Z * Z :=
  (nth (Z.to_nat ((i / 36) mod 6)) cubeSteps 0,
   nth (Z.to_nat ((i / 6) mod 6)) cubeSteps 0,
   nth (Z.to_nat (i mod 6)) cubeSteps 0).

Definition greyColor (i : Z) : Z * Z * Z :=
  let v := 8 + i * 10 in (v, v, v).

(** The first 256 entries of [Terminal.colors], as the triples that
    [Terminal.vcolors] parses out of them. *)
Definition vcolors : list (Z * Z * Z) :=
  tangoColors
  ++ map (fun i => cubeColor (Z.of_nat i)) (seq 0 216)
  ++ map (fun i => greyColor (Z.of_nat i)) (seq 0 24).

Definition matchColorDistance (r1 g1 b1 r2 g2 b2 : Z) : Z :=
  (30 * (r1 - r2)) ^ 2 + (59 * (g1 - g2)) ^ 2 + (11 * (b1 - b2)) ^ 2.

(** The loop of [matchColor]: [ldiff] is [None] for Infinity. *)
Fixpoint matchColor_loop (r1 g1 b1 : Z) (cs : list (Z * Z * Z)) (i : Z)
         (ldiff : option Z) (li : Z) : Z :=
  match cs with
  | [] => li
  | (r2, g2, b2) :: cs' =>
      let diff := matchColorDistance r1 g1 b1 r2 g2 b2 in
      if diff =? 0 then i
      else
        let better := match ldiff with None => true | Some d => diff <? d end in
        if better then matchColor_loop r1 g1 b1 cs' (i + 1) (Some diff) i
        else matchColor_loop r1 g1 b1 cs' (i + 1) ldiff li
  end.

(** [matchColorCache] memoises a pure function and is left out. *)
Definition matchColor (r1 g1 b1 : Z) : Z :=
  matchColor_loop r1 g1 b1 vcolors 0 None (-1).

(** ** Character sets and wide characters *)

Definition CharSet : Type := list (Z * Z).

(** [Terminal.charsets.SCLD]; every other named set is [null]. *)
Definition SCLD : CharSet :=
  [ (96, 0x25c6); (97, 0x2592); (98, 0x0009); (99, 0x000c); (100, 0x000d);
    (101, 0x000a); (102, 0x00b0); (103, 0x00b1); (104, 0x2424); (105, 0x000b);
    (106, 0x2518); (107, 0x2510); (108, 0x250c); (109, 0x2514); (110, 0x253c);
    (111, 0x23ba); (112, 0x23bb); (113, 0x2500); (114, 0x23bc); (115, 0x23bd);
    (116, 0x251c); (117, 0x2524); (118, 0x2534); (119, 0x252c); (120, 0x2502);
    (121, 0x2264); (122, 0x2265); (123, 0x03c0); (124, 0x2260); (125, 0x00a3);
    (126, 0x00b7) ].

Fixpoint lookup (cs : CharSet) (ch : Z) : option Z :=
  match cs with
  | [] => None
  | (k, v) :: cs' => if k =? ch then Some v else lookup cs' ch
  end.

(** [this.charset && this.charset[ch]] selects the replacement. *)
Definition translate (charset : option CharSet) (ch : Z) : Z :=
  match charset with
  | Some cs => match lookup cs ch with Some v => v | None => ch end
  | None => ch
  end.

Definition isWide (ch : Z) : bool :=
  if ch <=? 0xff00 then false
  else ((0xff01 <=? ch) && (ch <=? 0xffbe))
    || ((0xffc2 <=? ch) && (ch <=? 0xffc7))
    || ((0xffca <=? ch) && (ch <=? 0xffcf))
    || ((0xffd2 <=? ch) && (ch <=? 0xffd7))
    || ((0xffda <=? ch) && (ch <=? 0xffdc))
    || ((0xffe0 <=? ch) && (ch <=? 0xffe6))
    || ((0xffe8 <=? ch) && (ch <=? 0xffee)).

(** ** The data model *)

(** The parser states, [STATE_NORMAL] = 0 to [STATE_DEC_HASH] = 9. *)
Inductive ParserState : Type :=
| STATE_NORMAL
| STATE_ESCAPE
| STATE_CSI
| STATE_OSC
| STATE_CHARSET
| STATE_DCS
| STATE_IGNORE
| STATE_APPLICATION_START
| STATE_APPLICATION_END
| STATE_DEC_HASH.

(** [type LineCell = [number, string]]: the attribute and the character. *)
Definition LineCell : Type := (Z * Z)%type.

Definition Row : Type := list (option LineCell).

(** [currentParam: string | number] and the elements of [params]. *)
Inductive Param : Type :=
| PNum (n : Z)
| PStr (s : list Z).

(** What [emit] hands to the listeners, in order.  [send] only queues
    bytes; the ['data'] event is emitted by its timer. *)
Inductive Event : Type :=
| Data (data : list Z)
| Bell
| Title (title : Param)
| ApplicationModeStart (params : list Param)
| ApplicationModeData (data : list Z)
| ApplicationModeEnd.

Record Options : Type := mkOptions {
  o_convertEol : bool;
  o_termName : list Z;
  o_visualBell : bool;
  o_popOnBell : bool;
  o_scrollback : Z;
  o_physicalScroll : bool;
  o_applicationModeCookie : option (list Z)
}.

Record SavedState : Type := mkSavedState {
  s_lines : list Row;
  s_cols : Z;
  s_rows : Z;
  s_ybase : Z;
  s_ydisp : Z;
  s_x : Z;
  s_y : Z;
  s_scrollTop : Z;
  s_scrollBottom : Z;
  s_tabs : list Z
}.

Record Parser : Type := mkParser {
  p_state : ParserState;
  p_params : list Param;
  p_currentParam : Param;
  p_prefix : list Z;
  p_postfix : list Z
}.

Record Charsets : Type := mkCharsets {
  g_charset : option CharSet;
  g_gcharset : option Z;
  g_glevel : Z;
  g_charsets : list (option CharSet)
}.

Record Modes : Type := mkModes {
  m_applicationKeypad : bool;
  m_applicationCursor : bool;
  m_originMode : bool;
  m_insertMode : bool;
  m_wraparoundMode : bool;
  m_cursorHidden : bool;
  m_cursorState : bool;
  m_hasFocus : bool
}.

Record Mouse : Type := mkMouse {
  ms_x10Mouse : bool;
  ms_vt200Mouse : bool;
  ms_normalMouse : bool;
  ms_mouseEvents : bool;
  ms_sendFocus : bool;
  ms_utfMouse : bool;
  ms_sgrMouse : bool;
  ms_urxvtMouse : bool
}.

Record Attrs : Type := mkAttrs {
  a_defAttr : Z;
  a_curAttr : Z
}.

Record Saved : Type := mkSaved {
  sv_savedX : Z;
  sv_savedY : Z;
  sv_savedCols : option Z
}.

Record Refresh : Type := mkRefresh {
  r_refreshStart : Z;
  r_refreshEnd : Z;
  r_oldy : Z
}.

Record Io : Type := mkIo {
  io_queue : list Z;
  io_title : Param;
  io_scrollbackBuffer : list (option Row);
  io_writeBuffers : list (list Z);
  io_emitted : list Event
}.

Record Terminal : Type := mkTerminal {
  opts : Options;
  scr : SavedState;
  psr : Parser;
  chs : Charsets;
  modes : Modes;
  mouse : Mouse;
  normal : option SavedState;
  attrs : Attrs;
  saved : Saved;
  refr : Refresh;
  io : Io
}.

(** Field updates.  The class has one flat set of fields; the model groups
    them, and gives every field of the class its own name back as a getter
    with a [set_] companion. *)

Definition set_opts (v : Options) (t : Terminal) : Terminal :=
  mkTerminal v (scr t) (psr t) (chs t) (modes t) (mouse t) (normal t) (attrs t) (saved t) (refr t) (io t).

Definition set_scr (v : SavedState) (t : Terminal) : Terminal :=
  mkTerminal (opts t) v (psr t) (chs t) (modes t) (mouse t) (normal t) (attrs t) (saved t) (refr t) (io t).

Definition set_psr (v : Parser) (t : Terminal) : Terminal :=
  mkTerminal (opts t) (scr t) v (chs t) (modes t) (mouse t) (normal t) (attrs t) (saved t) (refr t) (io t).

Definition set_chs (v : Charsets) (t : Terminal) : Terminal :=
  mkTerminal (opts t) (scr t) (psr t) v (modes t) (mouse t) (normal t) (attrs t) (saved t) (refr t) (io t).

Definition set_modes (v : Modes) (t : Terminal) : Terminal :=
  mkTerminal (opts t) (scr t) (psr t) (chs t) v (mouse t) (normal t) (attrs t) (saved t) (refr t) (io t).

Definition set_mouse (v : Mouse) (t : Terminal) : Terminal :=
  mkTerminal (opts t) (scr t) (psr t) (chs t) (modes t) v (normal t) (attrs t) (saved t) (refr t) (io t).

Definition set_normal (v : option SavedState) (t : Terminal) : Terminal :=
  mkTerminal (opts t) (scr t) (psr t) (chs t) (modes t) (mouse t) v (attrs t) (saved t) (refr t) (io t).

Definition set_attrs (v : Attrs) (t : Terminal) : Terminal :=
  mkTerminal (opts t) (scr t) (psr t) (chs t) (modes t) (mouse t) (normal t) v (saved t) (refr t) (io t).

Definition set_saved (v : Saved) (t : Terminal) : Terminal :=
  mkTerminal (opts t) (scr t) (psr t) (chs t) (modes t) (mouse t) (normal t) (attrs t) v (refr t) (io t).

Definition set_refr (v : Refresh) (t : Terminal) : Terminal :=
  mkTerminal (opts t) (scr t) (psr t) (chs t) (modes t) (mouse t) (normal t) (attrs t) (saved t) v (io t).

Definition set_io (v : Io) (t : Terminal) : Terminal :=
  mkTerminal (opts t) (scr t) (psr t) (chs t) (modes t) (mouse t) (normal t) (attrs t) (saved t) (refr t) v.

(* Options *)
Definition convertEol (t : Terminal) : bool := o_convertEol (opts t).
Definition termName (t : Terminal) : list Z := o_termName (opts t).
Definition visualBell (t : Terminal) : bool := o_visualBell (opts t).
Definition popOnBell (t : Terminal) : bool := o_popOnBell (opts t).
Definition scrollback (t : Terminal) : Z := o_scrollback (opts t).
Definition physicalScroll (t : Terminal) : bool := o_physicalScroll (opts t).
Definition applicationModeCookie (t : Terminal) : option (list Z) := o_applicationModeCookie (opts t).

(* SavedState *)
Definition lines (t : Terminal) : list Row := s_lines (scr t).
Definition cols (t : Terminal) : Z := s_cols (scr t).
Definition rows (t : Terminal) : Z := s_rows (scr t).
Definition ybase (t : Terminal) : Z := s_ybase (scr t).
Definition ydisp (t : Terminal) : Z := s_ydisp (scr t).
Definition x (t : Terminal) : Z := s_x (scr t).
Definition y (t : Terminal) : Z := s_y (scr t).
Definition scrollTop (t : Terminal) : Z := s_scrollTop (scr t).
Definition scrollBottom (t : Terminal) : Z := s_scrollBottom (scr t).
Definition tabs (t : Terminal) : list Z := s_tabs (scr t).
Definition set_lines (v : list Row) (t : Terminal) : Terminal :=
  set_scr (mkSavedState v (cols t) (rows t) (ybase t) (ydisp t) (x t) (y t) (scrollTop t) (scrollBottom t) (tabs t)) t.
Definition set_cols (v : Z) (t : Terminal) : Terminal :=
  set_scr (mkSavedState (lines t) v (rows t) (ybase t) (ydisp t) (x t) (y t) (scrollTop t) (scrollBottom t) (tabs t)) t.
Definition set_rows (v : Z) (t : Terminal) : Terminal :=
  set_scr (mkSavedState (lines t) (cols t) v (ybase t) (ydisp t) (x t) (y t) (scrollTop t) (scrollBottom t) (tabs t)) t.
Definition set_ybase (v : Z) (t : Terminal) : Terminal :=
  set_scr (mkSavedState (lines t) (cols t) (rows t) v (ydisp t) (x t) (y t) (scrollTop t) (scrollBottom t) (tabs t)) t.
Definition set_ydisp (v : Z) (t : Terminal) : Terminal :=
  set_scr (mkSavedState (lines t) (cols t) (rows t) (ybase t) v (x t) (y t) (scrollTop t) (scrollBottom t) (tabs t)) t.
Definition set_x (v : Z) (t : Terminal) : Terminal :=
  set_scr (mkSavedState (lines t) (cols t) (rows t) (ybase t) (ydisp t) v (y t) (scrollTop t) (scrollBottom t) (tabs t)) t.
Definition set_y (v : Z) (t : Terminal) : Terminal :=
  set_scr (mkSavedState (lines t) (cols t) (rows t) (ybase t) (ydisp t) (x t) v (scrollTop t) (scrollBottom t) (tabs t)) t.
Definition set_scrollTop (v : Z) (t : Terminal) : Terminal :=
  set_scr (mkSavedState (lines t) (cols t) (rows t) (ybase t) (ydisp t) (x t) (y t) v (scrollBottom t) (tabs t)) t.
Definition set_scrollBottom (v : Z) (t : Terminal) : Terminal :=
  set_scr (mkSavedState (lines t) (cols t) (rows t) (ybase t) (ydisp t) (x t) (y t) (scrollTop t) v (tabs t)) t.
Definition set_tabs (v : list Z) (t : Terminal) : Terminal :=
  set_scr (mkSavedState (lines t) (cols t) (rows t) (ybase t) (ydisp t) (x t) (y t) (scrollTop t) (scrollBottom t) v) t.

(* Parser *)
Definition state (t : Terminal) : ParserState := p_state (psr t).
Definition params (t : Terminal) : list Param := p_params (psr t).
Definition currentParam (t : Terminal) : Param := p_currentParam (psr t).
Definition prefix (t : Terminal) : list Z := p_prefix (psr t).
Definition postfix (t : Terminal) : list Z := p_postfix (psr t).
Definition set_state (v : ParserState) (t : Terminal) : Terminal :=
  set_psr (mkParser v (params t) (currentParam t) (prefix t) (postfix t)) t.
Definition set_params (v : list Param) (t : Terminal) : Terminal :=
  set_psr (mkParser (state t) v (currentParam t) (prefix t) (postfix t)) t.
Definition set_currentParam (v : Param) (t : Terminal) : Terminal :=
  set_psr (mkParser (state t) (params t) v (prefix t) (postfix t)) t.
Definition set_prefix (v : list Z) (t : Terminal) : Terminal :=
  set_psr (mkParser (state t) (params t) (currentParam t) v (postfix t)) t.
Definition set_postfix (v : list Z) (t : Terminal) : Terminal :=
  set_psr (mkParser (state t) (params t) (currentParam t) (prefix t) v) t.

(* Charsets *)
Definition charset (t : Terminal) : option CharSet := g_charset (chs t).
Definition gcharset (t : Terminal) : option Z := g_gcharset (chs t).
Definition glevel (t : Terminal) : Z := g_glevel (chs t).
Definition charsets (t : Terminal) : list (option CharSet) := g_charsets (chs t).
Definition set_charset (v : option CharSet) (t : Terminal) : Terminal :=
  set_chs (mkCharsets v (gcharset t) (glevel t) (charsets t)) t.
Definition set_gcharset (v : option Z) (t : Terminal) : Terminal :=
  set_chs (mkCharsets (charset t) v (glevel t) (charsets t)) t.
Definition set_glevel (v : Z) (t : Terminal) : Terminal :=
  set_chs (mkCharsets (charset t) (gcharset t) v (charsets t)) t.
Definition set_charsets (v : list (option CharSet)) (t : Terminal) : Terminal :=
  set_chs (mkCharsets (charset t) (gcharset t) (glevel t) v) t.

(* Modes *)
Definition applicationKeypad (t : Terminal) : bool := m_applicationKeypad (modes t).
Definition applicationCursor (t : Terminal) : bool := m_applicationCursor (modes t).
Definition originMode (t : Terminal) : bool := m_originMode (modes t).
Definition insertMode (t : Terminal) : bool := m_insertMode (modes t).
Definition wraparoundMode (t : Terminal) : bool := m_wraparoundMode (modes t).
Definition cursorHidden (t : Terminal) : bool := m_cursorHidden (modes t).
Definition cursorState (t : Terminal) : bool := m_cursorState (modes t).
Definition _hasFocus (t : Terminal) : bool := m_hasFocus (modes t).
Definition set_applicationKeypad (v : bool) (t : Terminal) : Terminal :=
  set_modes (mkModes v (applicationCursor t) (originMode t) (insertMode t) (wraparoundMode t) (cursorHidden t) (cursorState t) (_hasFocus t)) t.
Definition set_applicationCursor (v : bool) (t : Terminal) : Terminal :=
  set_modes (mkModes (applicationKeypad t) v (originMode t) (insertMode t) (wraparoundMode t) (cursorHidden t) (cursorState t) (_hasFocus t)) t.
Definition set_originMode (v : bool) (t : Terminal) : Terminal :=
  set_modes (mkModes (applicationKeypad t) (applicationCursor t) v (insertMode t) (wraparoundMode t) (cursorHidden t) (cursorState t) (_hasFocus t)) t.
Definition set_insertMode (v : bool) (t : Terminal) : Terminal :=
  set_modes (mkModes (applicationKeypad t) (applicationCursor t) (originMode t) v (wraparoundMode t) (cursorHidden t) (cursorState t) (_hasFocus t)) t.
Definition set_wraparoundMode (v : bool) (t : Terminal) : Terminal :=
  set_modes (mkModes (applicationKeypad t) (applicationCursor t) (originMode t) (insertMode t) v (cursorHidden t) (cursorState t) (_hasFocus t)) t.
Definition set_cursorHidden (v : bool) (t : Terminal) : Terminal :=
  set_modes (mkModes (applicationKeypad t) (applicationCursor t) (originMode t) (insertMode t) (wraparoundMode t) v (cursorState t) (_hasFocus t)) t.
Definition set_cursorState (v : bool) (t : Terminal) : Terminal :=
  set_modes (mkModes (applicationKeypad t) (applicationCursor t) (originMode t) (insertMode t) (wraparoundMode t) (cursorHidden t) v (_hasFocus t)) t.
Definition set__hasFocus (v : bool) (t : Terminal) : Terminal :=
  set_modes (mkModes (applicationKeypad t) (applicationCursor t) (originMode t) (insertMode t) (wraparoundMode t) (cursorHidden t) (cursorState t) v) t.

(* Mouse *)
Definition x10Mouse (t : Terminal) : bool := ms_x10Mouse (mouse t).
Definition vt200Mouse (t : Terminal) : bool := ms_vt200Mouse (mouse t).
Definition normalMouse (t : Terminal) : bool := ms_normalMouse (mouse t).
Definition mouseEvents (t : Terminal) : bool := ms_mouseEvents (mouse t).
Definition sendFocus (t : Terminal) : bool := ms_sendFocus (mouse t).
Definition utfMouse (t : Terminal) : bool := ms_utfMouse (mouse t).
Definition sgrMouse (t : Terminal) : bool := ms_sgrMouse (mouse t).
Definition urxvtMouse (t : Terminal) : bool := ms_urxvtMouse (mouse t).
Definition set_x10Mouse (v : bool) (t : Terminal) : Terminal :=
  set_mouse (mkMouse v (vt200Mouse t) (normalMouse t) (mouseEvents t) (sendFocus t) (utfMouse t) (sgrMouse t) (urxvtMouse t)) t.
Definition set_vt200Mouse (v : bool) (t : Terminal) : Terminal :=
  set_mouse (mkMouse (x10Mouse t) v (normalMouse t) (mouseEvents t) (sendFocus t) (utfMouse t) (sgrMouse t) (urxvtMouse t)) t.
Definition set_normalMouse (v : bool) (t : Terminal) : Terminal :=
  set_mouse (mkMouse (x10Mouse t) (vt200Mouse t) v (mouseEvents t) (sendFocus t) (utfMouse t) (sgrMouse t) (urxvtMouse t)) t.
Definition set_mouseEvents (v : bool) (t : Terminal) : Terminal :=
  set_mouse (mkMouse (x10Mouse t) (vt200Mouse t) (normalMouse t) v (sendFocus t) (utfMouse t) (sgrMouse t) (urxvtMouse t)) t.
Definition set_sendFocus (v : bool) (t : Terminal) : Terminal :=
  set_mouse (mkMouse (x10Mouse t) (vt200Mouse t) (normalMouse t) (mouseEvents t) v (utfMouse t) (sgrMouse t) (urxvtMouse t)) t.
Definition set_utfMouse (v : bool) (t : Terminal) : Terminal :=
  set_mouse (mkMouse (x10Mouse t) (vt200Mouse t) (normalMouse t) (mouseEvents t) (sendFocus t) v (sgrMouse t) (urxvtMouse t)) t.
Definition set_sgrMouse (v : bool) (t : Terminal) : Terminal :=
  set_mouse (mkMouse (x10Mouse t) (vt200Mouse t) (normalMouse t) (mouseEvents t) (sendFocus t) (utfMouse t) v (urxvtMouse t)) t.
Definition set_urxvtMouse (v : bool) (t : Terminal) : Terminal :=
  set_mouse (mkMouse (x10Mouse t) (vt200Mouse t) (normalMouse t) (mouseEvents t) (sendFocus t) (utfMouse t) (sgrMouse t) v) t.

(* Attrs *)
Definition defAttr (t : Terminal) : Z := a_defAttr (attrs t).
Definition curAttr (t : Terminal) : Z := a_curAttr (attrs t).
Definition set_defAttr (v : Z) (t : Terminal) : Terminal :=
  set_attrs (mkAttrs v (curAttr t)) t.
Definition set_curAttr (v : Z) (t : Terminal) : Terminal :=
  set_attrs (mkAttrs (defAttr t) v) t.

(* Saved *)
Definition savedX (t : Terminal) : Z := sv_savedX (saved t).
Definition savedY (t : Terminal) : Z := sv_savedY (saved t).
Definition savedCols (t : Terminal) : option Z := sv_savedCols (saved t).
Definition set_savedX (v : Z) (t : Terminal) : Terminal :=
  set_saved (mkSaved v (savedY t) (savedCols t)) t.
Definition set_savedY (v : Z) (t : Terminal) : Terminal :=
  set_saved (mkSaved (savedX t) v (savedCols t)) t.
Definition set_savedCols (v : option Z) (t : Terminal) : Terminal :=
  set_saved (mkSaved (savedX t) (savedY t) v) t.

(* Refresh *)
Definition refreshStart (t : Terminal) : Z := r_refreshStart (refr t).
Definition refreshEnd (t : Terminal) : Z := r_refreshEnd (refr t).
Definition oldy (t : Terminal) : Z := r_oldy (refr t).
Definition set_refreshStart (v : Z) (t : Terminal) : Terminal :=
  set_refr (mkRefresh v (refreshEnd t) (oldy t)) t.
Definition set_refreshEnd (v : Z) (t : Terminal) : Terminal :=
  set_refr (mkRefresh (refreshStart t) v (oldy t)) t.
Definition set_oldy (v : Z) (t : Terminal) : Terminal :=
  set_refr (mkRefresh (refreshStart t) (refreshEnd t) v) t.

(* Io *)
Definition queue (t : Terminal) : list Z := io_queue (io t).
Definition title (t : Terminal) : Param := io_title (io t).
Definition _scrollbackBuffer (t : Terminal) : list (option Row) := io_scrollbackBuffer (io t).
Definition _writeBuffers (t : Terminal) : list (list Z) := io_writeBuffers (io t).
Definition emitted (t : Terminal) : list Event := io_emitted (io t).
Definition set_queue (v : list Z) (t : Terminal) : Terminal :=
  set_io (mkIo v (title t) (_scrollbackBuffer t) (_writeBuffers t) (emitted t)) t.
Definition set_title (v : Param) (t : Terminal) : Terminal :=
  set_io (mkIo (queue t) v (_scrollbackBuffer t) (_writeBuffers t) (emitted t)) t.
Definition set__scrollbackBuffer (v : list (option Row)) (t : Terminal) : Terminal :=
  set_io (mkIo (queue t) (title t) v (_writeBuffers t) (emitted t)) t.
Definition set__writeBuffers (v : list (list Z)) (t : Terminal) : Terminal :=
  set_io (mkIo (queue t) (title t) (_scrollbackBuffer t) v (emitted t)) t.
Definition set_emitted (v : list Event) (t : Terminal) : Terminal :=
  set_io (mkIo (queue t) (title t) (_scrollbackBuffer t) (_writeBuffers t) v) t.

(** ** Loops of the source, as combinators *)

(** [for (j = lo; j < hi; j++) body(j)] *)
Fixpoint for_up_ {S : Type} (n : nat) (j : Z) (body : Z -> S -> Res S) (s : S)
  : Res S :=
  match n with
  | O => Ok s
  | S n' => s' <- body j s ;; for_up_ n' (j + 1) body s'
  end.

Definition for_up {S : Type} (lo hi : Z) (body : Z -> S -> Res S) (s : S) : Res S :=
  for_up_ (Z.to_nat (hi - lo)) lo body s.

(** [j = n; while (j--) body(j)]: from [n - 1] down to [0]; a negative [n]
    never reaches zero. *)
Fixpoint countdown_ {S : Type} (n : nat) (body : Z -> S -> Res S) (s : S) : Res S :=
  match n with
  | O => Ok s
  | S n' => s' <- body (Z.of_nat n') s ;; countdown_ n' body s'
  end.

Definition countdown {S : Type} (n : Z) (body : Z -> S -> Res S) (s : S) : Res S :=
  if n <? 0 then Err Unmodelled else countdown_ (Z.to_nat n) body s.

(** [while (param--) body].  The counter is a double.  A negative count
    never reaches zero; and a count of 2^53 or more is not decremented
    exactly ([param - 1] is [param] again from 2^54 on, so that the loop does
    not end).  Both are outside the model. *)
Fixpoint times_ {S : Type} (n : nat) (body : S -> Res S) (s : S) : Res S :=
  match n with
  | O => Ok s
  | S n' => s' <- body s ;; times_ n' body s'
  end.

Definition times {S : Type} (param : Z) (body : S -> Res S) (s : S) : Res S :=
  if (param <? 0) || (2 ^ 53 <=? param) then Err Unmodelled
  else times_ (Z.to_nat param) body s.

(** ** Helpers of the class *)

(** The tab stops: the keys of [this.tabs] that hold [true]. *)
Definition hasTab (ts : list Z) (i : Z) : bool := existsb (Z.eqb i) ts.
Definition addTab (ts : list Z) (i : Z) : list Z := if hasTab ts i then ts else i :: ts.
Definition delTab (ts : list Z) (i : Z) : list Z := filter (fun k => negb (k =? i)) ts.

Definition eraseAttr (t : Terminal) : Z :=
  Js.bor (Js.band (defAttr t) (Js.bnot 0x1ff)) (Js.band (curAttr t) 0x1ff).

Definition blankLine (cur : bool) (t : Terminal) : Row :=
  let attr := if cur then eraseAttr t else defAttr t in
  repeat (Some (attr, SP)) (Z.to_nat (cols t)).

(** [_getRow(row)], the engine afterwards; the row it returns is
    [Js.get (lines t') row]. *)
Definition _getRow (row : Z) (t : Terminal) : Terminal :=
  set_lines
    (lines t ++ repeat (blankLine false t) (Z.to_nat (row + 1 - Js.len (lines t)))) t.

Definition setRow (row : Z) (line : Row) (ls : list Row) : list Row :=
  firstn (Z.to_nat row) ls ++ line :: skipn (S (Z.to_nat row)) ls.

(** A method called on the row object [this.lines[row]], which the method
    changes in place; [undefined] has no methods. *)
Definition onRow (row : Z) (f : Row -> Row) (t : Terminal) : Res Terminal :=
  match Js.get (lines t) row with
  | Some line => Ok (set_lines (setRow row (f line) (lines t)) t)
  | None => Err TypeError
  end.

Definition emit (e : Event) (t : Terminal) : Terminal :=
  set_emitted (emitted t ++ [e]) t.

(** [send] appends to the queue; the callback of the timer it arms is
    [send_timer]. *)
Definition send (data : list Z) (t : Terminal) : Terminal :=
  set_queue (queue t ++ data) t.

(** [this.handler(this.queue); this.queue = '';] *)
Definition send_timer (t : Terminal) : Terminal :=
  set_queue [] (emit (Data (queue t)) t).

Definition updateRange (py : Z) (t : Terminal) : Terminal :=
  let t := if py <? refreshStart t then set_refreshStart py t else t in
  if refreshEnd t <? py then set_refreshEnd py t else t.

Definition maxRange (t : Terminal) : Terminal :=
  set_refreshEnd (rows t - 1) (set_refreshStart 0 t).

(** [refresh(start, end)]: what it does to the engine is to materialise
    the rows it is about to draw.  The drawing itself, [_lineToHTML] and the
    [div] elements, is not part of [refresh] here: this is the engine after a
    [refresh] that returns.  Whether it returns is [refresh_draws] below:
    the code reads both fields of every cell it draws and throws a TypeError
    on a hole. *)
Definition refresh (start end_ : Z) (t : Terminal) : Terminal :=
  let end_ := if negb (physicalScroll t) && (Js.len (lines t) <=? end_)
              then Js.len (lines t) - 1 else end_ in
  match for_up start (end_ + 1) (fun py t => Ok (_getRow (py + ydisp t) t)) t with
  | Ok t' => t'
  | Err _ => t
  end.

(** Whether [_lineToHTML(line)] returns.  Its loop reads [line[i][0]] and
    [line[i][1]] of each cell it comes to, which throws on a hole, and it
    steps over the cell that follows a wide character ([i++]).  [skip] says
    that the first cell of [line] is stepped over. *)
Fixpoint _lineToHTML_returns (skip : bool) (line : Row) : bool :=
  match line with
  | [] => true
  | c :: rest =>
      if skip then _lineToHTML_returns false rest
      else match c with
           | None => false
           | Some (_, ch) =>
               _lineToHTML_returns
                 (if (ch =? 38) || (ch =? 60) || (ch =? 62) then false
                  else if ch <=? SP then false
                  else isWide ch)
                 rest
           end
  end.

(** Whether the body of the loop of [refresh] returns for the screen row
    [py]: the row [py + ydisp] is fetched with [_getRow] (a negative index
    gives [undefined]), the cursor is put into a copy of it where it is
    shown, reading [line[x][1]], and the row is rendered. *)
Definition refresh_row (py : Z) (t : Terminal) : bool :=
  let row := py + ydisp t in
  match Js.get (lines (_getRow row t)) row with
  | None => false
  | Some line =>
      if (py =? y t) && cursorState t && (ydisp t =? ybase t)
         && negb (cursorHidden t) && (x t <? cols t)
      then match Js.get line (x t) with
           | Some (Some (_, ch)) =>
               _lineToHTML_returns false (Js.set line (x t) (-1, ch))
           | _ => false
           end
      else _lineToHTML_returns false line
  end.

(** Whether [refresh(start, end)] returns, the elements it writes to being
    the collaborator's. *)
Definition refresh_draws (start end_ : Z) (t : Terminal) : bool :=
  let end_ := if negb (physicalScroll t) && (Js.len (lines t) <=? end_)
              then Js.len (lines t) - 1 else end_ in
  match for_up start (end_ + 1)
          (fun py t => if refresh_row py t then Ok (_getRow (py + ydisp t) t)
                       else Err TypeError) t with
  | Ok _ => true
  | Err _ => false
  end.

Definition showCursor (t : Terminal) : Terminal :=
  if negb (cursorState t) then refresh (y t) (y t) (set_cursorState true t) else t.

(** [focus()]; the DOM focus itself is the collaborator's. *)
Definition focus (t : Terminal) : Terminal :=
  let t := if sendFocus t then send (ESC :: Js.str "[I") t else t in
  set__hasFocus true (showCursor t).

Definition bell (t : Terminal) : Terminal :=
  let t := emit Bell t in
  if negb (visualBell t) then t
  else if popOnBell t then focus t else t.

(** [while (!this.tabs[--x] && x > 0);]  The fuel is the number of
    columns to go, as long as [--x] is exact, that is for [px] below 2^53;
    from 2^54 on [--x] does not move, and with no stop there the loop of
    the code does not end, which the fuelled loop does not show. *)
Fixpoint prevStop_loop (fuel : nat) (ts : list Z) (px : Z) : Z :=
  let px := px - 1 in
  if negb (hasTab ts px) && (0 <? px)
  then match fuel with S f => prevStop_loop f ts px | O => px end
  else px.

Definition prevStop (px : Z) (t : Terminal) : Z :=
  let r := prevStop_loop (Z.to_nat px) (tabs t) px in
  if cols t <=? r then cols t - 1 else if r <? 0 then 0 else r.

(** [while (!this.tabs[++x] && x < this.cols);]  The fuel is the number of
    columns to go; [++x] is exact for columns below 2^53. *)
Fixpoint nextStop_loop (fuel : nat) (ts : list Z) (ncols px : Z) : Z :=
  let px := px + 1 in
  if negb (hasTab ts px) && (px <? ncols)
  then match fuel with S f => nextStop_loop f ts ncols px | O => px end
  else px.

Definition nextStop (px : Z) (t : Terminal) : Z :=
  let r := nextStop_loop (Z.to_nat (cols t - px)) (tabs t) (cols t) px in
  if cols t <=? r then cols t - 1 else if r <? 0 then 0 else r.

(** [for (; i < this.cols; i += 8) this.tabs[i] = true;] *)
Fixpoint setupStops_loop (fuel : nat) (ncols i : Z) (ts : list Z) : list Z :=
  match fuel with
  | O => ts
  | S f => if i <? ncols then setupStops_loop f ncols (i + 8) (addTab ts i) else ts
  end.

Definition setupStops (i : option Z) (t : Terminal) : Terminal :=
  let '(t, i) :=
    match i with
    | Some i => (t, if hasTab (tabs t) i then i else prevStop i t)
    | None => (set_tabs [] t, 0)
    end in
  set_tabs (setupStops_loop (Z.to_nat (cols t - i)) (cols t) i (tabs t)) t.

Definition setgLevel (g : Z) (t : Terminal) : Terminal :=
  let t := set_glevel g t in
  set_charset (match Js.get (charsets t) g with Some c => c | None => None end) t.

(** [g] is [null] when no designator preceded: the assignment then names
    a property of the array, not an element. *)
Definition setgCharset (g : option Z) (cs : option CharSet) (t : Terminal) : Terminal :=
  match g with
  | None => t
  | Some g =>
      let t := set_charsets (Js.put (charsets t) g cs) t in
      if glevel t =? g then set_charset cs t else t
  end.

(** ** Scrolling, reset *)

Definition scroll (t : Terminal) : Terminal :=
  let t :=
    if negb (physicalScroll t) then
      let t := set_ybase (ybase t + 1) t in
      if scrollback t <? ybase t then
        let t := set_ybase (ybase t - 1) t in
        set_lines (Js.slice (lines t) (- (ybase t + rows t) + 1)) t
      else t
    else
      let oldline := Js.get (lines t) 0 in
      let t := set_lines (Js.slice (lines t) (- (ybase t + rows t) + 1)) t in
      set__scrollbackBuffer (_scrollbackBuffer t ++ [oldline]) t in
  let t := set_ydisp (ybase t) t in
  let lastline := ybase t + rows t - 1 in
  let row := lastline - (rows t - 1 - scrollBottom t) in
  let t := set_lines (Js.splice (lines t) row 0 [blankLine false t]) t in
  let t :=
    if negb (scrollTop t =? 0) then
      let t := if negb (ybase t =? 0)
               then set_ydisp (ybase t - 1) (set_ybase (ybase t - 1) t) else t in
      set_lines (Js.splice (lines t) (ybase t + scrollTop t) 1 []) t
    else t in
  updateRange (scrollBottom t) (updateRange (scrollTop t) t).

(** [(0 << 18) | (257 << 9) | (256 << 0)] *)
Definition DEFAULT_ATTR : Z :=
  Js.bor (Js.bor (Js.shl 0 18) (Js.shl 257 9)) (Js.shl 256 0).

Definition _resetVariables (t : Terminal) : Terminal :=
  let t := set_oldy 0 (set_y 0 (set_x 0 (set_ydisp 0 (set_ybase 0 t)))) in
  let t := set__hasFocus false (set_cursorHidden false (set_cursorState false t)) in
  let t := set_queue [] t in
  let t := set_scrollBottom (rows t - 1) (set_scrollTop 0 t) in
  let t := set_originMode false
             (set_applicationCursor false (set_applicationKeypad false t)) in
  let t := set_normal None (set_wraparoundMode false (set_insertMode false t)) in
  let t := set_charsets [None]
             (set_glevel 0 (set_gcharset None (set_charset None t))) in
  let t := set_defAttr DEFAULT_ATTR t in
  let t := set_curAttr (defAttr t) t in
  let t := set_postfix [] (set_prefix [] (set_currentParam (PNum 0) (set_params [] t))) in
  let t := set_lines [] t in
  let t := if negb (physicalScroll t)
           then set_lines (repeat (blankLine false t) (Z.to_nat (rows t))) t
           else t in
  setupStops None t.

Definition reset (t : Terminal) : Terminal :=
  let t := _resetVariables t in
  refresh 0 (rows t - 1) t.

Definition index (t : Terminal) : Terminal :=
  let t := set_y (y t + 1) t in
  let t := if scrollBottom t <? y t then scroll (set_y (y t - 1) t) else t in
  set_state STATE_NORMAL t.

Definition reverseIndex (t : Terminal) : Terminal :=
  let t := set_y (y t - 1) t in
  let t :=
    if y t <? scrollTop t then
      let t := set_y (y t + 1) t in
      let t := set_lines (Js.splice (lines t) (y t + ybase t) 0 [blankLine true t]) t in
      let j := rows t - 1 - scrollBottom t in
      let t := set_lines (Js.splice (lines t) (rows t - 1 + ybase t - j + 1) 1 []) t in
      updateRange (scrollBottom t) (updateRange (scrollTop t) t)
    else t in
  set_state STATE_NORMAL t.

Definition tabSet (t : Terminal) : Terminal :=
  set_state STATE_NORMAL (set_tabs (addTab (tabs t) (x t)) t).

Definition saveCursor (t : Terminal) : Terminal :=
  set_savedY (y t) (set_savedX (x t) t).

Definition restoreCursor (t : Terminal) : Terminal :=
  set_y (savedY t) (set_x (savedX t) t).

(** ** Filling and erasing *)

(** [for (; x < this.cols; x++) line[x] = cell;] *)
Fixpoint fill_from (n : nat) (px : Z) (cell : LineCell) (line : Row) : Row :=
  match n with
  | O => line
  | S n' => fill_from n' (px + 1) cell (Js.set line px cell)
  end.

Definition fillRight (px py : Z) (ch : Z) (t : Terminal) : Res Terminal :=
  let t := _getRow (ybase t + py) t in
  let cell := (eraseAttr t, ch) in
  t <- (if px <? cols t
        then onRow (ybase t + py) (fill_from (Z.to_nat (cols t - px)) px cell) t
        else Ok t) ;;
  Ok (updateRange py t).

Definition eraseRight (px py : Z) (t : Terminal) : Res Terminal := fillRight px py SP t.

Definition fillScreen (fillChar : Z) (t : Terminal) : Res Terminal :=
  countdown (rows t) (fun j t => fillRight 0 j fillChar t) t.

(** [while (x !== 0) { x--; line[x] = ch; }], [n] the entry value of [x] *)
Fixpoint fill_down (n : nat) (cell : LineCell) (line : Row) : Row :=
  match n with
  | O => line
  | S n' => fill_down n' cell (Js.set line (Z.of_nat n') cell)
  end.

Definition eraseLeft (px py : Z) (t : Terminal) : Res Terminal :=
  let t := _getRow (ybase t + py) t in
  let cell := (eraseAttr t, SP) in
  let px := px + 1 in
  t <- (if px <? 0 then Err Unmodelled
        else if px =? 0 then Ok t
        else onRow (ybase t + py) (fill_down (Z.to_nat px) cell) t) ;;
  Ok (updateRange py t).

Definition eraseLine (py : Z) (t : Terminal) : Res Terminal := eraseRight 0 py t.

Definition eraseInDisplay (ps : list Z) (t : Terminal) : Res Terminal :=
  match ps with
  | 0 :: _ =>
      t <- eraseRight (x t) (y t) t ;;
      for_up (y t + 1) (rows t) eraseLine t
  | 1 :: _ =>
      t <- eraseLeft (x t) (y t) t ;;
      countdown (y t) eraseLine t
  | 2 :: _ => countdown (rows t) eraseLine t
  | _ => Ok t
  end.

Definition eraseInLine (ps : list Z) (t : Terminal) : Res Terminal :=
  match ps with
  | 0 :: _ => eraseRight (x t) (y t) t
  | 1 :: _ => eraseLeft (x t) (y t) t
  | 2 :: _ => eraseLine (y t) t
  | _ => Ok t
  end.

(** ** CSI operations *)

(** [var param = params[0]; if (param < 1) param = 1;]  A missing
    [params[0]] is [undefined], and the arithmetic on it gives NaN. *)
Definition arg1 (ps : list Z) : Res Z :=
  match ps with
  | p :: _ => Ok (if p <? 1 then 1 else p)
  | [] => Err Unmodelled
  end.

(** [params[0] || 1] *)
Definition argOr1 (ps : list Z) : Z :=
  match ps with
  | p :: _ => if p =? 0 then 1 else p
  | [] => 1
  end.

Definition cursorUp (ps : list Z) (t : Terminal) : Res Terminal :=
  param <- arg1 ps ;;
  let t := set_y (y t - param) t in
  Ok (if y t <? 0 then set_y 0 t else t).

Definition cursorDown (ps : list Z) (t : Terminal) : Res Terminal :=
  param <- arg1 ps ;;
  let t := set_y (y t + param) t in
  Ok (if rows t <=? y t then set_y (rows t - 1) t else t).

Definition cursorForward (ps : list Z) (t : Terminal) : Res Terminal :=
  param <- arg1 ps ;;
  let t := set_x (x t + param) t in
  Ok (if cols t <=? x t then set_x (cols t - 1) t else t).

Definition cursorBackward (ps : list Z) (t : Terminal) : Res Terminal :=
  param <- arg1 ps ;;
  let t := set_x (x t - param) t in
  Ok (if x t <? 0 then set_x 0 t else t).

Definition cursorPos (ps : list Z) (t : Terminal) : Res Terminal :=
  match ps with
  | [] => Err Unmodelled
  | p0 :: ps' =>
      let row := p0 - 1 in
      let col := match ps' with p1 :: _ => p1 - 1 | [] => 0 end in
      let row := if row <? 0 then 0 else if rows t <=? row then rows t - 1 else row in
      let col := if col <? 0 then 0 else if cols t <=? col then cols t - 1 else col in
      Ok (set_y row (set_x col t))
  end.

(** The body of the loop of [charAttributes] at [p = params[i]], with
    [rest] the parameters after it; the second component is how far the
    body itself moves [i]. *)
Definition charAttributes_step (def : Z) (p : Z) (rest : list Z) (st : Z * Z * Z)
  : (Z * Z * Z) * nat :=
  let '(flags, fg, bg) := st in
  if (30 <=? p) && (p <=? 37) then ((flags, p - 30, bg), O)
  else if (40 <=? p) && (p <=? 47) then ((flags, fg, p - 40), O)
  else if (90 <=? p) && (p <=? 97) then ((flags, p + 8 - 90, bg), O)
  else if (100 <=? p) && (p <=? 107) then ((flags, fg, p + 8 - 100), O)
  else if p =? 0 then
    ((Js.shr def 18, Js.band (Js.shr def 9) 0x1ff, Js.band def 0x1ff), O)
  else if p =? 1 then ((Js.bor flags 1, fg, bg), O)
  else if p =? 4 then ((Js.bor flags 2, fg, bg), O)
  else if p =? 5 then ((Js.bor flags 4, fg, bg), O)
  else if p =? 7 then ((Js.bor flags 8, fg, bg), O)
  else if p =? 8 then ((Js.bor flags 16, fg, bg), O)
  else if p =? 22 then ((Js.band flags (Js.bnot 1), fg, bg), O)
  else if p =? 24 then ((Js.band flags (Js.bnot 2), fg, bg), O)
  else if p =? 25 then ((Js.band flags (Js.bnot 4), fg, bg), O)
  else if p =? 27 then ((Js.band flags (Js.bnot 8), fg, bg), O)
  else if p =? 28 then ((Js.band flags (Js.bnot 16), fg, bg), O)
  else if p =? 39 then ((flags, Js.band (Js.shr def 9) 0x1ff, bg), O)
  else if p =? 49 then ((flags, fg, Js.band def 0x1ff), O)
  else if p =? 38 then
    match rest with
    | 2 :: rgb =>
        let c := matchColor (Js.band (nth 0 rgb 0) 0xff) (Js.band (nth 1 rgb 0) 0xff)
                            (Js.band (nth 2 rgb 0) 0xff) in
        ((flags, (if c =? -1 then 0x1ff else c), bg), 4%nat)
    | 5 :: rest' => ((flags, Js.band (nth 0 rest' 0) 0xff, bg), 2%nat)
    | _ => (st, O)
    end
  else if p =? 48 then
    match rest with
    | 2 :: rgb =>
        let c := matchColor (Js.band (nth 0 rgb 0) 0xff) (Js.band (nth 1 rgb 0) 0xff)
                            (Js.band (nth 2 rgb 0) 0xff) in
        ((flags, fg, (if c =? -1 then 0x1ff else c)), 4%nat)
    | 5 :: rest' => ((flags, fg, Js.band (nth 0 rest' 0) 0xff), 2%nat)
    | _ => (st, O)
    end
  else if p =? 100 then
    ((flags, Js.band (Js.shr def 9) 0x1ff, Js.band def 0x1ff), O)
  else (st, O).

(** [for (; i < l; i++)]: [skip] counts the parameters the body has
    already consumed. *)
Fixpoint charAttributes_loop (def : Z) (ps : list Z) (skip : nat) (st : Z * Z * Z)
  : Z * Z * Z :=
  match ps with
  | [] => st
  | p :: rest =>
      match skip with
      | S k => charAttributes_loop def rest k st
      | O =>
          let '(st', k) := charAttributes_step def p rest st in
          charAttributes_loop def rest k st'
      end
  end.

Definition charAttributes (ps : list Z) (t : Terminal) : Terminal :=
  match ps with
  | [0] => set_curAttr (defAttr t) t
  | _ =>
      let flags := Js.shr (curAttr t) 18 in
      let fg := Js.band (Js.shr (curAttr t) 9) 0x1ff in
      let bg := Js.band (curAttr t) 0x1ff in
      let '(flags, fg, bg) := charAttributes_loop (defAttr t) ps O (flags, fg, bg) in
      set_curAttr (Js.bor (Js.bor (Js.shl flags 18) (Js.shl fg 9)) bg) t
  end.

Definition deviceStatus (ps : list Z) (t : Terminal) : Terminal :=
  match prefix t with
  | [] =>
      match ps with
      | 5 :: _ => send (ESC :: Js.str "[0n") t
      | 6 :: _ =>
          send (ESC :: Js.str "[" ++ Js.dec (y t + 1) ++ Js.str ";"
                ++ Js.dec (x t + 1) ++ Js.str "R") t
      | _ => t
      end
  | _ =>
      if Js.eqs (prefix t) (Js.str "?") then
        match ps with
        | 6 :: _ =>
            send (ESC :: Js.str "[?" ++ Js.dec (y t + 1) ++ Js.str ";"
                  ++ Js.dec (x t + 1) ++ Js.str "R") t
        | _ => t
        end
      else t
  end.

(** [is(term)]: the configured name starts with [term] ([is] is a keyword
    here). *)
Definition is_ (term : string) (t : Terminal) : bool :=
  Js.startsWith (termName t) (Js.str term).

Definition sendDeviceAttributes (ps : list Z) (t : Terminal) : Terminal :=
  if match ps with p :: _ => 0 <? p | [] => false end then t
  else
    match prefix t with
    | [] =>
        if is_ "xterm" t || is_ "rxvt-unicode" t || is_ "screen" t
        then send (ESC :: Js.str "[?1;2c") t
        else if is_ "linux" t then send (ESC :: Js.str "[?6c") t
        else t
    | _ =>
        if Js.eqs (prefix t) (Js.str ">") then
          if is_ "xterm" t then send (ESC :: Js.str "[>0;276;0c") t
          else if is_ "rxvt-unicode" t then send (ESC :: Js.str "[>85;95;0c") t
          else if is_ "linux" t then
            send (match ps with p :: _ => Js.dec p | [] => Js.str "undefined" end
                  ++ Js.str "c") t
          else if is_ "screen" t then send (ESC :: Js.str "[>83;40003;0c") t
          else t
        else t
    end.

(** [while (param-- && j < this.cols) { line = this._getRow(row);
    line.splice(j++, 0, ch); line.pop(); }] *)
Fixpoint insertChars_loop (n : nat) (row j : Z) (cell : LineCell) (t : Terminal)
  : Res Terminal :=
  match n with
  | O => Ok t
  | S n' =>
      if j <? cols t then
        t <- onRow row (fun line => Js.pop (Js.splice line j 0 [Some cell]))
                   (_getRow row t) ;;
        insertChars_loop n' row (j + 1) cell t
      else Ok t
  end.

Definition insertChars (ps : list Z) (t : Terminal) : Res Terminal :=
  param <- arg1 ps ;;
  insertChars_loop (Z.to_nat param) (y t + ybase t) (x t) (eraseAttr t, SP) t.

Definition cursorNextLine (ps : list Z) (t : Terminal) : Res Terminal :=
  param <- arg1 ps ;;
  let t := set_y (y t + param) t in
  let t := if rows t <=? y t then set_y (rows t - 1) t else t in
  Ok (set_x 0 t).

Definition cursorPrecedingLine (ps : list Z) (t : Terminal) : Res Terminal :=
  param <- arg1 ps ;;
  let t := set_y (y t - param) t in
  let t := if y t <? 0 then set_y 0 t else t in
  Ok (set_x 0 t).

Definition cursorCharAbsolute (ps : list Z) (t : Terminal) : Res Terminal :=
  param <- arg1 ps ;;
  Ok (set_x (param - 1) t).

Definition insertLines (ps : list Z) (t : Terminal) : Res Terminal :=
  param <- arg1 ps ;;
  let row := y t + ybase t in
  let j := rows t - 1 - scrollBottom t in
  let j := rows t - 1 + ybase t - j + 1 in
  t <- times param (fun t =>
         let t := _getRow row t in
         let t := set_lines (Js.splice (lines t) row 0 [blankLine true t]) t in
         Ok (set_lines (Js.splice (lines t) j 1 []) t)) t ;;
  Ok (updateRange (scrollBottom t) (updateRange (y t) t)).

Definition deleteLines (ps : list Z) (t : Terminal) : Res Terminal :=
  param <- arg1 ps ;;
  let row := y t + ybase t in
  let j := rows t - 1 - scrollBottom t in
  let j := rows t - 1 + ybase t - j in
  t <- times param (fun t =>
         let t := _getRow (j + 1) t in
         let t := set_lines (Js.splice (lines t) (j + 1) 0 [blankLine true t]) t in
         Ok (set_lines (Js.splice (lines t) row 1 []) t)) t ;;
  Ok (updateRange (scrollBottom t) (updateRange (y t) t)).

Definition deleteChars (ps : list Z) (t : Terminal) : Res Terminal :=
  param <- arg1 ps ;;
  let row := y t + ybase t in
  let cell := (eraseAttr t, SP) in
  times param
    (onRow row (fun line => Js.push (Js.splice line (x t) 1 []) (Some cell))) t.

(** [while (param-- && j < this.cols) { line[j] = ch; j++; }] *)
Fixpoint eraseChars_loop (n : nat) (ncols j : Z) (cell : LineCell) (line : Row) : Row :=
  match n with
  | O => line
  | S n' =>
      if j <? ncols then eraseChars_loop n' ncols (j + 1) cell (Js.set line j cell)
      else line
  end.

Definition eraseChars (ps : list Z) (t : Terminal) : Res Terminal :=
  param <- arg1 ps ;;
  let row := y t + ybase t in
  let j := x t in
  let cell := (eraseAttr t, SP) in
  let t := _getRow row t in
  if j <? cols t
  then onRow row (eraseChars_loop (Z.to_nat param) (cols t) j cell) t
  else Ok t.

Definition charPosAbsolute (ps : list Z) (t : Terminal) : Res Terminal :=
  param <- arg1 ps ;;
  let t := set_x (param - 1) t in
  Ok (if cols t <=? x t then set_x (cols t - 1) t else t).

Definition HPositionRelative (ps : list Z) (t : Terminal) : Res Terminal :=
  param <- arg1 ps ;;
  let t := set_x (x t + param) t in
  Ok (if cols t <=? x t then set_x (cols t - 1) t else t).

Definition linePosAbsolute (ps : list Z) (t : Terminal) : Res Terminal :=
  param <- arg1 ps ;;
  let t := set_y (param - 1) t in
  Ok (if rows t <=? y t then set_y (rows t - 1) t else t).

Definition VPositionRelative (ps : list Z) (t : Terminal) : Res Terminal :=
  param <- arg1 ps ;;
  let t := set_y (y t + param) t in
  Ok (if rows t <=? y t then set_y (rows t - 1) t else t).

(** [HVPosition] clamps [params[0]] and [params[1]] in the array itself.
    With fewer than two parameters the code does not throw: it returns with
    [x] NaN (and [y] NaN too with none), a cursor for which the engine here
    has no value; [Err Unmodelled] stands for that engine. *)
Definition HVPosition (ps : list Z) (t : Terminal) : Res Terminal :=
  match ps with
  | p0 :: p1 :: ps' =>
      let p0 := if p0 <? 1 then 1 else p0 in
      let p1 := if p1 <? 1 then 1 else p1 in
      let t := set_params (map PNum (p0 :: p1 :: ps')) t in
      let t := set_y (p0 - 1) t in
      let t := if rows t <=? y t then set_y (rows t - 1) t else t in
      let t := set_x (p1 - 1) t in
      Ok (if cols t <=? x t then set_x (cols t - 1) t else t)
  | _ => Err Unmodelled
  end.

Definition resizeLine (oldcols newcols : Z) (cell : LineCell) (line : Row) : Row :=
  if oldcols <? newcols
  then line ++ repeat (Some cell) (Z.to_nat (newcols - Js.len line))
  else if newcols <? oldcols
  then (if newcols <? Js.len line then firstn (Z.to_nat newcols) line else line)
  else line.

Definition resize (newcols newrows : Z) (t : Terminal) : Res Terminal :=
  let newcols := Z.max newcols 1 in
  let newrows := Z.max newrows 1 in
  let t := set_lines (map (resizeLine (cols t) newcols (defAttr t, SP)) (lines t)) t in
  let t := setupStops (Some (cols t)) t in
  let t := set_cols newcols t in
  t <- (if rows t <? newrows then
          if negb (physicalScroll t) then
            for_up (rows t) newrows (fun _ t =>
              Ok (if Js.len (lines t) <? newrows + ybase t
                  then set_lines (Js.push (lines t) (blankLine false t)) t
                  else t)) t
          else Ok t
        else if newrows <? rows t then
          if newrows + ybase t <? 0 then Err Unmodelled
          else Ok (set_lines (firstn (Z.to_nat (newrows + ybase t)) (lines t)) t)
        else Ok t) ;;
  let t := set_rows newrows t in
  let t := if newrows <=? y t then set_y (newrows - 1) t else t in
  let t := if newcols <=? x t then set_x (newcols - 1) t else t in
  let t := set_scrollBottom (newrows - 1) (set_scrollTop 0 t) in
  let t := refresh 0 (if physicalScroll t then Js.len (lines t) - 1 else rows t - 1) t in
  Ok (set_normal None t).

(** The snapshot that [setMode] takes of the normal screen. *)
Definition snapshot (t : Terminal) : SavedState :=
  mkSavedState (lines t) (cols t) (rows t) (ybase t) (ydisp t) (x t) (y t)
               (scrollTop t) (scrollBottom t) (tabs t).

(** [setMode] of one mode number. *)
Definition setMode1 (p : Z) (t : Terminal) : Res Terminal :=
  match prefix t with
  | [] => Ok (if p =? 4 then set_insertMode true t else t)
  | _ =>
      if negb (Js.eqs (prefix t) (Js.str "?")) then Ok t
      else if p =? 1 then Ok (set_applicationCursor true t)
      else if p =? 2 then
        Ok (setgCharset (Some 3) None (setgCharset (Some 2) None
             (setgCharset (Some 1) None (setgCharset (Some 0) None t))))
      else if p =? 3 then resize 132 (rows t) (set_savedCols (Some (cols t)) t)
      else if p =? 6 then Ok (set_originMode true t)
      else if p =? 7 then Ok (set_wraparoundMode true t)
      else if p =? 66 then Ok (set_applicationKeypad true t)
      else if (p =? 9) || (p =? 1000) || (p =? 1002) || (p =? 1003) then
        Ok (set_mouseEvents true (set_normalMouse (1000 <? p)
             (set_vt200Mouse (p =? 1000) (set_x10Mouse (p =? 9) t))))
      else if p =? 1004 then Ok (set_sendFocus true t)
      else if p =? 1005 then Ok (set_utfMouse true t)
      else if p =? 1006 then Ok (set_sgrMouse true t)
      else if p =? 1015 then Ok (set_urxvtMouse true t)
      else if p =? 25 then Ok (set_cursorHidden false t)
      else if (p =? 1049) || (p =? 47) || (p =? 1047) then
        match normal t with
        | None =>
            let saved := snapshot t in
            let previousCharset := charset t in
            let previousGlevel := glevel t in
            let previousCharsets := charsets t in
            let t := reset t in
            let t := set_charsets previousCharsets
                       (set_glevel previousGlevel (set_charset previousCharset t)) in
            Ok (showCursor (set_normal (Some saved) t))
        | Some _ => Ok t
        end
      else Ok t
  end.

Fixpoint setMode (ps : list Z) (t : Terminal) : Res Terminal :=
  match ps with
  | [] => Ok t
  | p :: ps' => t <- setMode1 p t ;; setMode ps' t
  end.

(** [resetMode] of one mode number. *)
Definition resetMode1 (p : Z) (t : Terminal) : Res Terminal :=
  match prefix t with
  | [] => Ok (if p =? 4 then set_insertMode false t else t)
  | _ =>
      if negb (Js.eqs (prefix t) (Js.str "?")) then Ok t
      else if p =? 1 then Ok (set_applicationCursor false t)
      else if p =? 3 then
        t <- fillScreen SP t ;;
        let t := set_y 0 (set_x 0 t) in
        match savedCols t with
        | Some c => if (cols t =? 132) && negb (c =? 0) then resize c (rows t) t else Ok t
        | None => Ok t
        end
      else if p =? 6 then Ok (set_originMode false t)
      else if p =? 7 then Ok (set_wraparoundMode false t)
      else if p =? 66 then Ok (set_applicationKeypad false t)
      else if (p =? 9) || (p =? 1000) || (p =? 1002) || (p =? 1003) then
        Ok (set_mouseEvents false (set_normalMouse false
             (set_vt200Mouse false (set_x10Mouse false t))))
      else if p =? 1004 then Ok (set_sendFocus false t)
      else if p =? 1005 then Ok (set_utfMouse false t)
      else if p =? 1006 then Ok (set_sgrMouse false t)
      else if p =? 1015 then Ok (set_urxvtMouse false t)
      else if p =? 25 then Ok (set_cursorHidden true t)
      else if (p =? 1049) || (p =? 47) || (p =? 1047) then
        match normal t with
        | Some n =>
            let currentcols := cols t in
            let currentrows := rows t in
            let t := set_rows (s_rows n) (set_cols (s_cols n) (set_lines (s_lines n) t)) in
            let t := set_ydisp (s_ydisp n) (set_ybase (s_ybase n) t) in
            let t := set_y (s_y n) (set_x (s_x n) t) in
            let t := set_scrollBottom (s_scrollBottom n) (set_scrollTop (s_scrollTop n) t) in
            let t := set_tabs (s_tabs n) t in
            let t := set_normal None t in
            t <- resize currentcols currentrows t ;;
            Ok (showCursor (refresh 0 (rows t - 1) t))
        | None => Ok t
        end
      else Ok t
  end.

Fixpoint resetMode (ps : list Z) (t : Terminal) : Res Terminal :=
  match ps with
  | [] => Ok t
  | p :: ps' => t <- resetMode1 p t ;; resetMode ps' t
  end.

Definition setScrollRegion (ps : list Z) (t : Terminal) : Terminal :=
  match prefix t with
  | _ :: _ => t
  | [] =>
      let top := match ps with p :: _ => if p =? 0 then 1 else p | [] => 1 end in
      let bottom := match ps with
                    | _ :: p :: _ => if p =? 0 then rows t else p
                    | _ => rows t
                    end in
      set_y 0 (set_x 0 (set_scrollBottom (bottom - 1) (set_scrollTop (top - 1) t)))
  end.

Definition cursorForwardTab (ps : list Z) (t : Terminal) : Res Terminal :=
  times (argOr1 ps) (fun t => Ok (set_x (nextStop (x t) t) t)) t.

Definition scrollUp (ps : list Z) (t : Terminal) : Res Terminal :=
  t <- times (argOr1 ps) (fun t =>
         let t := set_lines (Js.splice (lines t) (ybase t + scrollTop t) 1 []) t in
         Ok (set_lines (Js.splice (lines t) (ybase t + scrollBottom t) 0
                                  [blankLine false t]) t)) t ;;
  Ok (updateRange (scrollBottom t) (updateRange (scrollTop t) t)).

Definition scrollDown (ps : list Z) (t : Terminal) : Res Terminal :=
  t <- times (argOr1 ps) (fun t =>
         let t := set_lines (Js.splice (lines t) (ybase t + scrollBottom t) 1 []) t in
         Ok (set_lines (Js.splice (lines t) (ybase t + scrollTop t) 0
                                  [blankLine false t]) t)) t ;;
  Ok (updateRange (scrollBottom t) (updateRange (scrollTop t) t)).

Definition cursorBackwardTab (ps : list Z) (t : Terminal) : Res Terminal :=
  times (argOr1 ps) (fun t => Ok (set_x (prevStop (x t) t) t)) t.

(** [while (param--) { line[this.x] = ch; this.x++; }] on the row object
    [line] taken before the loop. *)
Definition repeatPrecedingCharacter (ps : list Z) (t : Terminal) : Res Terminal :=
  let param := argOr1 ps in
  let row := ybase t + y t in
  let t := _getRow row t in
  match Js.get (lines t) row with
  | None => Err TypeError
  | Some line =>
      let ch := match Js.at_ line (x t - 1) with
                | Some c => c
                | None => (defAttr t, SP)
                end in
      times param (fun t =>
        t <- onRow row (fun line => Js.set line (x t) ch) t ;;
        Ok (set_x (x t + 1) t)) t
  end.

Definition tabClear (ps : list Z) (t : Terminal) : Terminal :=
  match ps with
  | p :: _ =>
      if p <=? 0 then set_tabs (delTab (tabs t) (x t)) t
      else if p =? 3 then set_tabs [] t
      else t
  | [] => t
  end.

Definition softReset (t : Terminal) : Terminal :=
  let t := set_originMode false (set_insertMode false (set_cursorHidden false t)) in
  let t := set_applicationCursor false
             (set_applicationKeypad false (set_wraparoundMode false t)) in
  let t := set_scrollBottom (rows t - 1) (set_scrollTop 0 t) in
  let t := set_curAttr (defAttr t) t in
  let t := set_y 0 (set_x 0 t) in
  set_charsets [None] (set_glevel 0 (set_charset None t)).

(** ** The parser *)

(** What a handler does to the index [i] of the loop in
    [_processWriteData]: [i--] ([Back]), or [i] moved [skip] places on. *)
Inductive Next : Type :=
| Back
| Fwd (skip : nat).

Fixpoint nums (ps : list Param) : Res (list Z) :=
  match ps with
  | [] => Ok []
  | PNum n :: ps' => ns <- nums ps' ;; Ok (n :: ns)
  | PStr _ :: _ => Err Unmodelled
  end.

(** [currentParam += ch] *)
Definition toStr (p : Param) : list Z :=
  match p with
  | PNum n => Js.dec n
  | PStr s => s
  end.

Definition append (p : Param) (ch : Z) : Param := PStr (toStr p ++ [ch]).

(** [!p] *)
Definition falsy (p : Param) : bool :=
  match p with
  | PNum n => n =? 0
  | PStr [] => true
  | PStr (_ :: _) => false
  end.

Definition isDigit (ch : Z) : bool := (48 <=? ch) && (ch <=? 57).

(** The [switch (ch)] of [_processDataCSI], after the parameter has been
    pushed and the state set back to normal. *)
Definition dispatchCSI (ch : Z) (t : Terminal) : Res Terminal :=
  let with_params (f : list Z -> Terminal -> Res Terminal) : Res Terminal :=
    ps <- nums (params t) ;; f ps t in
  let pure (f : list Z -> Terminal -> Terminal) : Res Terminal :=
    ps <- nums (params t) ;; Ok (f ps t) in
  match ch with
  | 65 => with_params cursorUp
  | 66 => with_params cursorDown
  | 67 => with_params cursorForward
  | 68 => with_params cursorBackward
  | 72 => with_params cursorPos
  | 74 => with_params eraseInDisplay
  | 75 => with_params eraseInLine
  | 109 => match prefix t with [] => pure charAttributes | _ => Ok t end
  | 110 => match prefix t with [] => pure deviceStatus | _ => Ok t end
  | 64 => with_params insertChars
  | 69 => with_params cursorNextLine
  | 70 => with_params cursorPrecedingLine
  | 71 => with_params cursorCharAbsolute
  | 76 => with_params insertLines
  | 77 => with_params deleteLines
  | 80 => with_params deleteChars
  | 88 => with_params eraseChars
  | 96 => with_params charPosAbsolute
  | 97 => with_params HPositionRelative
  | 99 => pure sendDeviceAttributes
  | 100 => with_params linePosAbsolute
  | 101 => with_params VPositionRelative
  | 102 => with_params HVPosition
  | 104 => with_params setMode
  | 108 => with_params resetMode
  | 114 => pure setScrollRegion
  | 115 => Ok (saveCursor t)
  | 117 => Ok (restoreCursor t)
  | 73 => with_params cursorForwardTab
  | 83 => with_params scrollUp
  | 84 => match params t, prefix t with
          | ([] | [_]), [] => with_params scrollDown
          | _, _ => Ok t
          end
  | 90 => with_params cursorBackwardTab
  | 98 => with_params repeatPrecedingCharacter
  | 103 => pure tabClear
  | 112 => Ok (if Js.eqs (prefix t) (Js.str "!") then softReset t else t)
  | _ => Ok t
  end.

(** [_processDataCSI(ch)].  A digit extends the parameter,
    [currentParam * 10 + ch.charCodeAt(0) - 48]; the sum is exact on a double
    while the parameter stays below 2^53, that is for up to fifteen digits,
    and is the integer here for any number of digits. *)
Definition _processDataCSI (ch : Z) (t : Terminal) : Res Terminal :=
  if (ch =? 63) || (ch =? 62) || (ch =? 33) then Ok (set_prefix [ch] t)
  else if isDigit ch then
    match currentParam t with
    | PNum n => Ok (set_currentParam (PNum (n * 10 + ch - 48)) t)
    | PStr _ => Err Unmodelled
    end
  else if (ch =? 36) || (ch =? 34) || (ch =? 32) || (ch =? 39)
  then Ok (set_postfix [ch] t)
  else
    let t := set_params (params t ++ [currentParam t]) t in
    let t := set_currentParam (PNum 0) t in
    if ch =? 59 then Ok t
    else
      t <- dispatchCSI ch (set_state STATE_NORMAL t) ;;
      Ok (set_postfix [] (set_prefix [] t)).

Definition _processDataEscape (ch : Z) (t : Terminal) : Terminal * Next :=
  let enter (st : ParserState) (cp : Param) : Terminal * Next :=
    (set_state st (set_currentParam cp (set_params [] t)), Fwd 0) in
  let designate (g : Z) : Terminal * Next :=
    (set_state STATE_CHARSET (set_gcharset (Some g) t), Fwd 0) in
  match ch with
  | 91 => enter STATE_CSI (PNum 0)
  | 93 => enter STATE_OSC (PNum 0)
  | 38 => enter STATE_APPLICATION_START (PStr [])
  | 80 => enter STATE_DCS (PNum 0)
  | 95 | 94 => (set_state STATE_IGNORE t, Fwd 0)
  | 99 => (reset t, Fwd 0)
  | 69 => (index (set_x 0 t), Fwd 0)
  | 68 => (index t, Fwd 0)
  | 77 => (reverseIndex t, Fwd 0)
  | 37 => (set_state STATE_NORMAL (setgCharset (Some 0) None (setgLevel 0 t)), Fwd 1)
  | 40 => designate 0
  | 41 => designate 1
  | 42 => designate 2
  | 43 => designate 3
  | 45 => designate 1
  | 46 => designate 2
  | 47 => (set_state STATE_CHARSET (set_gcharset (Some 3) t), Back)
  | 78 | 79 => (t, Fwd 0)
  | 110 => (setgLevel 2 t, Fwd 0)
  | 111 => (setgLevel 3 t, Fwd 0)
  | 124 => (setgLevel 3 t, Fwd 0)
  | 125 => (setgLevel 2 t, Fwd 0)
  | 126 => (setgLevel 1 t, Fwd 0)
  | 55 => (set_state STATE_NORMAL (saveCursor t), Fwd 0)
  | 56 => (set_state STATE_NORMAL (restoreCursor t), Fwd 0)
  | 35 => (set_state STATE_DEC_HASH t, Fwd 0)
  | 72 => (tabSet t, Fwd 0)
  | 61 => (set_state STATE_NORMAL (set_applicationKeypad true t), Fwd 0)
  | 62 => (set_state STATE_NORMAL (set_applicationKeypad false t), Fwd 0)
  | _ => (set_state STATE_NORMAL t, Fwd 0)
  end.

Definition _processDataCharset (ch : Z) (t : Terminal) : Terminal * Next :=
  let cs := if ch =? 48 then Some SCLD else None in
  let t := setgCharset (gcharset t) cs t in
  (set_state STATE_NORMAL (set_gcharset None t), Fwd (if ch =? 47 then 1 else 0)).

Definition _processDataOSC (ch : Z) (t : Terminal) : Res (Terminal * Next) :=
  if (ch =? ESC) || (ch =? BEL) then
    let t := set_params (params t ++ [currentParam t]) t in
    let t :=
      match params t with
      | PNum n :: ps' =>
          if (n =? 0) || (n =? 1) || (n =? 2) then
            match ps' with
            | p1 :: _ => if falsy p1 then t else emit (Title p1) (set_title p1 t)
            | [] => t
            end
          else t
      | _ => t
      end in
    Ok (set_state STATE_NORMAL (set_currentParam (PNum 0) (set_params [] t)),
        Fwd (if ch =? ESC then 1 else 0))
  else
    match params t with
    | [] =>
        if isDigit ch then
          match currentParam t with
          | PNum n => Ok (set_currentParam (PNum (n * 10 + ch - 48)) t, Fwd 0)
          | PStr _ => Err Unmodelled
          end
        else if ch =? 59 then
          Ok (set_currentParam (PStr []) (set_params [currentParam t] t), Fwd 0)
        else Ok (t, Fwd 0)
    | _ :: _ => Ok (set_currentParam (append (currentParam t) ch) t, Fwd 0)
    end.

(** The reply of DECRQSS to the request [pt]. *)
Definition replyPt (pt : Param) (t : Terminal) : list Z :=
  match pt with
  | PStr s =>
      if Js.eqs s [34; 113] then Js.str "0" ++ [34; 113]
      else if Js.eqs s [34; 112] then Js.str "61" ++ [34; 112]
      else if Js.eqs s (Js.str "r") then
        Js.dec (scrollTop t + 1) ++ Js.str ";" ++ Js.dec (scrollBottom t + 1)
        ++ Js.str "r"
      else if Js.eqs s (Js.str "m") then Js.str "0m"
      else []
  | PNum _ => []
  end.

Definition _processDataDCS (ch : Z) (t : Terminal) : Terminal * Next :=
  if (ch =? ESC) || (ch =? BEL) then
    let t :=
      if Js.eqs (prefix t) (Js.str "$q") then
        send (ESC :: Js.str "P0$r" ++ replyPt (currentParam t) t ++ [ESC; 92]) t
      else if Js.eqs (prefix t) (Js.str "+q") then
        send (ESC :: Js.str "P0+r" ++ toStr (currentParam t) ++ [ESC; 92]) t
      else t in
    (set_state STATE_NORMAL (set_prefix [] (set_currentParam (PNum 0) t)),
     Fwd (if ch =? ESC then 1 else 0))
  else if falsy (currentParam t) then
    match prefix t with
    | [] => if negb (ch =? 36) && negb (ch =? 43)
            then (set_currentParam (PStr [ch]) t, Fwd 0)
            else (set_prefix [ch] t, Fwd 0)
    | [_; _] => (set_currentParam (PStr [ch]) t, Fwd 0)
    | pre => (set_prefix (pre ++ [ch]) t, Fwd 0)
    end
  else (set_currentParam (append (currentParam t) ch) t, Fwd 0).

Definition _processDataIgnore (ch : Z) (t : Terminal) : Terminal * Next :=
  if (ch =? ESC) || (ch =? BEL)
  then (set_state STATE_NORMAL t, Fwd (if ch =? ESC then 1 else 0))
  else (t, Fwd 0).

Definition isCookie (p : option Param) (cookie : option (list Z)) : bool :=
  match p, cookie with
  | Some (PStr s), Some c => Js.eqs s c
  | _, _ => false
  end.

Definition _processDataApplicationStart (ch : Z) (t : Terminal) : Terminal :=
  if ((97 <=? ch) && (ch <=? 122)) || ((65 <=? ch) && (ch <=? 90)) || isDigit ch
     || (ch =? 45) || (ch =? 47)
  then set_currentParam (append (currentParam t) ch) t
  else if ch =? 59 then
    set_currentParam (PStr []) (set_params (params t ++ [currentParam t]) t)
  else if ch =? BEL then
    let t := set_params (params t ++ [currentParam t]) t in
    if isCookie (hd_error (params t)) (applicationModeCookie t)
    then emit (ApplicationModeStart (params t)) (set_state STATE_APPLICATION_END t)
    else set_state STATE_NORMAL t
  else set_state STATE_NORMAL t.

(** [data.indexOf('\x00', i)] looks ahead in the chunk: [rest] is
    [data.slice(i + 1)]. *)
Definition _processDataApplicationEnd (ch : Z) (rest : list Z) (t : Terminal)
  : Terminal * Next :=
  match Js.indexOf (ch :: rest) NUL with
  | None => (emit (ApplicationModeData (ch :: rest)) t, Fwd (length rest))
  | Some O => (set_state STATE_NORMAL (emit ApplicationModeEnd t), Fwd 0)
  | Some (S k) => (emit (ApplicationModeData (ch :: firstn k rest)) t, Fwd k)
  end.

Definition _processDataDecHash (ch : Z) (t : Terminal) : Res Terminal :=
  t <- (if ch =? 56 then fillScreen 69 t else Ok t) ;;
  Ok (set_state STATE_NORMAL t).

(** The printable branch of the normal state, block by block: the
    deferred wrap at the margin, the room made in insert mode, and the
    write at the cursor. *)
Definition wrapAtMargin (t : Terminal) : Terminal :=
  if cols t <=? x t then
    let t := updateRange (y t) (set_x 0 t) in
    let t := set_y (y t + 1) t in
    if scrollBottom t <? y t then scroll (set_y (y t - 1) t) else t
  else t.

Definition makeRoom (ch : Z) (t : Terminal) : Res Terminal :=
  let row := y t + ybase t in
  let blank := Some (curAttr t, SP) in
  if insertMode t then
    onRow row (fun line =>
      let line := Js.splice line (x t) 0 [blank] in
      let line := if isWide ch then Js.splice line (x t) 0 [blank] else line in
      Js.splice line (cols t) (Js.len line - cols t) []) t
  else Ok t.

Definition writeGlyph (ch : Z) (t : Terminal) : Res Terminal :=
  let row := y t + ybase t in
  t <- onRow row (fun line => Js.set line (x t) (curAttr t, ch)) t ;;
  let t := updateRange (y t) (set_x (x t + 1) t) in
  if isWide ch then
    (* [_getRow(j)] again, where [j] is the row just written *)
    if (cols t <? 2) || (cols t <=? x t)
    then onRow row (fun line => Js.set line (x t - 1) (curAttr t, SP)) t
    else
      t <- onRow row (fun line => Js.set line (x t) (curAttr t, SP)) t ;;
      Ok (set_x (x t + 1) t)
  else Ok t.

Definition putGlyph (ch : Z) (t : Terminal) : Res Terminal :=
  let t := _getRow (y t + ybase t) t in
  t <- makeRoom ch t ;;
  writeGlyph ch t.

Definition printable (ch : Z) (t : Terminal) : Res Terminal :=
  let ch := translate (charset t) ch in
  putGlyph ch (wrapAtMargin t).

(** The normal state. *)
Definition normalState (ch : Z) (t : Terminal) : Res Terminal :=
  match ch with
  | 7 => Ok (bell t)
  | 10 | 11 | 12 =>
      let t := if convertEol t then set_x 0 t else t in
      let t := set_y (y t + 1) t in
      Ok (if scrollBottom t <? y t then scroll (set_y (y t - 1) t) else t)
  | 13 => Ok (set_x 0 t)
  | 8 => Ok (if 0 <? x t then set_x (x t - 1) t else t)
  | 9 => Ok (set_x (nextStop (x t) t) t)
  | 14 => Ok (setgLevel 1 t)
  | 15 => Ok (setgLevel 0 t)
  | 27 => Ok (set_state STATE_ESCAPE t)
  | _ => if SP <=? ch then printable ch t else Ok t
  end.

(** The [switch (this.state)] of the loop: one byte [ch = data[i]], with
    [rest] the bytes of the chunk after it. *)
Definition dispatch (ch : Z) (rest : list Z) (t : Terminal) : Res (Terminal * Next) :=
  match state t with
  | STATE_NORMAL => t <- normalState ch t ;; Ok (t, Fwd 0)
  | STATE_ESCAPE => Ok (_processDataEscape ch t)
  | STATE_CHARSET => Ok (_processDataCharset ch t)
  | STATE_OSC => _processDataOSC ch t
  | STATE_CSI => t <- _processDataCSI ch t ;; Ok (t, Fwd 0)
  | STATE_DCS => Ok (_processDataDCS ch t)
  | STATE_IGNORE => Ok (_processDataIgnore ch t)
  | STATE_APPLICATION_START => Ok (_processDataApplicationStart ch t, Fwd 0)
  | STATE_APPLICATION_END => Ok (_processDataApplicationEnd ch rest t)
  | STATE_DEC_HASH => t <- _processDataDecHash ch t ;; Ok (t, Fwd 0)
  end.

(** The end of the loop body:
    [if (this.y !== this.oldy) { ... this.oldy = this.y; }] *)
Definition afterByte (t : Terminal) : Terminal :=
  if negb (y t =? oldy t)
  then set_oldy (y t) (updateRange (y t) (updateRange (oldy t) t))
  else t.

Definition oneByte (ch : Z) (rest : list Z) (t : Terminal) : Res (Terminal * Next) :=
  '(t, nx) <- dispatch ch rest t ;; Ok (afterByte t, nx).

(** [for (let i = 0; i < len; i++)].  The list is [data.slice(i)] and
    [skip] counts the bytes that a handler has moved [i] over; the result
    carries what is left of [skip] when the chunk ends, that is [i - len].
    After [i--] the same byte is dispatched once more; only ESC [/] does
    that, and the second dispatch, in the charset state, moves on. *)
Fixpoint processLoop (data : list Z) (skip : nat) (t : Terminal)
  : Res (Terminal * nat) :=
  match data with
  | [] => Ok (t, skip)
  | ch :: rest =>
      match skip with
      | S k => processLoop rest k t
      | O =>
          '(t, nx) <- oneByte ch rest t ;;
          match nx with
          | Fwd k => processLoop rest k t
          | Back =>
              '(t, nx) <- oneByte ch rest t ;;
              match nx with
              | Fwd k => processLoop rest k t
              | Back => Err Unmodelled
              end
          end
      end
  end.

Definition beforeLoop (t : Terminal) : Terminal :=
  let t := if negb (ybase t =? ydisp t) then maxRange (set_ydisp (ybase t) t) else t in
  set_oldy (y t) t.

Definition _processWriteData (data : list Z) (t : Terminal) : Res Terminal :=
  '(t, _) <- processLoop data O (beforeLoop t) ;;
  Ok (updateRange (y t) t).

Definition MAX_PROCESS_WRITE_SIZE : Z := 4096.

(** The head of [_processOneWriteChunk]: the chunk it takes off the
    buffers, and the buffers it leaves. *)
Definition takeChunk (bufs : list (list Z)) : option (list Z * list (list Z)) :=
  match bufs with
  | [] => None
  | chunk :: bufs' =>
      if Js.len chunk <=? MAX_PROCESS_WRITE_SIZE
      then Some (chunk, Js.splice bufs 0 1 [])
      else Some (Js.sliceTo chunk MAX_PROCESS_WRITE_SIZE,
                 Js.slice chunk MAX_PROCESS_WRITE_SIZE :: bufs')
  end.

Definition _processOneWriteChunk (t : Terminal) : Res (Terminal * bool) :=
  match takeChunk (_writeBuffers t) with
  | None => Ok (t, false)
  | Some (chunk, bufs) =>
      t <- _processWriteData chunk (set__writeBuffers bufs t) ;;
      Ok (t, negb (Js.len (_writeBuffers t) =? 0))
  end.

(** [while (this._processOneWriteChunk()) {}]; every call takes at least
    one byte or one buffer away, which bounds the fuel. *)
Fixpoint _flushWriteBuffer_ (fuel : nat) (t : Terminal) : Res Terminal :=
  match fuel with
  | O => Ok t
  | S f =>
      '(t, more) <- _processOneWriteChunk t ;;
      if more then _flushWriteBuffer_ f t else Ok t
  end.

Definition _flushWriteBuffer (t : Terminal) : Res Terminal :=
  _flushWriteBuffer_
    (S (length (_writeBuffers t) + length (concat (_writeBuffers t)))) t.

(** [write(data)]; the timer it schedules runs [_processOneWriteChunk]. *)
Definition write (data : list Z) (t : Terminal) : Terminal :=
  set__writeBuffers (Js.push (_writeBuffers t) data) t.

Definition REFRESH_START_NULL : Z := 100000000.
Definition REFRESH_END_NULL : Z := -100000000.

(** The constructor: the field initialisers of the class, then
    [_resetVariables]. *)
Definition construct (o : Options) : Terminal :=
  _resetVariables
    (mkTerminal o
       (mkSavedState [] 80 24 0 0 0 0 0 23 [])
       (mkParser STATE_NORMAL [] (PNum 0) [] [])
       (mkCharsets None None 0 [None])
       (mkModes false false false false false false false false)
       (mkMouse false false false false false false false false)
       None
       (mkAttrs DEFAULT_ATTR 0)
       (mkSaved 0 0 None)
       (mkRefresh REFRESH_START_NULL REFRESH_END_NULL 0)
       (mkIo [] (PStr []) [] [] [])).

(** The defaults of the options. *)
Definition defaults : Options :=
  mkOptions false (Js.str "xterm") false false 1000 false None.

(** ** Running the engine *)

(** [write(data)] followed by the work of the write timer, to the end. *)
Definition feed (data : list Z) (t : Terminal) : Res Terminal :=
  _flushWriteBuffer (write data t).

(** ESC [ followed by the text [s]. *)
Definition CSI (s : string) : list Z := ESC :: 91 :: Js.str s.

(** A freshly constructed 80x24 engine with the default options, and one
    whose configured terminal name is [name]. *)
Definition fresh : Terminal := construct defaults.

Definition named (name : string) : Terminal :=
  construct (mkOptions false (Js.str name) false false 1000 false None).

(** The two invariants of the screen buffer that the specification
    states, as checks. *)
Definition rows_have_cols (t : Terminal) : bool :=
  forallb (fun r : Row => Js.len r =? cols t) (lines t).

Definition cursor_in_bounds (t : Terminal) : bool :=
  (0 <=? x t) && (x t <=? cols t) && (0 <=? y t) && (y t <? rows t).

(** No row has a hole: every element of every row is a cell. *)
Definition isCell (c : option LineCell) : bool :=
  match c with
  | Some _ => true
  | None => false
  end.

Definition rows_have_cells (t : Terminal) : bool :=
  forallb (forallb isCell) (lines t).

Definition noHoles (ls : list Row) : Prop :=
  Forall (fun r : Row => forallb isCell r = true) ls.

(** ** Notions used in the statements *)



(** The parser right after ESC [, and right after the final byte has
    pushed the last parameter. *)
Definition csiStart (t : Terminal) : Terminal :=
  set_state STATE_CSI (set_currentParam (PNum 0) (set_params [] t)).

Definition csiPushed (t : Terminal) : Terminal :=
  set_state STATE_NORMAL
    (set_currentParam (PNum 0) (set_params (params t ++ [currentParam t]) t)).

(** A byte that ends a CSI sequence: not a prefix, a digit, a postfix or
    the separator. *)
Definition csiFinal (ch : Z) : bool :=
  negb ((ch =? 63) || (ch =? 62) || (ch =? 33) || isDigit ch
        || (ch =? 36) || (ch =? 34) || (ch =? 32) || (ch =? 39) || (ch =? 59)).

(** Processing the chunk [data] returns and adds exactly [reply] to the
    bytes queued for the ['data'] event. *)
Definition answers (data reply : list Z) (t : Terminal) : Prop :=
  exists t', _processWriteData data t = Ok t' /\ queue t' = queue t ++ reply.

(** ** Box drawing characters: [isBoxCharacter], [drawBoxCharacter]

    The glyphs are drawn on a canvas; the model records the calls of
    [ctx.fillRect] in order.  Sizes and positions are integers. *)

Definition FIRST_BOX_CODE_POINT : Z := 0x2500.

Definition GRID_WIDTH : Z := 5.
Definition GRID_HEIGHT : Z := 5.

(** The glyphs of U+2500 to U+2540, five rows of five cells each. *)
Definition boxGlyphs : list string :=
  [
    (* 2500 light horizontal *)
    "..........#####.........."%string;
    (* 2501 heavy horizontal *)
    ".....###############....."%string;
    (* 2502 light vertical *)
    "..#....#....#....#....#.."%string;
    (* 2503 heavy vertical *)
    ".###..###..###..###..###."%string;
    (* 2504 light triple dash horizontal *)
    "..........#.#.#.........."%string;
    (* 2505 heavy triple dash horizontal *)
    ".....#.#.##.#.##.#.#....."%string;
    (* 2506 light triple dash vertical *)
    "..#.........#.........#.."%string;
    (* 2507 heavy triple dash vertical *)
    ".###.......###.......###."%string;
    (* 2508 light quadruple dash horizontal *)
    "..........##.##.........."%string;
    (* 2509 heavy quadruple dash horizontal *)
    ".....##.####.####.##....."%string;
    (* 250A light quadruple dash vertical *)
    "..#....#.........#....#.."%string;
    (* 250B heavy quadruple dash vertical *)
    ".###..###.......###..###."%string;
    (* 250C light down and right *)
    "............###..#....#.."%string;
    (* 250D down light and right heavy *)
    ".......###..###..###..#.."%string;
    (* 250E down heavy and right light *)
    "...........####.###..###."%string;
    (* 250F heavy down and right *)
    "......####.####.####.###."%string;
    (* 2510 light down and left *)
    "..........###....#....#.."%string;
    (* 2511 down light and left heavy *)
    ".....###..###..###....#.."%string;
    (* 2512 down heavy and left light *)
    "..........####..###..###."%string;
    (* 2513 heavy down and left *)
    ".....####.####.####..###."%string;
    (* 2514 light up and right *)
    "..#....#....###.........."%string;
    (* 2515 up light and right heavy *)
    "..#....###..###..###....."%string;
    (* 2516 up heavy and right light *)
    ".###..###..####.........."%string;
    (* 2517 heavy up and right *)
    ".###..####.####.####....."%string;
    (* 2518 light up and left *)
    "..#....#..###............"%string;
    (* 2519 up light and left heavy *)
    "..#..###..###..###......."%string;
    (* 251A up heavy and left light *)
    ".###..###.####..........."%string;
    (* 251B heavy up and left *)
    ".###.####.####.####......"%string;
    (* 251C light vertical and right *)
    "..#....#....###..#....#.."%string;
    (* 251D vertical light and right heavy *)
    "..#....###..###..###..#.."%string;
    (* 251E up heavy and right down light *)
    ".###..###..####..#....#.."%string;
    (* 251F down heavy and right up light *)
    "..#....#...####.###..###."%string;
    (* 2520 vertical heavy and right light *)
    ".###..###..####.###..###."%string;
    (* 2521 down light and right up heavy *)
    ".......###..###..###..#.."%string;
    (* 2522 up light and right down heavy *)
    "..#....#...####.###..###."%string;
    (* 2523 heavy vertical and right *)
    ".###..####.####.####.###."%string;
    (* 2524 light vertical and left *)
    "..#....#..###....#....#.."%string;
    (* 2525 vertical light and left heavy *)
    "..#..###..###..###....#.."%string;
    (* 2526 up heavy and left down light *)
    ".###.####.####.####...#.."%string;
    (* 2527 down heavy and left up light *)
    "..#..####.####.####..###."%string;
    (* 2528 vertical heavy and left light *)
    ".###..###.####..###..###."%string;
    (* 2529 down light and left up heavy *)
    ".###.####.####.####...#.."%string;
    (* 252A up light and left down heavy *)
    "..#..####.####.####..###."%string;
    (* 252B heavy vertical and left *)
    ".###.####.####.####..###."%string;
    (* 252C light down and horizontal *)
    "..........#####..#....#.."%string;
    (* 252D left heavy and right down light *)
    ".....###..########....#.."%string;
    (* 252E right heavy and left down light *)
    ".......########..###..#.."%string;
    (* 252F down light and horizontal heavy *)
    ".....###############..#.."%string;
    (* 2530 down heavy and horizontal light *)
    "..........#####.###..###."%string;
    (* 2531 right light and left down heavy *)
    ".....####.#########..###."%string;
    (* 2532 left light and right down heavy *)
    "......#########.####.###."%string;
    (* 2533 heavy down and horizontal *)
    ".....###############.###."%string;
    (* 2534 light up and horizontal *)
    "..#....#..#####.........."%string;
    (* 2535 left heavy and right up light *)
    "..#..###..########......."%string;
    (* 2536 right heavy and left up light *)
    "..#....########..###....."%string;
    (* 2537 up light and horizontal heavy *)
    "..#..###############....."%string;
    (* 2538 up heavy and horizontal light *)
    ".###..###.#####.........."%string;
    (* 2539 right light and left up heavy *)
    ".###.####.#########......"%string;
    (* 253A left light and right up heavy *)
    ".###..#########.####....."%string;
    (* 253B heavy up and horizontal *)
    ".###.###############....."%string;
    (* 253C light vertical and horizontal *)
    "..#....#..#####.........."%string;
    (* 253D left heavy and right vertical light *)
    "..#..###..########......."%string;
    (* 253E right heavy and left vertical light *)
    "..#....########..###....."%string;
    (* 253F vertical light and horizontal heavy *)
    "..#..###############....."%string;
    (* 2540 up heavy and down horizontal light *)
    ".###..###.#####..#....#.."%string ].

Definition isBoxCharacter (codePoint : Z) : bool :=
  (FIRST_BOX_CODE_POINT <=? codePoint)
  && (codePoint <? FIRST_BOX_CODE_POINT + Js.len boxGlyphs).

(** One call [ctx.fillRect(x, y, w, h)]. *)
Record Rect : Type := mkRect { rx : Z; ry : Z; rw : Z; rh : Z }.

(** [Math.ceil(n / 2)] *)
Definition ceilHalf (n : Z) : Z := - ((- n) / 2).

(** [glyphString.charAt(pixelOffset) === "#"] *)
Definition isHash (glyphString : string) (pixelOffset : Z) : bool :=
  if pixelOffset <? 0 then false
  else match String.get (Z.to_nat pixelOffset) glyphString with
       | Some c => Ascii.eqb c "#"
       | None => false
       end.

(** [for (i = 0; i < GRID_WIDTH; i++) { lines[i] = accu; accu += thick[i]; }] *)
Fixpoint gridLines (thick : list Z) (accu : Z) : list Z :=
  match thick with
  | [] => []
  | w :: thick' => accu :: gridLines thick' (accu + w)
  end.

(** [for (x = 0; x < GRID_WIDTH; x++)] over one row of the glyph: the
    columns still to visit are [cells], each with its grid line and its
    thickness; the result is the calls made and [pixelOffset] afterwards. *)
Fixpoint drawRow (glyphString : string) (pixelOffset : Z) (cells : list (Z * Z))
         (dx y h : Z) : list Rect * Z :=
  match cells with
  | [] => ([], pixelOffset)
  | (line, thick) :: cells' =>
      let call := if isHash glyphString pixelOffset
                  then [mkRect (dx + line) y thick h] else [] in
      let '(calls, pixelOffset) :=
        drawRow glyphString (pixelOffset + 1) cells' dx y h in
      (call ++ calls, pixelOffset)
  end.

(** [for (y = 1; y < GRID_HEIGHT - 1; y++)] with [n] rows to go: the calls
    made, and [pixelOffset] and [yOffset] afterwards. *)
Fixpoint drawMiddle (n : nat) (glyphString : string) (pixelOffset : Z)
         (cells : list (Z * Z)) (dx dy yOffset vThickness : Z) : list Rect * Z * Z :=
  match n with
  | O => ([], pixelOffset, yOffset)
  | S n' =>
      let '(row, pixelOffset) :=
        drawRow glyphString pixelOffset cells dx (dy + yOffset) vThickness in
      let '(calls, pixelOffset, yOffset) :=
        drawMiddle n' glyphString pixelOffset cells dx dy (yOffset + vThickness)
                   vThickness in
      (row ++ calls, pixelOffset, yOffset)
  end.

Definition drawBoxCharacter (codePoint dx dy width height : Z) : Res (list Rect) :=
  let hThickness := width / 7 in
  let vThickness := height / 7 in
  let topRowThickness := ceilHalf (height - 3 * vThickness) in
  let bottomRowThickness := height - 3 * vThickness - topRowThickness in
  let leftColumnThickness := ceilHalf (width - 3 * hThickness) in
  let rightColumnThickness := width - 3 * hThickness - leftColumnThickness in
  match Js.get boxGlyphs (codePoint - FIRST_BOX_CODE_POINT) with
  | None => Err TypeError
  | Some glyphString =>
      let horizontalThicknesses :=
        leftColumnThickness :: repeat hThickness (Z.to_nat (GRID_WIDTH - 2))
        ++ [rightColumnThickness] in
      let horizontalGridLines := gridLines horizontalThicknesses 0 in
      let cells := combine horizontalGridLines horizontalThicknesses in
      let '(top, pixelOffset) :=
        drawRow glyphString 0 cells dx dy topRowThickness in
      let '(middle, pixelOffset, yOffset) :=
        drawMiddle (Z.to_nat (GRID_HEIGHT - 2)) glyphString pixelOffset cells dx dy
                   topRowThickness vThickness in
      let '(bottom, _) :=
        drawRow glyphString pixelOffset cells dx (dy + yOffset) bottomRowThickness in
      Ok (top ++ middle ++ bottom)
  end.

(** ** Notions used in the further statements *)

(** The cursor operations of the CSI dispatch that clamp what they
    compute: CUU, CUD, CUF, CUB, CUP, CNL, CPL, HPA, HPR, VPA, VPR, HVP,
    each with the number of parameters that it reads without a default.  A
    parameter that is missing is [undefined] and the position computed
    from it is NaN, which no clamp catches: so it is for HVP with one
    parameter (ESC [ 5 f), where the parser always supplies one. *)
Definition clampedMoves : list (nat * (list Z -> Terminal -> Res Terminal)) :=
  [(1, cursorUp); (1, cursorDown); (1, cursorForward); (1, cursorBackward);
   (1, cursorPos); (1, cursorNextLine); (1, cursorPrecedingLine);
   (1, charPosAbsolute); (1, HPositionRelative); (1, linePosAbsolute);
   (1, VPositionRelative); (2, HVPosition)]%nat.

(** The distance of [matchColor] from [(r1, g1, b1)] to a palette entry. *)
Definition distanceTo (r1 g1 b1 : Z) (c : Z * Z * Z) : Z :=
  let '(r2, g2, b2) := c in matchColorDistance r1 g1 b1 r2 g2 b2.

(** [Terminal.vcolors[i]] *)
Definition vcolor (i : Z) : Z * Z * Z := nth (Z.to_nat i) vcolors (0, 0, 0).


(** ** Reading the screen: [getLineText], [getDimensions] *)

(** [row.map(function(tup) { return tup[1]; }).join("")]: [map] leaves the
    holes of the array alone and [join] reads them as empty. *)
Definition rowText (row : Row) : list Z :=
  flat_map (fun c : option LineCell =>
              match c with Some (_, ch) => [ch] | None => [] end) row.

(** [getLineText(y)]; [None] is [null]. *)
Definition getLineText (py : Z) (t : Terminal) : option (list Z) :=
  if (py <? 0) || (Js.len (lines t) <=? py) then None
  else option_map rowText (Js.get (lines t) py).

(** [getDimensions()]: rows, cols, materializedRows, cursorX, cursorY. *)
Definition getDimensions (t : Terminal) : Z * Z * Z * Z * Z :=
  (rows t, cols t, Js.len (lines t), x t, y t).


(** Every row of the list has [n] cells. *)
Definition allLen (n : Z) (ls : list Row) : Prop :=
  Forall (fun r : Row => Js.len r = n) ls.



(** The characters that [_processDataApplicationStart] adds to the
    current parameter: letters, digits, [-] and [/]. *)
Definition cookieChar (ch : Z) : bool :=
  ((97 <=? ch) && (ch <=? 122)) || ((65 <=? ch) && (ch <=? 90)) || isDigit ch
  || (ch =? 45) || (ch =? 47).

(** A freshly constructed engine whose options carry the application-mode
    cookie [cookie]. *)
Definition cookied (cookie : string) : Terminal :=
  construct (mkOptions false (Js.str "xterm") false false 1000 false (Some (Js.str cookie))).





(** The three fields of a packed attribute, as [charAttributes] and the
    renderer take them apart ([flags = attr >> 18],
    [fg = (attr >> 9) & 0x1ff], [bg = attr & 0x1ff]), and the packing
    [(flags << 18) | (fg << 9) | bg]. *)
Definition unpackAttr (a : Z) : Z * Z * Z :=
  (Js.shr a 18, Js.band (Js.shr a 9) 0x1ff, Js.band a 0x1ff).

Definition packAttr (st : Z * Z * Z) : Z :=
  let '(flags, fg, bg) := st in
  Js.bor (Js.bor (Js.shl flags 18) (Js.shl fg 9)) bg.

(** Five flag bits and two colour fields of nine bits each. *)
Definition attrInRange (a : Z) : Prop := 0 <= a < 2 ^ 23.

Definition fieldsInRange (st : Z * Z * Z) : Prop :=
  let '(flags, fg, bg) := st in
  0 <= flags < 32 /\ 0 <= fg < 512 /\ 0 <= bg < 512.





(** Plain text: the printable characters that are not wide, and the
    controls BS, HT, LF, VT, FF and CR. *)
Definition plainChar (ch : Z) : bool :=
  ((8 <=? ch) && (ch <=? 13)) || ((SP <=? ch) && (ch <=? 0xff00)).

(** An engine in shape: the virtual scrollback within its limit, a buffer
    of exactly the rows of the scrollback and of the screen, every row of
    [cols] cells, the cursor and the scroll region on the screen, no
    character set or insert mode in effect and the parser idle. *)
Definition inShape (t : Terminal) : Prop :=
  physicalScroll t = false /\ 1 <= scrollback t /\ 1 <= rows t /\ 1 <= cols t
  /\ 0 <= ybase t <= scrollback t /\ Js.len (lines t) = ybase t + rows t
  /\ rows_have_cols t = true /\ cursor_in_bounds t = true
  /\ 0 <= scrollTop t <= scrollBottom t /\ scrollBottom t < rows t
  /\ charset t = None /\ insertMode t = false /\ state t = STATE_NORMAL.

(** The bank that a designator of [_processDataEscape] names: ESC ( is G0,
    ESC ) and ESC - are G1, ESC * and ESC . are G2, ESC + is G3. *)
Definition designated (d : Z) : option Z :=
  match d with
  | 40 => Some 0
  | 41 | 45 => Some 1
  | 42 | 46 => Some 2
  | 43 => Some 3
  | _ => None
  end.



(** A screen full of text, on which a row or a cell that moves is seen to
    move: the cell of row [r] and column [c] of the 80x24 screen holds the
    character of code [33 + (7 r + c) mod 90]. *)
Definition lettered : Terminal :=
  set_lines
    (map (fun r => map (fun c => Some (DEFAULT_ATTR, 33 + Z.of_nat (7 * r + c) mod 90))
                       (seq 0 80))
         (seq 0 24))
    fresh.

(** ** The engine on concrete inputs *)

Example hello :
  exists t, feed (Js.str "hi") fresh = Ok t
    /\ x t = 2 /\ y t = 0
    /\ option_map (firstn 2) (Js.get (lines t) 0)
       = Some [Some (DEFAULT_ATTR, 104); Some (DEFAULT_ATTR, 105)].
Proof. eexists; split; [vm_compute; reflexivity | vm_compute; auto]. Qed.

Example wrap_and_scroll :
  exists t0 t,
    resize 3 2 (construct (mkOptions false (Js.str "xterm") false false 10 false None))
      = Ok t0
    /\ feed (Js.str "abcdefg") t0 = Ok t
    /\ x t = 1 /\ y t = 1 /\ ybase t = 1
    /\ map (map (option_map snd)) (lines t)
       = [map Some (Js.str "abc"); map Some (Js.str "def"); map Some (Js.str "g  ")].
Proof.
  eexists; eexists; split; [vm_compute; reflexivity |].
  split; [vm_compute; reflexivity | vm_compute; auto].
Qed.

Example fresh_is_well_formed :
  rows_have_cols fresh = true /\ cursor_in_bounds fresh = true.
Proof. vm_compute; auto. Qed.

(** C1 (the code breaks the invariant).  On a fresh 80x24 engine the input
    CSI 100 b runs [repeatPrecedingCharacter], which writes 100 cells
    into row 0 without looking at [cols]: afterwards a row of [lines] is
    100 cells long while [cols] is 80. *)
Theorem C1_rep_leaves_a_row_longer_than_cols :
  exists t, feed (CSI "100b") fresh = Ok t
    /\ cols t = 80
    /\ option_map Js.len (Js.get (lines t) 0) = Some 100
    /\ rows_have_cols t = false.
Proof. eexists; split; [vm_compute; reflexivity | vm_compute; auto]. Qed.

(** The same invariant is lost by DCH at the margin: after three
    printables on a three-column screen the cursor sits at [x = cols],
    and CSI P then removes nothing and pushes a cell. *)
Example dch_at_the_margin_grows_the_row :
  exists t0 t, resize 3 2 fresh = Ok t0
    /\ feed (Js.str "abc" ++ CSI "P") t0 = Ok t
    /\ cols t = 3
    /\ option_map Js.len (Js.get (lines t) 0) = Some 4.
Proof.
  eexists; eexists; split; [vm_compute; reflexivity |].
  split; [vm_compute; reflexivity | vm_compute; auto].
Qed.

(** C2 (the code breaks the invariant).  On a fresh 80x24 engine CSI 100 b
    leaves the cursor at [x = 100], and CSI 999 G
    ([cursorCharAbsolute], which has no clamp) at [x = 998]; [cols] is 80
    in both. *)
Theorem C2_rep_and_cha_leave_the_cursor_out_of_bounds :
  (exists t, feed (CSI "100b") fresh = Ok t
     /\ x t = 100 /\ cols t = 80 /\ cursor_in_bounds t = false)
  /\ (exists t, feed (CSI "999G") fresh = Ok t
     /\ x t = 998 /\ cols t = 80 /\ cursor_in_bounds t = false).
Proof.
  split; (eexists; split; [vm_compute; reflexivity | vm_compute; auto]).
Qed.

(** The row bound goes the same way: DECSTBM takes any bottom margin, and
    line feeds then move the cursor down to it. *)
Example line_feeds_follow_an_unclamped_margin :
  exists t, feed (CSI "1;99r" ++ repeat 10 30) fresh = Ok t
    /\ y t = 30 /\ rows t = 24.
Proof. eexists; split; [vm_compute; reflexivity | vm_compute; auto]. Qed.

(** C4 (the code breaks it).  With the scroll region set to rows 2..5,
    entering the alternate screen saves [scrollTop = 1] and
    [scrollBottom = 4] in the snapshot; on leaving, [resetMode] assigns
    them back and then calls [resize], which sets the region to the whole
    screen again. *)
Theorem C4_leaving_alt_screen_loses_the_scroll_region :
  exists t1 t2 saved,
    feed (CSI "2;5r" ++ CSI "?1049h") fresh = Ok t1
    /\ normal t1 = Some saved
    /\ s_scrollTop saved = 1 /\ s_scrollBottom saved = 4
    /\ feed (CSI "?1049l") t1 = Ok t2
    /\ normal t2 = None
    /\ scrollTop t2 = 0 /\ scrollBottom t2 = 23.
Proof.
  eexists; eexists; eexists; split; [vm_compute; reflexivity |].
  split; [vm_compute; reflexivity |].
  do 2 (split; [vm_compute; reflexivity |]).
  split; [vm_compute; reflexivity | vm_compute; auto].
Qed.

(** C8 (the code breaks one part).  On a fresh 80x24 engine CSI 5 n queues
    ESC [ 0 n and CSI 6 n queues ESC [ 1 ; 1 R, which the timer of [send]
    emits as ['data'].  CSI ? 6 n queues nothing: [_processDataCSI] calls
    [deviceStatus] only when there is no prefix, so the branch of
    [deviceStatus] that answers ESC [ ? 1 ; 1 R is never reached from the
    parser, although it is there. *)
Theorem C8_decdsr_is_never_answered :
  (exists t, feed (CSI "5n") fresh = Ok t /\ queue t = ESC :: Js.str "[0n")
  /\ (exists t, feed (CSI "6n") fresh = Ok t
        /\ queue t = ESC :: Js.str "[1;1R"
        /\ emitted (send_timer t) = [Data (ESC :: Js.str "[1;1R")])
  /\ (exists t, feed (CSI "?6n") fresh = Ok t /\ queue t = [])
  /\ queue (deviceStatus [6] (set_prefix [63] fresh)) = ESC :: Js.str "[?1;1R".
Proof.
  repeat split;
    try (eexists; split; [vm_compute; reflexivity | vm_compute; auto]).
Qed.









Lemma eta_Terminal (t : Terminal) : set_lines (lines t) t = t.
Proof.
  destruct t as [o [l c r yb yd px py st sb tb] p g m mo no a sv rf io]. reflexivity.
Qed.

Lemma get_Some {A} (a : list A) (i : Z) (v : A) :
  Js.get a i = Some v -> 0 <= i < Js.len a /\ nth_error a (Z.to_nat i) = Some v.
Proof.
  unfold Js.get, Js.len. destruct (i <? 0) eqn:E; [discriminate |].
  intros H. apply Z.ltb_ge in E. split; [| exact H].
  assert (Z.to_nat i < length a)%nat by (apply nth_error_Some; congruence). lia.
Qed.

Lemma _getRow_existing (row : Z) (t : Terminal) (line : Row) :
  Js.get (lines t) row = Some line -> _getRow row t = t.
Proof.
  intros H. apply get_Some in H. destruct H as [H _]. unfold _getRow.
  replace (Z.to_nat (row + 1 - Js.len (lines t))) with O by lia.
  simpl. rewrite app_nil_r. apply eta_Terminal.
Qed.

Lemma set_inside {A} (a : list (option A)) (i : Z) (v : A) :
  0 <= i < Js.len a ->
  Js.set a i v = firstn (Z.to_nat i) a ++ Some v :: skipn (S (Z.to_nat i)) a.
Proof.
  unfold Js.len. intros H. unfold Js.set, Js.put.
  destruct (i <? 0) eqn:E; [apply Z.ltb_lt in E; lia |].
  destruct (Z.to_nat i <? length a)%nat eqn:E'; [reflexivity |].
  apply Nat.ltb_ge in E'. lia.
Qed.

Lemma set_inside_len {A} (a : list (option A)) (i : Z) (v : A) :
  0 <= i < Js.len a -> Js.len (Js.set a i v) = Js.len a.
Proof.
  intros H. rewrite set_inside by exact H. unfold Js.len in *.
  rewrite length_app, length_firstn. cbn [length]. rewrite length_skipn. lia.
Qed.

Lemma set_inside_firstn {A} (a : list (option A)) (i : Z) (v : A) :
  0 <= i < Js.len a ->
  firstn (S (Z.to_nat i)) (Js.set a i v) = firstn (Z.to_nat i) a ++ [Some v].
Proof.
  intros H. rewrite set_inside by exact H. unfold Js.len in *.
  rewrite firstn_app. rewrite length_firstn.
  replace (Nat.min (Z.to_nat i) (length a)) with (Z.to_nat i) by lia.
  replace (S (Z.to_nat i) - Z.to_nat i)%nat with 1%nat by lia.
  rewrite firstn_firstn. replace (Nat.min (S (Z.to_nat i)) (Z.to_nat i)) with (Z.to_nat i) by lia.
  reflexivity.
Qed.

Lemma firstn_len {A} (a : list A) (n : Z) :
  Js.len a = n -> firstn (Z.to_nat n) a = a.
Proof.
  intros <-. unfold Js.len. rewrite Nat2Z.id. apply firstn_all.
Qed.

Lemma eraseChars_loop_to_the_margin (cell : LineCell) (ncols : Z) :
  forall (fuel : nat) (j : Z) (line : Row),
    0 <= j <= ncols -> Js.len line = ncols -> (Z.to_nat (ncols - j) <= fuel)%nat ->
    eraseChars_loop fuel ncols j cell line
    = firstn (Z.to_nat j) line ++ repeat (Some cell) (Z.to_nat (ncols - j)).
Proof.
  assert (At_margin : forall line : Row, Js.len line = ncols ->
            line = firstn (Z.to_nat ncols) line
                   ++ repeat (Some cell) (Z.to_nat (ncols - ncols))).
  { intros line Hlen. rewrite Z.sub_diag. simpl.
    rewrite app_nil_r, firstn_len by exact Hlen. reflexivity. }
  induction fuel as [| f IH]; intros j line Hj Hlen Hfuel.
  - assert (j = ncols) by lia. subst j. simpl. apply At_margin, Hlen.
  - simpl. destruct (j <? ncols) eqn:E.
    + apply Z.ltb_lt in E.
      rewrite IH; [| lia | rewrite set_inside_len; lia | lia].
      replace (Z.to_nat (j + 1)) with (S (Z.to_nat j)) by lia.
      rewrite set_inside_firstn by lia.
      replace (Z.to_nat (ncols - j)) with (S (Z.to_nat (ncols - (j + 1)))) by lia.
      rewrite <- app_assoc. reflexivity.
    + apply Z.ltb_ge in E. assert (j = ncols) by lia. subst j.
      apply At_margin, Hlen.
Qed.

(** C9.  With the cursor at [x = cols - k], [0 < k < n], on a row of
    [cols] cells, ECH n ([eraseChars [n]]) replaces the [k] cells from
    column [x] to column [cols - 1] by blanks in the erase attribute and
    changes nothing else: the cells before [x], the other rows and every
    other field of the engine stay as they were. *)
Theorem C9_ech_stops_at_the_margin (n k : Z) (t : Terminal) (line : Row) :
  0 < k -> k < n -> 0 <= x t -> x t = cols t - k ->
  Js.get (lines t) (y t + ybase t) = Some line ->
  Js.len line = cols t ->
  eraseChars [n] t
  = Ok (set_lines
          (setRow (y t + ybase t)
                  (firstn (Z.to_nat (x t)) line
                   ++ repeat (Some (eraseAttr t, SP)) (Z.to_nat k))
                  (lines t)) t).
Proof.
  intros Hk Hn Hx0 Hx Hrow Hlen.
  unfold eraseChars. simpl arg1.
  replace (n <? 1) with false by (symmetry; apply Z.ltb_ge; lia).
  cbn [bind]. rewrite (_getRow_existing _ _ _ Hrow).
  replace (x t <? cols t) with true by (symmetry; apply Z.ltb_lt; lia).
  unfold onRow. rewrite Hrow. f_equal. f_equal. f_equal.
  rewrite eraseChars_loop_to_the_margin; [| lia | exact Hlen | lia].
  replace (cols t - x t) with k by lia. reflexivity.
Qed.

Lemma C9_ech_stops_at_the_margin_witness :
  eraseChars [5] (set_x 77 fresh)
  = Ok (set_lines
          (setRow (y (set_x 77 fresh) + ybase (set_x 77 fresh))
                  (firstn (Z.to_nat (x (set_x 77 fresh))) (blankLine false fresh)
                   ++ repeat (Some (eraseAttr (set_x 77 fresh), SP)) (Z.to_nat 3))
                  (lines (set_x 77 fresh)))
          (set_x 77 fresh)).
Proof.
  apply (C9_ech_stops_at_the_margin 5 3 (set_x 77 fresh) (blankLine false fresh));
    [lia | lia | vm_compute; congruence | vm_compute; reflexivity
    | vm_compute; reflexivity | vm_compute; reflexivity].
Defined.

(** ** Stepping the parser

    The lemmas below run the loop of [_processWriteData] byte by byte on a
    state written [set_psr p t]: the parser fields [p] over the rest [t]. *)

Lemma psr_eta (t : Terminal) :
  t = set_psr (mkParser (state t) (params t) (currentParam t) (prefix t) (postfix t)) t.
Proof.
  destruct t as [o sc [s ps cp pre post] g m mo no a sv rf io]. reflexivity.
Qed.

Lemma afterByte_same (t : Terminal) : y t = oldy t -> afterByte t = t.
Proof. intros H. unfold afterByte. rewrite H, Z.eqb_refl. reflexivity. Qed.

Lemma loop_step (ch : Z) (rest : list Z) (t t' : Terminal) (k : nat) :
  oneByte ch rest t = Ok (t', Fwd k) ->
  processLoop (ch :: rest) 0 t = processLoop rest k t'.
Proof. intros H. cbn [processLoop]. rewrite H. reflexivity. Qed.

Section Steps.
Variable t : Terminal.
Hypothesis Hy : y t = oldy t.
Variables (ps : list Param) (cp : Param) (pre post rest : list Z).

Lemma step_ESC :
  oneByte ESC rest (set_psr (mkParser STATE_NORMAL ps cp pre post) t)
  = Ok (set_psr (mkParser STATE_ESCAPE ps cp pre post) t, Fwd 0).
Proof.
  unfold oneByte, dispatch.
  change (state (set_psr (mkParser STATE_NORMAL ps cp pre post) t)) with STATE_NORMAL.
  cbv beta iota.
  change (normalState ESC (set_psr (mkParser STATE_NORMAL ps cp pre post) t))
    with (Ok (set_psr (mkParser STATE_ESCAPE ps cp pre post) t)).
  cbn [bind]. rewrite afterByte_same by exact Hy. reflexivity.
Qed.

Lemma step_bracket :
  oneByte 91 rest (set_psr (mkParser STATE_ESCAPE ps cp pre post) t)
  = Ok (set_psr (mkParser STATE_CSI [] (PNum 0) pre post) t, Fwd 0).
Proof.
  unfold oneByte, dispatch.
  change (state (set_psr (mkParser STATE_ESCAPE ps cp pre post) t)) with STATE_ESCAPE.
  cbv beta iota.
  change (_processDataEscape 91 (set_psr (mkParser STATE_ESCAPE ps cp pre post) t))
    with (set_psr (mkParser STATE_CSI [] (PNum 0) pre post) t, Fwd 0).
  cbn [bind]. rewrite afterByte_same by exact Hy. reflexivity.
Qed.

Lemma step_prefix (ch : Z) :
  (ch =? 63) || (ch =? 62) || (ch =? 33) = true ->
  oneByte ch rest (set_psr (mkParser STATE_CSI ps cp pre post) t)
  = Ok (set_psr (mkParser STATE_CSI ps cp [ch] post) t, Fwd 0).
Proof.
  intros Hc. unfold oneByte, dispatch.
  change (state (set_psr (mkParser STATE_CSI ps cp pre post) t)) with STATE_CSI.
  cbv beta iota.
  unfold _processDataCSI. rewrite Hc.
  change (set_prefix [ch] (set_psr (mkParser STATE_CSI ps cp pre post) t))
    with (set_psr (mkParser STATE_CSI ps cp [ch] post) t).
  cbn [bind]. rewrite afterByte_same by exact Hy. reflexivity.
Qed.

Lemma step_digit (ch n : Z) :
  isDigit ch = true -> cp = PNum n ->
  oneByte ch rest (set_psr (mkParser STATE_CSI ps cp pre post) t)
  = Ok (set_psr (mkParser STATE_CSI ps (PNum (n * 10 + ch - 48)) pre post) t, Fwd 0).
Proof.
  intros Hd ->. unfold oneByte, dispatch.
  change (state (set_psr (mkParser STATE_CSI ps (PNum n) pre post) t)) with STATE_CSI.
  cbv beta iota.
  unfold _processDataCSI.
  replace ((ch =? 63) || (ch =? 62) || (ch =? 33)) with false.
  2:{ unfold isDigit in Hd. apply andb_prop in Hd. destruct Hd as [H1 H2].
      apply Z.leb_le in H1, H2. symmetry.
      repeat (apply orb_false_intro); apply Z.eqb_neq; lia. }
  rewrite Hd.
  change (currentParam (set_psr (mkParser STATE_CSI ps (PNum n) pre post) t))
    with (PNum n).
  cbv beta iota.
  change (set_currentParam (PNum (n * 10 + ch - 48))
            (set_psr (mkParser STATE_CSI ps (PNum n) pre post) t))
    with (set_psr (mkParser STATE_CSI ps (PNum (n * 10 + ch - 48)) pre post) t).
  cbn [bind]. rewrite afterByte_same by exact Hy. reflexivity.
Qed.

Lemma step_final (ch : Z) (t' : Terminal) :
  csiFinal ch = true ->
  dispatchCSI ch (set_psr (mkParser STATE_NORMAL (ps ++ [cp]) (PNum 0) pre post) t)
  = Ok t' ->
  oneByte ch rest (set_psr (mkParser STATE_CSI ps cp pre post) t)
  = Ok (afterByte (set_postfix [] (set_prefix [] t')), Fwd 0).
Proof.
  intros Hc Hd. unfold oneByte, dispatch.
  change (state (set_psr (mkParser STATE_CSI ps cp pre post) t)) with STATE_CSI.
  cbv beta iota.
  unfold _processDataCSI.
  unfold csiFinal in Hc. apply negb_true_iff in Hc.
  repeat (apply orb_false_elim in Hc; destruct Hc as [Hc ?]).
  repeat match goal with H : _ = false |- _ => rewrite H; clear H end.
  cbn [orb].
  change (set_state STATE_NORMAL _)
    with (set_psr (mkParser STATE_NORMAL (ps ++ [cp]) (PNum 0) pre post) t).
  rewrite Hd. reflexivity.
Qed.
End Steps.

Lemma beforeLoop_psr (p : Parser) (t : Terminal) :
  beforeLoop (set_psr p t) = set_psr p (beforeLoop t).
Proof.
  unfold beforeLoop.
  change (ybase (set_psr p t)) with (ybase t).
  change (ydisp (set_psr p t)) with (ydisp t).
  destruct (negb (ybase t =? ydisp t)); reflexivity.
Qed.

Lemma beforeLoop_oldy (t : Terminal) : y (beforeLoop t) = oldy (beforeLoop t).
Proof. unfold beforeLoop. destruct (negb (ybase t =? ydisp t)); reflexivity. Qed.

(** The chunk starts with the parser idle. *)
Lemma _processWriteData_idle (data : list Z) (t : Terminal) :
  state t = STATE_NORMAL -> prefix t = [] ->
  _processWriteData data t
  = ('(t', _) <- processLoop data 0
                   (set_psr (mkParser STATE_NORMAL (params t) (currentParam t) []
                                      (postfix t)) (beforeLoop t)) ;;
     Ok (updateRange (y t') t')).
Proof.
  intros Hs Hp. unfold _processWriteData. rewrite <- beforeLoop_psr.
  rewrite <- Hs, <- Hp, <- psr_eta. reflexivity.
Qed.
Lemma queue_updateRange (v : Z) (t : Terminal) : queue (updateRange v t) = queue t.
Proof.
  unfold updateRange.
  repeat match goal with |- context [if ?c then _ else _] => destruct c end; reflexivity.
Qed.

Lemma queue_afterByte (t : Terminal) : queue (afterByte t) = queue t.
Proof.
  unfold afterByte. destruct (negb (y t =? oldy t)); [| reflexivity].
  change (queue (updateRange (y t) (updateRange (oldy t) t)) = queue t).
  rewrite !queue_updateRange. reflexivity.
Qed.

Lemma queue_beforeLoop (t : Terminal) : queue (beforeLoop t) = queue t.
Proof. unfold beforeLoop. destruct (negb (ybase t =? ydisp t)); reflexivity. Qed.

Lemma termName_beforeLoop (t : Terminal) : termName (beforeLoop t) = termName t.
Proof. unfold beforeLoop. destruct (negb (ybase t =? ydisp t)); reflexivity. Qed.

Lemma sendDeviceAttributes_queue (ps : list Z) (t1 t2 : Terminal) :
  prefix t1 = prefix t2 -> termName t1 = termName t2 -> queue t1 = queue t2 ->
  queue (sendDeviceAttributes ps t1) = queue (sendDeviceAttributes ps t2).
Proof.
  intros Hp Hn Hq. unfold sendDeviceAttributes, is_. rewrite Hp, Hn.
  destruct (match ps with [] => false | p :: _ => 0 <? p end); [exact Hq |].
  destruct (prefix t2);
    repeat match goal with
           | |- context [if ?c then _ else _] => destruct c
           end;
    unfold send; cbn; rewrite ?Hq; reflexivity.
Qed.

Ltac run_byte Hy :=
  lazymatch goal with
  | |- context [processLoop (?ch :: _) 0 (set_psr (mkParser ?s _ _ _ _) _)] =>
      lazymatch s with
      | STATE_NORMAL => erewrite loop_step by (apply step_ESC; exact Hy)
      | STATE_ESCAPE => erewrite loop_step by (apply step_bracket; exact Hy)
      | STATE_CSI =>
          let d := eval vm_compute in (isDigit ch) in
          let p := eval vm_compute in ((ch =? 63) || (ch =? 62) || (ch =? 33)) in
          lazymatch d with
          | true =>
              erewrite loop_step by
                (eapply step_digit; [exact Hy | reflexivity | reflexivity])
          | false =>
              lazymatch p with
              | true =>
                  erewrite loop_step by (apply step_prefix; [exact Hy | reflexivity])
              | false =>
                  erewrite loop_step by (eapply step_final; [reflexivity | reflexivity])
              end
          end
      end
  end.

Lemma da_run (body : list Z) (pre : list Z) (t : Terminal) :
  state t = STATE_NORMAL -> prefix t = [] ->
  (body = [99] /\ pre = []) \/ (body = [48; 99] /\ pre = [])
  \/ (body = [62; 99] /\ pre = [62]) \/ (body = [62; 48; 99] /\ pre = [62]) ->
  exists t', _processWriteData (ESC :: 91 :: body) t = Ok t'
    /\ queue t' = queue (sendDeviceAttributes [0] (set_prefix pre t)).
Proof.
  intros Hs Hp Hb. rewrite _processWriteData_idle by assumption.
  pose proof (beforeLoop_oldy t) as Hy.
  pose proof (queue_beforeLoop t) as Hq.
  pose proof (termName_beforeLoop t) as Hn.
  generalize dependent (beforeLoop t). intros T Hy Hq Hn.
  destruct Hb as [[-> ->] | [[-> ->] | [[-> ->] | [-> ->]]]];
    repeat run_byte Hy;
    (eexists; split; [reflexivity |]);
    rewrite queue_updateRange, queue_afterByte;
    lazymatch goal with
    | |- queue (set_postfix [] (set_prefix [] ?X)) = _ =>
        change (queue (set_postfix [] (set_prefix [] X))) with (queue X)
    end;
    (apply sendDeviceAttributes_queue; [reflexivity | exact Hn | exact Hq]).
Qed.
Lemma startsWith_head (name ta tb : list Z) (a b : Z) :
  a <> b -> Js.startsWith name (a :: ta) = true -> Js.startsWith name (b :: tb) = false.
Proof.
  intros Hab H. destruct name as [| c name']; [discriminate |].
  cbn in *. apply andb_prop in H. destruct H as [H _]. apply Z.eqb_eq in H. subst c.
  replace (b =? a) with false by (symmetry; apply Z.eqb_neq; congruence). reflexivity.
Qed.

Lemma da_answers (body pre reply : list Z) (t : Terminal) :
  state t = STATE_NORMAL -> prefix t = [] ->
  (body = [99] /\ pre = []) \/ (body = [48; 99] /\ pre = [])
  \/ (body = [62; 99] /\ pre = [62]) \/ (body = [62; 48; 99] /\ pre = [62]) ->
  queue (sendDeviceAttributes [0] (set_prefix pre t)) = queue t ++ reply ->
  answers (ESC :: 91 :: body) reply t.
Proof.
  intros Hs Hp Hb Hq. destruct (da_run body pre t Hs Hp Hb) as (t' & Hrun & Hq').
  exists t'. split; [exact Hrun | congruence].
Qed.

(** C7, as the claim states it, fails for the name rxvt: [is('rxvt-unicode')]
    is what the code tests, and a terminal configured as rxvt answers
    CSI c with nothing. *)
Lemma C7_rxvt_gets_no_answer :
  exists t, feed (CSI "c") (named "rxvt") = Ok t /\ queue t = [].
Proof. eexists; split; vm_compute; reflexivity. Qed.

(** C7 (amended: rxvt-unicode in the place of rxvt).  When the parser is
    idle, CSI c and CSI 0 c queue exactly ESC [ ? 1 ; 2 c if the configured
    name starts with xterm, rxvt-unicode or screen, and ESC [ ? 6 c if it
    starts with linux; CSI > c and CSI > 0 c queue ESC [ > 0 ; 276 ; 0 c for
    xterm, ESC [ > 85 ; 95 ; 0 c for rxvt-unicode and
    ESC [ > 83 ; 40003 ; 0 c for screen. *)
Theorem C7_device_attributes (t : Terminal) :
  state t = STATE_NORMAL -> prefix t = [] ->
  (is_ "xterm" t || is_ "rxvt-unicode" t || is_ "screen" t = true ->
     answers (CSI "c") (ESC :: Js.str "[?1;2c") t
     /\ answers (CSI "0c") (ESC :: Js.str "[?1;2c") t)
  /\ (is_ "linux" t = true ->
     answers (CSI "c") (ESC :: Js.str "[?6c") t
     /\ answers (CSI "0c") (ESC :: Js.str "[?6c") t)
  /\ (is_ "xterm" t = true ->
     answers (CSI ">c") (ESC :: Js.str "[>0;276;0c") t
     /\ answers (CSI ">0c") (ESC :: Js.str "[>0;276;0c") t)
  /\ (is_ "rxvt-unicode" t = true ->
     answers (CSI ">c") (ESC :: Js.str "[>85;95;0c") t
     /\ answers (CSI ">0c") (ESC :: Js.str "[>85;95;0c") t)
  /\ (is_ "screen" t = true ->
     answers (CSI ">c") (ESC :: Js.str "[>83;40003;0c") t
     /\ answers (CSI ">0c") (ESC :: Js.str "[>83;40003;0c") t).
Proof.
  intros Hs Hp.
  assert (Hx : forall a ta b tb, a <> b ->
            Js.startsWith (termName t) (a :: ta) = true ->
            Js.startsWith (termName t) (b :: tb) = false)
    by (intros; eapply startsWith_head; eassumption).
  assert (Da : forall body pre reply,
             (body = [99] /\ pre = []) \/ (body = [48; 99] /\ pre = [])
             \/ (body = [62; 99] /\ pre = [62]) \/ (body = [62; 48; 99] /\ pre = [62]) ->
             queue (sendDeviceAttributes [0] (set_prefix pre t)) = queue t ++ reply ->
             answers (ESC :: 91 :: body) reply t)
    by (intros; eapply da_answers; eassumption).
  assert (Q1 : forall reply,
             (if is_ "xterm" t || is_ "rxvt-unicode" t || is_ "screen" t
              then Some (ESC :: Js.str "[?1;2c")
              else if is_ "linux" t then Some (ESC :: Js.str "[?6c") else None)
             = Some reply ->
             queue (sendDeviceAttributes [0] (set_prefix [] t)) = queue t ++ reply).
  { intros reply. unfold sendDeviceAttributes.
    change (prefix (set_prefix [] t)) with (@nil Z).
    change (is_ "xterm" (set_prefix [] t)) with (is_ "xterm" t).
    change (is_ "rxvt-unicode" (set_prefix [] t)) with (is_ "rxvt-unicode" t).
    change (is_ "screen" (set_prefix [] t)) with (is_ "screen" t).
    change (is_ "linux" (set_prefix [] t)) with (is_ "linux" t).
    cbn [Z.ltb Z.compare].
    destruct (is_ "xterm" t || is_ "rxvt-unicode" t || is_ "screen" t);
      [| destruct (is_ "linux" t)]; intros E; inversion E; reflexivity. }
  assert (Q2 : forall reply,
             (if is_ "xterm" t then Some (ESC :: Js.str "[>0;276;0c")
              else if is_ "rxvt-unicode" t then Some (ESC :: Js.str "[>85;95;0c")
              else if is_ "linux" t then None
              else if is_ "screen" t then Some (ESC :: Js.str "[>83;40003;0c")
              else None)
             = Some reply ->
             queue (sendDeviceAttributes [0] (set_prefix [62] t)) = queue t ++ reply).
  { intros reply. unfold sendDeviceAttributes.
    change (prefix (set_prefix [62] t)) with [62].
    change (is_ "xterm" (set_prefix [62] t)) with (is_ "xterm" t).
    change (is_ "rxvt-unicode" (set_prefix [62] t)) with (is_ "rxvt-unicode" t).
    change (is_ "screen" (set_prefix [62] t)) with (is_ "screen" t).
    change (is_ "linux" (set_prefix [62] t)) with (is_ "linux" t).
    change (Js.eqs [62] (Js.str ">")) with true.
    cbn [Z.ltb Z.compare].
    destruct (is_ "xterm" t); [| destruct (is_ "rxvt-unicode" t);
      [| destruct (is_ "linux" t); [| destruct (is_ "screen" t)]]];
      intros E; inversion E; reflexivity. }
  unfold is_ in *. cbn [Js.str list_ascii_of_string map] in *.
  change (Z.of_N (N_of_ascii "x")) with 120 in *.
  change (Z.of_N (N_of_ascii "r")) with 114 in *.
  change (Z.of_N (N_of_ascii "s")) with 115 in *.
  change (Z.of_N (N_of_ascii "l")) with 108 in *.
  split; [| split; [| split; [| split]]]; intros H.
  - split; apply Da with (pre := @nil Z); try tauto; apply Q1; rewrite H; reflexivity.
  - split; apply Da with (pre := @nil Z); try tauto; apply Q1;
      rewrite (Hx 108 _ 120 _), (Hx 108 _ 114 _), (Hx 108 _ 115 _), H
        by (try discriminate; exact H); reflexivity.
  - split; apply Da with (pre := [62]); try tauto; apply Q2; rewrite H; reflexivity.
  - split; apply Da with (pre := [62]); try tauto; apply Q2;
      rewrite (Hx 114 _ 120 _), H by (try discriminate; exact H); reflexivity.
  - split; apply Da with (pre := [62]); try tauto; apply Q2;
      rewrite (Hx 115 _ 120 _), (Hx 115 _ 114 _), (Hx 115 _ 108 _), H
        by (try discriminate; exact H); reflexivity.
Qed.

Lemma C7_device_attributes_witness :
  answers (CSI ">c") (ESC :: Js.str "[>85;95;0c") (named "rxvt-unicode")
  /\ answers (CSI "c") (ESC :: Js.str "[?1;2c") (named "rxvt-unicode").
Proof.
  assert (Hs : state (named "rxvt-unicode") = STATE_NORMAL) by (vm_compute; reflexivity).
  assert (Hp : prefix (named "rxvt-unicode") = []) by (vm_compute; reflexivity).
  assert (Hr : is_ "rxvt-unicode" (named "rxvt-unicode") = true)
    by (vm_compute; reflexivity).
  assert (Hr1 : is_ "xterm" (named "rxvt-unicode")
                || is_ "rxvt-unicode" (named "rxvt-unicode")
                || is_ "screen" (named "rxvt-unicode") = true)
    by (vm_compute; reflexivity).
  destruct (C7_device_attributes (named "rxvt-unicode") Hs Hp) as (H1 & _ & _ & H4 & _).
  split.
  - exact (proj1 (H4 Hr)).
  - exact (proj1 (H1 Hr1)).
Defined.
(** ** Frames: what the helpers leave alone *)

Lemma eta_refr (t : Terminal) : set_refr (refr t) t = t.
Proof. destruct t as [o sc p g m mo no a sv rf io]. reflexivity. Qed.

Lemma updateRange_refr (v : Z) (t : Terminal) :
  exists r, updateRange v t = set_refr r t.
Proof.
  unfold updateRange.
  destruct (v <? refreshStart t).
  - destruct (refreshEnd (set_refreshStart v t) <? v); eexists; reflexivity.
  - destruct (refreshEnd t <? v); [eexists; reflexivity |].
    exists (refr t). symmetry. apply eta_refr.
Qed.

Lemma afterByte_refr (t : Terminal) : exists r, afterByte t = set_refr r t.
Proof.
  unfold afterByte. destruct (negb (y t =? oldy t)).
  - destruct (updateRange_refr (oldy t) t) as [r1 E1]. rewrite E1.
    destruct (updateRange_refr (y t) (set_refr r1 t)) as [r2 E2].
    rewrite E2. eexists. reflexivity.
  - exists (refr t). symmetry. apply eta_refr.
Qed.

Lemma for_up_getRow (n : nat) :
  forall (j : Z) (t : Terminal),
    exists l, for_up_ n j (fun py t => Ok (_getRow (py + ydisp t) t)) t = Ok (set_lines l t).
Proof.
  induction n as [| n IH]; intros j t.
  - exists (lines t). cbn [for_up_]. rewrite eta_Terminal. reflexivity.
  - cbn [for_up_ bind].
    destruct (IH (j + 1) (_getRow (j + ydisp t) t)) as [l E]. rewrite E.
    exists l. reflexivity.
Qed.

Lemma refresh_lines (a b : Z) (t : Terminal) : exists l, refresh a b t = set_lines l t.
Proof.
  unfold refresh, for_up.
  match goal with |- context [for_up_ ?n ?j ?f t] => destruct (for_up_getRow n j t) as [l E]; rewrite E end.
  exists l. reflexivity.
Qed.

Lemma showCursor_frame (t : Terminal) :
  exists l c, showCursor t = set_cursorState c (set_lines l t).
Proof.
  unfold showCursor. destruct (negb (cursorState t)).
  - destruct (refresh_lines (y t) (y t) (set_cursorState true t)) as [l E].
    rewrite E. exists l, true. reflexivity.
  - exists (lines t), (cursorState t).
    destruct t as [o [l c r yb yd px py st sb tb] p g [m1 m2 m3 m4 m5 m6 m7 m8] mo no a sv rf io].
    reflexivity.
Qed.

Lemma setMode1_alt (p : Z) (t : Terminal) :
  (p =? 1049) || (p =? 47) || (p =? 1047) = true ->
  prefix t = Js.str "?" -> normal t = None ->
  setMode1 p t
  = Ok (showCursor
          (set_normal (Some (snapshot t))
             (set_charsets (charsets t)
                (set_glevel (glevel t) (set_charset (charset t) (reset t)))))).
Proof.
  intros Hp Hpre Hn. unfold setMode1. rewrite Hpre, Hn.
  apply orb_true_iff in Hp. destruct Hp as [Hp | Hp];
    [apply orb_true_iff in Hp; destruct Hp as [Hp | Hp] |];
    apply Z.eqb_eq in Hp; subst p; reflexivity.
Qed.

Lemma reset_facts (t : Terminal) :
  curAttr (reset t) = DEFAULT_ATTR /\ x (reset t) = 0 /\ y (reset t) = 0
  /\ scrollTop (reset t) = 0 /\ scrollBottom (reset t) = rows t - 1
  /\ cols (reset t) = cols t /\ rows (reset t) = rows t.
Proof.
  unfold reset.
  destruct (refresh_lines 0 (rows (_resetVariables t) - 1) (_resetVariables t)) as [l E].
  rewrite E.
  destruct t as [[o1 o2 o3 o4 o5 o6 o7] [ls c r yb yd px py st sb tb] p g m mo no a sv rf io].
  destruct o6; vm_compute; repeat split; reflexivity.
Qed.
Lemma beforeLoop_frame (t : Terminal) :
  snapshot (beforeLoop t)
  = mkSavedState (lines t) (cols t) (rows t) (ybase t) (ybase t) (x t) (y t)
                 (scrollTop t) (scrollBottom t) (tabs t)
  /\ normal (beforeLoop t) = normal t
  /\ chs (beforeLoop t) = chs t.
Proof.
  unfold beforeLoop. destruct (ybase t =? ydisp t) eqn:E; cbn [negb].
  - apply Z.eqb_eq in E. unfold snapshot.
    change (ydisp (set_oldy (y t) t)) with (ydisp t). rewrite <- E. repeat split.
  - repeat split.
Qed.

Lemma dispatch_alt_h (n : Z) (post : list Z) (t : Terminal) :
  (n =? 1049) || (n =? 47) || (n =? 1047) = true ->
  normal t = None ->
  dispatchCSI 104 (set_psr (mkParser STATE_NORMAL [PNum n] (PNum 0) [63] post) t)
  = setMode1 n (set_psr (mkParser STATE_NORMAL [PNum n] (PNum 0) [63] post) t).
Proof.
  intros Hn Hnone.
  change (dispatchCSI 104 (set_psr (mkParser STATE_NORMAL [PNum n] (PNum 0) [63] post) t))
    with (t' <- setMode1 n (set_psr (mkParser STATE_NORMAL [PNum n] (PNum 0) [63] post) t) ;;
          Ok t').
  destruct (setMode1 n _); reflexivity.
Qed.

(** C3, as the claim states it, fails for the SGR attribute: the reset on
    entering the alternate screen sets [curAttr] back to the default, and
    only [charset], [glevel] and [charsets] are put back afterwards. *)
Lemma C3_entering_alt_screen_resets_the_attribute :
  exists t1 t2,
    feed (CSI "31m") fresh = Ok t1
    /\ feed (CSI "?1049h") t1 = Ok t2
    /\ curAttr t1 = 768 /\ curAttr t2 = DEFAULT_ATTR /\ curAttr t2 <> curAttr t1.
Proof.
  eexists; eexists; split; [vm_compute; reflexivity |].
  split; [vm_compute; reflexivity |].
  split; [vm_compute; reflexivity |].
  split; [vm_compute; reflexivity | vm_compute; discriminate].
Qed.

(** C3 (amended: the SGR attribute is reset, not kept).  When the parser
    is idle and no snapshot is saved, CSI ? 47 h, CSI ? 1047 h and
    CSI ? 1049 h save the lines, the geometry, the cursor, the scroll
    region and the tab stops in the snapshot, reset the engine, and leave
    the active charset, the charset level and the charset banks as they
    were; the current attribute becomes the default one. *)
Theorem C3_entering_alt_screen (mode : string) (t : Terminal) :
  mode = "47"%string \/ mode = "1047"%string \/ mode = "1049"%string ->
  state t = STATE_NORMAL -> prefix t = [] -> normal t = None ->
  exists t',
    _processWriteData (ESC :: 91 :: 63 :: Js.str mode ++ Js.str "h") t = Ok t'
    /\ normal t'
       = Some (mkSavedState (lines t) (cols t) (rows t) (ybase t) (ybase t) (x t) (y t)
                            (scrollTop t) (scrollBottom t) (tabs t))
    /\ charset t' = charset t /\ glevel t' = glevel t /\ charsets t' = charsets t
    /\ curAttr t' = DEFAULT_ATTR
    /\ x t' = 0 /\ y t' = 0 /\ scrollTop t' = 0 /\ scrollBottom t' = rows t - 1.
Proof.
  intros Hmode Hs Hp Hnone. rewrite _processWriteData_idle by assumption.
  pose proof (beforeLoop_oldy t) as Hy.
  destruct (beforeLoop_frame t) as (Hsnap & Hnormal & Hchs).
  rewrite Hnone in Hnormal.
  assert (Hrows : rows (beforeLoop t) = rows t)
    by (change (s_rows (snapshot (beforeLoop t)) = rows t); rewrite Hsnap; reflexivity).
  generalize dependent (beforeLoop t). intros T Hy Hsnap Hnormal Hchs Hrows.
  assert (Run : forall n : Z,
             (n =? 1049) || (n =? 47) || (n =? 1047) = true ->
             forall rest,
               oneByte 104 rest (set_psr (mkParser STATE_CSI [] (PNum n) [63] (postfix t)) T)
               = Ok (afterByte
                       (set_postfix []
                          (set_prefix []
                             (showCursor
                                (set_normal (Some (snapshot T))
                                   (set_charsets (charsets T)
                                      (set_glevel (glevel T)
                                         (set_charset (charset T)
                                            (reset (set_psr
                                                      (mkParser STATE_NORMAL [PNum n]
                                                                (PNum 0) [63] (postfix t))
                                                      T))))))))),
                     Fwd 0)).
  { intros n Hn rest. eapply step_final; [reflexivity |].
    change ([] ++ [PNum n]) with [PNum n].
    rewrite dispatch_alt_h by assumption.
    rewrite setMode1_alt by (assumption || reflexivity). reflexivity. }
  destruct Hmode as [-> | [-> | ->]];
    cbn [Js.str list_ascii_of_string map app];
    repeat (lazymatch goal with
            | |- context [processLoop (104 :: _) _ _] => fail
            | _ => run_byte Hy
            end);
    (erewrite loop_step by (apply Run; reflexivity));
    cbn [processLoop bind];
    match goal with
    | |- exists t', Ok (updateRange ?v (afterByte ?u)) = Ok t' /\ _ =>
        exists (updateRange v (afterByte u));
        destruct (updateRange_refr v (afterByte u)) as [r1 E1]; rewrite E1;
        destruct (afterByte_refr u) as [r2 E2]; rewrite E2; clear E1 E2
    end;
    match goal with
    | |- context [showCursor ?u] =>
        destruct (showCursor_frame u) as (l & c & E3); rewrite E3; clear E3;
        match u with
        | context [reset ?w] =>
            destruct (reset_facts w) as (F1 & F2 & F3 & F4 & F5 & F6 & F7);
            change (rows w) with (rows T) in F5; rewrite Hrows in F5;
            generalize dependent (reset w); intros R F1 F2 F3 F4 F5 F6 F7
        end
    end;
    (split; [reflexivity |]);
    (split; [rewrite <- Hsnap; reflexivity |]);
    (split; [unfold charset; rewrite <- Hchs; reflexivity |]);
    (split; [unfold glevel; rewrite <- Hchs; reflexivity |]);
    (split; [unfold charsets; rewrite <- Hchs; reflexivity |]);
    (split; [exact F1 |]);
    (split; [exact F2 |]);
    (split; [exact F3 |]);
    (split; [exact F4 | exact F5]).
Qed.

Lemma C3_entering_alt_screen_witness :
  exists t',
    _processWriteData (ESC :: 91 :: 63 :: Js.str "1049" ++ Js.str "h") fresh = Ok t'
    /\ charsets t' = charsets fresh /\ curAttr t' = DEFAULT_ATTR.
Proof.
  assert (Hs : state fresh = STATE_NORMAL) by (vm_compute; reflexivity).
  assert (Hp : prefix fresh = []) by (vm_compute; reflexivity).
  assert (Hn : normal fresh = None) by (vm_compute; reflexivity).
  destruct (C3_entering_alt_screen "1049" fresh (or_intror (or_intror eq_refl)) Hs Hp Hn)
    as (t' & Hrun & _ & _ & _ & Hcs & Hattr & _).
  exists t'. split; [exact Hrun | split; [exact Hcs | exact Hattr]].
Defined.
(** ** Rows and cells *)

Lemma get_inside {A} (a : list A) (i : Z) :
  0 <= i < Js.len a -> exists v, Js.get a i = Some v.
Proof.
  unfold Js.get, Js.len. intros H.
  replace (i <? 0) with false by (symmetry; apply Z.ltb_ge; lia).
  destruct (nth_error a (Z.to_nat i)) as [v |] eqn:E; [exists v; reflexivity |].
  apply nth_error_None in E. lia.
Qed.

Lemma get_getRow (row : Z) (t : Terminal) :
  0 <= row -> exists line, Js.get (lines (_getRow row t)) row = Some line.
Proof.
  intros H. apply get_inside. unfold _getRow.
  change (lines (set_lines ?l t)) with l.
  unfold Js.len. rewrite length_app, repeat_length. unfold Js.len. lia.
Qed.

Lemma get_setRow (row : Z) (line : Row) (ls : list Row) :
  0 <= row < Js.len ls -> Js.get (setRow row line ls) row = Some line.
Proof.
  unfold Js.get, Js.len, setRow. intros H.
  replace (row <? 0) with false by (symmetry; apply Z.ltb_ge; lia).
  rewrite nth_error_app2; rewrite length_firstn; [| lia].
  replace (Z.to_nat row - Nat.min (Z.to_nat row) (length ls))%nat with O by lia.
  reflexivity.
Qed.

Lemma len_setRow (row : Z) (line : Row) (ls : list Row) :
  0 <= row < Js.len ls -> Js.len (setRow row line ls) = Js.len ls.
Proof.
  unfold Js.len, setRow. intros H.
  rewrite length_app, length_firstn. cbn [length]. rewrite length_skipn. lia.
Qed.

Lemma onRow_ok (row : Z) (f : Row -> Row) (t : Terminal) (line : Row) :
  Js.get (lines t) row = Some line ->
  onRow row f t = Ok (set_lines (setRow row (f line) (lines t)) t).
Proof. intros H. unfold onRow. rewrite H. reflexivity. Qed.

Lemma at_set_same {A} (a : list (option A)) (i : Z) (v : A) :
  0 <= i -> Js.at_ (Js.set a i v) i = Some v.
Proof.
  intros H. unfold Js.at_, Js.get, Js.set, Js.put.
  replace (i <? 0) with false by (symmetry; apply Z.ltb_ge; lia).
  destruct (Z.to_nat i <? length a)%nat eqn:E.
  - apply Nat.ltb_lt in E. rewrite nth_error_app2; rewrite length_firstn; [| lia].
    replace (Z.to_nat i - Nat.min (Z.to_nat i) (length a))%nat with O by lia.
    reflexivity.
  - apply Nat.ltb_ge in E. rewrite nth_error_app2 by lia.
    rewrite nth_error_app2; rewrite repeat_length; [| lia].
    replace (Z.to_nat i - length a - (Z.to_nat i - length a))%nat with O by lia.
    reflexivity.
Qed.

Lemma at_set_other {A} (a : list (option A)) (i j : Z) (v : A) :
  0 <= j -> i <> j -> Js.at_ (Js.set a i v) j = Js.at_ a j.
Proof.
  intros Hj Hij. unfold Js.at_, Js.get, Js.set, Js.put.
  replace (j <? 0) with false by (symmetry; apply Z.ltb_ge; lia).
  destruct (i <? 0) eqn:Ei; [reflexivity |]. apply Z.ltb_ge in Ei.
  assert (Hn : Z.to_nat i <> Z.to_nat j) by lia.
  destruct (Z.to_nat i <? length a)%nat eqn:E.
  - apply Nat.ltb_lt in E.
    destruct (Nat.lt_ge_cases (Z.to_nat j) (Z.to_nat i)) as [Hlt | Hge].
    + rewrite nth_error_app1 by (rewrite length_firstn; lia).
      rewrite nth_error_firstn.
      replace (Z.to_nat j <? Z.to_nat i)%nat with true by (symmetry; apply Nat.ltb_lt; lia).
      reflexivity.
    + rewrite nth_error_app2 by (rewrite length_firstn; lia).
      rewrite length_firstn.
      replace (Nat.min (Z.to_nat i) (length a)) with (Z.to_nat i) by lia.
      destruct (Z.to_nat j - Z.to_nat i)%nat as [| k] eqn:Ek; [lia |].
      cbn [nth_error]. rewrite nth_error_skipn.
      replace (S (Z.to_nat i) + k)%nat with (Z.to_nat j) by lia. reflexivity.
  - apply Nat.ltb_ge in E.
    destruct (Nat.lt_ge_cases (Z.to_nat j) (length a)) as [Hlt | Hge].
    + rewrite nth_error_app1 by lia. reflexivity.
    + rewrite nth_error_app2 by lia.
      replace (nth_error a (Z.to_nat j)) with (@None (option A))
        by (symmetry; apply nth_error_None; lia).
      destruct (Nat.lt_ge_cases (Z.to_nat j - length a) (Z.to_nat i - length a))
        as [Hlt' | Hge'].
      * rewrite nth_error_app1 by (rewrite repeat_length; lia).
        rewrite nth_error_repeat by lia. reflexivity.
      * rewrite nth_error_app2 by (rewrite repeat_length; lia).
        rewrite repeat_length.
        destruct (Z.to_nat j - length a - (Z.to_nat i - length a))%nat as [| k] eqn:Ek;
          [lia |].
        cbn [nth_error]. destruct k; reflexivity.
Qed.
(** ** A printable at the margin *)

Lemma makeRoom_row (g : Z) (t : Terminal) (line : Row) :
  Js.get (lines t) (y t + ybase t) = Some line ->
  exists l line',
    makeRoom g t = Ok (set_lines l t) /\ Js.get l (y t + ybase t) = Some line'.
Proof.
  intros H. unfold makeRoom. destruct (insertMode t).
  - rewrite (onRow_ok _ _ _ _ H). eexists. eexists. split; [reflexivity |].
    apply get_setRow. apply get_Some in H. tauto.
  - exists (lines t), line. rewrite eta_Terminal. split; [reflexivity | exact H].
Qed.

Lemma writeGlyph_at_column_0 (g : Z) (t : Terminal) (line : Row) :
  x t = 0 ->
  Js.get (lines t) (y t + ybase t) = Some line ->
  exists l r line',
    writeGlyph g t
    = Ok (set_x (if isWide g && (2 <=? cols t) then 2 else 1) (set_refr r (set_lines l t)))
    /\ Js.get l (y t + ybase t) = Some line'
    /\ Js.at_ line' 0
       = Some (curAttr t, if isWide g && (cols t <? 2) then SP else g).
Proof.
  intros Hx Hrow. unfold writeGlyph.
  pose proof (get_Some _ _ _ Hrow) as [Hb _].
  rewrite (onRow_ok _ _ _ _ Hrow). cbn [bind]. rewrite Hx.
  set (l1 := setRow (y t + ybase t) (Js.set line 0 (curAttr t, g)) (lines t)).
  assert (H1 : Js.get l1 (y t + ybase t) = Some (Js.set line 0 (curAttr t, g)))
    by (apply get_setRow; exact Hb).
  assert (Hb1 : 0 <= y t + ybase t < Js.len l1)
    by (unfold l1; rewrite len_setRow; exact Hb).
  change (x (set_lines l1 t)) with (x t). rewrite Hx.
  change (y (set_lines l1 t)) with (y t).
  destruct (updateRange_refr (y t) (set_x (0 + 1) (set_lines l1 t))) as [r E]. rewrite E.
  destruct (isWide g); cbn [andb].
  - change (cols (set_refr r (set_x (0 + 1) (set_lines l1 t)))) with (cols t).
    change (x (set_refr r (set_x (0 + 1) (set_lines l1 t)))) with (0 + 1).
    change (y (set_refr r (set_x (0 + 1) (set_lines l1 t)))) with (y t).
    change (ybase (set_refr r (set_x (0 + 1) (set_lines l1 t)))) with (ybase t).
    change (curAttr (set_refr r (set_x (0 + 1) (set_lines l1 t)))) with (curAttr t).
    destruct ((cols t <? 2) || (cols t <=? 0 + 1)) eqn:Ec.
    + assert (Hc : cols t < 2).
      { apply orb_true_iff in Ec. destruct Ec as [Ec | Ec];
          [apply Z.ltb_lt in Ec | apply Z.leb_le in Ec]; lia. }
      replace (cols t <? 2) with true by (symmetry; apply Z.ltb_lt; lia).
      replace (2 <=? cols t) with false by (symmetry; apply Z.leb_gt; lia).
      rewrite (onRow_ok _ _ _ (Js.set line 0 (curAttr t, g))) by exact H1.
      eexists. exists r. eexists. split; [reflexivity |].
      split; [apply get_setRow; exact Hb1 |].
      change (0 + 1 - 1) with 0. apply at_set_same. lia.
    + apply orb_false_iff in Ec. destruct Ec as [Ec1 Ec2].
      apply Z.leb_gt in Ec2. rewrite Ec1.
      replace (2 <=? cols t) with true by (symmetry; apply Z.leb_le; lia).
      rewrite (onRow_ok _ _ _ (Js.set line 0 (curAttr t, g))) by exact H1.
      cbn [bind].
      eexists. exists r. eexists. split; [reflexivity |].
      split; [apply get_setRow; exact Hb1 |].
      rewrite at_set_other by lia. apply at_set_same. lia.
  - exists l1, r. eexists. split; [reflexivity |].
    split; [exact H1 | apply at_set_same; lia].
Qed.

Lemma putGlyph_at_column_0 (g : Z) (t : Terminal) :
  x t = 0 -> 0 <= y t + ybase t ->
  exists l r line,
    putGlyph g t
    = Ok (set_x (if isWide g && (2 <=? cols t) then 2 else 1) (set_refr r (set_lines l t)))
    /\ Js.get l (y t + ybase t) = Some line
    /\ Js.at_ line 0 = Some (curAttr t, if isWide g && (cols t <? 2) then SP else g).
Proof.
  intros Hx Hrow. unfold putGlyph.
  destruct (get_getRow (y t + ybase t) t Hrow) as [line0 H0].
  unfold _getRow in *.
  set (l0 := lines t ++ _) in *.
  destruct (makeRoom_row g (set_lines l0 t) line0 H0) as (l1 & line1 & E1 & H1).
  rewrite E1. cbn [bind].
  change (set_lines l1 (set_lines l0 t)) with (set_lines l1 t).
  change (y (set_lines l0 t) + ybase (set_lines l0 t)) with (y t + ybase t) in H1.
  destruct (writeGlyph_at_column_0 g (set_lines l1 t) line1 Hx H1)
    as (l2 & r & line2 & E2 & H2 & A2).
  rewrite E2. exists l2, r, line2. split; [reflexivity | split; [exact H2 | exact A2]].
Qed.
(** ** The wraparound flag is not read by the printable path *)

Lemma updateRange_W (b : bool) (v : Z) (t : Terminal) :
  updateRange v (set_wraparoundMode b t) = set_wraparoundMode b (updateRange v t).
Proof.
  unfold updateRange.
  change (refreshStart (set_wraparoundMode b t)) with (refreshStart t).
  destruct (v <? refreshStart t).
  - change (refreshEnd (set_refreshStart v (set_wraparoundMode b t)))
      with (refreshEnd (set_refreshStart v t)).
    destruct (refreshEnd (set_refreshStart v t) <? v); reflexivity.
  - change (refreshEnd (set_wraparoundMode b t)) with (refreshEnd t).
    destruct (refreshEnd t <? v); reflexivity.
Qed.

(** [scroll] in four steps: the scrollback, the new line at the bottom of
    the region, the line taken off its top, the dirty range. *)
Lemma scroll_W (b : bool) (t : Terminal) :
  scroll (set_wraparoundMode b t) = set_wraparoundMode b (scroll t).
Proof.
  pose (A := fun t : Terminal =>
    if negb (physicalScroll t) then
      let t := set_ybase (ybase t + 1) t in
      if scrollback t <? ybase t then
        let t := set_ybase (ybase t - 1) t in
        set_lines (Js.slice (lines t) (- (ybase t + rows t) + 1)) t
      else t
    else
      let oldline := Js.get (lines t) 0 in
      let t := set_lines (Js.slice (lines t) (- (ybase t + rows t) + 1)) t in
      set__scrollbackBuffer (_scrollbackBuffer t ++ [oldline]) t).
  pose (B := fun t : Terminal =>
    let t := set_ydisp (ybase t) t in
    let lastline := ybase t + rows t - 1 in
    let row := lastline - (rows t - 1 - scrollBottom t) in
    set_lines (Js.splice (lines t) row 0 [blankLine false t]) t).
  pose (C := fun t : Terminal =>
    if negb (scrollTop t =? 0) then
      let t := if negb (ybase t =? 0)
               then set_ydisp (ybase t - 1) (set_ybase (ybase t - 1) t) else t in
      set_lines (Js.splice (lines t) (ybase t + scrollTop t) 1 []) t
    else t).
  pose (D := fun t : Terminal =>
    updateRange (scrollBottom t) (updateRange (scrollTop t) t)).
  assert (HA : forall u, A (set_wraparoundMode b u) = set_wraparoundMode b (A u)).
  { intros u. unfold A.
    change (physicalScroll (set_wraparoundMode b u)) with (physicalScroll u).
    destruct (negb (physicalScroll u)); [| reflexivity].
    cbv zeta.
    change (scrollback (set_ybase (ybase (set_wraparoundMode b u) + 1) (set_wraparoundMode b u)))
      with (scrollback u).
    change (scrollback (set_ybase (ybase u + 1) u)) with (scrollback u).
    change (ybase (set_ybase (ybase (set_wraparoundMode b u) + 1) (set_wraparoundMode b u)))
      with (ybase u + 1).
    change (ybase (set_ybase (ybase u + 1) u)) with (ybase u + 1).
    destruct (scrollback u <? ybase u + 1); reflexivity. }
  assert (HB : forall u, B (set_wraparoundMode b u) = set_wraparoundMode b (B u))
    by (intros u; reflexivity).
  assert (HC : forall u, C (set_wraparoundMode b u) = set_wraparoundMode b (C u)).
  { intros u. unfold C.
    change (scrollTop (set_wraparoundMode b u)) with (scrollTop u).
    destruct (negb (scrollTop u =? 0)); [| reflexivity].
    change (ybase (set_wraparoundMode b u)) with (ybase u).
    destruct (negb (ybase u =? 0)); reflexivity. }
  assert (HD : forall u, D (set_wraparoundMode b u) = set_wraparoundMode b (D u)).
  { intros u. unfold D.
    change (scrollTop (set_wraparoundMode b u)) with (scrollTop u).
    change (scrollBottom (set_wraparoundMode b u)) with (scrollBottom u).
    rewrite !updateRange_W. reflexivity. }
  change (scroll (set_wraparoundMode b t)) with (D (C (B (A (set_wraparoundMode b t))))).
  change (scroll t) with (D (C (B (A t)))).
  rewrite HA, HB, HC, HD. reflexivity.
Qed.

Lemma onRow_W (b : bool) (row : Z) (f : Row -> Row) (t : Terminal) :
  onRow row f (set_wraparoundMode b t)
  = (t' <- onRow row f t ;; Ok (set_wraparoundMode b t')).
Proof.
  unfold onRow. change (lines (set_wraparoundMode b t)) with (lines t).
  destruct (Js.get (lines t) row); reflexivity.
Qed.

Lemma makeRoom_W (b : bool) (g : Z) (t : Terminal) :
  makeRoom g (set_wraparoundMode b t)
  = (t' <- makeRoom g t ;; Ok (set_wraparoundMode b t')).
Proof.
  unfold makeRoom.
  change (insertMode (set_wraparoundMode b t)) with (insertMode t).
  destruct (insertMode t); [| reflexivity].
  rewrite onRow_W. reflexivity.
Qed.

Lemma writeGlyph_W (b : bool) (g : Z) (t : Terminal) :
  writeGlyph g (set_wraparoundMode b t)
  = (t' <- writeGlyph g t ;; Ok (set_wraparoundMode b t')).
Proof.
  unfold writeGlyph. rewrite onRow_W.
  change (y (set_wraparoundMode b t)) with (y t).
  change (ybase (set_wraparoundMode b t)) with (ybase t).
  change (x (set_wraparoundMode b t)) with (x t).
  change (curAttr (set_wraparoundMode b t)) with (curAttr t).
  destruct (onRow (y t + ybase t) (fun line => Js.set line (x t) (curAttr t, g)) t)
    as [u |]; [| reflexivity].
  cbn [bind].
  change (y (set_wraparoundMode b u)) with (y u).
  change (x (set_wraparoundMode b u)) with (x u).
  change (set_x (x u + 1) (set_wraparoundMode b u))
    with (set_wraparoundMode b (set_x (x u + 1) u)).
  rewrite updateRange_W.
  generalize (updateRange (y u) (set_x (x u + 1) u)). intros v.
  destruct (isWide g); [| reflexivity].
  change (cols (set_wraparoundMode b v)) with (cols v).
  change (x (set_wraparoundMode b v)) with (x v).
  change (curAttr (set_wraparoundMode b v)) with (curAttr v).
  destruct ((cols v <? 2) || (cols v <=? x v)).
  - rewrite onRow_W. reflexivity.
  - rewrite onRow_W.
    destruct (onRow (y t + ybase t) (fun line => Js.set line (x v) (curAttr v, SP)) v);
      reflexivity.
Qed.

Lemma putGlyph_W (b : bool) (g : Z) (t : Terminal) :
  putGlyph g (set_wraparoundMode b t)
  = (t' <- putGlyph g t ;; Ok (set_wraparoundMode b t')).
Proof.
  unfold putGlyph.
  change (_getRow (y (set_wraparoundMode b t) + ybase (set_wraparoundMode b t))
            (set_wraparoundMode b t))
    with (set_wraparoundMode b (_getRow (y t + ybase t) t)).
  rewrite makeRoom_W.
  destruct (makeRoom g (_getRow (y t + ybase t) t)) as [u |]; [| reflexivity].
  cbn [bind]. apply writeGlyph_W.
Qed.

Lemma wrapAtMargin_W (b : bool) (t : Terminal) :
  wrapAtMargin (set_wraparoundMode b t) = set_wraparoundMode b (wrapAtMargin t).
Proof.
  unfold wrapAtMargin.
  change (cols (set_wraparoundMode b t)) with (cols t).
  change (x (set_wraparoundMode b t)) with (x t).
  destruct (cols t <=? x t); [| reflexivity].
  change (y (set_wraparoundMode b t)) with (y t).
  change (set_x 0 (set_wraparoundMode b t)) with (set_wraparoundMode b (set_x 0 t)).
  rewrite updateRange_W.
  generalize (updateRange (y t) (set_x 0 t)). intros u. cbv zeta.
  change (scrollBottom (set_y (y (set_wraparoundMode b u) + 1) (set_wraparoundMode b u)))
    with (scrollBottom u).
  change (scrollBottom (set_y (y u + 1) u)) with (scrollBottom u).
  change (y (set_y (y (set_wraparoundMode b u) + 1) (set_wraparoundMode b u)))
    with (y u + 1).
  change (y (set_y (y u + 1) u)) with (y u + 1).
  destruct (scrollBottom u <? y u + 1); [| reflexivity].
  change (set_y (y u + 1 - 1) (set_y (y (set_wraparoundMode b u) + 1) (set_wraparoundMode b u)))
    with (set_wraparoundMode b (set_y (y u + 1 - 1) (set_y (y u + 1) u))).
  apply scroll_W.
Qed.

Lemma printable_W (b : bool) (ch : Z) (t : Terminal) :
  printable ch (set_wraparoundMode b t)
  = (t' <- printable ch t ;; Ok (set_wraparoundMode b t')).
Proof.
  unfold printable. rewrite wrapAtMargin_W.
  change (charset (set_wraparoundMode b t)) with (charset t).
  apply putGlyph_W.
Qed.

Lemma normalState_printable (ch : Z) (t : Terminal) :
  SP <= ch -> normalState ch t = printable ch t.
Proof.
  intros H. unfold SP in H. unfold normalState.
  replace (SP <=? ch) with true by (symmetry; apply Z.leb_le; exact H).
  destruct ch as [| p | p]; [lia | | lia].
  do 5 (destruct p as [p | p |]; try lia; try reflexivity).
Qed.

(** What [scroll] leaves alone, and that it keeps [ybase] from going
    negative. *)
Lemma scroll_keeps (t : Terminal) :
  x (scroll t) = x t /\ y (scroll t) = y t /\ cols (scroll t) = cols t
  /\ rows (scroll t) = rows t
  /\ scrollTop (scroll t) = scrollTop t /\ scrollBottom (scroll t) = scrollBottom t
  /\ attrs (scroll t) = attrs t /\ chs (scroll t) = chs t /\ psr (scroll t) = psr t
  /\ modes (scroll t) = modes t
  /\ (0 <= ybase t -> 0 <= ybase (scroll t)).
Proof.
  pose (K := fun u v : Terminal =>
    x v = x u /\ y v = y u /\ cols v = cols u /\ rows v = rows u
    /\ scrollTop v = scrollTop u /\ scrollBottom v = scrollBottom u
    /\ attrs v = attrs u /\ chs v = chs u /\ psr v = psr u /\ modes v = modes u
    /\ (0 <= ybase u -> 0 <= ybase v)).
  pose (A := fun t : Terminal =>
    if negb (physicalScroll t) then
      let t := set_ybase (ybase t + 1) t in
      if scrollback t <? ybase t then
        let t := set_ybase (ybase t - 1) t in
        set_lines (Js.slice (lines t) (- (ybase t + rows t) + 1)) t
      else t
    else
      let oldline := Js.get (lines t) 0 in
      let t := set_lines (Js.slice (lines t) (- (ybase t + rows t) + 1)) t in
      set__scrollbackBuffer (_scrollbackBuffer t ++ [oldline]) t).
  pose (B := fun t : Terminal =>
    let t := set_ydisp (ybase t) t in
    let lastline := ybase t + rows t - 1 in
    let row := lastline - (rows t - 1 - scrollBottom t) in
    set_lines (Js.splice (lines t) row 0 [blankLine false t]) t).
  pose (C := fun t : Terminal =>
    if negb (scrollTop t =? 0) then
      let t := if negb (ybase t =? 0)
               then set_ydisp (ybase t - 1) (set_ybase (ybase t - 1) t) else t in
      set_lines (Js.splice (lines t) (ybase t + scrollTop t) 1 []) t
    else t).
  pose (D := fun t : Terminal =>
    updateRange (scrollBottom t) (updateRange (scrollTop t) t)).
  assert (HA : forall u, K u (A u)).
  { intros u. unfold K, A. destruct (negb (physicalScroll u)).
    - cbv zeta.
      change (scrollback (set_ybase (ybase u + 1) u)) with (scrollback u).
      change (ybase (set_ybase (ybase u + 1) u)) with (ybase u + 1).
      destruct (scrollback u <? ybase u + 1).
      + repeat (split; [reflexivity |]).
        change (0 <= ybase u -> 0 <= ybase u + 1 - 1). lia.
      + repeat (split; [reflexivity |]).
        change (0 <= ybase u -> 0 <= ybase u + 1). lia.
    - repeat (split; [reflexivity |]). exact (fun H => H). }
  assert (HB : forall u, K u (B u)).
  { intros u. unfold K, B. repeat (split; [reflexivity |]). exact (fun H => H). }
  assert (HC : forall u, K u (C u)).
  { intros u. unfold K, C. destruct (negb (scrollTop u =? 0)).
    - destruct (ybase u =? 0) eqn:E; cbn [negb].
      + repeat (split; [reflexivity |]). exact (fun H => H).
      + apply Z.eqb_neq in E. repeat (split; [reflexivity |]).
        change (0 <= ybase u -> 0 <= ybase u - 1). lia.
    - repeat (split; [reflexivity |]). exact (fun H => H). }
  assert (HD : forall u, K u (D u)).
  { intros u. unfold K, D.
    destruct (updateRange_refr (scrollTop u) u) as [r1 E1]. rewrite E1.
    destruct (updateRange_refr (scrollBottom u) (set_refr r1 u)) as [r2 E2]. rewrite E2.
    repeat (split; [reflexivity |]). exact (fun H => H). }
  assert (Htrans : forall u v w, K u v -> K v w -> K u w).
  { unfold K. intros u v w (a1 & a2 & a3 & a4 & a5 & a6 & a7 & a8 & a9 & a10 & a11)
      (b1 & b2 & b3 & b4 & b5 & b6 & b7 & b8 & b9 & b10 & b11).
    repeat (split; [congruence |]). auto. }
  change (K t (D (C (B (A t))))).
  eapply Htrans; [apply HA |]. eapply Htrans; [apply HB |].
  eapply Htrans; [apply HC | apply HD].
Qed.

Lemma set_y_back (v : Z) (t : Terminal) : set_y (y t) (set_y v t) = t.
Proof.
  destruct t as [o [l c r yb yd px py st sb tb] p g m mo no a sv rf i]. reflexivity.
Qed.

Lemma wrapAtMargin_at_margin (t : Terminal) :
  x t = cols t ->
  wrapAtMargin t
  = if y t <? scrollBottom t
    then set_y (y t + 1) (updateRange (y t) (set_x 0 t))
    else scroll (updateRange (y t) (set_x 0 t)).
Proof.
  intros Hx. unfold wrapAtMargin. rewrite Hx, Z.leb_refl.
  change (y (set_x 0 t)) with (y t).
  destruct (updateRange_refr (y t) (set_x 0 t)) as [r E]. rewrite E. cbv zeta.
  change (scrollBottom (set_y (y (set_refr r (set_x 0 t)) + 1) (set_refr r (set_x 0 t))))
    with (scrollBottom t).
  change (y (set_y (y (set_refr r (set_x 0 t)) + 1) (set_refr r (set_x 0 t))))
    with (y t + 1).
  change (y (set_refr r (set_x 0 t))) with (y t).
  destruct (y t <? scrollBottom t) eqn:Ey.
  - apply Z.ltb_lt in Ey.
    replace (scrollBottom t <? y t + 1) with false by (symmetry; apply Z.ltb_ge; lia).
    reflexivity.
  - apply Z.ltb_ge in Ey.
    replace (scrollBottom t <? y t + 1) with true by (symmetry; apply Z.ltb_lt; lia).
    replace (y t + 1 - 1) with (y (set_refr r (set_x 0 t)))
      by (change (y (set_refr r (set_x 0 t))) with (y t); lia).
    rewrite set_y_back. reflexivity.
Qed.

(** C10, as the claim states it, fails when the cursor is below the scroll
    region: with the region set to rows 1..5 and eighty letters printed on
    row 10, the cursor is on the margin of row 10 ([y = 9]); the next
    printable scrolls the region and stays on the same row, where it
    replaces the first letter. *)
Lemma C10_below_the_region_the_row_is_overwritten :
  exists t1 t2,
    feed (CSI "1;5r" ++ CSI "10;1H" ++ repeat 97 80) fresh = Ok t1
    /\ x t1 = cols t1 /\ y t1 = 9 /\ ybase t1 = 0
    /\ option_map (firstn 2) (Js.get (lines t1) 9)
       = Some [Some (DEFAULT_ATTR, 97); Some (DEFAULT_ATTR, 97)]
    /\ feed (Js.str "Z") t1 = Ok t2
    /\ x t2 = 1 /\ y t2 = 9 /\ ybase t2 = 1
    /\ option_map (firstn 2) (Js.get (lines t2) 10)
       = Some [Some (DEFAULT_ATTR, 90); Some (DEFAULT_ATTR, 97)].
Proof.
  eexists; eexists; split; [vm_compute; reflexivity |].
  do 4 (split; [vm_compute; reflexivity |]).
  split; [vm_compute; reflexivity |].
  repeat split; vm_compute; reflexivity.
Qed.

(** C10 (amended: the line feed of the wrap is that of the scroll region,
    and a wide character needs two columns).  A printable character [ch]
    processed with the cursor on the margin ([x = cols]) puts the cursor in
    column 0 and feeds a line: on the next row when the cursor is above the
    bottom of the scroll region, otherwise by scrolling the region, the
    cursor staying on its row.  The character, after the translation by the
    active charset, is written in column 0 of the cursor row in the current
    attribute (a blank, if the character is wide and the screen has fewer
    than two columns), and the cursor moves one column on, or two for a
    wide character.  The wraparound flag is not read: setting it to any
    value before the character gives the same result, with the flag set,
    wherever the cursor is. *)
Theorem C10_printable_at_the_margin (ch : Z) (t : Terminal) :
  SP <= ch -> x t = cols t -> 0 <= y t -> 0 <= ybase t ->
  let g := translate (charset t) ch in
  let t0 := updateRange (y t) (set_x 0 t) in
  let fed := if y t <? scrollBottom t then set_y (y t + 1) t0 else scroll t0 in
  (exists l r line,
      normalState ch t
      = Ok (set_x (if isWide g && (2 <=? cols t) then 2 else 1)
              (set_refr r (set_lines l fed)))
      /\ Js.get l (y fed + ybase fed) = Some line
      /\ Js.at_ line 0 = Some (curAttr t, if isWide g && (cols t <? 2) then SP else g))
  /\ (forall b : bool,
         normalState ch (set_wraparoundMode b t)
         = (t' <- normalState ch t ;; Ok (set_wraparoundMode b t'))).
Proof.
  intros Hch Hx Hy Hyb g t0 fed. split.
  - rewrite normalState_printable by exact Hch. unfold printable.
    rewrite wrapAtMargin_at_margin by exact Hx. fold t0. fold fed. fold g.
    destruct (updateRange_refr (y t) (set_x 0 t)) as [r0 E0].
    assert (F : x fed = 0 /\ 0 <= y fed + ybase fed
                /\ cols fed = cols t /\ curAttr fed = curAttr t).
    { unfold fed, t0. rewrite E0. destruct (y t <? scrollBottom t).
      - repeat split.
        change (0 <= y t + 1 + ybase t). lia.
      - destruct (scroll_keeps (set_refr r0 (set_x 0 t)))
          as (K1 & K2 & K3 & _ & _ & _ & K7 & _ & _ & _ & K11).
        split; [rewrite K1; reflexivity |].
        split; [rewrite K2; specialize (K11 Hyb); change (y (set_refr r0 (set_x 0 t))) with (y t); lia |].
        split; [rewrite K3; reflexivity |].
        unfold curAttr. rewrite K7. reflexivity. }
    destruct F as (F1 & F2 & F3 & F4).
    destruct (putGlyph_at_column_0 g fed F1 F2) as (l & r & line & E & G & Hc).
    rewrite F3 in E. rewrite F3, F4 in Hc.
    exists l, r, line. split; [exact E | split; [exact G | exact Hc]].
  - intros b. rewrite !normalState_printable by exact Hch. apply printable_W.
Qed.

Lemma C10_printable_at_the_margin_witness :
  wraparoundMode (set_x 80 fresh) = false
  /\ (exists l r line,
        normalState 98 (set_x 80 fresh)
        = Ok (set_x 1 (set_refr r (set_lines l
                 (set_y 1 (updateRange 0 (set_x 0 (set_x 80 fresh)))))))
        /\ Js.get l 1 = Some line
        /\ Js.at_ line 0 = Some (DEFAULT_ATTR, 98))
  /\ (forall b : bool,
        normalState 98 (set_wraparoundMode b (set_x 80 fresh))
        = (t' <- normalState 98 (set_x 80 fresh) ;; Ok (set_wraparoundMode b t'))).
Proof.
  split; [vm_compute; reflexivity |].
  apply (C10_printable_at_the_margin 98 (set_x 80 fresh));
    [unfold SP; lia | vm_compute; reflexivity | vm_compute; congruence
    | vm_compute; congruence].
Defined.
(** ** A CSI sequence split over two chunks *)

Lemma step_param (t : Terminal) (ch : Z) (ps : list Param) (n : Z)
      (pre post rest : list Z) :
  y t = oldy t -> csiFinal ch = false ->
  exists ps' n' pre' post',
    oneByte ch rest (set_psr (mkParser STATE_CSI ps (PNum n) pre post) t)
    = Ok (set_psr (mkParser STATE_CSI ps' (PNum n') pre' post') t, Fwd 0).
Proof.
  intros Hy Hc.
  destruct ((ch =? 63) || (ch =? 62) || (ch =? 33)) eqn:E1.
  { exists ps, n, [ch], post. apply step_prefix; assumption. }
  destruct (isDigit ch) eqn:E2.
  { exists ps, (n * 10 + ch - 48), pre, post. eapply step_digit; eauto. }
  unfold oneByte, dispatch.
  change (state (set_psr (mkParser STATE_CSI ps (PNum n) pre post) t)) with STATE_CSI.
  cbv beta iota. unfold _processDataCSI. rewrite E1, E2.
  destruct ((ch =? 36) || (ch =? 34) || (ch =? 32) || (ch =? 39)) eqn:E3.
  { exists ps, n, pre, [ch].
    change (set_postfix [ch] (set_psr (mkParser STATE_CSI ps (PNum n) pre post) t))
      with (set_psr (mkParser STATE_CSI ps (PNum n) pre [ch]) t).
    cbn [bind]. rewrite afterByte_same by exact Hy. reflexivity. }
  assert (E4 : (ch =? 59) = true).
  { unfold csiFinal in Hc. apply negb_false_iff in Hc.
    apply orb_false_elim in E1. destruct E1 as [E1 E1c].
    apply orb_false_elim in E1. destruct E1 as [E1a E1b].
    apply orb_false_elim in E3. destruct E3 as [E3 E3d].
    apply orb_false_elim in E3. destruct E3 as [E3 E3c].
    apply orb_false_elim in E3. destruct E3 as [E3a E3b].
    rewrite E1a, E1b, E1c, E2, E3a, E3b, E3c, E3d in Hc. exact Hc. }
  exists (ps ++ [PNum n]), 0, pre, post.
  cbv zeta. rewrite E4.
  change (set_currentParam (PNum 0) _)
    with (set_psr (mkParser STATE_CSI (ps ++ [PNum n]) (PNum 0) pre post) t).
  cbn [bind]. rewrite afterByte_same by exact Hy. reflexivity.
Qed.

Lemma params_run (t : Terminal) :
  y t = oldy t ->
  forall (pb : list Z) (ps : list Param) (n : Z) (pre post : list Z),
    forallb (fun ch => negb (csiFinal ch)) pb = true ->
    exists p,
      forall rest,
        processLoop (pb ++ rest) 0 (set_psr (mkParser STATE_CSI ps (PNum n) pre post) t)
        = processLoop rest 0 (set_psr p t).
Proof.
  intros Hy. induction pb as [| ch pb IH]; intros ps n pre post Hpb.
  - eexists. intros rest. reflexivity.
  - cbn [forallb] in Hpb. apply andb_prop in Hpb. destruct Hpb as [Hc Hpb].
    apply negb_true_iff in Hc.
    assert (S1 : exists ps' n' pre' post', forall rest,
               oneByte ch rest (set_psr (mkParser STATE_CSI ps (PNum n) pre post) t)
               = Ok (set_psr (mkParser STATE_CSI ps' (PNum n') pre' post') t, Fwd 0)).
    { destruct (step_param t ch ps n pre post [] Hy Hc) as (ps' & n' & pre' & post' & E).
      exists ps', n', pre', post'. intros rest.
      unfold oneByte, dispatch in *.
      change (state (set_psr (mkParser STATE_CSI ps (PNum n) pre post) t))
        with STATE_CSI in *.
      exact E. }
    destruct S1 as (ps' & n' & pre' & post' & E).
    destruct (IH ps' n' pre' post' Hpb) as [p Hp].
    exists p. intros rest. cbn [app].
    rewrite (loop_step _ _ _ _ _ (E (pb ++ rest))). apply Hp.
Qed.

Lemma updateRange_inside (v : Z) (t : Terminal) :
  refreshStart t <= v <= refreshEnd t -> updateRange v t = t.
Proof.
  intros [H1 H2]. unfold updateRange.
  replace (v <? refreshStart t) with false by (symmetry; apply Z.ltb_ge; lia).
  replace (refreshEnd t <? v) with false by (symmetry; apply Z.ltb_ge; lia).
  reflexivity.
Qed.

Lemma set_oldy_same (t : Terminal) : set_oldy (oldy t) t = t.
Proof.
  destruct t as [o sc p g m mo no a sv [r1 r2 r3] i]. reflexivity.
Qed.

Lemma beforeLoop_settled (t : Terminal) :
  ybase t = ydisp t -> y t = oldy t -> beforeLoop t = t.
Proof.
  intros H1 H2. unfold beforeLoop. rewrite H1, Z.eqb_refl. cbn [negb].
  rewrite H2. apply set_oldy_same.
Qed.

Lemma escape_run (t : Terminal) (p : Parser) :
  y t = oldy t -> p_state p = STATE_NORMAL ->
  (forall rest, processLoop (ESC :: rest) 0 (set_psr p t)
                = processLoop rest 0
                    (set_psr (mkParser STATE_ESCAPE (p_params p) (p_currentParam p)
                                       (p_prefix p) (p_postfix p)) t))
  /\ (forall rest, processLoop (ESC :: 91 :: rest) 0 (set_psr p t)
                   = processLoop rest 0
                       (set_psr (mkParser STATE_CSI [] (PNum 0)
                                          (p_prefix p) (p_postfix p)) t)).
Proof.
  intros Hy Hs. destruct p as [s ps cp pre post]. cbn in Hs. subst s.
  cbn [p_params p_currentParam p_prefix p_postfix].
  split; intros rest.
  - erewrite loop_step by (apply step_ESC; exact Hy). reflexivity.
  - erewrite loop_step by (apply step_ESC; exact Hy).
    erewrite loop_step by (apply step_bracket; exact Hy). reflexivity.
Qed.

(** The second chunk starts where the first one stopped, when the first
    one ends inside the sequence. *)
Lemma split_inside (d1 d2 : list Z) (t : Terminal) (p : Parser) :
  ybase t = ydisp t -> refreshStart t <= y t <= refreshEnd t ->
  (forall rest, processLoop (d1 ++ rest) 0 (beforeLoop t)
                = processLoop rest 0 (set_psr p (beforeLoop t))) ->
  (t1 <- _processWriteData d1 t ;; _processWriteData d2 t1)
  = _processWriteData (d1 ++ d2) t.
Proof.
  intros Hyb Hr Hrun.
  pose proof (beforeLoop_oldy t) as Hy.
  assert (Hb : ybase (beforeLoop t) = ydisp (beforeLoop t) /\ y (beforeLoop t) = y t
               /\ refreshStart (beforeLoop t) = refreshStart t
               /\ refreshEnd (beforeLoop t) = refreshEnd t).
  { unfold beforeLoop. rewrite Hyb, Z.eqb_refl. cbn [negb]. repeat split. exact Hyb. }
  destruct Hb as (Hb1 & Hb2 & Hb3 & Hb4).
  unfold _processWriteData at 1 3.
  rewrite Hrun. specialize (Hrun []). rewrite app_nil_r in Hrun. rewrite Hrun.
  cbn [processLoop bind].
  change (y (set_psr p (beforeLoop t))) with (y (beforeLoop t)).
  rewrite updateRange_inside
    by (change (refreshStart (set_psr p (beforeLoop t))) with (refreshStart (beforeLoop t));
        change (refreshEnd (set_psr p (beforeLoop t))) with (refreshEnd (beforeLoop t));
        lia).
  unfold _processWriteData. rewrite beforeLoop_psr.
  rewrite (beforeLoop_settled (beforeLoop t)) by assumption.
  reflexivity.
Qed.

(** C5 (the code breaks it).  The parser keeps its state between chunks,
    but not the steps that a handler makes on the index of the loop.  The
    handler of ESC % steps the index over the byte that follows ([i++]);
    when the chunk ends with ESC % the step is lost, and the first byte of
    the next chunk is printed.  The input below contains the CSI sequence
    ESC [ 31 m: processed as one chunk it prints nothing and leaves the
    cursor in column 0, split after ESC % it prints G and leaves the cursor
    in column 1.  And the handler of ESC / steps the index back ([i--]), so
    that the byte / is dispatched a second time. *)
Lemma C5_a_split_after_ESC_percent_changes_the_result :
  (exists t, _processWriteData ([ESC; 37] ++ Js.str "G" ++ CSI "31m") fresh = Ok t
     /\ x t = 0 /\ option_map (firstn 1) (Js.get (lines t) 0) = Some [Some (DEFAULT_ATTR, SP)])
  /\ (exists t1 t2, _processWriteData [ESC; 37] fresh = Ok t1
        /\ _processWriteData (Js.str "G" ++ CSI "31m") t1 = Ok t2
        /\ x t2 = 1
        /\ option_map (firstn 1) (Js.get (lines t2) 0) = Some [Some (DEFAULT_ATTR, 71)])
  /\ snd (_processDataEscape 47 (set_state STATE_ESCAPE fresh)) = Back.
Proof.
  split; [| split].
  - eexists; split; [vm_compute; reflexivity | vm_compute; auto].
  - eexists; eexists; split; [vm_compute; reflexivity |].
    split; [vm_compute; reflexivity | vm_compute; auto].
  - vm_compute; reflexivity.
Qed.

(** Where the state of the parser is all that a chunk leaves behind, a
    split does no harm.  Let the parser be idle, the display not scrolled
    back, and the cursor row inside the range of rows to refresh.  If a
    chunk is ESC alone, or ESC [ and any number of parameter bytes (digits,
    the separator, prefix and postfix bytes), then processing that chunk and
    after it a chunk [d2] gives the same result, state or error, as
    processing the two as one chunk, whatever [d2] is. *)
Lemma a_chunk_that_ends_inside_a_CSI_sequence (pb d2 : list Z) (t : Terminal) :
  state t = STATE_NORMAL -> ybase t = ydisp t ->
  refreshStart t <= y t <= refreshEnd t ->
  forallb (fun ch => negb (csiFinal ch)) pb = true ->
  (t1 <- _processWriteData [ESC] t ;; _processWriteData d2 t1)
  = _processWriteData ([ESC] ++ d2) t
  /\ (t1 <- _processWriteData (ESC :: 91 :: pb) t ;; _processWriteData d2 t1)
     = _processWriteData ((ESC :: 91 :: pb) ++ d2) t.
Proof.
  intros Hs Hyb Hr Hpb.
  pose proof (beforeLoop_oldy t) as Hy.
  assert (Hs' : state (beforeLoop t) = STATE_NORMAL).
  { unfold beforeLoop. destruct (negb (ybase t =? ydisp t)); exact Hs. }
  assert (Hform : set_psr (psr (beforeLoop t)) (beforeLoop t) = beforeLoop t).
  { destruct (beforeLoop t) as [o sc p g m mo no a sv rf i]. reflexivity. }
  destruct (escape_run (beforeLoop t) (psr (beforeLoop t)) Hy Hs') as [R1 R2].
  rewrite Hform in R1, R2.
  split.
  - eapply split_inside; [exact Hyb | exact Hr |]. intros rest. cbn [app]. apply R1.
  - destruct (params_run (beforeLoop t) Hy pb [] 0
                (p_prefix (psr (beforeLoop t))) (p_postfix (psr (beforeLoop t))) Hpb)
      as [p Hp].
    eapply split_inside with (p := p); [exact Hyb | exact Hr |].
    intros rest. cbn [app]. rewrite R2. apply Hp.
Qed.

Example a_chunk_that_ends_inside_a_CSI_sequence_on_a_fresh_engine :
  (t1 <- _processWriteData [ESC] (updateRange 0 fresh) ;;
   _processWriteData (Js.str "1mB") t1)
  = _processWriteData ([ESC] ++ Js.str "1mB") (updateRange 0 fresh)
  /\ (t1 <- _processWriteData (ESC :: 91 :: Js.str "3;4") (updateRange 0 fresh) ;;
      _processWriteData (Js.str "1mB") t1)
     = _processWriteData ((ESC :: 91 :: Js.str "3;4") ++ Js.str "1mB") (updateRange 0 fresh).
Proof.
  apply (a_chunk_that_ends_inside_a_CSI_sequence (Js.str "3;4") (Js.str "1mB") (updateRange 0 fresh));
    [vm_compute; reflexivity | vm_compute; reflexivity
    | vm_compute; split; congruence | vm_compute; reflexivity].
Qed.

(** ** Box drawing characters *)

Lemma drawRow_calls (glyphString : string) (dx y h : Z) (cells : list (Z * Z)) :
  forall (pixelOffset : Z) (r : Rect),
    In r (fst (drawRow glyphString pixelOffset cells dx y h)) ->
    exists line thick, In (line, thick) cells /\ r = mkRect (dx + line) y thick h.
Proof.
  induction cells as [| [line thick] cells IH]; intros pixelOffset r H.
  - destruct H.
  - cbn [drawRow] in H.
    destruct (drawRow glyphString (pixelOffset + 1) cells dx y h) as [calls off] eqn:E.
    cbn [fst] in H. apply in_app_or in H. destruct H as [H | H].
    + destruct (isHash glyphString pixelOffset); [| destruct H].
      destruct H as [<- | []]. exists line, thick. split; [left; reflexivity | reflexivity].
    + specialize (IH (pixelOffset + 1) r). rewrite E in IH.
      destruct (IH H) as (l' & t' & Hin & Hr).
      exists l', t'. split; [right; exact Hin | exact Hr].
Qed.

Lemma drawMiddle_calls (glyphString : string) (cells : list (Z * Z)) (dx dy v : Z) :
  forall (n : nat) (pixelOffset yOffset : Z),
    snd (drawMiddle n glyphString pixelOffset cells dx dy yOffset v)
    = yOffset + Z.of_nat n * v
    /\ forall r : Rect,
        In r (fst (fst (drawMiddle n glyphString pixelOffset cells dx dy yOffset v))) ->
        exists (k : nat) (line thick : Z),
          (k < n)%nat /\ In (line, thick) cells
          /\ r = mkRect (dx + line) (dy + (yOffset + Z.of_nat k * v)) thick v.
Proof.
  induction n as [| n IH]; intros pixelOffset yOffset.
  - cbn. split; [lia | intros r []].
  - cbn [drawMiddle].
    destruct (drawRow glyphString pixelOffset cells dx (dy + yOffset) v)
      as [row off] eqn:Er.
    destruct (IH off (yOffset + v)) as [IH1 IH2].
    destruct (drawMiddle n glyphString off cells dx dy (yOffset + v) v)
      as [[calls off'] yo'] eqn:Em.
    cbn [fst snd] in *. split; [lia |].
    intros r H. apply in_app_or in H. destruct H as [H | H].
    + pose proof (drawRow_calls glyphString dx (dy + yOffset) v cells pixelOffset r) as D.
      rewrite Er in D. destruct (D H) as (line & thick & Hin & Hr).
      exists O, line, thick. split; [lia |]. split; [exact Hin |].
      rewrite Hr. f_equal. lia.
    + destruct (IH2 r H) as (k & line & thick & Hk & Hin & Hr).
      exists (S k), line, thick. split; [lia |]. split; [exact Hin |].
      rewrite Hr. f_equal. lia.
Qed.

Lemma boxGlyph_defined (codePoint : Z) :
  isBoxCharacter codePoint = true
  <-> exists glyphString,
        Js.get boxGlyphs (codePoint - FIRST_BOX_CODE_POINT) = Some glyphString.
Proof.
  unfold isBoxCharacter. split.
  - intros H. apply andb_prop in H. destruct H as [H1 H2].
    apply Z.leb_le in H1. apply Z.ltb_lt in H2.
    assert (G : 0 <= codePoint - FIRST_BOX_CODE_POINT < Js.len boxGlyphs) by lia.
    unfold Js.get.
    replace (codePoint - FIRST_BOX_CODE_POINT <? 0) with false
      by (symmetry; apply Z.ltb_ge; lia).
    destruct (nth_error boxGlyphs (Z.to_nat (codePoint - FIRST_BOX_CODE_POINT)))
      as [g |] eqn:E; [exists g; reflexivity |].
    apply nth_error_None in E. unfold Js.len in G. lia.
  - intros [g H]. unfold Js.get in H.
    destruct (codePoint - FIRST_BOX_CODE_POINT <? 0) eqn:E; [discriminate |].
    apply Z.ltb_ge in E.
    assert (L : (Z.to_nat (codePoint - FIRST_BOX_CODE_POINT) < length boxGlyphs)%nat)
      by (apply nth_error_Some; congruence).
    apply andb_true_intro. split; [apply Z.leb_le; lia |].
    apply Z.ltb_lt. unfold Js.len. lia.
Qed.

(** X1.  [drawBoxCharacter] returns exactly on the code points that
    [isBoxCharacter] accepts, U+2500 to U+2540, whatever the position and
    the size of the cell; on any other code point the glyph is [undefined]
    and the first [charAt] throws, before anything is drawn.  Every glyph
    has as many cells as the grid. *)
Theorem drawBoxCharacter_returns_iff_isBoxCharacter (codePoint dx dy width height : Z) :
  (isBoxCharacter codePoint = true
   <-> exists calls, drawBoxCharacter codePoint dx dy width height = Ok calls)
  /\ (isBoxCharacter codePoint = false
      <-> drawBoxCharacter codePoint dx dy width height = Err TypeError)
  /\ (isBoxCharacter codePoint = true <-> 0x2500 <= codePoint <= 0x2540)
  /\ Forall (fun g => Z.of_nat (String.length g) = GRID_WIDTH * GRID_HEIGHT) boxGlyphs.
Proof.
  assert (D : forall g, Js.get boxGlyphs (codePoint - FIRST_BOX_CODE_POINT) = Some g ->
                        exists calls, drawBoxCharacter codePoint dx dy width height = Ok calls).
  { intros g E. unfold drawBoxCharacter. rewrite E. cbv zeta.
    repeat match goal with
           | |- context [let '(_, _) := ?e in _] => destruct e
           end.
    eexists. reflexivity. }
  assert (N : Js.get boxGlyphs (codePoint - FIRST_BOX_CODE_POINT) = None ->
              drawBoxCharacter codePoint dx dy width height = Err TypeError).
  { intros E. unfold drawBoxCharacter. rewrite E. reflexivity. }
  pose proof (boxGlyph_defined codePoint) as B.
  split; [| split; [| split]].
  - split.
    + intros H. apply B in H. destruct H as [g E]. exact (D g E).
    + intros [calls H]. apply B.
      destruct (Js.get boxGlyphs (codePoint - FIRST_BOX_CODE_POINT)) as [g |] eqn:E;
        [exists g; reflexivity |].
      rewrite (N eq_refl) in H. discriminate.
  - split.
    + intros H.
      destruct (Js.get boxGlyphs (codePoint - FIRST_BOX_CODE_POINT)) as [g |] eqn:E;
        [| exact (N eq_refl)].
      assert (T : isBoxCharacter codePoint = true) by (apply B; exists g; reflexivity).
      congruence.
    + intros H. apply not_true_is_false. intros E.
      apply B in E. destruct E as [g E]. destruct (D g E) as [calls C]. congruence.
  - unfold isBoxCharacter, FIRST_BOX_CODE_POINT.
    change (Js.len boxGlyphs) with 65. split.
    + intros H. apply andb_prop in H. destruct H as [H1 H2].
      apply Z.leb_le in H1. apply Z.ltb_lt in H2. lia.
    + intros H. apply andb_true_intro. split; [apply Z.leb_le | apply Z.ltb_lt]; lia.
  - unfold boxGlyphs. repeat constructor.
Qed.

(** X2.  Every rectangle that [drawBoxCharacter] fills lies inside the cell of
    [width] by [height] pixels at [(dx, dy)], and has no negative side:
    the five columns take the whole width between them and the five rows
    the whole height, for every size of the cell. *)
Theorem drawBoxCharacter_stays_inside_the_cell
        (codePoint dx dy width height : Z) (calls : list Rect) :
  0 <= width -> 0 <= height ->
  drawBoxCharacter codePoint dx dy width height = Ok calls ->
  Forall (fun r => 0 <= rw r /\ 0 <= rh r
                   /\ dx <= rx r /\ rx r + rw r <= dx + width
                   /\ dy <= ry r /\ ry r + rh r <= dy + height) calls.
Proof.
  intros Hw Hh. unfold drawBoxCharacter.
  destruct (Js.get boxGlyphs (codePoint - FIRST_BOX_CODE_POINT)) as [g |];
    [| discriminate].
  cbv zeta.
  set (H := width / 7). set (V := height / 7).
  set (T := ceilHalf (height - 3 * V)). set (L := ceilHalf (width - 3 * H)).
  change (Z.to_nat (GRID_WIDTH - 2)) with 3%nat.
  change (Z.to_nat (GRID_HEIGHT - 2)) with 3%nat.
  cbn [repeat app gridLines combine].
  set (cells := [(0, L); (0 + L, H); (0 + L + H, H); (0 + L + H + H, H);
                 (0 + L + H + H + H, width - 3 * H - L)]).
  assert (Hc : forall line thick, In (line, thick) cells ->
               0 <= thick /\ 0 <= line /\ line + thick <= width).
  { assert (A : 0 <= H /\ 0 <= L /\ 0 <= width - 3 * H - L)
      by (unfold L, ceilHalf, H; repeat split; Z.div_mod_to_equations; lia).
    clearbody H L. unfold cells. intros line thick Hin. cbn [In] in Hin.
    repeat (destruct Hin as [Hin | Hin];
            [apply pair_equal_spec in Hin; destruct Hin as [<- <-]; lia |]).
    destruct Hin. }
  assert (Hv : 0 <= V /\ 0 <= T /\ 0 <= height - 3 * V - T).
  { unfold T, ceilHalf, V. repeat split; Z.div_mod_to_equations; lia. }
  clearbody V T.
  pose proof (drawRow_calls g dx dy T cells 0) as R1.
  destruct (drawRow g 0 cells dx dy T) as [top off1].
  pose proof (drawMiddle_calls g cells dx dy V 3 off1 T) as [Y R2].
  destruct (drawMiddle 3 g off1 cells dx dy T V) as [[middle off2] yo].
  pose proof (drawRow_calls g dx (dy + yo) (height - 3 * V - T) cells off2) as R3.
  destruct (drawRow g off2 cells dx (dy + yo) (height - 3 * V - T)) as [bottom off3].
  cbn [fst snd] in *. intros E. injection E as <-.
  apply Forall_forall. intros r Hin.
  apply in_app_or in Hin. destruct Hin as [Hin | Hin];
    [| apply in_app_or in Hin; destruct Hin as [Hin | Hin]].
  - destruct (R1 r Hin) as (line & thick & Hcell & ->).
    destruct (Hc line thick Hcell) as (C1 & C2 & C3). cbn [rx ry rw rh]. lia.
  - destruct (R2 r Hin) as (k & line & thick & Hk & Hcell & ->).
    destruct (Hc line thick Hcell) as (C1 & C2 & C3). cbn [rx ry rw rh]. nia.
  - destruct (R3 r Hin) as (line & thick & Hcell & ->).
    destruct (Hc line thick Hcell) as (C1 & C2 & C3). cbn [rx ry rw rh]. subst yo. lia.
Qed.

Lemma drawBoxCharacter_stays_inside_the_cell_witness :
  Forall (fun r => 0 <= rw r /\ 0 <= rh r
                   /\ 10 <= rx r /\ rx r + rw r <= 10 + 9
                   /\ 20 <= ry r /\ ry r + rh r <= 20 + 18)
         [mkRect 10 28 3 2; mkRect 13 28 1 2; mkRect 14 28 1 2; mkRect 15 28 1 2;
          mkRect 16 28 3 2].
Proof.
  apply (drawBoxCharacter_stays_inside_the_cell 0x2500 10 20 9 18);
    [lia | lia | vm_compute; reflexivity].
Defined.
(** ** The cursor operations that clamp *)

Lemma in_bounds_iff (t : Terminal) :
  cursor_in_bounds t = true <-> 0 <= x t <= cols t /\ 0 <= y t < rows t.
Proof.
  unfold cursor_in_bounds. rewrite !andb_true_iff, !Z.leb_le, Z.ltb_lt. tauto.
Qed.

Ltac clamp_cases :=
  repeat match goal with
         | |- context [if ?a <? ?b then _ else _] =>
             let E := fresh "E" in
             destruct (a <? b) eqn:E; [apply Z.ltb_lt in E | apply Z.ltb_ge in E]
         | |- context [if ?a <=? ?b then _ else _] =>
             let E := fresh "E" in
             destruct (a <=? b) eqn:E; [apply Z.leb_le in E | apply Z.leb_gt in E]
         | H : context [if ?a <? ?b then _ else _] |- _ =>
             let E := fresh "E" in
             destruct (a <? b) eqn:E; [apply Z.ltb_lt in E | apply Z.ltb_ge in E]
         | H : context [if ?a <=? ?b then _ else _] |- _ =>
             let E := fresh "E" in
             destruct (a <=? b) eqn:E; [apply Z.leb_le in E | apply Z.leb_gt in E]
         end.

Lemma clamped_move_in_bounds
      (f : list Z -> Terminal -> Res Terminal) (ps : list Z) (t t' : Terminal) :
  In f (map snd clampedMoves) ->
  1 <= cols t -> 1 <= rows t -> cursor_in_bounds t = true ->
  f ps t = Ok t' ->
  cursor_in_bounds t' = true /\ cols t' = cols t /\ rows t' = rows t.
Proof.
  intros Hf Hc Hr Hb. apply in_bounds_iff in Hb. destruct Hb as [Hx Hy].
  rewrite in_bounds_iff.
  destruct t as [o [l c r yb yd px py st sb tb] p g m mo no a sv rf i].
  change (1 <= c) in Hc. change (1 <= r) in Hr.
  change (0 <= px <= c) in Hx. change (0 <= py < r) in Hy.
  unfold clampedMoves in Hf. cbn [In map snd] in Hf.
  repeat (destruct Hf as [<- | Hf];
          [ first [ destruct ps as [| p0 [| p1 ps]] | destruct ps as [| p0 ps] ];
            cbn; try discriminate; clamp_cases;
            intros E'; injection E' as <-; cbn; repeat split; lia
          | ]).
  destruct Hf as [<- | []].
  destruct ps as [| p0 [| p1 ps]]; cbn; try discriminate.
  destruct (p0 <? 1) eqn:E0; [apply Z.ltb_lt in E0 | apply Z.ltb_ge in E0];
    (destruct (p1 <? 1) eqn:E1; [apply Z.ltb_lt in E1 | apply Z.ltb_ge in E1]);
    clamp_cases; intros E'; injection E' as <-; cbn in *; repeat split; lia.
Qed.

Lemma clamped_move_returns
      (n : nat) (f : list Z -> Terminal -> Res Terminal) (ps : list Z) (t : Terminal) :
  In (n, f) clampedMoves -> (n <= length ps)%nat -> exists t', f ps t = Ok t'.
Proof.
  intros Hf Hn. unfold clampedMoves in Hf. cbn [In] in Hf.
  repeat (destruct Hf as [Hf | Hf];
          [ apply pair_equal_spec in Hf; destruct Hf as [<- <-];
            destruct ps as [| p0 ps]; [cbn [length] in Hn; lia |];
            eexists; cbn; reflexivity
          | ]).
  destruct Hf as [Hf | []].
  apply pair_equal_spec in Hf. destruct Hf as [<- <-].
  destruct ps as [| p0 [| p1 ps]]; try (cbn [length] in Hn; lia).
  eexists. cbn. reflexivity.
Qed.

(** X3.  CUU, CUD, CUF, CUB, CUP, CNL, CPL, HPA, HPR, VPA, VPR and HVP keep the
    cursor on the screen when they are given the parameters that they
    read: one for all of them but HVP, two for HVP.  On a screen of at
    least one row and one column, if [0 <= x <= cols] and [0 <= y < rows]
    before, then the operation returns and the same holds after; the size
    of the screen is not changed.  HVP with one parameter is not among
    these: there the code leaves the column NaN, which is not on the
    screen, and the model is left ([Err Unmodelled]). *)
Theorem clamped_moves_keep_the_cursor_in_bounds
        (n : nat) (f : list Z -> Terminal -> Res Terminal) (ps : list Z) (t : Terminal) :
  In (n, f) clampedMoves -> (n <= length ps)%nat ->
  1 <= cols t -> 1 <= rows t -> cursor_in_bounds t = true ->
  (exists t', f ps t = Ok t'
     /\ cursor_in_bounds t' = true /\ cols t' = cols t /\ rows t' = rows t)
  /\ (forall p0 : Z, HVPosition [p0] t = Err Unmodelled).
Proof.
  intros Hf Hn Hc Hr Hb. split; [| reflexivity].
  destruct (clamped_move_returns n f ps t Hf Hn) as [t' E].
  exists t'. split; [exact E |].
  apply (clamped_move_in_bounds f ps t t'); try assumption.
  apply (in_map snd) in Hf. exact Hf.
Qed.

Lemma clamped_moves_keep_the_cursor_in_bounds_witness :
  exists t', HVPosition [30; 500] (set_y 3 (set_x 7 lettered)) = Ok t'
    /\ cursor_in_bounds t' = true
    /\ cols t' = cols (set_y 3 (set_x 7 lettered))
    /\ rows t' = rows (set_y 3 (set_x 7 lettered)).
Proof.
  refine (proj1 (clamped_moves_keep_the_cursor_in_bounds
                   2 HVPosition [30; 500] (set_y 3 (set_x 7 lettered)) _ _ _ _ _)).
  - do 11 right. left. reflexivity.
  - cbn [length]. lia.
  - vm_compute. congruence.
  - vm_compute. congruence.
  - vm_compute. reflexivity.
Defined.
(** ** The nearest palette colour *)

Lemma distance_nonneg (r1 g1 b1 : Z) (c : Z * Z * Z) : 0 <= distanceTo r1 g1 b1 c.
Proof.
  destruct c as [[r2 g2] b2]. unfold distanceTo, matchColorDistance. nia.
Qed.

Lemma matchColor_loop_spec (r1 g1 b1 : Z) (all : list (Z * Z * Z)) :
  forall (cs done : list (Z * Z * Z)) (ldiff : option Z) (li : Z),
    all = done ++ cs -> all <> [] ->
    match ldiff with
    | None => done = []
    | Some d =>
        0 <= li < Js.len done
        /\ d = distanceTo r1 g1 b1 (nth (Z.to_nat li) all (0, 0, 0))
        /\ forall c, In c done -> d <= distanceTo r1 g1 b1 c
    end ->
    let res := matchColor_loop r1 g1 b1 cs (Js.len done) ldiff li in
    0 <= res < Js.len all
    /\ forall c, In c all ->
         distanceTo r1 g1 b1 (nth (Z.to_nat res) all (0, 0, 0)) <= distanceTo r1 g1 b1 c.
Proof.
  induction cs as [| c cs IH]; intros done ldiff li Hall Hne Hinv.
  - rewrite app_nil_r in Hall. subst done. cbn [matchColor_loop].
    destruct ldiff as [d |]; [| contradiction].
    destruct Hinv as (Hli & Hd & Hmin). split; [exact Hli |].
    intros c Hc. rewrite <- Hd. apply Hmin, Hc.
  - assert (Hnth : nth (Z.to_nat (Js.len done)) all (0, 0, 0) = c).
    { rewrite Hall. unfold Js.len. rewrite Nat2Z.id, app_nth2 by lia.
      rewrite Nat.sub_diag. reflexivity. }
    assert (Hlen : Js.len all = Js.len done + 1 + Js.len cs).
    { rewrite Hall. unfold Js.len. rewrite length_app. cbn [length]. lia. }
    assert (Hlen' : Js.len (done ++ [c]) = Js.len done + 1).
    { unfold Js.len. rewrite length_app. cbn [length]. lia. }
    assert (Hall' : all = (done ++ [c]) ++ cs)
      by (rewrite <- app_assoc; exact Hall).
    assert (Hpos : 0 <= Js.len done /\ 0 <= Js.len cs) by (unfold Js.len; lia).
    cbn [matchColor_loop]. destruct c as [[r2 g2] b2].
    change (matchColorDistance r1 g1 b1 r2 g2 b2) with (distanceTo r1 g1 b1 (r2, g2, b2)).
    set (diff := distanceTo r1 g1 b1 (r2, g2, b2)).
    destruct (diff =? 0) eqn:E0.
    + apply Z.eqb_eq in E0. cbv zeta. split; [lia |].
      intros c Hc. rewrite Hnth. fold diff. rewrite E0. apply distance_nonneg.
    + apply Z.eqb_neq in E0.
      destruct (match ldiff with None => true | Some d => diff <? d end) eqn:Eb.
      * specialize (IH (done ++ [(r2, g2, b2)]) (Some diff) (Js.len done) Hall' Hne).
        rewrite Hlen' in IH. apply IH.
        split; [lia |]. split; [rewrite Hnth; reflexivity |].
        intros c Hc. apply in_app_or in Hc. destruct Hc as [Hc | [<- | []]]; [| fold diff; lia].
        destruct ldiff as [d |]; [| subst done; destruct Hc].
        apply Z.ltb_lt in Eb. destruct Hinv as (_ & _ & Hmin). specialize (Hmin c Hc). lia.
      * destruct ldiff as [d |]; [| discriminate]. apply Z.ltb_ge in Eb.
        specialize (IH (done ++ [(r2, g2, b2)]) (Some d) li Hall' Hne).
        rewrite Hlen' in IH. apply IH.
        destruct Hinv as (Hli & Hd & Hmin).
        split; [lia |]. split; [exact Hd |].
        intros c Hc. apply in_app_or in Hc. destruct Hc as [Hc | [<- | []]];
          [apply Hmin, Hc | fold diff; lia].
Qed.

Lemma matchColor_loop_from_the_start (r1 g1 b1 : Z) (all : list (Z * Z * Z)) :
  all <> [] ->
  0 <= matchColor_loop r1 g1 b1 all 0 None (-1) < Js.len all
  /\ forall c, In c all ->
       distanceTo r1 g1 b1
         (nth (Z.to_nat (matchColor_loop r1 g1 b1 all 0 None (-1))) all (0, 0, 0))
       <= distanceTo r1 g1 b1 c.
Proof.
  intros Hne.
  exact (matchColor_loop_spec r1 g1 b1 all all [] None (-1) eq_refl Hne eq_refl).
Qed.

(** X4.  [matchColor] returns the index of a nearest colour of the palette:
    the result is an index of [Terminal.vcolors], from 0 to 255, and no
    entry of the palette is closer to [(r1, g1, b1)], in the weighted
    distance of [matchColorDistance], than the entry at that index.  So the
    result is never -1, the value that [charAttributes] tests for. *)
Theorem matchColor_is_a_nearest_palette_entry (r1 g1 b1 : Z) :
  0 <= matchColor r1 g1 b1 <= 255
  /\ forall i : Z, 0 <= i <= 255 ->
       distanceTo r1 g1 b1 (vcolor (matchColor r1 g1 b1))
       <= distanceTo r1 g1 b1 (vcolor i).
Proof.
  assert (L : length vcolors = 256%nat) by (vm_compute; reflexivity).
  assert (Hne : vcolors <> []) by (intros E; rewrite E in L; discriminate).
  destruct (matchColor_loop_from_the_start r1 g1 b1 vcolors Hne) as [S1 S2].
  unfold matchColor, vcolor. unfold Js.len in S1. rewrite L in S1.
  split; [lia |].
  intros i Hi. apply S2. apply nth_In. lia.
Qed.
(** ** Tab stops *)

Lemma hasTab_addTab (ts : list Z) (i k : Z) :
  hasTab (addTab ts i) k = hasTab ts k || (k =? i).
Proof.
  unfold addTab. destruct (hasTab ts i) eqn:E.
  - destruct (k =? i) eqn:Ek; [| rewrite orb_false_r; reflexivity].
    apply Z.eqb_eq in Ek. subst k. rewrite E. reflexivity.
  - unfold hasTab. cbn [existsb]. apply orb_comm.
Qed.

Lemma setupStops_loop_spec (ncols k : Z) :
  forall (fuel : nat) (i : Z) (ts : list Z),
    ncols - i <= 8 * Z.of_nat fuel ->
    hasTab (setupStops_loop fuel ncols i ts) k
    = hasTab ts k || ((i <=? k) && (k <? ncols) && ((k - i) mod 8 =? 0)).
Proof.
  induction fuel as [| fuel IH]; intros i ts Hfuel.
  - cbn [setupStops_loop].
    replace ((i <=? k) && (k <? ncols)) with false; [rewrite orb_false_r; reflexivity |].
    symmetry. apply andb_false_iff.
    destruct (Z.le_gt_cases i k); [right; apply Z.ltb_ge | left; apply Z.leb_gt]; lia.
  - cbn [setupStops_loop]. destruct (i <? ncols) eqn:E.
    + apply Z.ltb_lt in E. rewrite IH by lia. rewrite hasTab_addTab.
      rewrite <- orb_assoc. f_equal.
      destruct (k =? i) eqn:Ek.
      * apply Z.eqb_eq in Ek. subst k.
        replace (i <=? i) with true by (symmetry; apply Z.leb_le; lia).
        replace (i <? ncols) with true by (symmetry; apply Z.ltb_lt; lia).
        rewrite Z.sub_diag. reflexivity.
      * apply Z.eqb_neq in Ek. cbn [orb].
        destruct (k <? ncols) eqn:Ec; [| rewrite !andb_false_r; reflexivity].
        rewrite !andb_true_r.
        destruct (i + 8 <=? k) eqn:E8.
        -- apply Z.leb_le in E8.
           replace (i <=? k) with true by (symmetry; apply Z.leb_le; lia).
           cbn [andb]. replace (k - i) with (k - (i + 8) + 1 * 8) by lia.
           rewrite Z.mod_add by lia. reflexivity.
        -- apply Z.leb_gt in E8. cbn [andb].
           destruct (i <=? k) eqn:Ei; [| reflexivity]. apply Z.leb_le in Ei.
           cbn [andb]. symmetry. apply Z.eqb_neq.
           rewrite Z.mod_small by lia. lia.
    + apply Z.ltb_ge in E.
      replace ((i <=? k) && (k <? ncols)) with false; [rewrite orb_false_r; reflexivity |].
      symmetry. apply andb_false_iff.
      destruct (Z.le_gt_cases i k); [right; apply Z.ltb_ge | left; apply Z.leb_gt]; lia.
Qed.

(** X5.  After [setupStops()], as the constructor and every reset call it, the
    tab stops are exactly the columns of the screen that are multiples of
    eight, whatever the width of the screen and the stops set before. *)
Theorem setupStops_sets_a_stop_every_eight_columns (t : Terminal) (k : Z) :
  hasTab (tabs (setupStops None t)) k
  = (0 <=? k) && (k <? cols t) && (k mod 8 =? 0).
Proof.
  unfold setupStops.
  change (tabs (set_tabs ?ts _)) with ts.
  change (cols (set_tabs [] t)) with (cols t).
  change (tabs (set_tabs [] t)) with (@nil Z).
  rewrite setupStops_loop_spec by lia.
  rewrite Z.sub_0_r. reflexivity.
Qed.

Lemma nextStop_loop_spec (ts : list Z) (ncols : Z) :
  forall (fuel : nat) (px : Z),
    ncols - (px + 1) <= Z.of_nat fuel ->
    let r := nextStop_loop fuel ts ncols px in
    px < r
    /\ (forall k, px < k < r -> hasTab ts k = false /\ k < ncols)
    /\ (hasTab ts r = true \/ ncols <= r).
Proof.
  induction fuel as [| fuel IH]; intros px Hfuel; cbn [nextStop_loop]; cbv zeta.
  - destruct (hasTab ts (px + 1)) eqn:Et; cbn [negb andb].
    + split; [lia |]. split; [intros k Hk; lia | left; exact Et].
    + destruct (px + 1 <? ncols) eqn:Ec.
      * apply Z.ltb_lt in Ec. lia.
      * apply Z.ltb_ge in Ec. split; [lia |]. split; [intros k Hk; lia | right; lia].
  - destruct (hasTab ts (px + 1)) eqn:Et; cbn [negb andb].
    + split; [lia |]. split; [intros k Hk; lia | left; exact Et].
    + destruct (px + 1 <? ncols) eqn:Ec.
      * apply Z.ltb_lt in Ec.
        destruct (IH (px + 1)) as (I1 & I2 & I3); [lia |].
        split; [lia |]. split; [| exact I3].
        intros k Hk. destruct (Z.eq_dec k (px + 1)) as [-> | Hne];
          [split; [exact Et | exact Ec] | apply I2; lia].
      * apply Z.ltb_ge in Ec. split; [lia |]. split; [intros k Hk; lia | right; lia].
Qed.

(** X6.  [nextStop], the target of a horizontal tab: from a column [px >= 0] it
    gives the first tab stop to the right of [px] when there is one before
    the last column, and the last column otherwise; the result is always a
    column of the screen. *)
Theorem nextStop_is_the_next_stop_or_the_last_column (px : Z) (t : Terminal) :
  0 <= px -> 1 <= cols t ->
  let r := nextStop px t in
  0 <= r <= cols t - 1
  /\ (forall k, px < k < r -> hasTab (tabs t) k = false)
  /\ (r < cols t - 1 -> px < r /\ hasTab (tabs t) r = true).
Proof.
  intros Hpx Hc. unfold nextStop.
  destruct (nextStop_loop_spec (tabs t) (cols t) (Z.to_nat (cols t - px)) px)
    as (S1 & S2 & S3); [lia |].
  set (r0 := nextStop_loop (Z.to_nat (cols t - px)) (tabs t) (cols t) px) in *.
  cbv zeta. destruct (cols t <=? r0) eqn:E1.
  - apply Z.leb_le in E1. split; [lia |]. split; [| lia].
    intros k Hk. apply S2. lia.
  - apply Z.leb_gt in E1.
    destruct (r0 <? 0) eqn:E2; [apply Z.ltb_lt in E2; lia |].
    split; [lia |]. split; [intros k Hk; apply S2; lia |].
    intros _. split; [lia |]. destruct S3 as [S3 | S3]; [exact S3 | lia].
Qed.

Lemma nextStop_is_the_next_stop_or_the_last_column_witness :
  let r := nextStop 3 fresh in
  0 <= r <= cols fresh - 1
  /\ (forall k, 3 < k < r -> hasTab (tabs fresh) k = false)
  /\ (r < cols fresh - 1 -> 3 < r /\ hasTab (tabs fresh) r = true).
Proof.
  apply (nextStop_is_the_next_stop_or_the_last_column 3 fresh);
    [lia | vm_compute; congruence].
Defined.

(** ** Erasing in the cursor row *)

Lemma skipn_set_after {A} (a : list (option A)) (i : Z) (v : A) (k : nat) :
  0 <= i < Js.len a -> (Z.to_nat i < k)%nat -> skipn k (Js.set a i v) = skipn k a.
Proof.
  intros Hi Hk. rewrite set_inside by exact Hi. unfold Js.len in Hi.
  rewrite skipn_app, length_firstn.
  replace (Nat.min (Z.to_nat i) (length a)) with (Z.to_nat i) by lia.
  rewrite skipn_all2 by (rewrite length_firstn; lia).
  destruct (k - Z.to_nat i)%nat as [| d] eqn:Ed; [lia |].
  cbn [app]. rewrite skipn_cons, skipn_skipn. f_equal. lia.
Qed.

Lemma fill_from_spec (cell : LineCell) :
  forall (n : nat) (px : Z) (line : Row),
    0 <= px -> px + Z.of_nat n <= Js.len line ->
    fill_from n px cell line
    = firstn (Z.to_nat px) line ++ repeat (Some cell) n
      ++ skipn (Z.to_nat px + n) line.
Proof.
  induction n as [| n IH]; intros px line Hpx Hlen.
  - cbn [fill_from repeat app]. rewrite Nat.add_0_r, firstn_skipn. reflexivity.
  - cbn [fill_from]. rewrite IH; [| lia | rewrite set_inside_len; lia].
    replace (Z.to_nat (px + 1)) with (S (Z.to_nat px)) by lia.
    rewrite set_inside_firstn by lia.
    rewrite skipn_set_after by lia.
    rewrite <- app_assoc. cbn [repeat app].
    replace (S (Z.to_nat px) + n)%nat with (Z.to_nat px + S n)%nat by lia.
    reflexivity.
Qed.

Lemma fill_down_spec (cell : LineCell) :
  forall (n : nat) (line : Row),
    Z.of_nat n <= Js.len line ->
    fill_down n cell line = repeat (Some cell) n ++ skipn n line.
Proof.
  induction n as [| n IH]; intros line Hlen.
  - reflexivity.
  - cbn [fill_down]. rewrite IH by (rewrite set_inside_len; lia).
    rewrite set_inside by lia. rewrite Nat2Z.id.
    rewrite skipn_app, length_firstn.
    replace (Nat.min n (length line)) with n by (unfold Js.len in Hlen; lia).
    rewrite Nat.sub_diag, skipn_O.
    rewrite skipn_all2 by (rewrite length_firstn; lia). cbn [app].
    change (repeat (Some cell) (S n)) with (Some cell :: repeat (Some cell) n).
    rewrite repeat_cons, <- app_assoc. reflexivity.
Qed.

(** X7.  EL (CSI K) on a cursor row of [cols] cells, with the cursor on a
    column of the screen: [eraseInLine [0]] blanks the cells from the
    cursor to the end of the row, [eraseInLine [1]] the cells from the
    start of the row to the cursor, both included, and [eraseInLine [2]]
    the whole row; the blanks carry the erase attribute.  The row keeps
    its [cols] cells, the other rows and the cursor are not touched, and
    the cursor row joins the range of rows to refresh; any other first
    parameter does nothing. *)
Theorem eraseInLine_blanks_its_part_of_the_row (t : Terminal) (line : Row) :
  0 <= x t < cols t ->
  Js.get (lines t) (ybase t + y t) = Some line ->
  Js.len line = cols t ->
  let blank := Some (eraseAttr t, SP) in
  let put (row : Row) :=
    Ok (updateRange (y t) (set_lines (setRow (ybase t + y t) row (lines t)) t)) in
  eraseInLine [0] t
  = put (firstn (Z.to_nat (x t)) line ++ repeat blank (Z.to_nat (cols t - x t)))
  /\ eraseInLine [1] t
     = put (repeat blank (Z.to_nat (x t + 1)) ++ skipn (Z.to_nat (x t + 1)) line)
  /\ eraseInLine [2] t = put (repeat blank (Z.to_nat (cols t)))
  /\ (forall p ps, p < 0 \/ 2 < p -> eraseInLine (p :: ps) t = Ok t).
Proof.
  intros Hx Hrow Hlen blank put.
  assert (G : _getRow (ybase t + y t) t = t) by (eapply _getRow_existing; exact Hrow).
  split; [| split; [| split]].
  - cbn [eraseInLine]. unfold eraseRight, fillRight. rewrite G.
    replace (x t <? cols t) with true by (symmetry; apply Z.ltb_lt; lia).
    rewrite (onRow_ok _ _ _ _ Hrow). cbn [bind]. unfold put. do 3 f_equal.
    rewrite fill_from_spec by lia.
    rewrite (skipn_all2 line) by (unfold Js.len in Hlen; lia).
    rewrite app_nil_r. reflexivity.
  - cbn [eraseInLine]. unfold eraseLeft. rewrite G. cbv zeta.
    replace (x t + 1 <? 0) with false by (symmetry; apply Z.ltb_ge; lia).
    replace (x t + 1 =? 0) with false by (symmetry; apply Z.eqb_neq; lia).
    rewrite (onRow_ok _ _ _ _ Hrow). cbn [bind]. unfold put.
    rewrite fill_down_spec by lia. reflexivity.
  - cbn [eraseInLine]. unfold eraseLine, eraseRight, fillRight. rewrite G.
    replace (0 <? cols t) with true by (symmetry; apply Z.ltb_lt; lia).
    rewrite (onRow_ok _ _ _ _ Hrow). cbn [bind]. unfold put. do 3 f_equal.
    rewrite fill_from_spec by lia.
    rewrite (skipn_all2 line) by (unfold Js.len in Hlen; lia).
    rewrite app_nil_r. cbn [Z.to_nat firstn app]. rewrite Z.sub_0_r. reflexivity.
  - intros p ps Hp. cbn [eraseInLine].
    destruct p as [| p | p]; [lia | | reflexivity].
    destruct p as [p | [p | p |] |]; try reflexivity; lia.
Qed.

Lemma eraseInLine_blanks_its_part_of_the_row_witness :
  eraseInLine [2] (set_x 5 fresh)
  = Ok (updateRange (y (set_x 5 fresh))
          (set_lines (setRow (ybase (set_x 5 fresh) + y (set_x 5 fresh))
                             (repeat (Some (eraseAttr (set_x 5 fresh), SP))
                                     (Z.to_nat (cols (set_x 5 fresh))))
                             (lines (set_x 5 fresh)))
                     (set_x 5 fresh))).
Proof.
  refine (proj1 (proj2 (proj2
    (eraseInLine_blanks_its_part_of_the_row (set_x 5 fresh) (blankLine false fresh)
       _ _ _)))).
  - vm_compute. split; congruence.
  - vm_compute. reflexivity.
  - vm_compute. reflexivity.
Defined.
(** ** Inserting and deleting cells in the cursor row *)

Lemma setRow_setRow (row : Z) (a b : Row) (ls : list Row) :
  0 <= row < Js.len ls -> setRow row b (setRow row a ls) = setRow row b ls.
Proof.
  unfold Js.len, setRow. intros H.
  rewrite firstn_app, length_firstn.
  replace (Nat.min (Z.to_nat row) (length ls)) with (Z.to_nat row) by lia.
  rewrite Nat.sub_diag, firstn_O, app_nil_r, firstn_firstn, Nat.min_id.
  f_equal. f_equal.
  rewrite skipn_app, length_firstn.
  replace (Nat.min (Z.to_nat row) (length ls)) with (Z.to_nat row) by lia.
  rewrite skipn_all2 by (rewrite length_firstn; lia).
  replace (S (Z.to_nat row) - Z.to_nat row)%nat with 1%nat by lia.
  reflexivity.
Qed.

(** A count that the code decrements exactly. *)
Lemma times_in_range {S : Type} (param : Z) (body : S -> Res S) (s : S) :
  0 <= param < 2 ^ 53 -> times param body s = times_ (Z.to_nat param) body s.
Proof.
  intros [H0 H1]. unfold times.
  replace (param <? 0) with false by (symmetry; apply Z.ltb_ge; exact H0).
  replace (2 ^ 53 <=? param) with false by (symmetry; apply Z.leb_gt; exact H1).
  reflexivity.
Qed.

(** A method of the row object called [n] times. *)
Lemma times_onRow (row : Z) (f : Row -> Row) :
  forall (n : nat) (t : Terminal) (line : Row),
    Js.get (lines t) row = Some line ->
    times_ n (onRow row f) t
    = Ok (set_lines (setRow row (Nat.iter n f line) (lines t)) t).
Proof.
  induction n as [| n IH]; intros t line Hrow.
  - cbn [times_]. change (Nat.iter 0 f line) with line. f_equal.
    assert (E : setRow row line (lines t) = lines t).
    { apply get_Some in Hrow. destruct Hrow as [Hb Hn]. unfold setRow.
      apply nth_error_split in Hn. destruct Hn as (l1 & l2 & E & L).
      rewrite E, <- L.
      rewrite firstn_app, Nat.sub_diag, firstn_O, app_nil_r, firstn_all.
      rewrite skipn_app, skipn_all2 by lia.
      replace (S (length l1) - length l1)%nat with 1%nat by lia. reflexivity. }
    rewrite E. symmetry. apply eta_Terminal.
  - cbn [times_]. rewrite (onRow_ok _ _ _ _ Hrow). cbn [bind].
    pose proof (get_Some _ _ _ Hrow) as [Hb _].
    rewrite (IH _ (f line)) by (apply get_setRow; exact Hb).
    change (lines (set_lines ?l t)) with l.
    rewrite setRow_setRow by exact Hb.
    change (set_lines ?a (set_lines ?b t)) with (set_lines a t).
    do 3 f_equal. symmetry. apply Nat.iter_succ_r.
Qed.

Lemma deleted_cells (blank : option LineCell) (col : Z) (line : Row) :
  0 <= col < Js.len line ->
  forall n : nat,
    Nat.iter n (fun l : Row => Js.push (Js.splice l col 1 []) blank) line
    = firstn (Z.to_nat col) line ++ skipn (Z.to_nat col + n) line
      ++ repeat blank (Nat.min n (length line - Z.to_nat col)).
Proof.
  unfold Js.len. intros Hcol. set (px := Z.to_nat col).
  assert (Hpx : (px < length line)%nat) by (unfold px; lia).
  induction n as [| n IH].
  - change (Nat.iter 0 ?f line) with line. rewrite Nat.add_0_r. cbn [Nat.min repeat].
    rewrite app_nil_r, firstn_skipn. reflexivity.
  - rewrite Nat.iter_succ. rewrite IH. clear IH.
    set (m := Nat.min n (length line - px)).
    set (M := firstn px line ++ skipn (px + n) line ++ repeat blank m).
    assert (LM : length M = length line).
    { unfold M, m. rewrite !length_app, length_firstn, length_skipn, repeat_length. lia. }
    unfold Js.push, Js.splice, Js.rel, Js.len.
    replace (col <? 0) with false by (symmetry; apply Z.ltb_ge; lia).
    rewrite LM.
    replace (Z.to_nat (Z.min col (Z.of_nat (length line)))) with px by (unfold px; lia).
    replace (Z.to_nat (Z.min (Z.max 1 0) (Z.of_nat (length line) - Z.of_nat px)))
      with 1%nat by lia.
    cbn [app].
    assert (F : firstn px M = firstn px line).
    { unfold M. rewrite firstn_app, length_firstn.
      replace (Nat.min px (length line)) with px by lia.
      rewrite Nat.sub_diag, firstn_O, app_nil_r, firstn_firstn, Nat.min_id. reflexivity. }
    assert (S1 : skipn (px + 1) M = skipn 1 (skipn (px + n) line ++ repeat blank m)).
    { unfold M. rewrite skipn_app, length_firstn.
      replace (Nat.min px (length line)) with px by lia.
      rewrite skipn_all2 by (rewrite length_firstn; lia).
      replace (px + 1 - px)%nat with 1%nat by lia. reflexivity. }
    rewrite F, S1, <- app_assoc. f_equal.
    destruct (Nat.lt_ge_cases (px + n) (length line)) as [Hlt | Hge].
    + assert (Em : m = n) by (unfold m; lia).
      replace (Nat.min (S n) (length line - px)) with (S n) by lia.
      rewrite Em. rewrite skipn_app.
      rewrite length_skipn.
      replace (1 - (length line - (px + n)))%nat with O by lia.
      rewrite skipn_O, skipn_skipn.
      replace (1 + (px + n))%nat with (px + S n)%nat by lia.
      rewrite <- app_assoc. f_equal.
      change (repeat blank (S n)) with (blank :: repeat blank n).
      rewrite repeat_cons. reflexivity.
    + assert (Em : m = (length line - px)%nat) by (unfold m; lia).
      replace (Nat.min (S n) (length line - px)) with (length line - px)%nat by lia.
      rewrite Em. rewrite (skipn_all2 (n := (px + n)%nat) line) by lia.
      rewrite (skipn_all2 (n := (px + S n)%nat) line) by lia. cbn [app].
      destruct (length line - px)%nat as [| k] eqn:Ek; [lia |].
      cbn [repeat]. rewrite skipn_cons, skipn_O. symmetry. apply repeat_cons.
Qed.

(** X8.  DCH (CSI P) with the cursor on a column of the screen and a cursor row
    of [cols] cells, for a count [n] below 2^53 (a count that the loop of
    the code decrements exactly; from 2^54 on that loop does not end):
    [deleteChars [n]] takes the [n] cells from the cursor on out of the row
    (for [n < 1], one cell), moves the cells behind them to the left, and
    fills the end of the row with as many blanks in the erase attribute;
    the row keeps its [cols] cells.  Nothing else changes, not even the
    range of rows to refresh. *)
Theorem deleteChars_shifts_the_rest_of_the_row_left (n : Z) (t : Terminal) (line : Row) :
  n < 2 ^ 53 ->
  0 <= x t < cols t ->
  Js.get (lines t) (y t + ybase t) = Some line ->
  Js.len line = cols t ->
  let k := Z.to_nat (Z.max n 1) in
  let row' := firstn (Z.to_nat (x t)) line ++ skipn (Z.to_nat (x t) + k) line
              ++ repeat (Some (eraseAttr t, SP))
                        (Nat.min k (Z.to_nat (cols t - x t))) in
  deleteChars [n] t = Ok (set_lines (setRow (y t + ybase t) row' (lines t)) t)
  /\ Js.len row' = cols t.
Proof.
  intros Hn Hx Hrow Hlen k row'. split.
  - unfold deleteChars. cbn [arg1 bind].
    assert (Emax : (if n <? 1 then 1 else n) = Z.max n 1).
    { destruct (n <? 1) eqn:E; [apply Z.ltb_lt in E | apply Z.ltb_ge in E]; lia. }
    rewrite Emax.
    rewrite times_in_range by (change (2 ^ 53) with 9007199254740992 in *; lia).
    rewrite (times_onRow _ _ _ _ _ Hrow). fold k. do 3 f_equal.
    rewrite deleted_cells by lia.
    unfold row'. do 3 f_equal. unfold Js.len in Hlen. lia.
  - unfold row', Js.len in *.
    rewrite !length_app, length_firstn, length_skipn, repeat_length. lia.
Qed.

Lemma deleteChars_shifts_the_rest_of_the_row_left_witness :
  exists row',
    deleteChars [3] (set_x 70 lettered)
    = Ok (set_lines (setRow (y (set_x 70 lettered) + ybase (set_x 70 lettered)) row'
                            (lines (set_x 70 lettered))) (set_x 70 lettered))
    /\ Js.len row' = cols (set_x 70 lettered).
Proof.
  eexists.
  apply (deleteChars_shifts_the_rest_of_the_row_left 3 (set_x 70 lettered)
           (nth 0 (lines lettered) []));
    [vm_compute; reflexivity | vm_compute; split; congruence
    | vm_compute; reflexivity | vm_compute; reflexivity].
Defined.

Lemma setRow_same (row : Z) (line : Row) (ls : list Row) :
  Js.get ls row = Some line -> setRow row line ls = ls.
Proof.
  intros Hrow. apply get_Some in Hrow. destruct Hrow as [Hb Hn]. unfold setRow.
  apply nth_error_split in Hn. destruct Hn as (l1 & l2 & E & L).
  rewrite E, <- L.
  rewrite firstn_app, Nat.sub_diag, firstn_O, app_nil_r, firstn_all.
  rewrite skipn_app, skipn_all2 by lia.
  replace (S (length l1) - length l1)%nat with 1%nat by lia. reflexivity.
Qed.

Lemma inserted_cell (cell : LineCell) (j : Z) (line : Row) :
  0 <= j < Js.len line ->
  Js.pop (Js.splice line j 0 [Some cell])
  = firstn (Z.to_nat j) line
    ++ Some cell :: firstn (length line - Z.to_nat j - 1) (skipn (Z.to_nat j) line).
Proof.
  unfold Js.len. intros Hj. unfold Js.pop, Js.splice, Js.rel, Js.len.
  replace (j <? 0) with false by (symmetry; apply Z.ltb_ge; lia).
  replace (Z.to_nat (Z.min j (Z.of_nat (length line)))) with (Z.to_nat j) by lia.
  replace (Z.to_nat (Z.min (Z.max 0 0) (Z.of_nat (length line) - Z.of_nat (Z.to_nat j))))
    with O by lia.
  rewrite Nat.add_0_r.
  set (tl := skipn (Z.to_nat j) line).
  assert (Ltl : length tl = (length line - Z.to_nat j)%nat)
    by (unfold tl; apply length_skipn).
  change ([Some cell] ++ tl) with (Some cell :: tl).
  rewrite removelast_app by discriminate.
  f_equal.
  destruct tl as [| c tl'] eqn:Etl; [cbn in Ltl; lia |].
  change (removelast (Some cell :: c :: tl')) with (Some cell :: removelast (c :: tl')).
  f_equal. rewrite removelast_firstn_len. f_equal. cbn [length] in *. lia.
Qed.

Lemma insertChars_loop_spec (cell : LineCell) (row : Z) :
  forall (n : nat) (j : Z) (t : Terminal) (line : Row),
    0 <= j <= cols t ->
    Js.get (lines t) row = Some line -> Js.len line = cols t ->
    let m := Nat.min n (Z.to_nat (cols t - j)) in
    insertChars_loop n row j cell t
    = Ok (set_lines
            (setRow row
               (firstn (Z.to_nat j) line ++ repeat (Some cell) m
                ++ firstn (Z.to_nat (cols t - j) - m) (skipn (Z.to_nat j) line))
               (lines t)) t).
Proof.
  assert (Same : forall (t : Terminal) (line : Row) (j : Z),
             0 <= j <= cols t ->
             Js.get (lines t) row = Some line -> Js.len line = cols t ->
             Ok t = Ok (set_lines
                          (setRow row
                             (firstn (Z.to_nat j) line ++ repeat (Some cell) 0
                              ++ firstn (Z.to_nat (cols t - j) - 0) (skipn (Z.to_nat j) line))
                             (lines t)) t)).
  { intros t line j Hj Hrow Hlen. cbn [repeat app]. rewrite Nat.sub_0_r.
    rewrite (firstn_all2 (n := Z.to_nat (cols t - j)) (skipn (Z.to_nat j) line))
      by (rewrite length_skipn; unfold Js.len in Hlen; lia).
    rewrite firstn_skipn, (setRow_same _ _ _ Hrow), eta_Terminal. reflexivity. }
  induction n as [| n IH]; intros j t line Hj Hrow Hlen m.
  - cbn [insertChars_loop]. unfold m. cbn [Nat.min]. apply Same; assumption.
  - cbn [insertChars_loop]. destruct (j <? cols t) eqn:Ej.
    + apply Z.ltb_lt in Ej.
      rewrite (_getRow_existing _ _ _ Hrow), (onRow_ok _ _ _ _ Hrow). cbn [bind].
      pose proof (get_Some _ _ _ Hrow) as [Hb _].
      rewrite inserted_cell by lia.
      set (line1 := firstn (Z.to_nat j) line ++ Some cell :: _).
      assert (L1 : Js.len line1 = cols t).
      { unfold line1, Js.len in *.
        rewrite length_app, length_firstn. cbn [length].
        rewrite length_firstn, length_skipn. lia. }
      rewrite (IH (j + 1) _ line1);
        [| change (cols (set_lines ?l t)) with (cols t); lia
         | change (lines (set_lines ?l t)) with l; apply get_setRow; exact Hb
         | exact L1].
      change (cols (set_lines ?l t)) with (cols t).
      change (lines (set_lines ?l t)) with l.
      change (set_lines ?a (set_lines ?b t)) with (set_lines a t).
      rewrite setRow_setRow by exact Hb. do 3 f_equal.
      assert (F1 : firstn (Z.to_nat (j + 1)) line1 = firstn (Z.to_nat j) line ++ [Some cell]).
      { unfold line1. rewrite firstn_app, length_firstn.
        replace (Nat.min (Z.to_nat j) (length line)) with (Z.to_nat j)
          by (unfold Js.len in Hlen; lia).
        replace (Z.to_nat (j + 1) - Z.to_nat j)%nat with 1%nat by lia.
        rewrite firstn_firstn.
        replace (Nat.min (Z.to_nat (j + 1)) (Z.to_nat j)) with (Z.to_nat j) by lia.
        reflexivity. }
      assert (S1 : skipn (Z.to_nat (j + 1)) line1
                   = firstn (length line - Z.to_nat j - 1) (skipn (Z.to_nat j) line)).
      { unfold line1. rewrite skipn_app, length_firstn.
        replace (Nat.min (Z.to_nat j) (length line)) with (Z.to_nat j)
          by (unfold Js.len in Hlen; lia).
        rewrite skipn_all2 by (rewrite length_firstn; lia).
        replace (Z.to_nat (j + 1) - Z.to_nat j)%nat with 1%nat by lia.
        reflexivity. }
      rewrite F1, S1, firstn_firstn, <- app_assoc. f_equal.
      unfold m.
      replace (Nat.min (S n) (Z.to_nat (cols t - j)))
        with (S (Nat.min n (Z.to_nat (cols t - (j + 1))))) by lia.
      cbn [repeat app]. f_equal. f_equal. f_equal.
      unfold Js.len in Hlen. lia.
    + apply Z.ltb_ge in Ej. unfold m.
      replace (Nat.min (S n) (Z.to_nat (cols t - j))) with O by lia.
      apply Same; assumption.
Qed.

(** X9.  ICH (CSI @) with a cursor row of [cols] cells: [insertChars [n]] puts
    [n] blanks in the erase attribute before the cell under the cursor
    (one for [n < 1]; at most up to the end of the row), moves the cells
    from the cursor on to the right, and drops those that leave the row;
    the row keeps its [cols] cells and nothing else changes. *)
Theorem insertChars_shifts_the_rest_of_the_row_right (n : Z) (t : Terminal) (line : Row) :
  0 <= x t <= cols t ->
  Js.get (lines t) (y t + ybase t) = Some line ->
  Js.len line = cols t ->
  let m := Nat.min (Z.to_nat (Z.max n 1)) (Z.to_nat (cols t - x t)) in
  let row' := firstn (Z.to_nat (x t)) line ++ repeat (Some (eraseAttr t, SP)) m
              ++ firstn (Z.to_nat (cols t - x t) - m) (skipn (Z.to_nat (x t)) line) in
  insertChars [n] t = Ok (set_lines (setRow (y t + ybase t) row' (lines t)) t)
  /\ Js.len row' = cols t.
Proof.
  intros Hx Hrow Hlen m row'. split.
  - unfold insertChars. cbn [arg1 bind].
    assert (Emax : (if n <? 1 then 1 else n) = Z.max n 1).
    { destruct (n <? 1) eqn:E; [apply Z.ltb_lt in E | apply Z.ltb_ge in E]; lia. }
    rewrite Emax.
    rewrite (insertChars_loop_spec _ _ _ _ _ line) by assumption. reflexivity.
  - unfold row', Js.len in *.
    rewrite !length_app, length_firstn, repeat_length, length_firstn, length_skipn.
    unfold m. lia.
Qed.

Lemma insertChars_shifts_the_rest_of_the_row_right_witness :
  exists row',
    insertChars [3] (set_x 78 fresh)
    = Ok (set_lines (setRow (y (set_x 78 fresh) + ybase (set_x 78 fresh)) row'
                            (lines (set_x 78 fresh))) (set_x 78 fresh))
    /\ Js.len row' = cols (set_x 78 fresh).
Proof.
  eexists.
  apply (insertChars_shifts_the_rest_of_the_row_right 3 (set_x 78 fresh)
           (blankLine false fresh));
    [vm_compute; split; congruence | vm_compute; reflexivity | vm_compute; reflexivity].
Defined.
(** ** Scrolling keeps the buffer in shape *)

Lemma len_splice_insert {A} (a : list A) (s : Z) (v : A) :
  Js.len (Js.splice a s 0 [v]) = Js.len a + 1.
Proof.
  unfold Js.splice, Js.len.
  set (r := Js.rel a s).
  replace (Z.to_nat (Z.min (Z.max 0 0) (Z.of_nat (length a) - Z.of_nat r))) with O by lia.
  rewrite Nat.add_0_r, !length_app, length_firstn, length_skipn. cbn [length]. lia.
Qed.

Lemma len_splice_delete {A} (a : list A) (s : Z) :
  0 <= s < Js.len a -> Js.len (Js.splice a s 1 []) = Js.len a - 1.
Proof.
  unfold Js.splice, Js.rel, Js.len. intros H.
  replace (s <? 0) with false by (symmetry; apply Z.ltb_ge; lia).
  cbn [app]. rewrite length_app, length_firstn, length_skipn. lia.
Qed.

Lemma len_slice_tail {A} (a : list A) (s : Z) :
  s < 0 -> Js.len (Js.slice a s) = Z.min (Js.len a) (- s).
Proof.
  unfold Js.slice, Js.rel, Js.len. intros H.
  replace (s <? 0) with true by (symmetry; apply Z.ltb_lt; lia).
  rewrite length_skipn. lia.
Qed.

(** X10.  With the virtual scrollback (no physical scroll) of at least one
    line, [scroll] keeps the shape of the buffer: if [lines] holds exactly
    the [ybase] lines of the scrollback and the [rows] lines of the screen,
    with [ybase] within the limit [scrollback] and the scroll region inside
    the screen, then the same holds afterwards, and the display is at the
    bottom ([ydisp = ybase]).  The scrollback grows by one line while there
    is room and the region starts at the top of the screen; with a region
    that starts lower it does not grow, and once it is full it loses a
    line. *)
Theorem scroll_keeps_the_shape_of_the_buffer (t : Terminal) :
  physicalScroll t = false -> 1 <= scrollback t -> 1 <= rows t ->
  0 <= ybase t <= scrollback t ->
  0 <= scrollTop t <= scrollBottom t -> scrollBottom t < rows t ->
  Js.len (lines t) = ybase t + rows t ->
  Js.len (lines (scroll t)) = ybase (scroll t) + rows (scroll t)
  /\ 0 <= ybase (scroll t) <= scrollback t
  /\ ydisp (scroll t) = ybase (scroll t)
  /\ ybase (scroll t)
     = (if scrollTop t =? 0 then Z.min (ybase t + 1) (scrollback t)
        else if ybase t <? scrollback t then ybase t else ybase t - 1)
  /\ rows (scroll t) = rows t.
Proof.
  intros Hphys Hsb Hrows Hyb Hreg Hbot Hlen.
  pose (A := fun t : Terminal =>
    if negb (physicalScroll t) then
      let t := set_ybase (ybase t + 1) t in
      if scrollback t <? ybase t then
        let t := set_ybase (ybase t - 1) t in
        set_lines (Js.slice (lines t) (- (ybase t + rows t) + 1)) t
      else t
    else
      let oldline := Js.get (lines t) 0 in
      let t := set_lines (Js.slice (lines t) (- (ybase t + rows t) + 1)) t in
      set__scrollbackBuffer (_scrollbackBuffer t ++ [oldline]) t).
  pose (B := fun t : Terminal =>
    let t := set_ydisp (ybase t) t in
    let lastline := ybase t + rows t - 1 in
    let row := lastline - (rows t - 1 - scrollBottom t) in
    set_lines (Js.splice (lines t) row 0 [blankLine false t]) t).
  pose (C := fun t : Terminal =>
    if negb (scrollTop t =? 0) then
      let t := if negb (ybase t =? 0)
               then set_ydisp (ybase t - 1) (set_ybase (ybase t - 1) t) else t in
      set_lines (Js.splice (lines t) (ybase t + scrollTop t) 1 []) t
    else t).
  pose (D := fun t : Terminal =>
    updateRange (scrollBottom t) (updateRange (scrollTop t) t)).
  change (scroll t) with (D (C (B (A t)))).
  (* the scrollback *)
  assert (HA : rows (A t) = rows t /\ scrollTop (A t) = scrollTop t
               /\ scrollBottom (A t) = scrollBottom t
               /\ ((ybase t < scrollback t /\ ybase (A t) = ybase t + 1
                    /\ Js.len (lines (A t)) = ybase t + rows t)
                   \/ (ybase t = scrollback t /\ ybase (A t) = ybase t
                       /\ Js.len (lines (A t)) = ybase t + rows t - 1))).
  { unfold A. rewrite Hphys. cbn [negb]. cbv zeta.
    change (scrollback (set_ybase (ybase t + 1) t)) with (scrollback t).
    change (ybase (set_ybase (ybase t + 1) t)) with (ybase t + 1).
    destruct (scrollback t <? ybase t + 1) eqn:E;
      [apply Z.ltb_lt in E | apply Z.ltb_ge in E].
    - repeat (split; [reflexivity |]). right.
      split; [lia |]. split; [change (ybase t + 1 - 1 = ybase t); lia |].
      change (Js.len (Js.slice (lines t) (- (ybase t + 1 - 1 + rows t) + 1))
              = ybase t + rows t - 1).
      rewrite len_slice_tail by lia. lia.
    - repeat (split; [reflexivity |]). left.
      split; [lia |]. split; [reflexivity | exact Hlen]. }
  destruct HA as (A1 & A2 & A3 & A4). generalize dependent (A t). intros u A1 A2 A3 A4.
  (* the new line *)
  assert (HB : rows (B u) = rows t /\ scrollTop (B u) = scrollTop t
               /\ scrollBottom (B u) = scrollBottom t
               /\ ybase (B u) = ybase u /\ ydisp (B u) = ybase u
               /\ Js.len (lines (B u)) = Js.len (lines u) + 1).
  { unfold B. cbv zeta.
    repeat (split; [assumption || reflexivity |]).
    apply len_splice_insert. }
  destruct HB as (B1 & B2 & B3 & B4 & B5 & B6).
  generalize dependent (B u). intros v B1 B2 B3 B4 B5 B6.
  (* the line taken off the top of the region *)
  assert (HC : rows (C v) = rows t
               /\ ydisp (C v) = ybase (C v)
               /\ ((scrollTop t = 0 /\ ybase (C v) = ybase v
                    /\ Js.len (lines (C v)) = Js.len (lines v))
                   \/ (scrollTop t <> 0 /\ ybase (C v) = ybase v - 1
                       /\ Js.len (lines (C v)) = Js.len (lines v) - 1))).
  { unfold C. rewrite B2. destruct (scrollTop t =? 0) eqn:E;
      [apply Z.eqb_eq in E | apply Z.eqb_neq in E]; cbn [negb].
    - split; [exact B1 |]. split; [congruence |]. left. repeat split. exact E.
    - assert (Hv : ybase v <> 0) by lia.
      replace (ybase v =? 0) with false by (symmetry; apply Z.eqb_neq; exact Hv).
      cbn [negb]. cbv zeta.
      split; [exact B1 |]. split; [reflexivity |]. right.
      split; [exact E |]. split; [reflexivity |].
      change (Js.len (Js.splice (lines v) (ybase v - 1 + scrollTop v) 1 [])
              = Js.len (lines v) - 1).
      apply len_splice_delete. lia. }
  destruct HC as (C1 & C2 & C3). generalize dependent (C v). intros w C1 C2 C3.
  (* the dirty range *)
  assert (HD : rows (D w) = rows w /\ ybase (D w) = ybase w /\ ydisp (D w) = ydisp w
               /\ lines (D w) = lines w).
  { unfold D.
    destruct (updateRange_refr (scrollTop w) w) as [r1 E1]. rewrite E1.
    destruct (updateRange_refr (scrollBottom w) (set_refr r1 w)) as [r2 E2].
    rewrite E2. repeat split. }
  destruct HD as (D1 & D2 & D3 & D4). rewrite D1, D2, D3, D4.
  destruct (scrollTop t =? 0) eqn:E0; [apply Z.eqb_eq in E0 | apply Z.eqb_neq in E0].
  - destruct C3 as [(_ & C4 & C5) | (C3 & _)]; [| contradiction].
    destruct A4 as [(A4 & A5 & A6) | (A4 & A5 & A6)]; repeat split; lia.
  - destruct C3 as [(C3 & _) | (_ & C4 & C5)]; [contradiction |].
    destruct A4 as [(A4 & A5 & A6) | (A4 & A5 & A6)].
    + replace (ybase t <? scrollback t) with true by (symmetry; apply Z.ltb_lt; lia).
      repeat split; lia.
    + replace (ybase t <? scrollback t) with false by (symmetry; apply Z.ltb_ge; lia).
      repeat split; lia.
Qed.

Lemma scroll_keeps_the_shape_of_the_buffer_witness :
  Js.len (lines (scroll fresh)) = ybase (scroll fresh) + rows (scroll fresh)
  /\ 0 <= ybase (scroll fresh) <= scrollback fresh
  /\ ydisp (scroll fresh) = ybase (scroll fresh)
  /\ ybase (scroll fresh)
     = (if scrollTop fresh =? 0 then Z.min (ybase fresh + 1) (scrollback fresh)
        else if ybase fresh <? scrollback fresh then ybase fresh else ybase fresh - 1)
  /\ rows (scroll fresh) = rows fresh.
Proof.
  apply (scroll_keeps_the_shape_of_the_buffer fresh);
    try (vm_compute; reflexivity); try (vm_compute; congruence);
    vm_compute; split; congruence.
Defined.
(** ** Printing text *)

Lemma printable_plain (ch : Z) (t : Terminal) (line : Row) :
  SP <= ch <= 0xff00 -> charset t = None -> insertMode t = false ->
  x t < cols t ->
  Js.get (lines t) (y t + ybase t) = Some line ->
  normalState ch t
  = Ok (updateRange (y t)
          (set_x (x t + 1)
             (set_lines (setRow (y t + ybase t) (Js.set line (x t) (curAttr t, ch))
                                (lines t)) t))).
Proof.
  intros Hch Hcs Hins Hx Hrow.
  rewrite normalState_printable by lia.
  unfold printable, wrapAtMargin. rewrite Hcs. cbn [translate].
  replace (cols t <=? x t) with false by (symmetry; apply Z.leb_gt; lia).
  unfold putGlyph. rewrite (_getRow_existing _ _ _ Hrow).
  unfold makeRoom. rewrite Hins. cbn [bind].
  unfold writeGlyph. rewrite (onRow_ok _ _ _ _ Hrow). cbn [bind].
  replace (isWide ch) with false; [reflexivity |].
  unfold isWide. replace (ch <=? 65280) with true by (symmetry; apply Z.leb_le; lia).
  reflexivity.
Qed.

Lemma get_setRow_other (row k : Z) (line : Row) (ls : list Row) :
  0 <= row < Js.len ls -> k <> row -> Js.get (setRow row line ls) k = Js.get ls k.
Proof.
  unfold Js.len, Js.get, setRow. intros Hrow Hk.
  destruct (k <? 0) eqn:E; [reflexivity |]. apply Z.ltb_ge in E.
  destruct (Nat.lt_ge_cases (Z.to_nat k) (Z.to_nat row)) as [Hlt | Hge].
  - rewrite nth_error_app1 by (rewrite length_firstn; lia).
    rewrite nth_error_firstn.
    replace (Z.to_nat k <? Z.to_nat row)%nat with true
      by (symmetry; apply Nat.ltb_lt; lia).
    reflexivity.
  - rewrite nth_error_app2 by (rewrite length_firstn; lia).
    rewrite length_firstn.
    replace (Nat.min (Z.to_nat row) (length ls)) with (Z.to_nat row) by lia.
    destruct (Z.to_nat k - Z.to_nat row)%nat as [| d] eqn:Ed; [lia |].
    cbn [nth_error]. rewrite nth_error_skipn. f_equal. lia.
Qed.

Lemma updateRange_oldy (v : Z) (t : Terminal) :
  exists r, updateRange v t = set_refr r t /\ r_oldy r = oldy t.
Proof.
  unfold updateRange.
  destruct (v <? refreshStart t).
  - destruct (refreshEnd (set_refreshStart v t) <? v); eexists; split; reflexivity.
  - destruct (refreshEnd t <? v); [eexists; split; reflexivity |].
    exists (refr t). split; [symmetry; apply eta_refr | reflexivity].
Qed.

Lemma text_run (rest : list Z) :
  forall (s : list Z) (t : Terminal) (line : Row),
    state t = STATE_NORMAL -> y t = oldy t ->
    charset t = None -> insertMode t = false ->
    0 <= x t -> x t + Js.len s <= cols t ->
    Js.get (lines t) (y t + ybase t) = Some line -> Js.len line = cols t ->
    Forall (fun ch => SP <= ch <= 0xff00) s ->
    exists (r : Refresh) (l : list Row),
      processLoop (s ++ rest) 0 t
      = processLoop rest 0 (set_refr r (set_x (x t + Js.len s) (set_lines l t)))
      /\ Js.get l (y t + ybase t)
         = Some (firstn (Z.to_nat (x t)) line
                 ++ map (fun ch => Some (curAttr t, ch)) s
                 ++ skipn (Z.to_nat (x t) + length s) line)
      /\ Js.len l = Js.len (lines t)
      /\ (forall k, k <> y t + ybase t -> Js.get l k = Js.get (lines t) k)
      /\ r_oldy r = oldy t.
Proof.
  induction s as [| ch s IH]; intros t line Hst Hy Hcs Hins Hx0 Hx Hrow Hlen Hs.
  - exists (refr t), (lines t). cbn [app map length]. change (Js.len []) with 0.
    rewrite Z.add_0_r, Nat.add_0_r, firstn_skipn.
    split; [| split; [exact Hrow | split; [reflexivity | split; reflexivity]]].
    f_equal. destruct t as [o [l c r yb yd px py st sb tb] p g m mo no a sv rf i].
    reflexivity.
  - inversion Hs as [| ? ? Hch Hs']; subst.
    assert (Lc : Js.len (ch :: s) = 1 + Js.len s) by (unfold Js.len; cbn [length]; lia).
    assert (Ls : 0 <= Js.len s) by (unfold Js.len; lia).
    pose proof (get_Some _ _ _ Hrow) as [Hb _].
    set (l1 := setRow (y t + ybase t) (Js.set line (x t) (curAttr t, ch)) (lines t)).
    destruct (updateRange_oldy (y t) (set_x (x t + 1) (set_lines l1 t))) as (r1 & E1 & O1).
    change (oldy (set_x (x t + 1) (set_lines l1 t))) with (oldy t) in O1.
    assert (Step : oneByte ch (s ++ rest) t
                   = Ok (set_refr r1 (set_x (x t + 1) (set_lines l1 t)), Fwd 0)).
    { unfold oneByte, dispatch. rewrite Hst.
      rewrite (printable_plain ch t line) by (assumption || lia).
      fold l1. rewrite E1. cbn [bind].
      rewrite afterByte_same; [reflexivity |].
      change (y t = r_oldy r1). congruence. }
    cbn [app]. rewrite (loop_step _ _ _ _ _ Step).
    set (t1 := set_refr r1 (set_x (x t + 1) (set_lines l1 t))).
    destruct (IH t1 (Js.set line (x t) (curAttr t, ch)))
      as (r & l & Run & Row' & Len & Oth & Old); try assumption.
    + change (y t = r_oldy r1). congruence.
    + change (x t1) with (x t + 1). lia.
    + change (x t1) with (x t + 1). change (cols t1) with (cols t). lia.
    + change (Js.get l1 (y t + ybase t) = Some (Js.set line (x t) (curAttr t, ch))).
      apply get_setRow. exact Hb.
    + change (cols t1) with (cols t). rewrite set_inside_len by lia. exact Hlen.
    + exists r, l.
      change (x t1) with (x t + 1) in *. change (y t1) with (y t) in *.
      change (ybase t1) with (ybase t) in *. change (curAttr t1) with (curAttr t) in *.
      change (lines t1) with l1 in *.
      change (set_lines l t1) with (set_refr r1 (set_x (x t + 1) (set_lines l t))) in Run.
      change (set_refr r (set_x (x t + 1 + Js.len s)
                           (set_refr r1 (set_x (x t + 1) (set_lines l t)))))
        with (set_refr r (set_x (x t + 1 + Js.len s) (set_lines l t))) in Run.
      change (oldy t1) with (r_oldy r1) in Old.
      split; [| split; [| split; [| split]]].
      * rewrite Run. rewrite Lc. do 3 f_equal. lia.
      * rewrite Row'.
        replace (Z.to_nat (x t + 1)) with (S (Z.to_nat (x t))) by lia.
        rewrite set_inside_firstn by lia.
        rewrite skipn_set_after by lia.
        rewrite <- app_assoc. cbn [map app length].
        replace (S (Z.to_nat (x t)) + length s)%nat
          with (Z.to_nat (x t) + S (length s))%nat by lia.
        reflexivity.
      * rewrite Len. unfold l1. apply len_setRow. exact Hb.
      * intros k Hk. rewrite (Oth k Hk). unfold l1.
        apply get_setRow_other; [exact Hb | exact Hk].
      * congruence.
Qed.

Lemma beforeLoop_keeps (t : Terminal) :
  psr (beforeLoop t) = psr t /\ chs (beforeLoop t) = chs t
  /\ modes (beforeLoop t) = modes t /\ attrs (beforeLoop t) = attrs t
  /\ lines (beforeLoop t) = lines t /\ cols (beforeLoop t) = cols t
  /\ x (beforeLoop t) = x t /\ y (beforeLoop t) = y t
  /\ ybase (beforeLoop t) = ybase t.
Proof.
  unfold beforeLoop. destruct (negb (ybase t =? ydisp t)); repeat split.
Qed.

(** X11.  Printing text.  With the parser idle, no charset in effect and insert
    mode off, a chunk [s] of printable characters (from the space up to
    U+FF00, so none of them wide) that fits between the cursor and the
    margin of a cursor row of [cols] cells is written cell by cell from
    the cursor on in the current attribute: the cells before the cursor
    and after the text are kept, the other rows are not touched, the
    cursor ends right after the text on the same row, and [getLineText]
    reads the text back. *)
Theorem printing_text_writes_it_at_the_cursor (s : list Z) (t : Terminal) (line : Row) :
  state t = STATE_NORMAL -> charset t = None -> insertMode t = false ->
  0 <= x t -> x t + Js.len s <= cols t ->
  Js.get (lines t) (y t + ybase t) = Some line -> Js.len line = cols t ->
  Forall (fun ch => SP <= ch <= 0xff00) s ->
  exists t',
    _processWriteData s t = Ok t'
    /\ x t' = x t + Js.len s /\ y t' = y t /\ ybase t' = ybase t
    /\ Js.get (lines t') (y t + ybase t)
       = Some (firstn (Z.to_nat (x t)) line
               ++ map (fun ch => Some (curAttr t, ch)) s
               ++ skipn (Z.to_nat (x t) + length s) line)
    /\ (forall k, k <> y t + ybase t -> Js.get (lines t') k = Js.get (lines t) k)
    /\ getLineText (y t + ybase t) t'
       = Some (rowText (firstn (Z.to_nat (x t)) line) ++ s
               ++ rowText (skipn (Z.to_nat (x t) + length s) line)).
Proof.
  intros Hst Hcs Hins Hx0 Hx Hrow Hlen Hs.
  destruct (beforeLoop_keeps t) as (K1 & K2 & K3 & K4 & K5 & K6 & K7 & K8 & K9).
  pose proof (beforeLoop_oldy t) as Hy.
  unfold _processWriteData.
  destruct (text_run [] s (beforeLoop t) line) as (r & l & Run & Row' & Len & Oth & _).
  - unfold state. rewrite K1. exact Hst.
  - exact Hy.
  - unfold charset. rewrite K2. exact Hcs.
  - unfold insertMode. rewrite K3. exact Hins.
  - rewrite K7. exact Hx0.
  - rewrite K7, K6. exact Hx.
  - rewrite K5, K8, K9. exact Hrow.
  - rewrite K6. exact Hlen.
  - exact Hs.
  - rewrite app_nil_r in Run. rewrite Run. cbn [processLoop bind].
    rewrite K7, K8, K9 in Row'. rewrite K5 in Len. rewrite K5, K8, K9 in Oth.
    rewrite K7.
    unfold curAttr in Row'. rewrite K4 in Row'. fold (curAttr t) in Row'.
    clear Run Hy K1 K2 K3 K4 K5 K6 K7.
    generalize dependent (beforeLoop t). intros T K8 K9.
    match goal with
    | |- exists t', Ok (updateRange ?v ?u) = Ok t' /\ _ =>
        destruct (updateRange_refr v u) as [r' E]; rewrite E; eexists;
        split; [reflexivity |]
    end.
    split; [reflexivity |]. split; [exact K8 |]. split; [exact K9 |].
    change (lines (set_refr r' (set_refr r (set_x (x t + Js.len s) (set_lines l T)))))
      with l.
    split; [exact Row' |]. split; [exact Oth |].
    unfold getLineText.
    change (lines (set_refr r' (set_refr r (set_x (x t + Js.len s) (set_lines l T)))))
      with l.
    pose proof (get_Some _ _ _ Row') as [Hb _].
    replace (y t + ybase t <? 0) with false by (symmetry; apply Z.ltb_ge; lia).
    replace (Js.len l <=? y t + ybase t) with false by (symmetry; apply Z.leb_gt; lia).
    cbn [orb]. rewrite Row'. cbn [option_map]. f_equal.
    unfold rowText. rewrite !flat_map_app. f_equal. f_equal.
    clear. induction s as [| c s IHs]; [reflexivity |].
    cbn [map flat_map app]. rewrite IHs. reflexivity.
Qed.

Lemma printing_text_writes_it_at_the_cursor_witness :
  exists t',
    _processWriteData (Js.str "hello") fresh = Ok t'
    /\ x t' = x fresh + Js.len (Js.str "hello")
    /\ getLineText (y fresh + ybase fresh) t'
       = Some (rowText (firstn (Z.to_nat (x fresh)) (blankLine false fresh))
               ++ Js.str "hello"
               ++ rowText (skipn (Z.to_nat (x fresh) + length (Js.str "hello"))
                                 (blankLine false fresh))).
Proof.
  destruct (printing_text_writes_it_at_the_cursor (Js.str "hello") fresh
              (blankLine false fresh))
    as (t' & Run & Hx & _ & _ & _ & _ & Htext);
    [vm_compute; reflexivity | vm_compute; reflexivity | vm_compute; reflexivity
    | vm_compute; congruence | vm_compute; congruence | vm_compute; reflexivity
    | vm_compute; reflexivity
    | repeat constructor; vm_compute; congruence |].
  exists t'. split; [exact Run | split; [exact Hx | exact Htext]].
Defined.

(** ** Device status reports *)

Lemma queue_send (data : list Z) (t : Terminal) : queue (send data t) = queue t ++ data.
Proof. reflexivity. Qed.

(** X12.  DSR, for every state of the engine in which the parser is idle: CSI 5 n
    queues the status report ESC [ 0 n; CSI 6 n queues the cursor position
    report ESC [ row ; column R with the row and the column of the cursor
    counted from one and printed in decimal, when the cursor is at a row
    and a column from 0 to below 2^53 (numbers that the code holds exactly
    and prints in full: CHA moves the cursor without a clamp, and from 1e21
    on the code prints the exponent form); and CSI ? 6 n queues nothing. *)
Theorem device_status_reports_the_cursor_position (t : Terminal) :
  state t = STATE_NORMAL -> prefix t = [] ->
  answers (CSI "5n") (ESC :: Js.str "[0n") t
  /\ (0 <= x t < 2 ^ 53 -> 0 <= y t < 2 ^ 53 ->
      answers (CSI "6n")
              (ESC :: Js.str "[" ++ Js.dec (y t + 1) ++ Js.str ";"
               ++ Js.dec (x t + 1) ++ Js.str "R") t)
  /\ answers (CSI "?6n") [] t.
Proof.
  intros Hs Hp. unfold answers, CSI.
  rewrite !_processWriteData_idle by assumption.
  pose proof (beforeLoop_oldy t) as Hy.
  pose proof (queue_beforeLoop t) as Hq.
  destruct (beforeLoop_keeps t) as (_ & _ & _ & _ & _ & _ & Kx & Ky & _).
  generalize dependent (beforeLoop t). intros T Hy Hq Kx Ky.
  cbn [Js.str list_ascii_of_string map].
  change (Z.of_N (N_of_ascii "5")) with 53.
  change (Z.of_N (N_of_ascii "6")) with 54.
  change (Z.of_N (N_of_ascii "n")) with 110.
  change (Z.of_N (N_of_ascii "?")) with 63.
  split; [| split].
  - repeat run_byte Hy. eexists. split; [reflexivity |].
    rewrite queue_updateRange, queue_afterByte.
    lazymatch goal with
    | |- queue (set_postfix [] (set_prefix [] ?X)) = _ =>
        change (queue (set_postfix [] (set_prefix [] X))) with (queue X)
    end.
    lazymatch goal with
    | |- queue (deviceStatus ?ps ?X) = _ =>
        change (deviceStatus ps X) with (send (ESC :: Js.str "[0n") X)
    end.
    rewrite queue_send. change (queue (set_psr _ T)) with (queue T).
    rewrite Hq. reflexivity.
  - intros _ _. repeat run_byte Hy. eexists. split; [reflexivity |].
    rewrite queue_updateRange, queue_afterByte.
    lazymatch goal with
    | |- queue (set_postfix [] (set_prefix [] ?X)) = _ =>
        change (queue (set_postfix [] (set_prefix [] X))) with (queue X)
    end.
    lazymatch goal with
    | |- queue (deviceStatus ?ps ?X) = _ =>
        change (deviceStatus ps X)
          with (send (ESC :: Js.str "[" ++ Js.dec (y T + 1) ++ Js.str ";"
                      ++ Js.dec (x T + 1) ++ Js.str "R") X)
    end.
    rewrite queue_send. change (queue (set_psr _ T)) with (queue T).
    rewrite Hq, Kx, Ky. reflexivity.
  - repeat run_byte Hy. eexists. split; [reflexivity |].
    rewrite queue_updateRange, queue_afterByte.
    lazymatch goal with
    | |- queue (set_postfix [] (set_prefix [] ?X)) = _ =>
        change (queue (set_postfix [] (set_prefix [] X))) with (queue X)
    end.
    change (queue (set_psr _ T)) with (queue T).
    rewrite Hq, app_nil_r. reflexivity.
Qed.

Lemma device_status_reports_the_cursor_position_witness :
  answers (CSI "6n")
          (ESC :: Js.str "[" ++ Js.dec (y (set_y 11 (set_x 41 fresh)) + 1) ++ Js.str ";"
           ++ Js.dec (x (set_y 11 (set_x 41 fresh)) + 1) ++ Js.str "R")
          (set_y 11 (set_x 41 fresh))
  /\ Js.dec (y (set_y 11 (set_x 41 fresh)) + 1) = Js.str "12"
  /\ Js.dec (x (set_y 11 (set_x 41 fresh)) + 1) = Js.str "42".
Proof.
  split; [| split; vm_compute; reflexivity].
  refine (proj1 (proj2 (device_status_reports_the_cursor_position
                          (set_y 11 (set_x 41 fresh)) _ _)) _ _);
    first [ vm_compute; reflexivity
          | vm_compute; split; [discriminate | reflexivity] ].
Defined.
(** ** The write buffers *)

Lemma splice_head {A} (b : A) (bufs : list A) : Js.splice (b :: bufs) 0 1 [] = bufs.
Proof.
  unfold Js.splice, Js.rel, Js.len. cbn [Z.ltb Z.compare length].
  replace (Z.to_nat (Z.min 0 (Z.of_nat (S (length bufs))))) with O by lia.
  replace (Z.to_nat (Z.min (Z.max 1 0) (Z.of_nat (S (length bufs)) - Z.of_nat 0)))
    with 1%nat by lia.
  reflexivity.
Qed.

(** X13.  The head of [_processOneWriteChunk] takes a chunk exactly when there
    is a buffer.  The chunk is at most [MAX_PROCESS_WRITE_SIZE] characters
    long; the chunk followed by what stays buffered is what was buffered,
    in the same order, so that no character is lost, repeated or moved;
    and every call takes a buffer or at least one character away, which is
    why [_flushWriteBuffer] ends. *)
Theorem takeChunk_cuts_the_buffered_data (bufs : list (list Z)) :
  (takeChunk bufs = None <-> bufs = [])
  /\ forall chunk bufs',
       takeChunk bufs = Some (chunk, bufs') ->
       chunk ++ concat bufs' = concat bufs
       /\ Js.len chunk <= MAX_PROCESS_WRITE_SIZE
       /\ (length bufs' + length (concat bufs') < length bufs + length (concat bufs))%nat.
Proof.
  split.
  - destruct bufs as [| b bufs]; [split; reflexivity |].
    unfold takeChunk. destruct (Js.len b <=? MAX_PROCESS_WRITE_SIZE); split; discriminate.
  - intros chunk bufs' H. destruct bufs as [| b bufs]; [discriminate |].
    unfold takeChunk in H. destruct (Js.len b <=? MAX_PROCESS_WRITE_SIZE) eqn:E.
    + apply Z.leb_le in E. rewrite splice_head in H. injection H as <- <-.
      split; [reflexivity |]. split; [exact E |].
      cbn [concat length]. rewrite length_app. lia.
    + apply Z.leb_gt in E. injection H as <- <-.
      unfold Js.sliceTo, Js.slice, Js.rel, MAX_PROCESS_WRITE_SIZE, Js.len in *.
      replace (4096 <? 0) with false by reflexivity.
      replace (Z.to_nat (Z.min 4096 (Z.of_nat (length b)))) with 4096%nat by lia.
      split; [| split].
      * cbn [concat]. rewrite app_assoc, firstn_skipn. reflexivity.
      * rewrite length_firstn. lia.
      * cbn [concat length]. rewrite !length_app, length_skipn. lia.
Qed.
(** ** Reset *)

Lemma getRow_rows (n : nat) :
  forall (j : Z) (t : Terminal),
    0 <= j + ydisp t ->
    for_up_ n j (fun py t => Ok (_getRow (py + ydisp t) t)) t
    = Ok (set_lines
            (lines t
             ++ repeat (blankLine false t)
                       (if (n =? 0)%nat then 0
                        else Z.to_nat (j + Z.of_nat n + ydisp t - Js.len (lines t)))) t).
Proof.
  induction n as [| n IH]; intros j t Hj.
  - cbn [for_up_ Nat.eqb repeat]. rewrite app_nil_r, eta_Terminal. reflexivity.
  - cbn [for_up_ bind]. rewrite IH by (change (ydisp (_getRow ?r t)) with (ydisp t); lia).
    unfold _getRow.
    change (ydisp (set_lines ?l t)) with (ydisp t).
    change (lines (set_lines ?l t)) with l.
    change (blankLine false (set_lines ?l t)) with (blankLine false t).
    change (set_lines ?a (set_lines ?b t)) with (set_lines a t).
    f_equal. f_equal. rewrite <- app_assoc. f_equal. rewrite <- repeat_app. f_equal.
    unfold Js.len. rewrite length_app, repeat_length.
    cbn [Nat.eqb]. destruct n as [| n]; cbn [Nat.eqb]; lia.
Qed.

Lemma resetVariables_facts (t : Terminal) :
  let u := _resetVariables t in
  lines u = (if physicalScroll t then []
             else repeat (repeat (Some (DEFAULT_ATTR, SP)) (Z.to_nat (cols t)))
                         (Z.to_nat (rows t)))
  /\ x u = 0 /\ y u = 0 /\ ybase u = 0 /\ ydisp u = 0
  /\ scrollTop u = 0 /\ scrollBottom u = rows t - 1
  /\ cols u = cols t /\ rows u = rows t
  /\ attrs u = mkAttrs DEFAULT_ATTR DEFAULT_ATTR
  /\ modes u = mkModes false false false false false false false false
  /\ normal u = None
  /\ chs u = mkCharsets None None 0 [None]
  /\ p_state (psr u) = state t /\ opts u = opts t /\ mouse u = mouse t.
Proof.
  destruct t as [[o1 o2 o3 o4 o5 o6 o7] [l c r yb yd px py st sb tb]
                 [s ps cp pre post] g m mo no a sv rf i].
  destruct o6; repeat split.
Qed.


Lemma refresh_of_a_reset_screen (u : Terminal) (ncols nrows : Z) :
  1 <= nrows -> rows u = nrows -> cols u = ncols -> ydisp u = 0 ->
  defAttr u = DEFAULT_ATTR ->
  lines u = (if physicalScroll u then []
             else repeat (repeat (Some (DEFAULT_ATTR, SP)) (Z.to_nat ncols))
                         (Z.to_nat nrows)) ->
  refresh 0 (rows u - 1) u
  = set_lines (repeat (repeat (Some (DEFAULT_ATTR, SP)) (Z.to_nat ncols))
                      (Z.to_nat nrows)) u.
Proof.
  intros Hr R C Yd A L.
  unfold refresh, for_up.
  assert (Hblank : blankLine false u = repeat (Some (DEFAULT_ATTR, SP)) (Z.to_nat ncols)).
  { unfold blankLine. rewrite A, C. reflexivity. }
  rewrite R.
  set (end_ := if negb (physicalScroll u) && (Js.len (lines u) <=? nrows - 1)
               then Js.len (lines u) - 1 else nrows - 1).
  assert (He : end_ = nrows - 1).
  { unfold end_. rewrite L. destruct (physicalScroll u); [reflexivity |].
    cbn [negb andb]. unfold Js.len. rewrite repeat_length.
    replace (Z.of_nat (Z.to_nat nrows) <=? nrows - 1) with false
      by (symmetry; apply Z.leb_gt; lia).
    reflexivity. }
  rewrite He.
  rewrite getRow_rows by (rewrite Yd; lia).
  rewrite Yd, Hblank, L.
  replace (Z.to_nat (nrows - 1 + 1 - 0)) with (Z.to_nat nrows) by lia.
  replace (Z.to_nat nrows =? 0)%nat with false by (symmetry; apply Nat.eqb_neq; lia).
  f_equal. destruct (physicalScroll u).
  - cbn [app]. unfold Js.len. cbn [length]. f_equal. lia.
  - unfold Js.len. rewrite repeat_length.
    match goal with
    | |- _ ++ repeat _ ?k = _ => replace k with 0%nat by lia
    end.
    cbn [repeat]. apply app_nil_r.
Qed.

(** X14.  [reset()], which ESC c and the switch to the alternate screen call,
    gives a blank screen on any engine of at least one row: [lines] holds
    exactly [rows] rows of [cols] blanks in the default attribute, with or
    without physical scrolling; the cursor is at the home position, the
    scrollback is empty, the scroll region is the whole screen, the eight
    flags that [_resetVariables] assigns (application keypad, application
    cursor, origin mode, insert mode, wraparound mode, cursor hidden, the
    blink state of the cursor and the focus) are off, and no
    alternate-screen snapshot is kept; so every row has [cols] cells and
    the cursor is on the screen.  Not reset are the mouse modes, the focus
    reporting and the mouse encodings (their assignments are commented
    out in [_resetVariables]): they are as before, and so are the size of
    the screen and the state of the parser: after ESC c the parser is
    still in the escape state. *)
Theorem reset_gives_a_blank_screen (t : Terminal) :
  1 <= rows t -> 0 <= cols t ->
  lines (reset t)
  = repeat (repeat (Some (DEFAULT_ATTR, SP)) (Z.to_nat (cols t))) (Z.to_nat (rows t))
  /\ x (reset t) = 0 /\ y (reset t) = 0 /\ ybase (reset t) = 0 /\ ydisp (reset t) = 0
  /\ scrollTop (reset t) = 0 /\ scrollBottom (reset t) = rows t - 1
  /\ cols (reset t) = cols t /\ rows (reset t) = rows t
  /\ curAttr (reset t) = DEFAULT_ATTR /\ defAttr (reset t) = DEFAULT_ATTR
  /\ modes (reset t) = mkModes false false false false false false false false
  /\ mouse (reset t) = mouse t
  /\ normal (reset t) = None
  /\ state (reset t) = state t
  /\ rows_have_cols (reset t) = true /\ cursor_in_bounds (reset t) = true.
Proof.
  intros Hr Hc. unfold reset.
  destruct (resetVariables_facts t)
    as (L & X & Y & Yb & Yd & St & Sb & C & R & A & M & N & G & P & Ho & Mo).
  assert (Hphys : physicalScroll (_resetVariables t) = physicalScroll t)
    by (unfold physicalScroll; rewrite Ho; reflexivity).
  rewrite <- Hphys in L. clear Hphys Ho G.
  generalize dependent (_resetVariables t). intros u L X Y Yb Yd St Sb C R A M N P Mo.
  rewrite (refresh_of_a_reset_screen u (cols t) (rows t))
    by (assumption || (unfold defAttr; rewrite A; reflexivity)).
  clear L.
  assert (F : forall l : list Row,
             x (set_lines l u) = x u /\ y (set_lines l u) = y u
             /\ ybase (set_lines l u) = ybase u /\ ydisp (set_lines l u) = ydisp u
             /\ scrollTop (set_lines l u) = scrollTop u
             /\ scrollBottom (set_lines l u) = scrollBottom u
             /\ cols (set_lines l u) = cols u /\ rows (set_lines l u) = rows u
             /\ attrs (set_lines l u) = attrs u /\ modes (set_lines l u) = modes u
             /\ normal (set_lines l u) = normal u /\ psr (set_lines l u) = psr u
             /\ lines (set_lines l u) = l
             /\ mouse (set_lines l u) = mouse u) by (intros l; repeat split).
  set (l := repeat (repeat (Some (DEFAULT_ATTR, SP)) (Z.to_nat (cols t)))
                   (Z.to_nat (rows t))).
  destruct (F l)
    as (F1 & F2 & F3 & F4 & F5 & F6 & F7 & F8 & F9 & F10 & F11 & F12 & F13 & F14).
  unfold rows_have_cols, cursor_in_bounds, curAttr, defAttr, state.
  rewrite F1, F2, F3, F4, F5, F6, F7, F8, F9, F10, F11, F12, F13, F14.
  rewrite X, Y, C, R, A, M, N, P, Yb, Yd, St, Sb, Mo. cbn [a_curAttr a_defAttr].
  do 15 (split; [reflexivity |]).
  split.
  - apply forallb_forall. intros row Hin. apply repeat_spec in Hin. subst row.
    apply Z.eqb_eq. unfold Js.len. rewrite repeat_length. lia.
  - apply andb_true_intro. split; [| apply Z.ltb_lt; lia].
    apply andb_true_intro. split; [| reflexivity].
    apply andb_true_intro. split; [reflexivity | apply Z.leb_le; lia].
Qed.

Lemma reset_gives_a_blank_screen_witness :
  exists t, feed (Js.str "abc" ++ CSI "?1000h" ++ CSI "4h" ++ CSI "5;9H") fresh = Ok t
    /\ x t = 8 /\ y t = 4 /\ insertMode t = true /\ vt200Mouse t = true
    /\ x (reset t) = 0 /\ y (reset t) = 0
    /\ insertMode (reset t) = false /\ vt200Mouse (reset t) = true
    /\ rows_have_cols (reset t) = true /\ cursor_in_bounds (reset t) = true.
Proof.
  assert (E : exists t,
               feed (Js.str "abc" ++ CSI "?1000h" ++ CSI "4h" ++ CSI "5;9H") fresh = Ok t
               /\ x t = 8 /\ y t = 4 /\ insertMode t = true /\ vt200Mouse t = true
               /\ rows t = 24 /\ cols t = 80)
    by (eexists; split; [vm_compute; reflexivity | vm_compute; auto 10]).
  destruct E as (t & Run & Hx & Hy & Hi & Hm & Hr & Hc). exists t.
  destruct (reset_gives_a_blank_screen t)
    as (_ & X & Y & _ & _ & _ & _ & _ & _ & _ & _ & M & Mo & _ & _ & RC & CB);
    [lia | lia |].
  repeat (split; [assumption |]).
  split; [unfold insertMode; rewrite M; reflexivity |].
  split; [unfold vt200Mouse; rewrite Mo; exact Hm |].
  split; [exact RC | exact CB].
Defined.
(** ** Resizing *)

Lemma rows_have_cols_iff (t : Terminal) :
  rows_have_cols t = true <-> allLen (cols t) (lines t).
Proof.
  unfold rows_have_cols, allLen. rewrite forallb_forall, Forall_forall.
  split; intros H r Hr; specialize (H r Hr); apply Z.eqb_eq; exact H.
Qed.

Lemma allLen_repeat_blank (cur : bool) (t : Terminal) (n : nat) :
  0 <= cols t -> allLen (cols t) (repeat (blankLine cur t) n).
Proof.
  intros H. apply Forall_forall. intros r Hr. apply repeat_spec in Hr. subst r.
  unfold blankLine, Js.len. rewrite repeat_length. lia.
Qed.

Lemma resizeLine_len (oldcols newcols : Z) (cell : LineCell) (line : Row) :
  0 <= newcols -> Js.len line = oldcols ->
  Js.len (resizeLine oldcols newcols cell line) = newcols.
Proof.
  intros Hn Hl. unfold resizeLine.
  destruct (oldcols <? newcols) eqn:E1; [apply Z.ltb_lt in E1 | apply Z.ltb_ge in E1].
  - unfold Js.len in *. rewrite length_app, repeat_length. lia.
  - destruct (newcols <? oldcols) eqn:E2; [apply Z.ltb_lt in E2 | apply Z.ltb_ge in E2].
    + replace (newcols <? Js.len line) with true by (symmetry; apply Z.ltb_lt; lia).
      unfold Js.len in *. rewrite length_firstn. lia.
    + lia.
Qed.

Lemma setupStops_frame (i : option Z) (t : Terminal) :
  exists ts, setupStops i t = set_tabs ts t.
Proof.
  unfold setupStops. destruct i as [i |]; eexists; reflexivity.
Qed.

(** Rows without holes, and that they are drawn. *)

Lemma rows_have_cells_iff (t : Terminal) :
  rows_have_cells t = true <-> noHoles (lines t).
Proof.
  unfold rows_have_cells, noHoles. rewrite forallb_forall, Forall_forall. tauto.
Qed.

Lemma cells_render (line : Row) :
  forallb isCell line = true -> forall skip, _lineToHTML_returns skip line = true.
Proof.
  induction line as [| c rest IH]; intros H skip; [reflexivity |].
  cbn [forallb] in H. apply andb_prop in H. destruct H as [Hc Hr].
  cbn [_lineToHTML_returns]. destruct skip; [apply IH; exact Hr |].
  destruct c as [[a ch] |]; [apply IH; exact Hr | discriminate Hc].
Qed.

Lemma cells_app (a b : Row) :
  forallb isCell a = true -> forallb isCell b = true -> forallb isCell (a ++ b) = true.
Proof.
  intros Ha Hb. rewrite forallb_app, Ha, Hb. reflexivity.
Qed.

Lemma cells_repeat (cell : LineCell) (n : nat) :
  forallb isCell (repeat (Some cell) n) = true.
Proof.
  induction n as [| n IH]; [reflexivity | cbn [repeat forallb isCell]; exact IH].
Qed.

Lemma cells_firstn (n : nat) (a : Row) :
  forallb isCell a = true -> forallb isCell (firstn n a) = true.
Proof.
  intros H. rewrite forallb_forall in *. intros c Hc. apply H.
  rewrite <- (firstn_skipn n a). apply in_or_app. left. exact Hc.
Qed.

Lemma cells_skipn (n : nat) (a : Row) :
  forallb isCell a = true -> forallb isCell (skipn n a) = true.
Proof.
  intros H. rewrite forallb_forall in *. intros c Hc. apply H.
  rewrite <- (firstn_skipn n a). apply in_or_app. right. exact Hc.
Qed.

Lemma noHoles_repeat_blank (cur : bool) (t : Terminal) (n : nat) :
  noHoles (repeat (blankLine cur t) n).
Proof.
  apply Forall_forall. intros r Hr. apply repeat_spec in Hr. subst r.
  unfold blankLine. apply cells_repeat.
Qed.

Lemma resizeLine_cells (oldcols newcols : Z) (cell : LineCell) (line : Row) :
  forallb isCell line = true ->
  forallb isCell (resizeLine oldcols newcols cell line) = true.
Proof.
  intros H. unfold resizeLine.
  destruct (oldcols <? newcols).
  - apply cells_app; [exact H | apply cells_repeat].
  - destruct (newcols <? oldcols); [| exact H].
    destruct (newcols <? Js.len line); [apply cells_firstn |]; exact H.
Qed.

(** The cursor, put into a row of [ncols] cells, leaves a row of cells. *)
Lemma cursor_cell_renders (line : Row) (px : Z) :
  forallb isCell line = true -> 0 <= px < Js.len line ->
  match Js.get line px with
  | Some (Some (_, ch)) => _lineToHTML_returns false (Js.set line px (-1, ch))
  | _ => false
  end = true.
Proof.
  intros H Hx. unfold Js.get, Js.len in *.
  replace (px <? 0) with false by (symmetry; apply Z.ltb_ge; lia).
  destruct (nth_error line (Z.to_nat px)) as [c |] eqn:E.
  - assert (Hc : isCell c = true).
    { rewrite forallb_forall in H. apply H. apply (nth_error_In _ _ E). }
    destruct c as [[a ch] |]; [| discriminate Hc].
    apply cells_render. unfold Js.set, Js.put.
    replace (px <? 0) with false by (symmetry; apply Z.ltb_ge; lia).
    replace (Z.to_nat px <? length line)%nat with true
      by (symmetry; apply Nat.ltb_lt; lia).
    apply cells_app; [apply cells_firstn; exact H |].
    cbn [forallb isCell andb]. apply cells_skipn. exact H.
  - apply nth_error_None in E. lia.
Qed.

Lemma refresh_row_draws (py : Z) (u : Terminal) :
  0 <= py + ydisp u -> 0 <= x u -> 0 <= cols u ->
  allLen (cols u) (lines u) -> noHoles (lines u) ->
  refresh_row py u = true.
Proof.
  intros Hrow Hx Hc HL HN. unfold refresh_row. cbv zeta.
  set (row := py + ydisp u) in *.
  assert (HL' : allLen (cols u) (lines (_getRow row u))).
  { unfold _getRow. change (lines (set_lines ?l u)) with l.
    apply Forall_app. split; [exact HL | apply allLen_repeat_blank; exact Hc]. }
  assert (HN' : noHoles (lines (_getRow row u))).
  { unfold _getRow. change (lines (set_lines ?l u)) with l.
    apply Forall_app. split; [exact HN | apply noHoles_repeat_blank]. }
  assert (Hlen : row < Js.len (lines (_getRow row u))).
  { unfold _getRow. change (lines (set_lines ?l u)) with l.
    unfold Js.len. rewrite length_app, repeat_length. unfold Js.len. lia. }
  unfold Js.get at 1.
  replace (row <? 0) with false by (symmetry; apply Z.ltb_ge; lia).
  destruct (nth_error (lines (_getRow row u)) (Z.to_nat row)) as [line |] eqn:E.
  - assert (Hin : In line (lines (_getRow row u))) by (apply (nth_error_In _ _ E)).
    assert (Hl : Js.len line = cols u).
    { unfold allLen in HL'. rewrite Forall_forall in HL'. apply HL'. exact Hin. }
    assert (Hh : forallb isCell line = true).
    { unfold noHoles in HN'. rewrite Forall_forall in HN'. apply HN'. exact Hin. }
    destruct ((py =? y u) && cursorState u && (ydisp u =? ybase u)
              && negb (cursorHidden u) && (x u <? cols u)) eqn:Ecur.
    + apply andb_prop in Ecur. destruct Ecur as [_ Ex]. apply Z.ltb_lt in Ex.
      apply cursor_cell_renders; [exact Hh | lia].
    + apply cells_render. exact Hh.
  - apply nth_error_None in E. unfold Js.len in Hlen. lia.
Qed.

Lemma getRows_draw (ncols : Z) :
  0 <= ncols ->
  forall (n : nat) (j : Z) (u : Terminal),
    0 <= j + ydisp u -> 0 <= x u ->
    cols u = ncols -> allLen ncols (lines u) -> noHoles (lines u) ->
    exists l,
      for_up_ n j (fun py t => if refresh_row py t then Ok (_getRow (py + ydisp t) t)
                               else Err TypeError) u = Ok (set_lines l u)
      /\ for_up_ n j (fun py t => Ok (_getRow (py + ydisp t) t)) u = Ok (set_lines l u)
      /\ allLen ncols l /\ noHoles l.
Proof.
  intros Hpos. induction n as [| n IH]; intros j u Hj Hx Hc HL HN.
  - exists (lines u). cbn [for_up_]. rewrite eta_Terminal.
    repeat split; assumption.
  - cbn [for_up_ bind].
    rewrite (refresh_row_draws j u Hj Hx) by (try rewrite Hc; assumption).
    cbn [bind].
    destruct (IH (j + 1) (_getRow (j + ydisp u) u)) as (l & E1 & E2 & A & N).
    + change (ydisp (_getRow (j + ydisp u) u)) with (ydisp u). lia.
    + exact Hx.
    + exact Hc.
    + unfold _getRow. change (lines (set_lines ?l u)) with l.
      apply Forall_app. split; [exact HL |].
      rewrite <- Hc. apply allLen_repeat_blank. rewrite Hc. exact Hpos.
    + unfold _getRow. change (lines (set_lines ?l u)) with l.
      apply Forall_app. split; [exact HN | apply noHoles_repeat_blank].
    + exists l. rewrite E1, E2. repeat split; assumption.
Qed.

Lemma refresh_draws_rows_of_cells (a b : Z) (u : Terminal) :
  0 <= a -> 0 <= ydisp u -> 0 <= x u -> 0 <= cols u ->
  allLen (cols u) (lines u) -> noHoles (lines u) ->
  refresh_draws a b u = true
  /\ exists l, refresh a b u = set_lines l u /\ allLen (cols u) l /\ noHoles l.
Proof.
  intros Ha Hd Hx Hc HL HN. unfold refresh_draws, refresh, for_up. cbv zeta.
  match goal with
  | |- context [for_up_ ?n ?j (fun py t => Ok (_getRow (py + ydisp t) t)) u] =>
      destruct (getRows_draw (cols u) Hc n j u) as (l & E1 & E2 & A & N);
      [lia | exact Hx | reflexivity | exact HL | exact HN |]
  end.
  rewrite E1, E2. split; [reflexivity |].
  exists l. repeat split; assumption.
Qed.

Lemma grow_rows_cells (ncols bound : Z) :
  0 <= ncols ->
  forall (n : nat) (j : Z) (u : Terminal),
    cols u = ncols -> allLen ncols (lines u) -> noHoles (lines u) ->
    exists l,
      for_up_ n j (fun _ t =>
        Ok (if Js.len (lines t) <? bound + ybase t
            then set_lines (Js.push (lines t) (blankLine false t)) t else t)) u
      = Ok (set_lines l u) /\ allLen ncols l /\ noHoles l.
Proof.
  intros Hpos. induction n as [| n IH]; intros j u Hc H N.
  - exists (lines u). cbn [for_up_]. rewrite eta_Terminal. repeat split; assumption.
  - cbn [for_up_ bind].
    destruct (Js.len (lines u) <? bound + ybase u).
    + destruct (IH (j + 1) (set_lines (Js.push (lines u) (blankLine false u)) u))
        as (l & E & A & N').
      * exact Hc.
      * change (lines (set_lines ?l u)) with l. unfold Js.push.
        apply Forall_app. split; [exact H |].
        rewrite <- Hc. apply (allLen_repeat_blank false u 1). rewrite Hc. exact Hpos.
      * change (lines (set_lines ?l u)) with l. unfold Js.push.
        apply Forall_app. split; [exact N |].
        apply (noHoles_repeat_blank false u 1).
      * exists l. rewrite E. repeat split; assumption.
    + exact (IH (j + 1) u Hc H N).
Qed.

(** X15.  [resize] keeps the buffer and the cursor in shape.  If every row has
    [cols] cells and no row has a hole, the cursor is not left of or above
    the screen, and neither the scrollback nor the scroll position is
    negative, then [resize(newcols, newrows)] returns: the [refresh] it ends
    with, called on the engine [v], draws every row without an error, the
    elements it writes to being the collaborator's.  Afterwards the screen
    is [max(newcols, 1)] by [max(newrows, 1)], every row of [lines] has the
    new number of cells and no hole, the cursor is on a cell of the new
    screen ([x < cols], [y < rows]), the scroll region is the whole screen
    and the alternate-screen snapshot is dropped; the scrollback position is
    not changed.  (A row with a hole has the right length too, but the
    [refresh] of the code throws on it.) *)
Theorem resize_keeps_rows_and_cursor_in_shape (newcols newrows : Z) (t : Terminal) :
  rows_have_cols t = true -> rows_have_cells t = true ->
  0 <= x t -> 0 <= y t -> 0 <= ybase t -> 0 <= ydisp t ->
  exists v t',
    resize newcols newrows t = Ok t'
    /\ (let end_ := if physicalScroll v then Js.len (lines v) - 1 else rows v - 1 in
        t' = set_normal None (refresh 0 end_ v) /\ refresh_draws 0 end_ v = true)
    /\ cols t' = Z.max newcols 1 /\ rows t' = Z.max newrows 1
    /\ rows_have_cols t' = true /\ rows_have_cells t' = true
    /\ 0 <= x t' < cols t' /\ 0 <= y t' < rows t'
    /\ scrollTop t' = 0 /\ scrollBottom t' = rows t' - 1
    /\ normal t' = None
    /\ ybase t' = ybase t /\ ydisp t' = ydisp t.
Proof.
  intros Hrows Hcells Hx Hy Hyb Hyd.
  apply rows_have_cols_iff in Hrows. apply rows_have_cells_iff in Hcells.
  set (NC := Z.max newcols 1). set (NR := Z.max newrows 1).
  assert (HNC : 1 <= NC) by (unfold NC; lia).
  assert (HNR : 1 <= NR) by (unfold NR; lia).
  pose (A := fun t : Terminal =>
    let t := set_lines (map (resizeLine (cols t) NC (defAttr t, SP)) (lines t)) t in
    let t := setupStops (Some (cols t)) t in
    set_cols NC t).
  pose (B := fun t : Terminal =>
    if rows t <? NR then
      if negb (physicalScroll t) then
        for_up (rows t) NR (fun _ t =>
          Ok (if Js.len (lines t) <? NR + ybase t
              then set_lines (Js.push (lines t) (blankLine false t)) t
              else t)) t
      else Ok t
    else if NR <? rows t then
      if NR + ybase t <? 0 then Err Unmodelled
      else Ok (set_lines (firstn (Z.to_nat (NR + ybase t)) (lines t)) t)
    else Ok t).
  pose (C := fun t : Terminal =>
    let t := set_rows NR t in
    let t := if NR <=? y t then set_y (NR - 1) t else t in
    let t := if NC <=? x t then set_x (NC - 1) t else t in
    let t := set_scrollBottom (NR - 1) (set_scrollTop 0 t) in
    let t := refresh 0 (if physicalScroll t then Js.len (lines t) - 1 else rows t - 1) t in
    Ok (set_normal None t)).
  change (resize newcols newrows t) with (bind (B (A t)) C).
  (* the columns *)
  assert (HA : cols (A t) = NC /\ allLen NC (lines (A t)) /\ noHoles (lines (A t))
               /\ x (A t) = x t /\ y (A t) = y t
               /\ ybase (A t) = ybase t /\ ydisp (A t) = ydisp t).
  { unfold A. cbv zeta.
    match goal with
    | |- context [setupStops ?i ?u] => destruct (setupStops_frame i u) as [ts E]; rewrite E
    end.
    split; [reflexivity |]. split; [| split; [| repeat split]].
    - change (allLen NC (map (resizeLine (cols t) NC (defAttr t, SP)) (lines t))).
      unfold allLen in *. apply Forall_map. revert Hrows. apply Forall_impl.
      intros r Hr. apply resizeLine_len; [lia | exact Hr].
    - change (noHoles (map (resizeLine (cols t) NC (defAttr t, SP)) (lines t))).
      unfold noHoles in *. apply Forall_map. revert Hcells. apply Forall_impl.
      intros r Hr. apply resizeLine_cells. exact Hr. }
  destruct HA as (A1 & A2 & A2' & A3 & A4 & A5 & A6).
  generalize dependent (A t). intros u A1 A2 A2' A3 A4 A5 A6.
  (* the rows *)
  assert (HB : exists l, B u = Ok (set_lines l u) /\ allLen NC l /\ noHoles l).
  { unfold B. destruct (rows u <? NR).
    - destruct (negb (physicalScroll u)).
      + unfold for_up. apply grow_rows_cells; [lia | exact A1 | exact A2 | exact A2'].
      + exists (lines u). rewrite eta_Terminal. repeat split; assumption.
    - destruct (NR <? rows u).
      + replace (NR + ybase u <? 0) with false by (symmetry; apply Z.ltb_ge; lia).
        eexists. split; [reflexivity |].
        unfold allLen, noHoles in *.
        split; apply Forall_forall; intros r Hr;
          [refine (proj1 (Forall_forall _ _) A2 r _)
          | refine (proj1 (Forall_forall _ _) A2' r _)];
          rewrite <- (firstn_skipn (Z.to_nat (NR + ybase u)) (lines u));
          apply in_or_app; left; exact Hr.
      + exists (lines u). rewrite eta_Terminal. repeat split; assumption. }
  destruct HB as (l & EB & AB & NB). rewrite EB. cbn [bind].
  (* the cursor, the region, the refresh *)
  unfold C. cbv zeta.
  set (v1 := set_rows NR (set_lines l u)).
  set (v2 := if NR <=? y v1 then set_y (NR - 1) v1 else v1).
  set (v3 := if NC <=? x v2 then set_x (NC - 1) v2 else v2).
  set (v4 := set_scrollBottom (NR - 1) (set_scrollTop 0 v3)).
  assert (H4 : cols v4 = NC /\ rows v4 = NR /\ lines v4 = l
               /\ 0 <= x v4 < NC /\ 0 <= y v4 < NR
               /\ scrollTop v4 = 0 /\ scrollBottom v4 = NR - 1
               /\ ybase v4 = ybase t /\ ydisp v4 = ydisp t).
  { unfold v4, v3, v2, v1.
    change (y (set_rows NR (set_lines l u))) with (y u). rewrite A4.
    destruct (NR <=? y t) eqn:Ey; [apply Z.leb_le in Ey | apply Z.leb_gt in Ey].
    - change (x (set_y (NR - 1) (set_rows NR (set_lines l u)))) with (x u). rewrite A3.
      destruct (NC <=? x t) eqn:Ex; [apply Z.leb_le in Ex | apply Z.leb_gt in Ex].
      + repeat split; try assumption; cbn; lia.
      + repeat split; try assumption;
          try (change (0 <= x u); lia); try (change (x u < NC); lia); cbn; lia.
    - change (x (set_rows NR (set_lines l u))) with (x u). rewrite A3.
      destruct (NC <=? x t) eqn:Ex; [apply Z.leb_le in Ex | apply Z.leb_gt in Ex].
      + repeat split; try assumption;
          try (change (0 <= y u); lia); try (change (y u < NR); lia); cbn; lia.
      + repeat split; try assumption;
          try (change (0 <= x u); lia); try (change (x u < NC); lia);
          try (change (0 <= y u); lia); try (change (y u < NR); lia). }
  destruct H4 as (C1 & C2 & C3 & C4 & C5 & C6 & C7 & C8 & C9).
  clearbody v4. clear v1 v2 v3.
  exists v4. eexists. split; [reflexivity |].
  match goal with
  | |- context [refresh ?a ?b v4] =>
      destruct (refresh_draws_rows_of_cells a b v4) as (D & l' & E & A' & N');
      [lia | lia | lia | lia | rewrite C1, C3; exact AB | rewrite C3; exact NB |]
  end.
  split; [split; [reflexivity | exact D] |].
  rewrite E.
  assert (F : cols (set_normal None (set_lines l' v4)) = cols v4
              /\ rows (set_normal None (set_lines l' v4)) = rows v4
              /\ lines (set_normal None (set_lines l' v4)) = l'
              /\ x (set_normal None (set_lines l' v4)) = x v4
              /\ y (set_normal None (set_lines l' v4)) = y v4
              /\ scrollTop (set_normal None (set_lines l' v4)) = scrollTop v4
              /\ scrollBottom (set_normal None (set_lines l' v4)) = scrollBottom v4
              /\ ybase (set_normal None (set_lines l' v4)) = ybase v4
              /\ ydisp (set_normal None (set_lines l' v4)) = ydisp v4) by (repeat split).
  destruct F as (F1 & F2 & F3 & F4 & F5 & F6 & F7 & F8 & F9).
  rewrite rows_have_cols_iff, rows_have_cells_iff, F1, F2, F3, F4, F5, F6, F7, F8, F9.
  rewrite C1 in *. rewrite C2.
  repeat split; try assumption; try lia.
Qed.

Lemma resize_keeps_rows_and_cursor_in_shape_witness :
  rows_have_cols (set_y 20 (set_x 70 lettered)) = true
  /\ rows_have_cells (set_y 20 (set_x 70 lettered)) = true
  /\ exists t',
       resize 40 10 (set_y 20 (set_x 70 lettered)) = Ok t'
       /\ cols t' = Z.max 40 1 /\ rows t' = Z.max 10 1
       /\ rows_have_cols t' = true /\ rows_have_cells t' = true
       /\ 0 <= x t' < cols t' /\ 0 <= y t' < rows t'.
Proof.
  split; [vm_compute; reflexivity |]. split; [vm_compute; reflexivity |].
  destruct (resize_keeps_rows_and_cursor_in_shape 40 10 (set_y 20 (set_x 70 lettered)))
    as (v & t' & E & _ & H1 & H2 & H3 & H4 & H5 & H6 & _);
    [vm_compute; reflexivity | vm_compute; reflexivity | vm_compute; congruence
    | vm_compute; congruence | vm_compute; congruence | vm_compute; congruence |].
  exists t'. repeat (split; [assumption |]). exact H6.
Defined.

(** ** Setting the title *)

Section OscSteps.
Variable t : Terminal.
Hypothesis Hy : y t = oldy t.
Variables (pre post rest : list Z).

Lemma step_osc_open (ps : list Param) (cp : Param) :
  oneByte 93 rest (set_psr (mkParser STATE_ESCAPE ps cp pre post) t)
  = Ok (set_psr (mkParser STATE_OSC [] (PNum 0) pre post) t, Fwd 0).
Proof.
  unfold oneByte, dispatch.
  change (state (set_psr (mkParser STATE_ESCAPE ps cp pre post) t)) with STATE_ESCAPE.
  cbv beta iota.
  change (_processDataEscape 93 (set_psr (mkParser STATE_ESCAPE ps cp pre post) t))
    with (set_psr (mkParser STATE_OSC [] (PNum 0) pre post) t, Fwd 0).
  cbn [bind]. rewrite afterByte_same by exact Hy. reflexivity.
Qed.

Lemma step_osc_digit (ch n : Z) :
  isDigit ch = true ->
  oneByte ch rest (set_psr (mkParser STATE_OSC [] (PNum n) pre post) t)
  = Ok (set_psr (mkParser STATE_OSC [] (PNum (n * 10 + ch - 48)) pre post) t, Fwd 0).
Proof.
  intros Hd. unfold oneByte, dispatch.
  change (state (set_psr (mkParser STATE_OSC [] (PNum n) pre post) t)) with STATE_OSC.
  cbv beta iota. unfold _processDataOSC.
  replace ((ch =? ESC) || (ch =? BEL)) with false.
  2:{ unfold isDigit in Hd. apply andb_prop in Hd. destruct Hd as [H1 H2].
      apply Z.leb_le in H1, H2. symmetry. unfold ESC, BEL.
      apply orb_false_intro; apply Z.eqb_neq; lia. }
  change (params (set_psr (mkParser STATE_OSC [] (PNum n) pre post) t)) with (@nil Param).
  cbv beta iota. rewrite Hd.
  change (currentParam (set_psr (mkParser STATE_OSC [] (PNum n) pre post) t)) with (PNum n).
  cbv beta iota.
  change (set_currentParam (PNum (n * 10 + ch - 48))
            (set_psr (mkParser STATE_OSC [] (PNum n) pre post) t))
    with (set_psr (mkParser STATE_OSC [] (PNum (n * 10 + ch - 48)) pre post) t).
  cbn [bind]. rewrite afterByte_same by exact Hy. reflexivity.
Qed.

Lemma step_osc_semicolon (cp : Param) :
  oneByte 59 rest (set_psr (mkParser STATE_OSC [] cp pre post) t)
  = Ok (set_psr (mkParser STATE_OSC [cp] (PStr []) pre post) t, Fwd 0).
Proof.
  unfold oneByte, dispatch.
  change (state (set_psr (mkParser STATE_OSC [] cp pre post) t)) with STATE_OSC.
  cbv beta iota. unfold _processDataOSC.
  change ((59 =? ESC) || (59 =? BEL)) with false. cbv beta iota.
  change (params (set_psr (mkParser STATE_OSC [] cp pre post) t)) with (@nil Param).
  cbv beta iota. change (isDigit 59) with false. cbv beta iota.
  change (59 =? 59) with true. cbv beta iota.
  change (set_currentParam (PStr []) _)
    with (set_psr (mkParser STATE_OSC [cp] (PStr []) pre post) t).
  cbn [bind]. rewrite afterByte_same by exact Hy. reflexivity.
Qed.

Lemma step_osc_text (ch : Z) (p0 : Param) (s : list Z) :
  ch <> ESC -> ch <> BEL ->
  oneByte ch rest (set_psr (mkParser STATE_OSC [p0] (PStr s) pre post) t)
  = Ok (set_psr (mkParser STATE_OSC [p0] (PStr (s ++ [ch])) pre post) t, Fwd 0).
Proof.
  intros H1 H2. unfold oneByte, dispatch.
  change (state (set_psr (mkParser STATE_OSC [p0] (PStr s) pre post) t)) with STATE_OSC.
  cbv beta iota. unfold _processDataOSC.
  replace ((ch =? ESC) || (ch =? BEL)) with false
    by (symmetry; apply orb_false_intro; apply Z.eqb_neq; assumption).
  change (params (set_psr (mkParser STATE_OSC [p0] (PStr s) pre post) t)) with [p0].
  cbv beta iota.
  change (set_currentParam _ (set_psr (mkParser STATE_OSC [p0] (PStr s) pre post) t))
    with (set_psr (mkParser STATE_OSC [p0] (PStr (s ++ [ch])) pre post) t).
  cbn [bind]. rewrite afterByte_same by exact Hy. reflexivity.
Qed.

Lemma step_osc_end (ch n : Z) (s : list Z) :
  ch = ESC \/ ch = BEL -> n = 0 \/ n = 1 \/ n = 2 -> s <> [] ->
  oneByte ch rest (set_psr (mkParser STATE_OSC [PNum n] (PStr s) pre post) t)
  = Ok (set_psr (mkParser STATE_NORMAL [] (PNum 0) pre post)
                (emit (Title (PStr s)) (set_title (PStr s) t)),
        Fwd (if ch =? ESC then 1 else 0)).
Proof.
  intros Hch Hn Hs. unfold oneByte, dispatch.
  change (state (set_psr (mkParser STATE_OSC [PNum n] (PStr s) pre post) t)) with STATE_OSC.
  cbv beta iota. unfold _processDataOSC.
  replace ((ch =? ESC) || (ch =? BEL)) with true
    by (destruct Hch as [-> | ->]; reflexivity).
  cbv zeta.
  change (params (set_params _ _)) with ([PNum n] ++ [PStr s]).
  cbn [app].
  replace ((n =? 0) || (n =? 1) || (n =? 2)) with true
    by (destruct Hn as [-> | [-> | ->]]; reflexivity).
  destruct s as [| c s']; [contradiction |]. cbn [falsy].
  cbn [bind].
  change (y (set_psr ?p ?u)) with (y u). 
  rewrite afterByte_same; [reflexivity |]. exact Hy.
Qed.
End OscSteps.

Lemma osc_text_run (t : Terminal) (p0 : Param) (pre post : list Z) :
  y t = oldy t ->
  forall (text s rest : list Z),
    Forall (fun c => c <> ESC /\ c <> BEL) text ->
    processLoop (text ++ rest) 0 (set_psr (mkParser STATE_OSC [p0] (PStr s) pre post) t)
    = processLoop rest 0 (set_psr (mkParser STATE_OSC [p0] (PStr (s ++ text)) pre post) t).
Proof.
  intros Hy. induction text as [| c text IH]; intros s rest Htext.
  - rewrite app_nil_r. reflexivity.
  - inversion Htext as [| ? ? [H1 H2] Htext']; subst. cbn [app].
    erewrite loop_step by (apply step_osc_text; assumption).
    rewrite IH by exact Htext'. rewrite <- app_assoc. reflexivity.
Qed.

(** X16.  OSC 0, 1 and 2 set the title.  With the parser idle, ESC ] d ; text
    followed by BEL, or by ESC and one more character (the backslash of
    ST), where [d] is the digit 0, 1 or 2 and [text] is not empty and holds
    neither ESC nor BEL, makes [text] the title and emits the title event
    with it, once; the parser is idle again, and the screen, the cursor
    and the bytes queued for the host are as before. *)
Theorem osc_sets_the_title (d : Z) (text : list Z) (t : Terminal) :
  state t = STATE_NORMAL ->
  d = 48 \/ d = 49 \/ d = 50 ->
  text <> [] -> Forall (fun c => c <> ESC /\ c <> BEL) text ->
  forall tail : list Z, tail = [BEL] \/ tail = [ESC; 92] ->
  exists t',
    _processWriteData (ESC :: 93 :: d :: 59 :: text ++ tail) t = Ok t'
    /\ title t' = PStr text
    /\ emitted t' = emitted t ++ [Title (PStr text)]
    /\ state t' = STATE_NORMAL
    /\ lines t' = lines t /\ x t' = x t /\ y t' = y t /\ queue t' = queue t.
Proof.
  intros Hs Hd Hne Htext tail Htail.
  destruct (beforeLoop_keeps t) as (K1 & _ & _ & _ & K5 & _ & K7 & K8 & _).
  pose proof (beforeLoop_oldy t) as Hy.
  pose proof (queue_beforeLoop t) as Hq.
  assert (Hem : emitted (beforeLoop t) = emitted t).
  { unfold beforeLoop. destruct (negb (ybase t =? ydisp t)); reflexivity. }
  assert (Hs' : state (beforeLoop t) = STATE_NORMAL) by (unfold state; rewrite K1; exact Hs).
  unfold _processWriteData.
  clear K1.
  generalize dependent (beforeLoop t). intros T K5 K7 K8 Hy Hq Hem Hs'.
  match goal with
  | |- context [processLoop ?data 0 T] =>
      assert (Run0 : processLoop data 0 T
                     = processLoop data 0
                         (set_psr (mkParser STATE_NORMAL (params T) (currentParam T)
                                            (prefix T) (postfix T)) T))
        by (rewrite <- Hs', <- psr_eta; reflexivity);
      rewrite Run0; clear Run0
  end.
  erewrite loop_step by (apply step_ESC; exact Hy).
  erewrite loop_step by (apply step_osc_open; exact Hy).
  erewrite loop_step
    by (apply step_osc_digit; [exact Hy | destruct Hd as [-> | [-> | ->]]; reflexivity]).
  erewrite loop_step by (apply step_osc_semicolon; exact Hy).
  rewrite osc_text_run by assumption. cbn [app].
  assert (Hn : 0 * 10 + d - 48 = 0 \/ 0 * 10 + d - 48 = 1 \/ 0 * 10 + d - 48 = 2) by lia.
  destruct Htail as [-> | ->].
  - erewrite loop_step by (apply step_osc_end; [exact Hy | right; reflexivity | exact Hn | exact Hne]).
    change (if BEL =? ESC then 1%nat else 0%nat) with 0%nat.
    cbn [processLoop bind].
    match goal with
    | |- exists t', Ok (updateRange ?v ?u) = Ok t' /\ _ =>
        destruct (updateRange_refr v u) as [r E]; rewrite E
    end.
    eexists. split; [reflexivity |].
    repeat split; try assumption.
    change (emitted T ++ [Title (PStr text)] = emitted t ++ [Title (PStr text)]).
    rewrite Hem. reflexivity.
  - erewrite loop_step by (apply step_osc_end; [exact Hy | left; reflexivity | exact Hn | exact Hne]).
    change (if ESC =? ESC then 1%nat else 0%nat) with 1%nat.
    cbn [processLoop bind].
    match goal with
    | |- exists t', Ok (updateRange ?v ?u) = Ok t' /\ _ =>
        destruct (updateRange_refr v u) as [r E]; rewrite E
    end.
    eexists. split; [reflexivity |].
    repeat split; try assumption.
    change (emitted T ++ [Title (PStr text)] = emitted t ++ [Title (PStr text)]).
    rewrite Hem. reflexivity.
Qed.

Lemma osc_sets_the_title_witness :
  exists t',
    _processWriteData (ESC :: 93 :: 50 :: 59 :: Js.str "vim: notes.txt" ++ [ESC; 92]) fresh
    = Ok t'
    /\ title t' = PStr (Js.str "vim: notes.txt")
    /\ emitted t' = emitted fresh ++ [Title (PStr (Js.str "vim: notes.txt"))].
Proof.
  destruct (osc_sets_the_title 50 (Js.str "vim: notes.txt") fresh) with (tail := [ESC; 92])
    as (t' & E & H1 & H2 & _);
    [vm_compute; reflexivity | right; right; reflexivity | discriminate
    | repeat constructor; vm_compute; discriminate | right; reflexivity |].
  exists t'. split; [exact E | split; [exact H1 | exact H2]].
Defined.
(** ** Erasing the screen *)

Lemma eraseLine_spec (j : Z) (t : Terminal) (line : Row) :
  0 <= cols t ->
  Js.get (lines t) (ybase t + j) = Some line -> Js.len line = cols t ->
  eraseLine j t
  = Ok (updateRange j
          (set_lines (setRow (ybase t + j)
                             (repeat (Some (eraseAttr t, SP)) (Z.to_nat (cols t)))
                             (lines t)) t)).
Proof.
  intros Hc Hrow Hlen. unfold eraseLine, eraseRight, fillRight.
  rewrite (_getRow_existing _ _ _ Hrow).
  destruct (0 <? cols t) eqn:E; [apply Z.ltb_lt in E | apply Z.ltb_ge in E].
  - rewrite (onRow_ok _ _ _ _ Hrow). cbn [bind]. do 3 f_equal.
    rewrite fill_from_spec by lia.
    rewrite (skipn_all2 line) by (unfold Js.len in Hlen; lia).
    rewrite app_nil_r. cbn [Z.to_nat firstn app]. rewrite Z.sub_0_r. reflexivity.
  - cbn [bind]. do 2 f_equal.
    assert (Hz : cols t = 0) by lia. rewrite Hz. cbn [Z.to_nat repeat].
    assert (line = []) by (destruct line; [reflexivity | unfold Js.len in Hlen; cbn in Hlen; lia]).
    subst line.
    transitivity (set_lines (lines t) t); [symmetry; apply eta_Terminal |].
    f_equal. symmetry. exact (setRow_same _ _ _ Hrow).
Qed.

Lemma setRow_last_of_prefix (k : nat) (B : Row) (L : list Row) (m : nat) :
  (k < length L)%nat ->
  setRow (Z.of_nat k) B (firstn (S k) L ++ repeat B m) = firstn k L ++ repeat B (S m).
Proof.
  intros Hk. unfold setRow. rewrite Nat2Z.id.
  rewrite firstn_app, length_firstn.
  replace (Nat.min (S k) (length L)) with (S k) by lia.
  replace (k - S k)%nat with O by lia. rewrite firstn_O, app_nil_r.
  rewrite firstn_firstn. replace (Nat.min k (S k)) with k by lia.
  f_equal. cbn [repeat]. f_equal.
  rewrite skipn_app, length_firstn.
  replace (Nat.min (S k) (length L)) with (S k) by lia.
  rewrite Nat.sub_diag, skipn_O.
  rewrite skipn_all2 by (rewrite length_firstn; lia). reflexivity.
Qed.

Lemma erase_rows_down (t : Terminal) (L : list Row) :
  0 <= cols t -> 0 <= ybase t -> allLen (cols t) L ->
  let B := repeat (Some (eraseAttr t, SP)) (Z.to_nat (cols t)) in
  forall (n m : nat) (r : Refresh),
    (Z.to_nat (ybase t) + n <= length L)%nat ->
    exists r',
      countdown_ n eraseLine
        (set_refr r (set_lines (firstn (Z.to_nat (ybase t) + n) L ++ repeat B m) t))
      = Ok (set_refr r' (set_lines (firstn (Z.to_nat (ybase t)) L ++ repeat B (n + m)) t)).
Proof.
  intros Hc Hyb HL B. induction n as [| n IH]; intros m r Hn.
  - exists r. cbn [countdown_]. rewrite Nat.add_0_r. reflexivity.
  - cbn [countdown_].
    set (k := (Z.to_nat (ybase t) + n)%nat).
    set (u := set_refr r (set_lines (firstn (Z.to_nat (ybase t) + S n) L ++ repeat B m) t)).
    assert (Hk : (k < length L)%nat) by (unfold k; lia).
    destruct (nth_error L k) as [line |] eqn:En;
      [| apply nth_error_None in En; lia].
    assert (Hline : Js.len line = cols t).
    { unfold allLen in HL. rewrite Forall_forall in HL. apply HL.
      eapply nth_error_In. exact En. }
    assert (Hrow : Js.get (lines u) (ybase u + Z.of_nat n) = Some line).
    { change (lines u) with (firstn (Z.to_nat (ybase t) + S n) L ++ repeat B m).
      change (ybase u) with (ybase t). unfold Js.get.
      replace (ybase t + Z.of_nat n <? 0) with false by (symmetry; apply Z.ltb_ge; lia).
      replace (Z.to_nat (ybase t + Z.of_nat n)) with k by (unfold k; lia).
      rewrite nth_error_app1 by (rewrite length_firstn; lia).
      rewrite nth_error_firstn.
      replace (k <? Z.to_nat (ybase t) + S n)%nat with true
        by (symmetry; apply Nat.ltb_lt; unfold k; lia).
      exact En. }
    rewrite (eraseLine_spec _ u line) by (exact Hc || exact Hrow || exact Hline).
    cbn [bind].
    destruct (updateRange_refr (Z.of_nat n)
                (set_lines (setRow (ybase u + Z.of_nat n)
                                   (repeat (Some (eraseAttr u, SP)) (Z.to_nat (cols u)))
                                   (lines u)) u)) as [r1 E1].
    rewrite E1.
    change (eraseAttr u) with (eraseAttr t). change (cols u) with (cols t).
    change (ybase u) with (ybase t).
    change (lines u) with (firstn (Z.to_nat (ybase t) + S n) L ++ repeat B m).
    fold B.
    replace (ybase t + Z.of_nat n) with (Z.of_nat k) by (unfold k; lia).
    replace (Z.to_nat (ybase t) + S n)%nat with (S k) by (unfold k; lia).
    rewrite setRow_last_of_prefix by exact Hk.
    change (set_refr r1 (set_lines ?l u)) with (set_refr r1 (set_lines l t)).
    destruct (IH (S m) r1) as [r' E']; [lia |].
    exists r'. replace (S n + m)%nat with (n + S m)%nat by lia. exact E'.
Qed.

(** X17.  ED 2 (CSI 2 J) clears the screen and only the screen.  On a buffer
    that holds exactly the [ybase] rows of the scrollback and the [rows]
    rows of the screen, all of [cols] cells, [eraseInDisplay [2]] returns
    with every row of the screen replaced by [cols] blanks in the erase
    attribute; the rows of the scrollback, the cursor and everything else
    but the range of rows to refresh are as before. *)
Theorem eraseInDisplay_2_blanks_the_screen (t : Terminal) :
  0 <= cols t -> 0 <= rows t -> 0 <= ybase t ->
  Js.len (lines t) = ybase t + rows t -> rows_have_cols t = true ->
  exists r,
    eraseInDisplay [2] t
    = Ok (set_refr r
            (set_lines
               (firstn (Z.to_nat (ybase t)) (lines t)
                ++ repeat (repeat (Some (eraseAttr t, SP)) (Z.to_nat (cols t)))
                          (Z.to_nat (rows t))) t)).
Proof.
  intros Hc Hr Hyb Hlen Hrows. apply rows_have_cols_iff in Hrows.
  cbn [eraseInDisplay]. unfold countdown.
  replace (rows t <? 0) with false by (symmetry; apply Z.ltb_ge; lia).
  destruct (erase_rows_down t (lines t) Hc Hyb Hrows (Z.to_nat (rows t)) 0 (refr t))
    as [r' E]; [unfold Js.len in Hlen; lia |].
  cbn [repeat] in E. rewrite app_nil_r in E.
  rewrite firstn_all2 in E by (unfold Js.len in Hlen; lia).
  rewrite eta_Terminal, eta_refr, Nat.add_0_r in E.
  exists r'. exact E.
Qed.

Lemma eraseInDisplay_2_blanks_the_screen_witness :
  exists r,
    eraseInDisplay [2] (set_x 5 fresh)
    = Ok (set_refr r
            (set_lines
               (firstn (Z.to_nat (ybase (set_x 5 fresh))) (lines (set_x 5 fresh))
                ++ repeat (repeat (Some (eraseAttr (set_x 5 fresh), SP))
                                  (Z.to_nat (cols (set_x 5 fresh))))
                          (Z.to_nat (rows (set_x 5 fresh)))) (set_x 5 fresh))).
Proof.
  apply (eraseInDisplay_2_blanks_the_screen (set_x 5 fresh));
    try (vm_compute; congruence); vm_compute; reflexivity.
Defined.

(** ** Application mode *)

Lemma eqs_iff (a b : list Z) : Js.eqs a b = true <-> a = b.
Proof.
  revert b. induction a as [| c a IH]; intros [| d b]; cbn [Js.eqs]; split;
    try reflexivity; try discriminate.
  - intros H. apply andb_prop in H. destruct H as [H1 H2].
    apply Z.eqb_eq in H1. apply IH in H2. subst. reflexivity.
  - intros H. injection H as -> ->. rewrite Z.eqb_refl. cbn [andb].
    apply IH. reflexivity.
Qed.

Lemma cookieChar_plain (ch : Z) : cookieChar ch = true -> ch <> 59 /\ ch <> BEL.
Proof.
  unfold cookieChar, isDigit, BEL. intros H. split; intros ->; discriminate H.
Qed.

Section AppSteps.
Variable t : Terminal.
Hypothesis Hy : y t = oldy t.
Variables (pre post rest : list Z).

Lemma step_app_open (ps : list Param) (cp : Param) :
  oneByte 38 rest (set_psr (mkParser STATE_ESCAPE ps cp pre post) t)
  = Ok (set_psr (mkParser STATE_APPLICATION_START [] (PStr []) pre post) t, Fwd 0).
Proof.
  unfold oneByte, dispatch.
  change (state (set_psr (mkParser STATE_ESCAPE ps cp pre post) t)) with STATE_ESCAPE.
  cbv beta iota.
  change (_processDataEscape 38 (set_psr (mkParser STATE_ESCAPE ps cp pre post) t))
    with (set_psr (mkParser STATE_APPLICATION_START [] (PStr []) pre post) t, Fwd 0).
  cbn [bind]. rewrite afterByte_same by exact Hy. reflexivity.
Qed.

Lemma step_app_char (ch : Z) (ps : list Param) (s : list Z) :
  cookieChar ch = true ->
  oneByte ch rest (set_psr (mkParser STATE_APPLICATION_START ps (PStr s) pre post) t)
  = Ok (set_psr (mkParser STATE_APPLICATION_START ps (PStr (s ++ [ch])) pre post) t, Fwd 0).
Proof.
  intros Hc. unfold oneByte, dispatch.
  change (state (set_psr (mkParser STATE_APPLICATION_START ps (PStr s) pre post) t))
    with STATE_APPLICATION_START.
  cbv beta iota. unfold _processDataApplicationStart.
  unfold cookieChar in Hc. rewrite Hc.
  change (set_currentParam _ (set_psr (mkParser STATE_APPLICATION_START ps (PStr s) pre post) t))
    with (set_psr (mkParser STATE_APPLICATION_START ps (PStr (s ++ [ch])) pre post) t).
  cbn [bind]. rewrite afterByte_same by exact Hy. reflexivity.
Qed.

Lemma step_app_semicolon (ps : list Param) (s : list Z) :
  oneByte 59 rest (set_psr (mkParser STATE_APPLICATION_START ps (PStr s) pre post) t)
  = Ok (set_psr (mkParser STATE_APPLICATION_START (ps ++ [PStr s]) (PStr []) pre post) t,
        Fwd 0).
Proof.
  unfold oneByte, dispatch.
  change (state (set_psr (mkParser STATE_APPLICATION_START ps (PStr s) pre post) t))
    with STATE_APPLICATION_START.
  cbv beta iota. unfold _processDataApplicationStart.
  change (((97 <=? 59) && (59 <=? 122)) || ((65 <=? 59) && (59 <=? 90)) || isDigit 59
          || (59 =? 45) || (59 =? 47)) with false.
  cbv beta iota. change (59 =? 59) with true. cbv beta iota.
  change (set_currentParam (PStr []) _)
    with (set_psr (mkParser STATE_APPLICATION_START (ps ++ [PStr s]) (PStr []) pre post) t).
  cbn [bind]. rewrite afterByte_same by exact Hy. reflexivity.
Qed.

Lemma step_app_bel (ps : list Param) (s : list Z) :
  oneByte BEL rest (set_psr (mkParser STATE_APPLICATION_START ps (PStr s) pre post) t)
  = Ok (if isCookie (hd_error (ps ++ [PStr s])) (applicationModeCookie t)
        then emit (ApplicationModeStart (ps ++ [PStr s]))
                  (set_psr (mkParser STATE_APPLICATION_END (ps ++ [PStr s]) (PStr s) pre post) t)
        else set_psr (mkParser STATE_NORMAL (ps ++ [PStr s]) (PStr s) pre post) t,
        Fwd 0).
Proof.
  unfold oneByte, dispatch.
  change (state (set_psr (mkParser STATE_APPLICATION_START ps (PStr s) pre post) t))
    with STATE_APPLICATION_START.
  cbv beta iota. unfold _processDataApplicationStart.
  change (((97 <=? BEL) && (BEL <=? 122)) || ((65 <=? BEL) && (BEL <=? 90)) || isDigit BEL
          || (BEL =? 45) || (BEL =? 47)) with false.
  cbv beta iota. change (BEL =? 59) with false. cbv beta iota.
  rewrite Z.eqb_refl. cbv zeta.
  change (params (set_params _ _)) with (ps ++ [PStr s]).
  change (applicationModeCookie (set_params _ _)) with (applicationModeCookie t).
  destruct (isCookie (hd_error (ps ++ [PStr s])) (applicationModeCookie t));
    cbn [bind]; rewrite afterByte_same by exact Hy; reflexivity.
Qed.

Lemma step_app_data (ch : Z) (ps : list Param) (cp : Param) :
  oneByte ch rest (set_psr (mkParser STATE_APPLICATION_END ps cp pre post) t)
  = Ok match Js.indexOf (ch :: rest) NUL with
       | None => (emit (ApplicationModeData (ch :: rest))
                       (set_psr (mkParser STATE_APPLICATION_END ps cp pre post) t),
                  Fwd (length rest))
       | Some O => (set_psr (mkParser STATE_NORMAL ps cp pre post) (emit ApplicationModeEnd t),
                    Fwd 0)
       | Some (S k) => (emit (ApplicationModeData (ch :: firstn k rest))
                             (set_psr (mkParser STATE_APPLICATION_END ps cp pre post) t),
                        Fwd k)
       end.
Proof.
  unfold oneByte, dispatch.
  change (state (set_psr (mkParser STATE_APPLICATION_END ps cp pre post) t))
    with STATE_APPLICATION_END.
  cbv beta iota. unfold _processDataApplicationEnd.
  destruct (Js.indexOf (ch :: rest) NUL) as [[| k] |];
    cbn [bind]; rewrite afterByte_same by exact Hy; reflexivity.
Qed.

Lemma step_app_data_all (ch : Z) (ps : list Param) (cp : Param) :
  Js.indexOf (ch :: rest) NUL = None ->
  oneByte ch rest (set_psr (mkParser STATE_APPLICATION_END ps cp pre post) t)
  = Ok (emit (ApplicationModeData (ch :: rest))
             (set_psr (mkParser STATE_APPLICATION_END ps cp pre post) t),
        Fwd (length rest)).
Proof. intros H. rewrite step_app_data, H. reflexivity. Qed.

Lemma step_app_data_upto (ch : Z) (k : nat) (ps : list Param) (cp : Param) :
  Js.indexOf (ch :: rest) NUL = Some (S k) ->
  oneByte ch rest (set_psr (mkParser STATE_APPLICATION_END ps cp pre post) t)
  = Ok (emit (ApplicationModeData (ch :: firstn k rest))
             (set_psr (mkParser STATE_APPLICATION_END ps cp pre post) t),
        Fwd k).
Proof. intros H. rewrite step_app_data, H. reflexivity. Qed.

Lemma step_app_end (ps : list Param) (cp : Param) :
  oneByte NUL rest (set_psr (mkParser STATE_APPLICATION_END ps cp pre post) t)
  = Ok (set_psr (mkParser STATE_NORMAL ps cp pre post) (emit ApplicationModeEnd t), Fwd 0).
Proof. rewrite step_app_data. reflexivity. Qed.
End AppSteps.

Lemma app_word_run (t : Terminal) (ps : list Param) (pre post : list Z) :
  y t = oldy t ->
  forall (w s rest : list Z),
    Forall (fun c => cookieChar c = true) w ->
    processLoop (w ++ rest) 0
      (set_psr (mkParser STATE_APPLICATION_START ps (PStr s) pre post) t)
    = processLoop rest 0
        (set_psr (mkParser STATE_APPLICATION_START ps (PStr (s ++ w)) pre post) t).
Proof.
  intros Hy. induction w as [| c w IH]; intros s rest Hw.
  - rewrite app_nil_r. reflexivity.
  - inversion Hw as [| ? ? H1 Hw']; subst. cbn [app].
    erewrite loop_step by (apply step_app_char; assumption).
    rewrite IH by exact Hw'. rewrite <- app_assoc. reflexivity.
Qed.

Lemma last_cons_default {A} (l : list A) :
  forall a d : A, last (a :: l) d = last l a.
Proof.
  induction l as [| b l IH]; intros a d; [reflexivity |].
  change (last (a :: b :: l) d) with (last (b :: l) d).
  rewrite (IH b d), (IH b a). reflexivity.
Qed.

Lemma app_params_run (t : Terminal) (pre post : list Z) :
  y t = oldy t ->
  forall (ws : list (list Z)) (ps : list Param) (s rest : list Z),
    Forall (Forall (fun c => cookieChar c = true)) ws ->
    processLoop (concat (map (cons 59) ws) ++ rest) 0
      (set_psr (mkParser STATE_APPLICATION_START ps (PStr s) pre post) t)
    = processLoop rest 0
        (set_psr (mkParser STATE_APPLICATION_START
                           (removelast (ps ++ map PStr (s :: ws)))
                           (PStr (last ws s)) pre post) t).
Proof.
  intros Hy. induction ws as [| w ws IH]; intros ps s rest Hws.
  - cbn [map concat app last]. rewrite removelast_last. reflexivity.
  - inversion Hws as [| ? ? Hw Hws']; subst.
    cbn [map concat app].
    erewrite loop_step by (apply step_app_semicolon; exact Hy).
    rewrite <- app_assoc.
    rewrite app_word_run by assumption. cbn [app].
    rewrite IH by exact Hws'.
    replace ((ps ++ [PStr s]) ++ map PStr (w :: ws)) with (ps ++ map PStr (s :: w :: ws))
      by (cbn [map]; rewrite <- app_assoc; reflexivity).
    rewrite (last_cons_default ws w s). reflexivity.
Qed.

Lemma params_back (ws : list (list Z)) :
  forall s : list Z,
    removelast (map PStr (s :: ws)) ++ [PStr (last ws s)] = map PStr (s :: ws).
Proof.
  induction ws as [| w ws IH]; intros s; [reflexivity |].
  rewrite (last_cons_default ws w s).
  change (map PStr (s :: w :: ws)) with (PStr s :: map PStr (w :: ws)).
  change (removelast (PStr s :: map PStr (w :: ws)))
    with (PStr s :: removelast (map PStr (w :: ws))).
  cbn [app]. f_equal. apply IH.
Qed.

(** X18.  Application mode is entered with the cookie, and only with it.  With
    the parser idle, ESC & p0 ; p1 ; ... ; pn BEL, every parameter made of
    the characters that the start state collects, is processed without
    error; when p0 is the cookie of the options the application-mode-start
    event is emitted once, with all the parameters, and the parser waits
    for the data of the application; with any other p0, and when no cookie
    is configured, nothing is emitted and the parser is idle again, so
    what follows is read as terminal output.  Either way the screen, the
    cursor, the bytes queued for the host and the options are as
    before. *)
Theorem application_mode_starts_only_with_the_cookie
    (p0 : list Z) (ws : list (list Z)) (t : Terminal) :
  state t = STATE_NORMAL ->
  Forall (fun c => cookieChar c = true) p0 ->
  Forall (Forall (fun c => cookieChar c = true)) ws ->
  exists t',
    _processWriteData (ESC :: 38 :: p0 ++ concat (map (cons 59) ws) ++ [BEL]) t = Ok t'
    /\ (applicationModeCookie t = Some p0 ->
        emitted t' = emitted t ++ [ApplicationModeStart (map PStr (p0 :: ws))]
        /\ state t' = STATE_APPLICATION_END)
    /\ (applicationModeCookie t <> Some p0 ->
        emitted t' = emitted t /\ state t' = STATE_NORMAL)
    /\ lines t' = lines t /\ x t' = x t /\ y t' = y t /\ queue t' = queue t
    /\ opts t' = opts t.
Proof.
  intros Hs Hp0 Hws.
  destruct (beforeLoop_keeps t) as (K1 & _ & _ & _ & K5 & _ & K7 & K8 & _).
  pose proof (beforeLoop_oldy t) as Hy.
  pose proof (queue_beforeLoop t) as Hq.
  assert (Hem : emitted (beforeLoop t) = emitted t).
  { unfold beforeLoop. destruct (negb (ybase t =? ydisp t)); reflexivity. }
  assert (Hop : opts (beforeLoop t) = opts t).
  { unfold beforeLoop. destruct (negb (ybase t =? ydisp t)); reflexivity. }
  assert (Hs' : state (beforeLoop t) = STATE_NORMAL) by (unfold state; rewrite K1; exact Hs).
  unfold _processWriteData. unfold applicationModeCookie at 1 2. rewrite <- Hop.
  fold (applicationModeCookie (beforeLoop t)).
  rewrite <- Hem, <- Hq, <- K5, <- K7, <- K8.
  clear K1 K5 K7 K8 Hq Hem Hop Hs.
  generalize dependent (beforeLoop t). intros T Hy Hs'.
  match goal with
  | |- context [processLoop ?data 0 T] =>
      assert (Run0 : processLoop data 0 T
                     = processLoop data 0
                         (set_psr (mkParser STATE_NORMAL (params T) (currentParam T)
                                            (prefix T) (postfix T)) T))
        by (rewrite <- Hs', <- psr_eta; reflexivity);
      rewrite Run0; clear Run0
  end.
  erewrite loop_step by (apply step_ESC; exact Hy).
  erewrite loop_step by (apply step_app_open; exact Hy).
  rewrite app_word_run by assumption. cbn [app].
  rewrite app_params_run by assumption. cbn [app].
  erewrite loop_step by (apply step_app_bel; exact Hy).
  change ([] ++ map PStr (p0 :: ws)) with (map PStr (p0 :: ws)).
  rewrite params_back.
  cbn [map hd_error].
  destruct (isCookie (Some (PStr p0)) (applicationModeCookie T)) eqn:Ec.
  - assert (Hc : applicationModeCookie T = Some p0).
    { unfold isCookie in Ec. destruct (applicationModeCookie T) as [c |]; [| discriminate].
      apply eqs_iff in Ec. subst c. reflexivity. }
    cbn [processLoop bind].
    match goal with
    | |- exists t', Ok (updateRange ?v ?u) = Ok t' /\ _ =>
        destruct (updateRange_refr v u) as [r E]; rewrite E
    end.
    eexists. split; [reflexivity |].
    split; [intros _; split; reflexivity |].
    split; [intros N; contradiction |].
    repeat split.
  - assert (Hc : applicationModeCookie T <> Some p0).
    { intros Hc. rewrite Hc in Ec. cbn [isCookie] in Ec.
      assert (Js.eqs p0 p0 = true) by (apply eqs_iff; reflexivity). congruence. }
    cbn [processLoop bind].
    match goal with
    | |- exists t', Ok (updateRange ?v ?u) = Ok t' /\ _ =>
        destruct (updateRange_refr v u) as [r E]; rewrite E
    end.
    eexists. split; [reflexivity |].
    split; [intros N; contradiction |].
    split; [intros _; split; reflexivity |].
    repeat split.
Qed.

Lemma application_mode_starts_only_with_the_cookie_witness :
  exists t',
    _processWriteData (ESC :: 38 :: Js.str "a1b2"
                         ++ concat (map (cons 59) [Js.str "2"; Js.str "bash"]) ++ [BEL])
                      (cookied "a1b2")
    = Ok t'
    /\ emitted t' = emitted (cookied "a1b2")
                    ++ [ApplicationModeStart (map PStr [Js.str "a1b2"; Js.str "2"; Js.str "bash"])]
    /\ state t' = STATE_APPLICATION_END.
Proof.
  destruct (application_mode_starts_only_with_the_cookie
              (Js.str "a1b2") [Js.str "2"; Js.str "bash"] (cookied "a1b2"))
    as (t' & E & H1 & _);
    [vm_compute; reflexivity
    | repeat constructor
    | repeat constructor |].
  exists t'. split; [exact E |]. apply H1. vm_compute. reflexivity.
Defined.

Lemma indexOf_absent (l : list Z) (c : Z) :
  Forall (fun d => d <> c) l -> Js.indexOf l c = None.
Proof.
  induction 1 as [| d l Hd _ IH]; [reflexivity |]. cbn [Js.indexOf].
  apply Z.eqb_neq in Hd. rewrite Hd, IH. reflexivity.
Qed.

Lemma indexOf_first (l r : list Z) (c : Z) :
  Forall (fun d => d <> c) l -> Js.indexOf (l ++ c :: r) c = Some (length l).
Proof.
  induction 1 as [| d l Hd _ IH]; cbn [app Js.indexOf length].
  - rewrite Z.eqb_refl. reflexivity.
  - apply Z.eqb_neq in Hd. rewrite Hd, IH. reflexivity.
Qed.

Lemma processLoop_skip (l : list Z) :
  forall (r : list Z) (k : nat) (t : Terminal),
    processLoop (l ++ r) (length l + k) t = processLoop r k t.
Proof.
  induction l as [| c l IH]; intros r k t; [reflexivity |].
  cbn [app length Nat.add processLoop]. apply IH.
Qed.

Lemma processLoop_skip_to (l r : list Z) (t : Terminal) :
  processLoop (l ++ r) (length l) t = processLoop r O t.
Proof.
  rewrite <- (processLoop_skip l r O t), Nat.add_0_r. reflexivity.
Qed.

Lemma processLoop_skip_all (l : list Z) (t : Terminal) :
  processLoop l (length l) t = Ok (t, O).
Proof.
  rewrite <- (app_nil_r l) at 1. rewrite processLoop_skip_to. reflexivity.
Qed.

(** X19.  The data of the application goes to the listener, not to the screen.
    While the parser waits for the end of application mode, a chunk with
    no NUL in it is emitted whole as one application-mode-data event, and
    the parser keeps waiting; a chunk that ends in the first NUL emits the
    bytes before the NUL (when there are any) and then the
    application-mode-end event, and the parser is idle again.  Whatever the
    bytes are, escape sequences included, the screen, the cursor and the
    bytes queued for the host are as before. *)
Theorem application_mode_data_goes_to_the_listener (payload : list Z) (t : Terminal) :
  state t = STATE_APPLICATION_END ->
  Forall (fun c => c <> NUL) payload ->
  let data := match payload with [] => [] | _ => [ApplicationModeData payload] end in
  (exists t',
     _processWriteData payload t = Ok t'
     /\ emitted t' = emitted t ++ data
     /\ state t' = STATE_APPLICATION_END
     /\ lines t' = lines t /\ x t' = x t /\ y t' = y t /\ queue t' = queue t)
  /\ (exists t',
        _processWriteData (payload ++ [NUL]) t = Ok t'
        /\ emitted t' = emitted t ++ data ++ [ApplicationModeEnd]
        /\ state t' = STATE_NORMAL
        /\ lines t' = lines t /\ x t' = x t /\ y t' = y t /\ queue t' = queue t).
Proof.
  intros Hs Hp data.
  destruct (beforeLoop_keeps t) as (K1 & _ & _ & _ & K5 & _ & K7 & K8 & _).
  pose proof (beforeLoop_oldy t) as Hy.
  pose proof (queue_beforeLoop t) as Hq.
  assert (Hem : emitted (beforeLoop t) = emitted t).
  { unfold beforeLoop. destruct (negb (ybase t =? ydisp t)); reflexivity. }
  assert (Hs' : state (beforeLoop t) = STATE_APPLICATION_END)
    by (unfold state; rewrite K1; exact Hs).
  unfold _processWriteData.
  rewrite <- Hem, <- Hq, <- K5, <- K7, <- K8.
  clear K1 K5 K7 K8 Hq Hem Hs.
  generalize dependent (beforeLoop t). intros T Hy Hs'.
  assert (Run0 : forall d, processLoop d 0 T
                 = processLoop d 0
                     (set_psr (mkParser STATE_APPLICATION_END (params T) (currentParam T)
                                        (prefix T) (postfix T)) T))
    by (intros d; rewrite <- Hs', <- psr_eta; reflexivity).
  rewrite !Run0. clear Run0.
  destruct payload as [| c rest].
  - subst data. cbn [app]. split.
    + cbn [processLoop bind].
      match goal with
      | |- exists t', Ok (updateRange ?v ?u) = Ok t' /\ _ =>
          destruct (updateRange_refr v u) as [r E]; rewrite E
      end.
      eexists. split; [reflexivity |]. rewrite app_nil_r. repeat split.
    + erewrite loop_step by (apply step_app_end; exact Hy).
      cbn [processLoop bind].
      match goal with
      | |- exists t', Ok (updateRange ?v ?u) = Ok t' /\ _ =>
          destruct (updateRange_refr v u) as [r E]; rewrite E
      end.
      eexists. split; [reflexivity |]. repeat split.
  - subst data. cbv beta iota. split.
    + erewrite loop_step
        by (apply step_app_data_all; [exact Hy | exact (indexOf_absent (c :: rest) NUL Hp)]).
      rewrite processLoop_skip_all. cbn [bind].
      match goal with
      | |- exists t', Ok (updateRange ?v ?u) = Ok t' /\ _ =>
          destruct (updateRange_refr v u) as [r E]; rewrite E
      end.
      eexists. split; [reflexivity |]. repeat split.
    + cbn [app].
      erewrite loop_step
        by (apply step_app_data_upto; [exact Hy | exact (indexOf_first (c :: rest) [] NUL Hp)]).
      rewrite processLoop_skip_to.
      rewrite firstn_app, Nat.sub_diag, firstn_O, app_nil_r, firstn_all.
      match goal with
      | |- context [processLoop [NUL] 0 (emit ?e (set_psr ?p T))] =>
          change (emit e (set_psr p T)) with (set_psr p (emit e T))
      end.
      erewrite loop_step by (apply step_app_end; exact Hy).
      cbn [processLoop bind].
      match goal with
      | |- exists t', Ok (updateRange ?v ?u) = Ok t' /\ _ =>
          destruct (updateRange_refr v u) as [r E]; rewrite E
      end.
      eexists. split; [reflexivity |].
      split; [| repeat split].
      change ((emitted T ++ [ApplicationModeData (c :: rest)]) ++ [ApplicationModeEnd]
              = emitted T ++ [ApplicationModeData (c :: rest)] ++ [ApplicationModeEnd]).
      rewrite <- app_assoc. reflexivity.
Qed.

Lemma application_mode_data_goes_to_the_listener_witness :
  exists t',
    _processWriteData (ESC :: 91 :: Js.str "2J{json}" ++ [NUL])
                      (set_state STATE_APPLICATION_END fresh) = Ok t'
    /\ emitted t' = emitted (set_state STATE_APPLICATION_END fresh)
                    ++ [ApplicationModeData (ESC :: 91 :: Js.str "2J{json}")]
                    ++ [ApplicationModeEnd]
    /\ state t' = STATE_NORMAL
    /\ lines t' = lines (set_state STATE_APPLICATION_END fresh).
Proof.
  destruct (application_mode_data_goes_to_the_listener
              (ESC :: 91 :: Js.str "2J{json}") (set_state STATE_APPLICATION_END fresh))
    as [_ (t' & E & H1 & H2 & H3 & _)];
    [vm_compute; reflexivity | repeat constructor; vm_compute; discriminate |].
  exists t'. split; [exact E |]. split; [exact H1 |]. split; [exact H2 | exact H3].
Defined.

(** ** Inserting and deleting lines, scrolling the region *)

Lemma splice_insert_at {A} (l1 l2 : list A) (i : Z) (v : A) :
  Js.len l1 = i -> Js.splice (l1 ++ l2) i 0 [v] = l1 ++ v :: l2.
Proof.
  intros <-. unfold Js.splice, Js.rel, Js.len.
  replace (Z.of_nat (length l1) <? 0) with false by (symmetry; apply Z.ltb_ge; lia).
  rewrite length_app.
  replace (Z.to_nat (Z.min (Z.of_nat (length l1)) (Z.of_nat (length l1 + length l2))))
    with (length l1) by lia.
  replace (Z.to_nat (Z.min (Z.max 0 0) (Z.of_nat (length l1 + length l2) - Z.of_nat (length l1))))
    with O by lia.
  rewrite Nat.add_0_r, firstn_app, Nat.sub_diag, firstn_O, app_nil_r, firstn_all.
  rewrite skipn_app, Nat.sub_diag, skipn_all. reflexivity.
Qed.

Lemma splice_delete_at {A} (l1 l2 : list A) (i : Z) (v : A) :
  Js.len l1 = i -> Js.splice (l1 ++ v :: l2) i 1 [] = l1 ++ l2.
Proof.
  intros <-. unfold Js.splice, Js.rel, Js.len.
  replace (Z.of_nat (length l1) <? 0) with false by (symmetry; apply Z.ltb_ge; lia).
  rewrite length_app. cbn [length].
  replace (Z.to_nat (Z.min (Z.of_nat (length l1)) (Z.of_nat (length l1 + S (length l2)))))
    with (length l1) by lia.
  replace (Z.to_nat (Z.min (Z.max 1 0)
                       (Z.of_nat (length l1 + S (length l2)) - Z.of_nat (length l1))))
    with 1%nat by lia.
  rewrite firstn_app, Nat.sub_diag, firstn_O, app_nil_r, firstn_all.
  rewrite skipn_app, skipn_all2 by lia.
  replace (length l1 + 1 - length l1)%nat with 1%nat by lia. reflexivity.
Qed.

Lemma shift_up_step {A} (B r : A) (n : nat) (region : list A) :
  skipn n (region ++ [B]) ++ repeat B (Nat.min n (length (region ++ [B])))
  = skipn (S n) (r :: region) ++ repeat B (Nat.min (S n) (length (r :: region))).
Proof.
  rewrite length_app. cbn [length skipn]. rewrite skipn_app.
  destruct (Nat.le_gt_cases n (length region)) as [H | H].
  - replace (n - length region)%nat with O by lia. rewrite skipn_O.
    replace (Nat.min n (length region + 1)) with n by lia.
    replace (Nat.min (S n) (S (length region))) with (S n) by lia.
    rewrite <- app_assoc. reflexivity.
  - rewrite (skipn_all2 region) by lia.
    rewrite (skipn_all2 [B]) by (cbn [length]; lia). cbn [app].
    f_equal. lia.
Qed.

Lemma shift_down_step {A} (B r : A) (n : nat) (region : list A) :
  repeat B (Nat.min n (length (B :: region)))
  ++ firstn (length (B :: region) - n) (B :: region)
  = repeat B (Nat.min (S n) (length (region ++ [r])))
    ++ firstn (length (region ++ [r]) - S n) (region ++ [r]).
Proof.
  rewrite length_app. cbn [length].
  destruct (Nat.le_gt_cases n (length region)) as [H | H].
  - replace (Nat.min n (S (length region))) with n by lia.
    replace (Nat.min (S n) (length region + 1)) with (S n) by lia.
    replace (S (length region) - n)%nat with (S (length region - n)) by lia.
    replace (length region + 1 - S n)%nat with (length region - n)%nat by lia.
    cbn [firstn]. rewrite firstn_app.
    replace (length region - n - length region)%nat with O by lia.
    rewrite firstn_O, app_nil_r.
    change (B :: firstn (length region - n) region)
      with ([B] ++ firstn (length region - n) region).
    rewrite app_assoc. f_equal. symmetry. apply repeat_cons.
  - replace (S (length region) - n)%nat with O by lia.
    replace (length region + 1 - S n)%nat with O by lia.
    rewrite !firstn_O. f_equal. f_equal. lia.
Qed.

Lemma updateRange_twice (a b : Z) (t : Terminal) :
  exists r, updateRange a (updateRange b t) = set_refr r t.
Proof.
  destruct (updateRange_refr b t) as [r1 E1]. rewrite E1.
  destruct (updateRange_refr a (set_refr r1 t)) as [r2 E2]. rewrite E2.
  exists r2. reflexivity.
Qed.

Lemma _getRow_inside (row : Z) (t : Terminal) :
  row < Js.len (lines t) -> _getRow row t = t.
Proof.
  intros H. unfold _getRow.
  replace (Z.to_nat (row + 1 - Js.len (lines t))) with O by lia.
  cbn [repeat]. rewrite app_nil_r. apply eta_Terminal.
Qed.

Section Region.
Variable t : Terminal.
Variable above : list Row.

Lemma deleteLines_step (row j : Z) (r : Row) (region below : list Row) :
  Js.len above = row -> below <> [] -> row + Js.len (r :: region) = j + 1 ->
  (let t := _getRow (j + 1) (set_lines (above ++ (r :: region) ++ below) t) in
   let t := set_lines (Js.splice (lines t) (j + 1) 0 [blankLine true t]) t in
   set_lines (Js.splice (lines t) row 1 []) t)
  = set_lines (above ++ (region ++ [blankLine true t]) ++ below) t.
Proof.
  intros Ha Hb Hj. cbv zeta.
  rewrite _getRow_inside.
  2:{ change (lines (set_lines ?l t)) with l. destruct below; [contradiction |].
      unfold Js.len in *. rewrite !length_app. cbn [length] in *. lia. }
  change (lines (set_lines (above ++ (r :: region) ++ below) t))
    with (above ++ (r :: region) ++ below).
  change (blankLine true (set_lines ?l t)) with (blankLine true t).
  rewrite (app_assoc above (r :: region) below).
  rewrite splice_insert_at by (unfold Js.len in *; rewrite length_app; lia).
  change (lines (set_lines ?l ?u)) with l.
  rewrite <- app_assoc. cbn [app].
  rewrite (splice_delete_at above _ row r Ha).
  transitivity (set_lines (above ++ region ++ blankLine true t :: below) t);
    [reflexivity |].
  do 2 f_equal. rewrite <- app_assoc. reflexivity.
Qed.

Lemma insertLines_step (row j : Z) (r : Row) (region below : list Row) :
  Js.len above = row -> row + Js.len (region ++ [r]) = j ->
  (let t := _getRow row (set_lines (above ++ (region ++ [r]) ++ below) t) in
   let t := set_lines (Js.splice (lines t) row 0 [blankLine true t]) t in
   set_lines (Js.splice (lines t) j 1 []) t)
  = set_lines (above ++ (blankLine true t :: region) ++ below) t.
Proof.
  intros Ha Hj. cbv zeta.
  rewrite _getRow_inside.
  2:{ change (lines (set_lines ?l t)) with l.
      unfold Js.len in *. rewrite !length_app. cbn [length] in *. lia. }
  change (lines (set_lines (above ++ (region ++ [r]) ++ below) t))
    with (above ++ (region ++ [r]) ++ below).
  change (blankLine true (set_lines ?l t)) with (blankLine true t).
  rewrite (splice_insert_at above _ row _ Ha).
  change (lines (set_lines ?l ?u)) with l.
  rewrite <- (app_assoc region [r] below). cbn [app].
  change (above ++ blankLine true t :: region ++ r :: below)
    with (above ++ (blankLine true t :: region) ++ r :: below).
  rewrite (app_assoc above).
  rewrite splice_delete_at
    by (unfold Js.len in *; rewrite !length_app in *; cbn [length] in *; lia).
  transitivity (set_lines ((above ++ blankLine true t :: region) ++ below) t);
    [reflexivity |].
  rewrite <- app_assoc. reflexivity.
Qed.

Lemma scrollUp_step (r : Row) (region below : list Row) :
  Js.len above = ybase t + scrollTop t ->
  ybase t + scrollTop t + Js.len (r :: region) = ybase t + scrollBottom t + 1 ->
  (let t := set_lines (above ++ (r :: region) ++ below) t in
   let t := set_lines (Js.splice (lines t) (ybase t + scrollTop t) 1 []) t in
   set_lines (Js.splice (lines t) (ybase t + scrollBottom t) 0 [blankLine false t]) t)
  = set_lines (above ++ (region ++ [blankLine false t]) ++ below) t.
Proof.
  intros Ha Hj. cbv zeta.
  change (ybase (set_lines ?l ?u)) with (ybase u).
  change (scrollTop (set_lines ?l ?u)) with (scrollTop u).
  change (scrollBottom (set_lines ?l ?u)) with (scrollBottom u).
  change (ybase (set_lines ?l ?u)) with (ybase u).
  change (scrollBottom (set_lines ?l ?u)) with (scrollBottom u).
  change (lines (set_lines (above ++ (r :: region) ++ below) t))
    with (above ++ (r :: region) ++ below).
  cbn [app]. rewrite (splice_delete_at above _ _ r Ha).
  change (lines (set_lines ?l ?u)) with l.
  change (blankLine false (set_lines ?l ?u)) with (blankLine false t).
  rewrite (app_assoc above region below).
  rewrite splice_insert_at
    by (unfold Js.len in *; rewrite length_app; cbn [length] in *; lia).
  transitivity (set_lines (above ++ region ++ blankLine false t :: below) t);
    [rewrite <- app_assoc; reflexivity |].
  do 2 f_equal. rewrite <- app_assoc. reflexivity.
Qed.

Lemma scrollDown_step (r : Row) (region below : list Row) :
  Js.len above = ybase t + scrollTop t ->
  ybase t + scrollTop t + Js.len (region ++ [r]) = ybase t + scrollBottom t + 1 ->
  (let t := set_lines (above ++ (region ++ [r]) ++ below) t in
   let t := set_lines (Js.splice (lines t) (ybase t + scrollBottom t) 1 []) t in
   set_lines (Js.splice (lines t) (ybase t + scrollTop t) 0 [blankLine false t]) t)
  = set_lines (above ++ (blankLine false t :: region) ++ below) t.
Proof.
  intros Ha Hj. cbv zeta.
  change (ybase (set_lines ?l ?u)) with (ybase u).
  change (scrollTop (set_lines ?l ?u)) with (scrollTop u).
  change (scrollBottom (set_lines ?l ?u)) with (scrollBottom u).
  change (ybase (set_lines ?l ?u)) with (ybase u).
  change (scrollTop (set_lines ?l ?u)) with (scrollTop u).
  change (lines (set_lines (above ++ (region ++ [r]) ++ below) t))
    with (above ++ (region ++ [r]) ++ below).
  rewrite <- (app_assoc region [r] below). cbn [app].
  rewrite (app_assoc above region).
  rewrite splice_delete_at
    by (unfold Js.len in *; rewrite !length_app in *; cbn [length] in *; lia).
  change (lines (set_lines ?l ?u)) with l.
  change (blankLine false (set_lines ?l ?u)) with (blankLine false t).
  rewrite <- app_assoc.
  rewrite (splice_insert_at above _ _ _ Ha). reflexivity.
Qed.

(** The loop of [deleteLines]: [row] is the row of the cursor and [j] the
    last row of the region; a row exists below the region. *)
Lemma deleteLines_loop (row j : Z) (below : list Row) :
  Js.len above = row -> below <> [] ->
  forall (n : nat) (region : list Row),
    region <> [] -> row + Js.len region = j + 1 ->
    times_ n (fun t =>
               let t := _getRow (j + 1) t in
               let t := set_lines (Js.splice (lines t) (j + 1) 0 [blankLine true t]) t in
               Ok (set_lines (Js.splice (lines t) row 1 []) t))
           (set_lines (above ++ region ++ below) t)
    = Ok (set_lines (above ++ (skipn n region
                               ++ repeat (blankLine true t) (Nat.min n (length region)))
                           ++ below) t).
Proof.
  intros Ha Hb. induction n as [| n IH]; intros region Hne Hj.
  - cbn [times_ skipn Nat.min repeat]. rewrite app_nil_r. reflexivity.
  - destruct region as [| r region]; [contradiction |].
    cbn [times_].
    pose proof (deleteLines_step row j r region below Ha Hb Hj) as St.
    cbv zeta in St. cbv beta zeta. rewrite St. cbn [bind].
    rewrite IH.
    + rewrite (shift_up_step (blankLine true t) r n region). reflexivity.
    + destruct region; discriminate.
    + unfold Js.len in *. rewrite length_app. cbn [length] in *. lia.
Qed.

(** The loop of [insertLines]: [j] is the row after the region. *)
Lemma insertLines_loop (row j : Z) (below : list Row) :
  Js.len above = row ->
  forall (n : nat) (region : list Row),
    region <> [] -> row + Js.len region = j ->
    times_ n (fun t =>
               let t := _getRow row t in
               let t := set_lines (Js.splice (lines t) row 0 [blankLine true t]) t in
               Ok (set_lines (Js.splice (lines t) j 1 []) t))
           (set_lines (above ++ region ++ below) t)
    = Ok (set_lines (above ++ (repeat (blankLine true t) (Nat.min n (length region))
                               ++ firstn (length region - n) region)
                           ++ below) t).
Proof.
  intros Ha. induction n as [| n IH]; intros region Hne Hj.
  - cbn [times_ Nat.min repeat app]. rewrite Nat.sub_0_r, firstn_all. reflexivity.
  - destruct (exists_last Hne) as (region' & r & ->).
    cbn [times_].
    pose proof (insertLines_step row j r region' below Ha Hj) as St.
    cbv zeta in St. cbv beta zeta. rewrite St. cbn [bind].
    rewrite IH.
    + rewrite (shift_down_step (blankLine true t) r n region'). reflexivity.
    + discriminate.
    + unfold Js.len in *. rewrite length_app in Hj. cbn [length] in *. lia.
Qed.

(** The loops of [scrollUp] and [scrollDown]. *)
Lemma scrollUp_loop (below : list Row) :
  Js.len above = ybase t + scrollTop t ->
  forall (n : nat) (region : list Row),
    region <> [] ->
    ybase t + scrollTop t + Js.len region = ybase t + scrollBottom t + 1 ->
    times_ n (fun t =>
               let t := set_lines (Js.splice (lines t) (ybase t + scrollTop t) 1 []) t in
               Ok (set_lines (Js.splice (lines t) (ybase t + scrollBottom t) 0
                                        [blankLine false t]) t))
           (set_lines (above ++ region ++ below) t)
    = Ok (set_lines (above ++ (skipn n region
                               ++ repeat (blankLine false t) (Nat.min n (length region)))
                           ++ below) t).
Proof.
  intros Ha. induction n as [| n IH]; intros region Hne Hj.
  - cbn [times_ skipn Nat.min repeat]. rewrite app_nil_r. reflexivity.
  - destruct region as [| r region]; [contradiction |].
    cbn [times_].
    pose proof (scrollUp_step r region below Ha Hj) as St.
    cbv zeta in St. cbv beta zeta. rewrite St. cbn [bind].
    rewrite IH.
    + rewrite (shift_up_step (blankLine false t) r n region). reflexivity.
    + destruct region; discriminate.
    + unfold Js.len in *. rewrite length_app. cbn [length] in *. lia.
Qed.

Lemma scrollDown_loop (below : list Row) :
  Js.len above = ybase t + scrollTop t ->
  forall (n : nat) (region : list Row),
    region <> [] ->
    ybase t + scrollTop t + Js.len region = ybase t + scrollBottom t + 1 ->
    times_ n (fun t =>
               let t := set_lines (Js.splice (lines t) (ybase t + scrollBottom t) 1 []) t in
               Ok (set_lines (Js.splice (lines t) (ybase t + scrollTop t) 0
                                        [blankLine false t]) t))
           (set_lines (above ++ region ++ below) t)
    = Ok (set_lines (above ++ (repeat (blankLine false t) (Nat.min n (length region))
                               ++ firstn (length region - n) region)
                           ++ below) t).
Proof.
  intros Ha. induction n as [| n IH]; intros region Hne Hj.
  - cbn [times_ Nat.min repeat app]. rewrite Nat.sub_0_r, firstn_all. reflexivity.
  - destruct (exists_last Hne) as (region' & r & ->).
    cbn [times_].
    pose proof (scrollDown_step r region' below Ha Hj) as St.
    cbv zeta in St. cbv beta zeta. rewrite St. cbn [bind].
    rewrite IH.
    + rewrite (shift_down_step (blankLine false t) r n region'). reflexivity.
    + discriminate.
    + unfold Js.len in *. rewrite length_app in Hj. cbn [length] in *. lia.
Qed.
End Region.

(** X20.  DL (CSI n M) deletes lines at the cursor.  With the buffer split into
    the rows above the cursor, the rows from the cursor to the bottom of
    the scroll region, and the rows below the region, and with a count [n]
    below 2^53 (a count that the loop of the code decrements exactly; from
    2^54 on that loop does not end), [deleteLines [n]]
    returns; the first [max n 1] rows of the middle part are gone, the
    rest of it has moved up, and as many blank rows in the erase attribute
    fill the bottom of the region; the rows above the cursor and below the
    region are untouched.  When no row exists below the region (the region
    ends on the last row of the buffer), one blank row in the default
    attribute is materialised there, so that the buffer is one row longer
    than before. *)
Theorem deleteLines_shifts_the_rows_up
    (n : Z) (above region below : list Row) (t : Terminal) :
  n < 2 ^ 53 ->
  lines t = above ++ region ++ below ->
  Js.len above = y t + ybase t ->
  Js.len region = scrollBottom t - y t + 1 ->
  region <> [] ->
  exists r,
    deleteLines [n] t
    = Ok (set_refr r
            (set_lines
               (above
                ++ (skipn (Z.to_nat (Z.max n 1)) region
                    ++ repeat (blankLine true t)
                              (Nat.min (Z.to_nat (Z.max n 1)) (length region)))
                ++ match below with [] => [blankLine false t] | _ => below end) t)).
Proof.
  intros Hn Hl Ha Hr Hne. unfold deleteLines. cbn [arg1 bind].
  rewrite times_in_range
    by (change (2 ^ 53) with 9007199254740992 in *; destruct (n <? 1) eqn:E;
        [lia | apply Z.ltb_ge in E; lia]).
  replace (Z.to_nat (if n <? 1 then 1 else n)) with (Z.to_nat (Z.max n 1))
    by (destruct (n <? 1) eqn:E; [apply Z.ltb_lt in E | apply Z.ltb_ge in E]; lia).
  clear Hn.
  destruct (Z.to_nat (Z.max n 1)) as [| N] eqn:EN; [lia |].
  set (j := rows t - 1 + ybase t - (rows t - 1 - scrollBottom t)).
  assert (Hj : y t + ybase t + Js.len region = j + 1) by (unfold j; lia).
  set (B' := match below with [] => [blankLine false t] | _ => below end).
  match goal with
  | |- context [times_ (S N) ?b t] =>
      assert (E1 : times_ (S N) b t
                   = times_ (S N) b (set_lines (above ++ region ++ B') t))
  end.
  { cbn [times_]. f_equal.
    assert (G : _getRow (j + 1) t
                = _getRow (j + 1) (set_lines (above ++ region ++ B') t)).
    { rewrite (_getRow_inside (j + 1) (set_lines (above ++ region ++ B') t)).
      2:{ change (lines (set_lines ?l t)) with l. unfold Js.len in *.
          rewrite !length_app. subst B'. destruct below; cbn [length]; lia. }
      subst B'. destruct below as [| b below].
      - unfold _getRow. rewrite Hl. f_equal.
        replace (Z.to_nat (j + 1 + 1 - Js.len (above ++ region ++ []))) with 1%nat
          by (unfold Js.len in *; rewrite !length_app; cbn [length]; lia).
        cbn [repeat]. rewrite !app_nil_r, <- app_assoc. reflexivity.
      - rewrite _getRow_inside.
        + rewrite <- Hl. symmetry. apply eta_Terminal.
        + rewrite Hl. unfold Js.len in *. rewrite !length_app. cbn [length]. lia. }
    cbv zeta. rewrite G. reflexivity. }
  rewrite E1. clear E1.
  rewrite (deleteLines_loop t above (y t + ybase t) j B' Ha).
  - cbn [bind].
    match goal with
    | |- exists r, Ok (updateRange ?a (updateRange ?b ?u)) = _ =>
        destruct (updateRange_twice a b u) as [r E]; rewrite E
    end.
    exists r. reflexivity.
  - subst B'. destruct below; discriminate.
  - exact Hne.
  - exact Hj.
Qed.

Lemma deleteLines_shifts_the_rows_up_witness :
  exists r,
    deleteLines [2] (set_scrollBottom 20 (set_y 10 lettered))
    = Ok (set_refr r
            (set_lines
               (firstn 10 (lines lettered)
                ++ (skipn (Z.to_nat (Z.max 2 1)) (firstn 11 (skipn 10 (lines lettered)))
                    ++ repeat (blankLine true (set_scrollBottom 20 (set_y 10 lettered)))
                              (Nat.min (Z.to_nat (Z.max 2 1))
                                       (length (firstn 11 (skipn 10 (lines lettered))))))
                ++ match skipn 21 (lines lettered) with
                   | [] => [blankLine false (set_scrollBottom 20 (set_y 10 lettered))]
                   | _ => skipn 21 (lines lettered)
                   end)
               (set_scrollBottom 20 (set_y 10 lettered)))).
Proof.
  apply (deleteLines_shifts_the_rows_up 2 (firstn 10 (lines lettered))
           (firstn 11 (skipn 10 (lines lettered))) (skipn 21 (lines lettered))
           (set_scrollBottom 20 (set_y 10 lettered)));
    vm_compute; try reflexivity; discriminate.
Defined.

(** X21.  IL (CSI n L) inserts lines at the cursor.  With the buffer split as
    for DL and a count [n] below 2^53 (a count that the loop of the code
    decrements exactly), [insertLines [n]] returns; [max n 1] blank rows in the erase
    attribute (at most as many as the middle part has rows) stand at the
    cursor, the rows of the middle part have moved down behind them, those
    pushed over the bottom of the scroll region are gone, and the rows
    above the cursor and below the region are untouched; the buffer keeps
    its number of rows. *)
Theorem insertLines_shifts_the_rows_down
    (n : Z) (above region below : list Row) (t : Terminal) :
  n < 2 ^ 53 ->
  lines t = above ++ region ++ below ->
  Js.len above = y t + ybase t ->
  Js.len region = scrollBottom t - y t + 1 ->
  region <> [] ->
  exists r,
    insertLines [n] t
    = Ok (set_refr r
            (set_lines
               (above
                ++ (repeat (blankLine true t)
                           (Nat.min (Z.to_nat (Z.max n 1)) (length region))
                    ++ firstn (length region - Z.to_nat (Z.max n 1)) region)
                ++ below) t)).
Proof.
  intros Hn Hl Ha Hr Hne. unfold insertLines. cbn [arg1 bind].
  rewrite times_in_range
    by (change (2 ^ 53) with 9007199254740992 in *; destruct (n <? 1) eqn:E;
        [lia | apply Z.ltb_ge in E; lia]).
  clear Hn.
  replace (Z.to_nat (if n <? 1 then 1 else n)) with (Z.to_nat (Z.max n 1))
    by (destruct (n <? 1) eqn:E; [apply Z.ltb_lt in E | apply Z.ltb_ge in E]; lia).
  set (j := rows t - 1 + ybase t - (rows t - 1 - scrollBottom t) + 1).
  assert (Hj : y t + ybase t + Js.len region = j) by (unfold j; lia).
  match goal with
  | |- context [times_ ?k ?b t] =>
      replace (times_ k b t) with (times_ k b (set_lines (above ++ region ++ below) t))
        by (rewrite <- Hl, eta_Terminal; reflexivity)
  end.
  rewrite (insertLines_loop t above (y t + ybase t) j below Ha _ region Hne Hj).
  cbn [bind].
  match goal with
  | |- exists r, Ok (updateRange ?a (updateRange ?b ?u)) = _ =>
      destruct (updateRange_twice a b u) as [r E]; rewrite E
  end.
  exists r. reflexivity.
Qed.

Lemma insertLines_shifts_the_rows_down_witness :
  exists r,
    insertLines [2] (set_scrollBottom 20 (set_y 10 lettered))
    = Ok (set_refr r
            (set_lines
               (firstn 10 (lines lettered)
                ++ (repeat (blankLine true (set_scrollBottom 20 (set_y 10 lettered)))
                           (Nat.min (Z.to_nat (Z.max 2 1))
                                    (length (firstn 11 (skipn 10 (lines lettered)))))
                    ++ firstn (length (firstn 11 (skipn 10 (lines lettered)))
                               - Z.to_nat (Z.max 2 1))
                              (firstn 11 (skipn 10 (lines lettered))))
                ++ skipn 21 (lines lettered))
               (set_scrollBottom 20 (set_y 10 lettered)))).
Proof.
  apply (insertLines_shifts_the_rows_down 2 (firstn 10 (lines lettered))
           (firstn 11 (skipn 10 (lines lettered))) (skipn 21 (lines lettered))
           (set_scrollBottom 20 (set_y 10 lettered)));
    vm_compute; try reflexivity; discriminate.
Defined.

(** X22.  SU (CSI n S) and SD (CSI n T) scroll the scroll region and nothing
    else.  With the buffer split into the rows above the region, the rows
    of the region and the rows below it, and [0 <= n < 2^53] ([0] stands
    for 1; the loop of the code decrements such a count exactly, and does
    not end from 2^54 on):
    [scrollUp [n]] drops the first [n] rows of the region, moves the rest
    up and fills the bottom with blank rows in the default attribute;
    [scrollDown [n]] puts the blank rows at the top, moves the rows down
    and drops those pushed over the bottom.  The rows above and below the
    region, the scrollback among them, and the number of rows are as
    before; nothing is added to the scrollback. *)
Theorem scrollUp_and_scrollDown_move_the_region
    (n : Z) (above region below : list Row) (t : Terminal) :
  lines t = above ++ region ++ below ->
  Js.len above = ybase t + scrollTop t ->
  Js.len region = scrollBottom t - scrollTop t + 1 ->
  region <> [] -> 0 <= n < 2 ^ 53 ->
  let N := Z.to_nat (Z.max n 1) in
  let blanks := repeat (blankLine false t) (Nat.min N (length region)) in
  (exists r,
     scrollUp [n] t
     = Ok (set_refr r (set_lines (above ++ (skipn N region ++ blanks) ++ below) t)))
  /\ (exists r,
        scrollDown [n] t
        = Ok (set_refr r
                (set_lines (above ++ (blanks ++ firstn (length region - N) region)
                                  ++ below) t))).
Proof.
  intros Hl Ha Hr Hne Hn N blanks. subst blanks.
  assert (EN : Z.to_nat (argOr1 [n]) = N).
  { unfold argOr1, N. destruct (n =? 0) eqn:E;
      [apply Z.eqb_eq in E | apply Z.eqb_neq in E]; lia. }
  assert (Hp : 0 <= argOr1 [n] < 2 ^ 53).
  { unfold argOr1. change (2 ^ 53) with 9007199254740992 in *.
    destruct (n =? 0); lia. }
  assert (Hj : ybase t + scrollTop t + Js.len region = ybase t + scrollBottom t + 1) by lia.
  split.
  - unfold scrollUp. rewrite (times_in_range _ _ _ Hp), EN.
    match goal with
    | |- context [times_ ?k ?b t] =>
        replace (times_ k b t) with (times_ k b (set_lines (above ++ region ++ below) t))
          by (rewrite <- Hl, eta_Terminal; reflexivity)
    end.
    rewrite (scrollUp_loop t above below Ha _ region Hne Hj).
    cbn [bind].
    match goal with
    | |- exists r, Ok (updateRange ?a (updateRange ?b ?u)) = _ =>
        destruct (updateRange_twice a b u) as [r E]; rewrite E
    end.
    exists r. reflexivity.
  - unfold scrollDown. rewrite (times_in_range _ _ _ Hp), EN.
    match goal with
    | |- context [times_ ?k ?b t] =>
        replace (times_ k b t) with (times_ k b (set_lines (above ++ region ++ below) t))
          by (rewrite <- Hl, eta_Terminal; reflexivity)
    end.
    rewrite (scrollDown_loop t above below Ha _ region Hne Hj).
    cbn [bind].
    match goal with
    | |- exists r, Ok (updateRange ?a (updateRange ?b ?u)) = _ =>
        destruct (updateRange_twice a b u) as [r E]; rewrite E
    end.
    exists r. reflexivity.
Qed.

Lemma scrollUp_and_scrollDown_move_the_region_witness :
  exists r,
    scrollUp [3] (set_scrollBottom 20 (set_scrollTop 5 lettered))
    = Ok (set_refr r
            (set_lines
               (firstn 5 (lines lettered)
                ++ (skipn (Z.to_nat (Z.max 3 1)) (firstn 16 (skipn 5 (lines lettered)))
                    ++ repeat (blankLine false (set_scrollBottom 20 (set_scrollTop 5 lettered)))
                         (Nat.min (Z.to_nat (Z.max 3 1))
                                  (length (firstn 16 (skipn 5 (lines lettered))))))
                ++ skipn 21 (lines lettered))
               (set_scrollBottom 20 (set_scrollTop 5 lettered)))).
Proof.
  refine (proj1 (scrollUp_and_scrollDown_move_the_region 3 (firstn 5 (lines lettered))
                   (firstn 16 (skipn 5 (lines lettered))) (skipn 21 (lines lettered))
                   (set_scrollBottom 20 (set_scrollTop 5 lettered)) _ _ _ _ _));
    first [ vm_compute; reflexivity
          | vm_compute; discriminate
          | vm_compute; split; [discriminate | reflexivity] ].
Defined.

(** ** What a scroll does to the rows *)

Lemma slice_drops_the_first {A} (a : list A) (n : Z) :
  2 <= Js.len a -> n = Js.len a -> Js.slice a (- n + 1) = tl a.
Proof.
  intros H ->. unfold Js.slice, Js.rel.
  replace (- Js.len a + 1 <? 0) with true by (symmetry; apply Z.ltb_lt; lia).
  replace (Z.to_nat (Z.max (Js.len a + (- Js.len a + 1)) 0)) with 1%nat by lia.
  destruct a; reflexivity.
Qed.

(** X23.  One scroll with the virtual scrollback, row by row.  The buffer is
    split into the rows before the scroll region (the scrollback and the
    rows of the screen above the region), the first row [r] of the region,
    the rest of the region, and the rows below it.  After [scroll] the rest
    of the region has moved up and a blank row in the default attribute is
    its last row; the rows below the region are untouched.  When the region
    starts at the top of the screen, [r] is kept: it is now the last row of
    the scrollback; otherwise [r] is gone.  While the scrollback has room
    the rows before the region are untouched; once it holds [scrollback]
    rows its oldest row is dropped, whether the region starts at the top of
    the screen or not. *)
Theorem scroll_moves_the_region_up (pre region below : list Row) (r : Row) (t : Terminal) :
  physicalScroll t = false -> 1 <= scrollback t ->
  0 <= ybase t <= scrollback t -> 0 <= scrollTop t ->
  lines t = pre ++ (r :: region) ++ below ->
  Js.len pre = ybase t + scrollTop t ->
  Js.len (r :: region) = scrollBottom t - scrollTop t + 1 ->
  Js.len (lines t) = ybase t + rows t ->
  lines (scroll t)
  = (if ybase t <? scrollback t then pre else tl pre)
    ++ (if scrollTop t =? 0 then [r] else [])
    ++ region ++ [blankLine false t] ++ below.
Proof.
  intros Hphys Hsb Hyb Htop Hl Hpre Hreg Hlen.
  pose (A := fun t : Terminal =>
    if negb (physicalScroll t) then
      let t := set_ybase (ybase t + 1) t in
      if scrollback t <? ybase t then
        let t := set_ybase (ybase t - 1) t in
        set_lines (Js.slice (lines t) (- (ybase t + rows t) + 1)) t
      else t
    else
      let oldline := Js.get (lines t) 0 in
      let t := set_lines (Js.slice (lines t) (- (ybase t + rows t) + 1)) t in
      set__scrollbackBuffer (_scrollbackBuffer t ++ [oldline]) t).
  pose (B := fun t : Terminal =>
    let t := set_ydisp (ybase t) t in
    let lastline := ybase t + rows t - 1 in
    let row := lastline - (rows t - 1 - scrollBottom t) in
    set_lines (Js.splice (lines t) row 0 [blankLine false t]) t).
  pose (C := fun t : Terminal =>
    if negb (scrollTop t =? 0) then
      let t := if negb (ybase t =? 0)
               then set_ydisp (ybase t - 1) (set_ybase (ybase t - 1) t) else t in
      set_lines (Js.splice (lines t) (ybase t + scrollTop t) 1 []) t
    else t).
  pose (D := fun t : Terminal =>
    updateRange (scrollBottom t) (updateRange (scrollTop t) t)).
  change (scroll t) with (D (C (B (A t)))).
  set (P := if ybase t <? scrollback t then pre else tl pre).
  set (blank := blankLine false t).
  (* the scrollback *)
  assert (HA : rows (A t) = rows t /\ scrollTop (A t) = scrollTop t
               /\ scrollBottom (A t) = scrollBottom t
               /\ blankLine false (A t) = blank
               /\ lines (A t) = P ++ (r :: region) ++ below
               /\ Js.len P = ybase (A t) - 1 + scrollTop t
               /\ 1 <= ybase (A t)).
  { unfold A. rewrite Hphys. cbn [negb]. cbv zeta.
    change (scrollback (set_ybase (ybase t + 1) t)) with (scrollback t).
    change (ybase (set_ybase (ybase t + 1) t)) with (ybase t + 1).
    subst P.
    destruct (scrollback t <? ybase t + 1) eqn:E;
      [apply Z.ltb_lt in E | apply Z.ltb_ge in E].
    - replace (ybase t <? scrollback t) with false by (symmetry; apply Z.ltb_ge; lia).
      repeat (split; [reflexivity |]).
      assert (Hp : pre <> []).
      { intros ->. unfold Js.len in Hpre. cbn [length] in Hpre. lia. }
      destruct pre as [| p0 pre']; [contradiction |].
      split; [| split].
      + change (Js.slice (lines t) (- (ybase t + 1 - 1 + rows t) + 1)
                = tl (p0 :: pre') ++ (r :: region) ++ below).
        rewrite (slice_drops_the_first (lines t)).
        2:{ rewrite Hl. unfold Js.len in *. rewrite !length_app. cbn [length] in *. lia. }
        2:{ lia. }
        rewrite Hl. reflexivity.
      + change (Js.len pre' = ybase t + 1 - 1 - 1 + scrollTop t).
        unfold Js.len in *. cbn [length] in Hpre. lia.
      + change (1 <= ybase t + 1 - 1). lia.
    - replace (ybase t <? scrollback t) with true by (symmetry; apply Z.ltb_lt; lia).
      repeat (split; [reflexivity |]).
      split; [exact Hl |]. split.
      + change (Js.len pre = ybase t + 1 - 1 + scrollTop t). lia.
      + change (1 <= ybase t + 1). lia. }
  destruct HA as (A1 & A2 & A3 & A4 & A5 & A6 & A7).
  clearbody P blank. clear Hl Hpre Hlen Hphys Hyb.
  generalize dependent (A t). intros u A1 A2 A3 A4 A5 A6 A7.
  (* the new line *)
  assert (HB : scrollTop (B u) = scrollTop t /\ ybase (B u) = ybase u
               /\ lines (B u) = P ++ (r :: region) ++ blank :: below).
  { unfold B. cbv zeta.
    split; [exact A2 |]. split; [reflexivity |].
    change (Js.splice (lines u) (ybase u + rows u - 1 - (rows u - 1 - scrollBottom u)) 0
                      [blankLine false u]
            = P ++ (r :: region) ++ blank :: below).
    rewrite A4, A5, (app_assoc P (r :: region) below).
    rewrite splice_insert_at; [rewrite <- app_assoc; reflexivity |].
    unfold Js.len in *. rewrite length_app. lia. }
  destruct HB as (B1 & B2 & B3).
  generalize dependent (B u). intros v B1 B2 B3.
  (* the line taken off the top of the region *)
  assert (HC : lines (C v)
               = P ++ (if scrollTop t =? 0 then [r] else []) ++ region ++ [blank] ++ below).
  { unfold C. rewrite B1. destruct (scrollTop t =? 0) eqn:E;
      [apply Z.eqb_eq in E | apply Z.eqb_neq in E]; cbn [negb].
    - exact B3.
    - replace (ybase v =? 0) with false by (symmetry; apply Z.eqb_neq; lia).
      cbn [negb]. cbv zeta.
      change (Js.splice (lines v) (ybase v - 1 + scrollTop v) 1 []
              = P ++ [] ++ region ++ [blank] ++ below).
      rewrite B3, B1. cbn [app].
      apply splice_delete_at. lia. }
  generalize dependent (C v). intros w HC.
  unfold D.
  destruct (updateRange_twice (scrollBottom w) (scrollTop w) w) as [rr E]. rewrite E.
  exact HC.
Qed.

Lemma scroll_moves_the_region_up_witness :
  lines (scroll fresh)
  = (if ybase fresh <? scrollback fresh then [] else tl [])
    ++ (if scrollTop fresh =? 0 then [blankLine false fresh] else [])
    ++ tl (lines fresh) ++ [blankLine false fresh] ++ [].
Proof.
  apply (scroll_moves_the_region_up [] (tl (lines fresh)) [] (blankLine false fresh) fresh);
    first [ vm_compute; reflexivity
          | vm_compute; intros; discriminate
          | vm_compute; split; intros; discriminate ].
Defined.

(** ** Character attributes *)

Lemma int32_small (n : Z) : - 2147483648 <= n < 2147483648 -> Js.int32 n = n.
Proof. intros H. unfold Js.int32. rewrite Z.mod_small by lia. lia. Qed.

Lemma lor_disjoint (x y k : Z) :
  0 <= k -> 0 <= y < 2 ^ k -> Z.lor (x * 2 ^ k) y = x * 2 ^ k + y.
Proof.
  intros Hk Hy.
  assert (L : Z.land (x * 2 ^ k) y = 0).
  { apply Z.bits_inj'. intros m Hm. rewrite Z.land_spec, Z.bits_0.
    destruct (Z.lt_ge_cases m k) as [H | H].
    - rewrite Z.mul_pow2_bits_low by exact H. reflexivity.
    - destruct (Z.eq_dec y 0) as [-> | Hy0].
      + rewrite Z.bits_0. apply andb_false_r.
      + rewrite (Z.bits_above_log2 y m); [apply andb_false_r | lia |].
        apply Z.log2_lt_pow2; [lia |].
        apply Z.lt_le_trans with (2 ^ k); [lia |].
        apply Z.pow_le_mono_r; lia. }
  rewrite (Z.add_nocarry_lxor _ _ L). symmetry. apply Z.lxor_lor. exact L.
Qed.

Lemma lor_512 (x y : Z) : 0 <= y < 512 -> Z.lor (x * 512) y = x * 512 + y.
Proof. intros H. apply (lor_disjoint x y 9); [lia | exact H]. Qed.

Lemma lor_262144 (x y : Z) :
  0 <= y < 262144 -> Z.lor (x * 262144) y = x * 262144 + y.
Proof. intros H. apply (lor_disjoint x y 18); [lia | exact H]. Qed.

Lemma packAttr_sum (f g b : Z) :
  fieldsInRange (f, g, b) -> packAttr (f, g, b) = f * 262144 + g * 512 + b.
Proof.
  intros (Hf & Hg & Hb). unfold packAttr, Js.bor, Js.shl.
  change (18 mod 32) with 18. change (9 mod 32) with 9.
  rewrite (int32_small f), (int32_small g), (int32_small b) by lia.
  rewrite !Z.shiftl_mul_pow2 by lia.
  change (2 ^ 18) with 262144. change (2 ^ 9) with 512.
  rewrite !(int32_small (f * 262144)), !(int32_small (g * 512)) by lia.
  rewrite (lor_262144 f (g * 512)) by lia.
  rewrite int32_small by lia.
  replace (f * 262144 + g * 512) with ((f * 512 + g) * 512) by lia.
  rewrite lor_512 by lia. lia.
Qed.

Lemma unpackAttr_quotients (a : Z) :
  attrInRange a -> unpackAttr a = (a / 262144, (a / 512) mod 512, a mod 512).
Proof.
  unfold attrInRange. change (2 ^ 23) with 8388608. intros Ha.
  unfold unpackAttr, Js.shr, Js.band.
  change (18 mod 32) with 18. change (9 mod 32) with 9.
  rewrite (int32_small a) by lia.
  change (Js.int32 511) with (Z.ones 9).
  rewrite !Z.shiftr_div_pow2 by lia.
  change (2 ^ 18) with 262144. change (2 ^ 9) with 512.
  assert (H9 : 0 <= a / 512 < 16384) by (Z.div_mod_to_equations; lia).
  rewrite (int32_small (a / 512)) by lia.
  rewrite !Z.land_ones by lia. reflexivity.
Qed.

Lemma unpack_pack (st : Z * Z * Z) :
  fieldsInRange st -> attrInRange (packAttr st) /\ unpackAttr (packAttr st) = st.
Proof.
  destruct st as [[f g] b]. intros H. pose proof H as (Hf & Hg & Hb).
  rewrite (packAttr_sum f g b H).
  assert (R : attrInRange (f * 262144 + g * 512 + b)).
  { unfold attrInRange. change (2 ^ 23) with 8388608. lia. }
  split; [exact R |].
  rewrite (unpackAttr_quotients _ R).
  repeat f_equal; Z.div_mod_to_equations; lia.
Qed.

Lemma pack_unpack (a : Z) :
  attrInRange a -> fieldsInRange (unpackAttr a) /\ packAttr (unpackAttr a) = a.
Proof.
  intros R. rewrite (unpackAttr_quotients a R).
  unfold attrInRange in R. change (2 ^ 23) with 8388608 in R.
  assert (F : fieldsInRange (a / 262144, (a / 512) mod 512, a mod 512)).
  { unfold fieldsInRange. repeat split; Z.div_mod_to_equations; lia. }
  split; [exact F |].
  rewrite (packAttr_sum _ _ _ F). Z.div_mod_to_equations. lia.
Qed.

Lemma flags_ok (f m : Z) :
  0 <= f < 32 -> In m [1; 2; 4; 8; 16] ->
  0 <= Js.bor f m < 32 /\ 0 <= Js.band f (Js.bnot m) < 32.
Proof.
  intros Hf Hm.
  assert (C : forallb (fun f =>
                forallb (fun m => (0 <=? Js.bor f m) && (Js.bor f m <? 32)
                                  && (0 <=? Js.band f (Js.bnot m))
                                  && (Js.band f (Js.bnot m) <? 32))
                        [1; 2; 4; 8; 16])
              (map Z.of_nat (seq 0 32)) = true) by (vm_compute; reflexivity).
  rewrite forallb_forall in C.
  assert (I : In f (map Z.of_nat (seq 0 32))).
  { replace f with (Z.of_nat (Z.to_nat f)) by lia. apply in_map, in_seq. lia. }
  specialize (C f I). rewrite forallb_forall in C. specialize (C m Hm).
  apply andb_prop in C. destruct C as [C C4].
  apply andb_prop in C. destruct C as [C C3].
  apply andb_prop in C. destruct C as [C1 C2].
  apply Z.leb_le in C1, C3. apply Z.ltb_lt in C2, C4. lia.
Qed.

Lemma band_255 (v : Z) : 0 <= Js.band v 0xff < 512.
Proof.
  unfold Js.band. change (Js.int32 255) with (Z.ones 8).
  rewrite Z.land_ones by lia. change (2 ^ 8) with 256.
  pose proof (Z.mod_pos_bound (Js.int32 v) 256). lia.
Qed.

Lemma matchColor_field (r g b : Z) :
  0 <= (if matchColor r g b =? -1 then 0x1ff else matchColor r g b) < 512.
Proof.
  assert (Hne : vcolors <> []) by discriminate.
  destruct (matchColor_loop_from_the_start r g b vcolors Hne) as [S1 _].
  assert (L : Js.len vcolors = 256) by (vm_compute; reflexivity).
  rewrite L in S1. unfold matchColor.
  destruct (matchColor_loop r g b vcolors 0 None (-1) =? -1); lia.
Qed.

Ltac bools :=
  repeat match goal with
         | H : _ && _ = true |- _ => apply andb_prop in H; destruct H
         | H : (_ <=? _) = true |- _ => apply Z.leb_le in H
         | H : (_ =? _) = true |- _ => apply Z.eqb_eq in H
         end.

(** One parameter keeps the three fields in range. *)
Lemma step_fields (def p : Z) (rest : list Z) (st : Z * Z * Z) :
  attrInRange def -> fieldsInRange st ->
  fieldsInRange (fst (charAttributes_step def p rest st)).
Proof.
  intros Hd Hst. destruct st as [[f g] b].
  destruct (pack_unpack def Hd) as [(D1 & D2 & D3) _].
  pose proof Hst as (Hf & Hg & Hb).
  pose proof (flags_ok f 1 Hf ltac:(cbn; tauto)) as F1.
  pose proof (flags_ok f 2 Hf ltac:(cbn; tauto)) as F2.
  pose proof (flags_ok f 4 Hf ltac:(cbn; tauto)) as F4.
  pose proof (flags_ok f 8 Hf ltac:(cbn; tauto)) as F8.
  pose proof (flags_ok f 16 Hf ltac:(cbn; tauto)) as F16.
  unfold charAttributes_step.
  repeat lazymatch goal with
         | |- fieldsInRange (fst (if ?c then _ else _)) =>
             destruct c eqn:?;
             [ cbn [fst fieldsInRange]; bools; repeat split; lia || tauto | ]
         end.
  all: repeat match goal with
              | |- fieldsInRange (fst (match ?x with _ => _ end)) => destruct x
              end;
    cbn [fst]; try exact Hst; cbv zeta; cbn [fieldsInRange];
    (split; [exact Hf |]);
    (split; [first [exact Hg | exact D2 | apply matchColor_field | apply band_255]
            | first [exact Hb | exact D3 | apply matchColor_field | apply band_255]]).
Qed.

Lemma loop_fields (def : Z) :
  attrInRange def ->
  forall (ps : list Z) (skip : nat) (st : Z * Z * Z),
    fieldsInRange st -> fieldsInRange (charAttributes_loop def ps skip st).
Proof.
  intros Hd. induction ps as [| p rest IH]; intros skip st Hst; [exact Hst |].
  destruct skip as [| k]; cbn [charAttributes_loop]; [| apply IH; exact Hst].
  pose proof (step_fields def p rest st Hd Hst) as S1.
  destruct (charAttributes_step def p rest st) as [st' k]. apply IH. exact S1.
Qed.

(** A parameter other than 38 and 48 does not look at the parameters after
    it and does not move over them. *)
Lemma step_alone (def p : Z) (rest : list Z) (st : Z * Z * Z) :
  p <> 38 -> p <> 48 ->
  charAttributes_step def p rest st = (fst (charAttributes_step def p [] st), O).
Proof.
  intros H38 H48. destruct st as [[f g] b]. unfold charAttributes_step.
  repeat lazymatch goal with
         | |- (if ?c then _ else _) = _ =>
             destruct c eqn:?;
             [ first [reflexivity | bools; contradiction] | ]
         end.
  reflexivity.
Qed.

Lemma loop_app (def : Z) (qs : list Z) :
  forall (ps : list Z) (st : Z * Z * Z),
    Forall (fun p => p <> 38 /\ p <> 48) ps ->
    charAttributes_loop def (ps ++ qs) O st
    = charAttributes_loop def qs O (charAttributes_loop def ps O st).
Proof.
  induction ps as [| p ps IH]; intros st Hps; [reflexivity |].
  inversion Hps as [| ? ? [H38 H48] Hps']; subst.
  cbn [app charAttributes_loop].
  rewrite (step_alone def p (ps ++ qs) st H38 H48).
  rewrite (step_alone def p ps st H38 H48).
  apply IH. exact Hps'.
Qed.

Lemma charAttributes_fields (ps : list Z) (t : Terminal) :
  attrInRange (defAttr t) ->
  charAttributes ps t
  = set_curAttr (packAttr (charAttributes_loop (defAttr t) ps O (unpackAttr (curAttr t)))) t.
Proof.
  intros Hd.
  assert (G : (let '(flags, fg, bg) :=
                 charAttributes_loop (defAttr t) ps O (unpackAttr (curAttr t)) in
               set_curAttr (Js.bor (Js.bor (Js.shl flags 18) (Js.shl fg 9)) bg) t)
              = set_curAttr
                  (packAttr (charAttributes_loop (defAttr t) ps O (unpackAttr (curAttr t)))) t).
  { destruct (charAttributes_loop (defAttr t) ps O (unpackAttr (curAttr t))) as [[f g] b].
    reflexivity. }
  destruct ps as [| p tl]; [exact G |].
  destruct p as [| q | q]; [| exact G | exact G].
  destruct tl as [| p' tl']; [| exact G].
  change (charAttributes [0] t) with (set_curAttr (defAttr t) t).
  change (charAttributes_loop (defAttr t) [0] O (unpackAttr (curAttr t)))
    with (unpackAttr (defAttr t)).
  destruct (pack_unpack (defAttr t) Hd) as [_ E]. rewrite E. reflexivity.
Qed.

(** X24.  SGR parameters compose, and the packed attribute never overflows its
    fields.  When the default and the current attribute fit the 23 bits of
    the packing (five flag bits, nine bits for each colour), then after
    [charAttributes] with any parameters the current attribute still does,
    and its three fields are exactly what the loop over the parameters
    computed; and a list of parameters [ps ++ qs], with no 38 or 48
    (extended colour) in [ps], has the effect of [ps] followed by [qs]:
    CSI 1 ; 31 m is CSI 1 m CSI 31 m. *)
Theorem charAttributes_composes (ps qs : list Z) (t : Terminal) :
  attrInRange (defAttr t) -> attrInRange (curAttr t) ->
  Forall (fun p => p <> 38 /\ p <> 48) ps ->
  attrInRange (curAttr (charAttributes qs t))
  /\ unpackAttr (curAttr (charAttributes qs t))
     = charAttributes_loop (defAttr t) qs O (unpackAttr (curAttr t))
  /\ charAttributes (ps ++ qs) t = charAttributes qs (charAttributes ps t).
Proof.
  intros Hd Hc Hps.
  destruct (pack_unpack (curAttr t) Hc) as [Fc _].
  assert (K : forall l,
             attrInRange (curAttr (charAttributes l t))
             /\ unpackAttr (curAttr (charAttributes l t))
                = charAttributes_loop (defAttr t) l O (unpackAttr (curAttr t))).
  { intros l. rewrite (charAttributes_fields l t Hd).
    change (curAttr (set_curAttr ?a t)) with a.
    apply unpack_pack. apply loop_fields; assumption. }
  destruct (K qs) as [K1 K2]. split; [exact K1 |]. split; [exact K2 |].
  destruct (K ps) as [_ K3].
  rewrite (charAttributes_fields (ps ++ qs) t Hd).
  rewrite (charAttributes_fields qs (charAttributes ps t)).
  2:{ rewrite (charAttributes_fields ps t Hd). exact Hd. }
  rewrite K3, loop_app by exact Hps.
  rewrite (charAttributes_fields ps t Hd).
  reflexivity.
Qed.

Lemma charAttributes_composes_witness :
  attrInRange (curAttr (charAttributes [38; 5; 200; 4] fresh))
  /\ unpackAttr (curAttr (charAttributes [38; 5; 200; 4] fresh))
     = charAttributes_loop (defAttr fresh) [38; 5; 200; 4] O (unpackAttr (curAttr fresh))
  /\ charAttributes ([1; 31] ++ [38; 5; 200; 4]) fresh
     = charAttributes [38; 5; 200; 4] (charAttributes [1; 31] fresh).
Proof.
  apply (charAttributes_composes [1; 31] [38; 5; 200; 4] fresh).
  - vm_compute. split; [discriminate | reflexivity].
  - vm_compute. split; [discriminate | reflexivity].
  - repeat constructor; discriminate.
Defined.

(** ** Setting and clearing a tab stop *)

Lemma hasTab_delTab (ts : list Z) (i k : Z) :
  hasTab (delTab ts i) k = hasTab ts k && negb (k =? i).
Proof.
  unfold hasTab, delTab. induction ts as [| a ts IH]; [reflexivity |].
  cbn [filter existsb]. destruct (a =? i) eqn:Ea; cbn [negb existsb].
  - apply Z.eqb_eq in Ea. subst a. rewrite IH.
    destruct (k =? i); cbn [orb negb andb]; [rewrite andb_false_r |
      rewrite andb_true_r]; reflexivity.
  - rewrite IH. destruct (k =? a) eqn:Ek; cbn [orb]; [| reflexivity].
    apply Z.eqb_eq in Ek. subst k. rewrite Ea. reflexivity.
Qed.

Lemma prevStop_loop_spec (ts : list Z) :
  forall (fuel : nat) (px : Z),
    px - 1 <= Z.of_nat fuel ->
    let r := prevStop_loop fuel ts px in
    r < px
    /\ (forall k, r < k < px -> hasTab ts k = false /\ 0 < k)
    /\ (hasTab ts r = true \/ r <= 0).
Proof.
  induction fuel as [| fuel IH]; intros px Hfuel; cbn [prevStop_loop]; cbv zeta.
  - destruct (hasTab ts (px - 1)) eqn:Et; cbn [negb andb].
    + split; [lia |]. split; [intros k Hk; lia | left; exact Et].
    + destruct (0 <? px - 1) eqn:Ec.
      * apply Z.ltb_lt in Ec. lia.
      * apply Z.ltb_ge in Ec. split; [lia |]. split; [intros k Hk; lia | right; lia].
  - destruct (hasTab ts (px - 1)) eqn:Et; cbn [negb andb].
    + split; [lia |]. split; [intros k Hk; lia | left; exact Et].
    + destruct (0 <? px - 1) eqn:Ec.
      * apply Z.ltb_lt in Ec.
        destruct (IH (px - 1)) as (I1 & I2 & I3); [lia |].
        split; [lia |]. split; [| exact I3].
        intros k Hk. destruct (Z.eq_dec k (px - 1)) as [-> | Hne];
          [split; [exact Et | exact Ec] | apply I2; lia].
      * apply Z.ltb_ge in Ec. split; [lia |]. split; [intros k Hk; lia | right; lia].
Qed.

(** X25.  A tab stop set with HTS (ESC H) at the column [c] of the cursor is
    one more stop and changes no other; it is where a forward tab lands
    from any column to its left and a backward tab from any column to its
    right, when no other stop lies between; TBC 0 (CSI 0 g) at that column
    removes that stop and no other; and after TBC 3 (CSI 3 g) no stop is
    left, so that a forward tab goes to the last column.  The columns that
    the tab starts from are those that the loops of the code step through
    exactly: not negative, on a screen of at most 2^53 columns for the
    forward tab, and below 2^53 for the backward tab (from 2^54 on [++x]
    and [--x] do not move, and a loop that finds no stop there does not
    end). *)
Theorem a_tab_stop_is_reached_and_cleared (c : Z) (t : Terminal) :
  0 <= c < cols t ->
  let t1 := tabSet (set_x c t) in
  (forall k, hasTab (tabs t1) k = hasTab (tabs t) k || (k =? c))
  /\ (forall px, 0 <= px < c -> cols t <= 2 ^ 53 ->
        (forall k, px < k < c -> hasTab (tabs t) k = false) ->
        nextStop px t1 = c)
  /\ (forall px, c < px < 2 ^ 53 ->
        (forall k, c < k < px -> hasTab (tabs t) k = false) ->
        prevStop px t1 = c)
  /\ (forall k, hasTab (tabs (tabClear [0] t1)) k = hasTab (tabs t) k && negb (k =? c))
  /\ (forall k, hasTab (tabs (tabClear [3] t1)) k = false)
  /\ (forall px, 0 <= px -> cols t <= 2 ^ 53 ->
        nextStop px (tabClear [3] t1) = cols t - 1).
Proof.
  intros Hc t1.
  assert (T1 : forall k, hasTab (tabs t1) k = hasTab (tabs t) k || (k =? c)).
  { intros k. apply hasTab_addTab. }
  assert (Tc : hasTab (tabs t1) c = true).
  { rewrite T1, Z.eqb_refl. apply orb_true_r. }
  split; [exact T1 |]. split; [| split; [| split; [| split]]].
  - intros px Hpx _ Hno. unfold nextStop.
    change (cols t1) with (cols t).
    destruct (nextStop_loop_spec (tabs t1) (cols t) (Z.to_nat (cols t - px)) px)
      as (S1 & S2 & S3); [lia |].
    set (r0 := nextStop_loop (Z.to_nat (cols t - px)) (tabs t1) (cols t) px) in *.
    assert (E : r0 = c).
    { destruct (Z.lt_trichotomy r0 c) as [H | [H | H]]; [| exact H |].
      - destruct S3 as [S3 | S3]; [| lia].
        rewrite T1, Hno in S3 by lia.
        replace (r0 =? c) with false in S3 by (symmetry; apply Z.eqb_neq; lia).
        discriminate.
      - destruct (S2 c) as [S4 _]; [lia |]. congruence. }
    cbv zeta. rewrite E.
    replace (cols t <=? c) with false by (symmetry; apply Z.leb_gt; lia).
    replace (c <? 0) with false by (symmetry; apply Z.ltb_ge; lia).
    reflexivity.
  - intros px Hpx Hno. unfold prevStop.
    change (cols t1) with (cols t).
    destruct (prevStop_loop_spec (tabs t1) (Z.to_nat px) px) as (S1 & S2 & S3); [lia |].
    set (r0 := prevStop_loop (Z.to_nat px) (tabs t1) px) in *.
    assert (E : r0 = c).
    { destruct (Z.lt_trichotomy r0 c) as [H | [H | H]]; [| exact H |].
      - destruct (S2 c) as [S4 _]; [lia |]. congruence.
      - destruct S3 as [S3 | S3]; [| lia].
        rewrite T1, Hno in S3 by lia.
        replace (r0 =? c) with false in S3 by (symmetry; apply Z.eqb_neq; lia).
        discriminate. }
    cbv zeta. rewrite E.
    replace (cols t <=? c) with false by (symmetry; apply Z.leb_gt; lia).
    replace (c <? 0) with false by (symmetry; apply Z.ltb_ge; lia).
    reflexivity.
  - intros k.
    change (tabs (tabClear [0] t1)) with (delTab (tabs t1) c).
    rewrite hasTab_delTab, T1.
    destruct (k =? c); cbn [negb];
      [rewrite !andb_false_r | rewrite orb_false_r, !andb_true_r]; reflexivity.
  - intros k. reflexivity.
  - intros px _ _. unfold nextStop.
    change (cols (tabClear [3] t1)) with (cols t).
    change (tabs (tabClear [3] t1)) with (@nil Z).
    destruct (nextStop_loop_spec [] (cols t) (Z.to_nat (cols t - px)) px)
      as (S1 & S2 & S3); [lia |].
    set (r0 := nextStop_loop (Z.to_nat (cols t - px)) [] (cols t) px) in *.
    destruct S3 as [S3 | S3]; [discriminate |].
    cbv zeta. replace (cols t <=? r0) with true by (symmetry; apply Z.leb_le; lia).
    reflexivity.
Qed.

Lemma a_tab_stop_is_reached_and_cleared_witness :
  nextStop 9 (tabSet (set_x 13 fresh)) = 13
  /\ prevStop 15 (tabSet (set_x 13 fresh)) = 13.
Proof.
  destruct (a_tab_stop_is_reached_and_cleared 13 fresh) as (_ & N & P & _);
    [vm_compute; split; [discriminate | reflexivity] |].
  split.
  - apply N; [lia | vm_compute; congruence |]. intros k Hk.
    assert (C : k = 10 \/ k = 11 \/ k = 12) by lia.
    destruct C as [-> | [-> | ->]]; vm_compute; reflexivity.
  - apply P; [split; [lia | reflexivity] |]. intros k Hk.
    assert (C : k = 14) by lia. subst k. vm_compute. reflexivity.
Defined.

(** ** Device control strings *)

Section DcsSteps.
Variable t : Terminal.
Hypothesis Hy : y t = oldy t.
Variables (ps : list Param) (post rest : list Z).

Lemma step_dcs_open (ps0 : list Param) (cp : Param) (pre : list Z) :
  oneByte 80 rest (set_psr (mkParser STATE_ESCAPE ps0 cp pre post) t)
  = Ok (set_psr (mkParser STATE_DCS [] (PNum 0) pre post) t, Fwd 0).
Proof.
  unfold oneByte, dispatch.
  change (state (set_psr (mkParser STATE_ESCAPE ps0 cp pre post) t)) with STATE_ESCAPE.
  cbv beta iota.
  change (_processDataEscape 80 (set_psr (mkParser STATE_ESCAPE ps0 cp pre post) t))
    with (set_psr (mkParser STATE_DCS [] (PNum 0) pre post) t, Fwd 0).
  cbn [bind]. rewrite afterByte_same by exact Hy. reflexivity.
Qed.

Lemma step_dcs_intro (ch : Z) :
  ch = 36 \/ ch = 43 ->
  oneByte ch rest (set_psr (mkParser STATE_DCS ps (PNum 0) [] post) t)
  = Ok (set_psr (mkParser STATE_DCS ps (PNum 0) [ch] post) t, Fwd 0).
Proof.
  intros [-> | ->]; unfold oneByte, dispatch;
    change (state (set_psr (mkParser STATE_DCS ps (PNum 0) [] post) t)) with STATE_DCS;
    cbv beta iota.
  - change (_processDataDCS 36 (set_psr (mkParser STATE_DCS ps (PNum 0) [] post) t))
      with (set_psr (mkParser STATE_DCS ps (PNum 0) [36] post) t, Fwd 0).
    cbn [bind]. rewrite afterByte_same by exact Hy. reflexivity.
  - change (_processDataDCS 43 (set_psr (mkParser STATE_DCS ps (PNum 0) [] post) t))
      with (set_psr (mkParser STATE_DCS ps (PNum 0) [43] post) t, Fwd 0).
    cbn [bind]. rewrite afterByte_same by exact Hy. reflexivity.
Qed.

Lemma step_dcs_q (a : Z) :
  oneByte 113 rest (set_psr (mkParser STATE_DCS ps (PNum 0) [a] post) t)
  = Ok (set_psr (mkParser STATE_DCS ps (PNum 0) [a; 113] post) t, Fwd 0).
Proof.
  unfold oneByte, dispatch.
  change (state (set_psr (mkParser STATE_DCS ps (PNum 0) [a] post) t)) with STATE_DCS.
  cbv beta iota.
  change (_processDataDCS 113 (set_psr (mkParser STATE_DCS ps (PNum 0) [a] post) t))
    with (set_psr (mkParser STATE_DCS ps (PNum 0) [a; 113] post) t, Fwd 0).
  cbn [bind]. rewrite afterByte_same by exact Hy. reflexivity.
Qed.

Lemma step_dcs_first (ch a b : Z) :
  ch <> ESC -> ch <> BEL ->
  oneByte ch rest (set_psr (mkParser STATE_DCS ps (PNum 0) [a; b] post) t)
  = Ok (set_psr (mkParser STATE_DCS ps (PStr [ch]) [a; b] post) t, Fwd 0).
Proof.
  intros H1 H2. unfold oneByte, dispatch.
  change (state (set_psr (mkParser STATE_DCS ps (PNum 0) [a; b] post) t)) with STATE_DCS.
  cbv beta iota. unfold _processDataDCS.
  replace ((ch =? ESC) || (ch =? BEL)) with false
    by (symmetry; apply orb_false_intro; apply Z.eqb_neq; assumption).
  cbv beta iota.
  change (currentParam (set_psr (mkParser STATE_DCS ps (PNum 0) [a; b] post) t))
    with (PNum 0).
  change (falsy (PNum 0)) with true. cbv beta iota.
  change (prefix (set_psr (mkParser STATE_DCS ps (PNum 0) [a; b] post) t)) with [a; b].
  cbv beta iota.
  change (set_currentParam (PStr [ch]) (set_psr (mkParser STATE_DCS ps (PNum 0) [a; b] post) t))
    with (set_psr (mkParser STATE_DCS ps (PStr [ch]) [a; b] post) t).
  cbn [bind]. rewrite afterByte_same by exact Hy. reflexivity.
Qed.

Lemma step_dcs_more (ch c0 : Z) (s pre : list Z) :
  ch <> ESC -> ch <> BEL ->
  oneByte ch rest (set_psr (mkParser STATE_DCS ps (PStr (c0 :: s)) pre post) t)
  = Ok (set_psr (mkParser STATE_DCS ps (PStr ((c0 :: s) ++ [ch])) pre post) t, Fwd 0).
Proof.
  intros H1 H2. unfold oneByte, dispatch.
  change (state (set_psr (mkParser STATE_DCS ps (PStr (c0 :: s)) pre post) t)) with STATE_DCS.
  cbv beta iota. unfold _processDataDCS.
  replace ((ch =? ESC) || (ch =? BEL)) with false
    by (symmetry; apply orb_false_intro; apply Z.eqb_neq; assumption).
  cbv beta iota.
  change (currentParam (set_psr (mkParser STATE_DCS ps (PStr (c0 :: s)) pre post) t))
    with (PStr (c0 :: s)).
  change (falsy (PStr (c0 :: s))) with false. cbv beta iota.
  change (set_currentParam _ (set_psr (mkParser STATE_DCS ps (PStr (c0 :: s)) pre post) t))
    with (set_psr (mkParser STATE_DCS ps (PStr ((c0 :: s) ++ [ch])) pre post) t).
  cbn [bind]. rewrite afterByte_same by exact Hy. reflexivity.
Qed.

Lemma step_dcs_status (ch : Z) (cp : Param) :
  ch = ESC \/ ch = BEL ->
  oneByte ch rest (set_psr (mkParser STATE_DCS ps cp [36; 113] post) t)
  = Ok (set_psr (mkParser STATE_NORMAL ps (PNum 0) [] post)
                (send (ESC :: Js.str "P0$r" ++ replyPt cp t ++ [ESC; 92]) t),
        Fwd (if ch =? ESC then 1 else 0)).
Proof.
  intros Hch. unfold oneByte, dispatch.
  change (state (set_psr (mkParser STATE_DCS ps cp [36; 113] post) t)) with STATE_DCS.
  cbv beta iota. unfold _processDataDCS.
  replace ((ch =? ESC) || (ch =? BEL)) with true
    by (destruct Hch as [-> | ->]; reflexivity).
  cbv beta iota zeta.
  change (prefix (set_psr (mkParser STATE_DCS ps cp [36; 113] post) t)) with [36; 113].
  change (Js.eqs [36; 113] (Js.str "$q")) with true. cbv beta iota.
  cbn [bind].
  match goal with
  | |- Ok (afterByte ?u, _) = _ => rewrite (afterByte_same u) by exact Hy
  end.
  reflexivity.
Qed.

Lemma step_dcs_termcap (ch : Z) (cp : Param) :
  ch = ESC \/ ch = BEL ->
  oneByte ch rest (set_psr (mkParser STATE_DCS ps cp [43; 113] post) t)
  = Ok (set_psr (mkParser STATE_NORMAL ps (PNum 0) [] post)
                (send (ESC :: Js.str "P0+r" ++ toStr cp ++ [ESC; 92]) t),
        Fwd (if ch =? ESC then 1 else 0)).
Proof.
  intros Hch. unfold oneByte, dispatch.
  change (state (set_psr (mkParser STATE_DCS ps cp [43; 113] post) t)) with STATE_DCS.
  cbv beta iota. unfold _processDataDCS.
  replace ((ch =? ESC) || (ch =? BEL)) with true
    by (destruct Hch as [-> | ->]; reflexivity).
  cbv beta iota zeta.
  change (prefix (set_psr (mkParser STATE_DCS ps cp [43; 113] post) t)) with [43; 113].
  change (Js.eqs [43; 113] (Js.str "$q")) with false.
  change (Js.eqs [43; 113] (Js.str "+q")) with true. cbv beta iota.
  cbn [bind].
  match goal with
  | |- Ok (afterByte ?u, _) = _ => rewrite (afterByte_same u) by exact Hy
  end.
  reflexivity.
Qed.
End DcsSteps.

Lemma dcs_text_run (t : Terminal) (ps : list Param) (pre post : list Z) :
  y t = oldy t ->
  forall (text : list Z) (c0 : Z) (s rest : list Z),
    Forall (fun c => c <> ESC /\ c <> BEL) text ->
    processLoop (text ++ rest) 0 (set_psr (mkParser STATE_DCS ps (PStr (c0 :: s)) pre post) t)
    = processLoop rest 0
        (set_psr (mkParser STATE_DCS ps (PStr ((c0 :: s) ++ text)) pre post) t).
Proof.
  intros Hy. induction text as [| c text IH]; intros c0 s rest Htext.
  - rewrite app_nil_r. reflexivity.
  - inversion Htext as [| ? ? [H1 H2] Htext']; subst. cbn [app].
    erewrite loop_step by (apply step_dcs_more; assumption).
    cbn [app]. rewrite IH by exact Htext'.
    cbn [app]. rewrite <- app_assoc. reflexivity.
Qed.

Lemma the_end_of_a_string (tail : list Z) (t u : Terminal) :
  tail = [BEL] \/ tail = [ESC; 92] ->
  (forall ch rest', ch = ESC \/ ch = BEL ->
     oneByte ch rest' t = Ok (u, Fwd (if ch =? ESC then 1 else 0))) ->
  processLoop tail 0 t = Ok (u, O).
Proof.
  intros [-> | ->] H.
  - erewrite loop_step by (apply H; right; reflexivity). reflexivity.
  - erewrite loop_step by (apply H; left; reflexivity). reflexivity.
Qed.

(** X26.  DCS requests are answered on the reply queue.  With the parser idle
    and no prefix pending, DECRQSS for the scroll region, ESC P $ q r
    followed by BEL or ST, is processed without error, and when the first
    and the last row of the region are from 0 to below 2^53 (numbers that
    the code holds exactly and prints in full: DECSTBM sets the region
    without a clamp, and from 1e21 on the code prints the exponent form)
    it queues ESC P 0 $ r top ; bottom r ESC \ with the two rows counted
    from one and printed in decimal; and the termcap request
    ESC P + q name, for a name that is not empty and holds neither ESC nor
    BEL, queues ESC P 0 + r name ESC \, the name echoed.  The validity
    digit of both replies is 0.  The parser is idle again and the screen
    and the cursor are as before. *)
Theorem dcs_requests_are_answered (t : Terminal) (tail : list Z) :
  state t = STATE_NORMAL -> prefix t = [] ->
  tail = [BEL] \/ tail = [ESC; 92] ->
  (exists t',
     _processWriteData (ESC :: 80 :: Js.str "$qr" ++ tail) t = Ok t'
     /\ (0 <= scrollTop t < 2 ^ 53 -> 0 <= scrollBottom t < 2 ^ 53 ->
         queue t' = queue t ++ ESC :: Js.str "P0$r"
                      ++ (Js.dec (scrollTop t + 1) ++ Js.str ";"
                          ++ Js.dec (scrollBottom t + 1) ++ Js.str "r")
                      ++ [ESC; 92])
     /\ state t' = STATE_NORMAL /\ prefix t' = []
     /\ lines t' = lines t /\ x t' = x t /\ y t' = y t)
  /\ (forall name : list Z,
        name <> [] -> Forall (fun c => c <> ESC /\ c <> BEL) name ->
        exists t',
          _processWriteData (ESC :: 80 :: Js.str "+q" ++ name ++ tail) t = Ok t'
          /\ queue t' = queue t ++ ESC :: Js.str "P0+r" ++ name ++ [ESC; 92]
          /\ state t' = STATE_NORMAL /\ prefix t' = []
          /\ lines t' = lines t /\ x t' = x t /\ y t' = y t).
Proof.
  intros Hs Hpre Htail.
  destruct (beforeLoop_keeps t) as (K1 & _ & _ & _ & K5 & _ & K7 & K8 & _).
  pose proof (beforeLoop_oldy t) as Hy.
  pose proof (queue_beforeLoop t) as Hq.
  assert (Htop : scrollTop (beforeLoop t) = scrollTop t
                 /\ scrollBottom (beforeLoop t) = scrollBottom t).
  { unfold beforeLoop. destruct (negb (ybase t =? ydisp t)); split; reflexivity. }
  destruct Htop as [Htop Hbot].
  assert (Hs' : state (beforeLoop t) = STATE_NORMAL) by (unfold state; rewrite K1; exact Hs).
  assert (Hp' : prefix (beforeLoop t) = []) by (unfold prefix; rewrite K1; exact Hpre).
  unfold _processWriteData.
  rewrite <- Hq, <- K5, <- K7, <- K8, <- Htop, <- Hbot.
  clear K1 K5 K7 K8 Hq Htop Hbot Hs Hpre.
  generalize dependent (beforeLoop t). intros T Hy Hs' Hp'.
  assert (Run0 : forall d, processLoop d 0 T
                 = processLoop d 0
                     (set_psr (mkParser STATE_NORMAL (params T) (currentParam T)
                                        [] (postfix T)) T))
    by (intros d; rewrite <- Hs', <- Hp', <- psr_eta; reflexivity).
  split.
  - rewrite Run0.
    erewrite loop_step by (apply step_ESC; exact Hy).
    erewrite loop_step by (apply step_dcs_open; exact Hy).
    cbn [Js.str app]. 
    change (Js.str "$qr" ++ tail) with (36 :: 113 :: 114 :: tail).
    erewrite loop_step by (apply step_dcs_intro; [exact Hy | left; reflexivity]).
    erewrite loop_step by (apply step_dcs_q; exact Hy).
    erewrite loop_step by (apply step_dcs_first; [exact Hy | discriminate | discriminate]).
    erewrite (the_end_of_a_string tail)
      by (first [exact Htail | intros; apply step_dcs_status; assumption]).
    cbn [bind].
    match goal with
    | |- exists t', Ok (updateRange ?v ?u) = Ok t' /\ _ =>
        destruct (updateRange_refr v u) as [r E]; rewrite E
    end.
    eexists. split; [reflexivity |].
    split; [intros _ _; reflexivity | repeat split].
  - intros name Hne Hname. rewrite Run0.
    erewrite loop_step by (apply step_ESC; exact Hy).
    erewrite loop_step by (apply step_dcs_open; exact Hy).
    change (Js.str "+q" ++ name ++ tail) with (43 :: 113 :: name ++ tail).
    erewrite loop_step by (apply step_dcs_intro; [exact Hy | right; reflexivity]).
    erewrite loop_step by (apply step_dcs_q; exact Hy).
    destruct name as [| c0 name]; [contradiction |].
    inversion Hname as [| ? ? [H1 H2] Hname']; subst.
    cbn [app].
    erewrite loop_step by (apply step_dcs_first; [exact Hy | exact H1 | exact H2]).
    rewrite (dcs_text_run T _ _ _ Hy name c0 [] tail Hname').
    erewrite (the_end_of_a_string tail)
      by (first [exact Htail | intros; apply step_dcs_termcap; assumption]).
    cbn [bind].
    match goal with
    | |- exists t', Ok (updateRange ?v ?u) = Ok t' /\ _ =>
        destruct (updateRange_refr v u) as [r E]; rewrite E
    end.
    eexists. split; [reflexivity |]. repeat split.
Qed.

Lemma dcs_requests_are_answered_witness :
  exists t',
    _processWriteData (ESC :: 80 :: Js.str "$qr" ++ [ESC; 92])
                      (set_scrollBottom 9 (set_scrollTop 2 fresh)) = Ok t'
    /\ queue t' = queue (set_scrollBottom 9 (set_scrollTop 2 fresh))
                    ++ ESC :: Js.str "P0$r"
                    ++ (Js.dec (scrollTop (set_scrollBottom 9 (set_scrollTop 2 fresh)) + 1)
                        ++ Js.str ";"
                        ++ Js.dec (scrollBottom (set_scrollBottom 9 (set_scrollTop 2 fresh)) + 1)
                        ++ Js.str "r")
                    ++ [ESC; 92]
    /\ Js.dec (scrollTop (set_scrollBottom 9 (set_scrollTop 2 fresh)) + 1) = Js.str "3"
    /\ Js.dec (scrollBottom (set_scrollBottom 9 (set_scrollTop 2 fresh)) + 1) = Js.str "10".
Proof.
  destruct (dcs_requests_are_answered (set_scrollBottom 9 (set_scrollTop 2 fresh)) [ESC; 92])
    as [(t' & E & Q & _) _];
    [vm_compute; reflexivity | vm_compute; reflexivity | right; reflexivity |].
  exists t'. split; [exact E |].
  split; [| split; vm_compute; reflexivity].
  apply Q; vm_compute; (split; [discriminate | reflexivity]).
Defined.

(** ** Plain text keeps the engine in shape *)

Lemma Forall_parts {A} (P : A -> Prop) (l : list A) (k : nat) :
  Forall P l -> Forall P (firstn k l) /\ Forall P (skipn k l).
Proof.
  intros H. rewrite <- (firstn_skipn k l) in H. apply Forall_app in H. exact H.
Qed.

Lemma allLen_slice (n : Z) (a : list Row) (s : Z) :
  allLen n a -> allLen n (Js.slice a s).
Proof. intros H. unfold Js.slice. apply (Forall_parts _ a _ H). Qed.

Lemma allLen_splice (n : Z) (a items : list Row) (s c : Z) :
  allLen n a -> allLen n items -> allLen n (Js.splice a s c items).
Proof.
  intros Ha Hi. unfold Js.splice, allLen.
  apply Forall_app. split; [apply (Forall_parts _ a _ Ha) |].
  apply Forall_app. split; [exact Hi | apply (Forall_parts _ a _ Ha)].
Qed.

Lemma allLen_setRow (n row : Z) (line : Row) (ls : list Row) :
  allLen n ls -> Js.len line = n -> allLen n (setRow row line ls).
Proof.
  intros Ha Hl. unfold setRow, allLen.
  apply Forall_app. split; [apply (Forall_parts _ ls _ Ha) |].
  constructor; [exact Hl | apply (Forall_parts _ ls _ Ha)].
Qed.

Lemma blankLine_len (cur : bool) (t : Terminal) :
  0 <= cols t -> Js.len (blankLine cur t) = cols t.
Proof. intros H. unfold blankLine, Js.len. rewrite repeat_length. lia. Qed.

(** The buffer after a scroll. *)
Lemma scroll_buffer (t : Terminal) :
  physicalScroll t = false -> 1 <= scrollback t -> 1 <= rows t -> 0 <= cols t ->
  0 <= ybase t <= scrollback t ->
  0 <= scrollTop t <= scrollBottom t -> scrollBottom t < rows t ->
  Js.len (lines t) = ybase t + rows t -> allLen (cols t) (lines t) ->
  opts (scroll t) = opts t
  /\ 0 <= ybase (scroll t) <= scrollback t
  /\ Js.len (lines (scroll t)) = ybase (scroll t) + rows t
  /\ allLen (cols t) (lines (scroll t)).
Proof.
  intros Hphys Hsb Hrows Hcols Hyb Hreg Hbot Hlen Hall.
  pose (A := fun t : Terminal =>
    if negb (physicalScroll t) then
      let t := set_ybase (ybase t + 1) t in
      if scrollback t <? ybase t then
        let t := set_ybase (ybase t - 1) t in
        set_lines (Js.slice (lines t) (- (ybase t + rows t) + 1)) t
      else t
    else
      let oldline := Js.get (lines t) 0 in
      let t := set_lines (Js.slice (lines t) (- (ybase t + rows t) + 1)) t in
      set__scrollbackBuffer (_scrollbackBuffer t ++ [oldline]) t).
  pose (B := fun t : Terminal =>
    let t := set_ydisp (ybase t) t in
    let lastline := ybase t + rows t - 1 in
    let row := lastline - (rows t - 1 - scrollBottom t) in
    set_lines (Js.splice (lines t) row 0 [blankLine false t]) t).
  pose (C := fun t : Terminal =>
    if negb (scrollTop t =? 0) then
      let t := if negb (ybase t =? 0)
               then set_ydisp (ybase t - 1) (set_ybase (ybase t - 1) t) else t in
      set_lines (Js.splice (lines t) (ybase t + scrollTop t) 1 []) t
    else t).
  pose (D := fun t : Terminal =>
    updateRange (scrollBottom t) (updateRange (scrollTop t) t)).
  change (scroll t) with (D (C (B (A t)))).
  assert (HA : opts (A t) = opts t /\ rows (A t) = rows t /\ cols (A t) = cols t
               /\ defAttr (A t) = defAttr t
               /\ scrollTop (A t) = scrollTop t /\ scrollBottom (A t) = scrollBottom t
               /\ allLen (cols t) (lines (A t))
               /\ ((ybase t < scrollback t /\ ybase (A t) = ybase t + 1
                    /\ Js.len (lines (A t)) = ybase t + rows t)
                   \/ (ybase t = scrollback t /\ ybase (A t) = ybase t
                       /\ Js.len (lines (A t)) = ybase t + rows t - 1))).
  { unfold A. rewrite Hphys. cbn [negb]. cbv zeta.
    change (scrollback (set_ybase (ybase t + 1) t)) with (scrollback t).
    change (ybase (set_ybase (ybase t + 1) t)) with (ybase t + 1).
    destruct (scrollback t <? ybase t + 1) eqn:E;
      [apply Z.ltb_lt in E | apply Z.ltb_ge in E].
    - do 6 (split; [reflexivity |]).
      split.
      + change (allLen (cols t)
                  (Js.slice (lines t) (- (ybase t + 1 - 1 + rows t) + 1))).
        apply allLen_slice. exact Hall.
      + right. split; [lia |]. split; [change (ybase t + 1 - 1 = ybase t); lia |].
        change (Js.len (Js.slice (lines t) (- (ybase t + 1 - 1 + rows t) + 1))
                = ybase t + rows t - 1).
        rewrite len_slice_tail by lia. lia.
    - do 6 (split; [reflexivity |]).
      split; [exact Hall |]. left.
      split; [lia |]. split; [reflexivity | exact Hlen]. }
  destruct HA as (A0 & A1 & Ac & Ad & A2 & A3 & Aa & A4).
  unfold scrollback in *. rewrite <- A0. fold (scrollback (A t)).
  assert (Hsb' : 1 <= scrollback (A t)) by (unfold scrollback; rewrite A0; exact Hsb).
  assert (A4' : (ybase t < scrollback (A t) /\ ybase (A t) = ybase t + 1
                 /\ Js.len (lines (A t)) = ybase t + rows t)
                \/ (ybase t = scrollback (A t) /\ ybase (A t) = ybase t
                    /\ Js.len (lines (A t)) = ybase t + rows t - 1)).
  { unfold scrollback. rewrite A0. exact A4. }
  clear A4 Hsb Hphys Hlen Hall.
  rewrite <- Ac in Aa, Hcols. rewrite <- Ac.
  rewrite <- A1 in Hrows, Hbot. rewrite <- A2, <- A3 in Hreg. rewrite <- A3 in Hbot.
  clear A2 A3 Ac Ad.
  assert (G : forall u : Terminal,
            0 <= ybase t -> 1 <= scrollback u -> 1 <= rows u -> 0 <= cols u ->
            0 <= scrollTop u <= scrollBottom u -> scrollBottom u < rows u ->
            allLen (cols u) (lines u) ->
            rows u = rows t ->
            ((ybase t < scrollback u /\ ybase u = ybase t + 1
              /\ Js.len (lines u) = ybase t + rows t)
             \/ (ybase t = scrollback u /\ ybase u = ybase t
                 /\ Js.len (lines u) = ybase t + rows t - 1)) ->
            opts (D (C (B u))) = opts u
            /\ 0 <= ybase (D (C (B u))) <= scrollback u
            /\ Js.len (lines (D (C (B u)))) = ybase (D (C (B u))) + rows t
            /\ allLen (cols u) (lines (D (C (B u))))).
  { clear. intros u Hyb Hsb Hrows Hcols Hreg Hbot Hall A1 A4.
    unfold scrollback in *.
    assert (HB : opts (B u) = opts u /\ rows (B u) = rows u /\ cols (B u) = cols u
                 /\ scrollTop (B u) = scrollTop u
                 /\ ybase (B u) = ybase u
                 /\ Js.len (lines (B u)) = Js.len (lines u) + 1
                 /\ allLen (cols u) (lines (B u))).
    { unfold B. cbv zeta. do 5 (split; [reflexivity |]).
      split; [apply len_splice_insert |].
      apply allLen_splice; [exact Hall |].
      constructor; [| constructor].
      change (Js.len (blankLine false u) = cols u).
      apply blankLine_len. exact Hcols. }
    destruct HB as (B0 & B1 & Bc & B2 & B4 & B6 & Ba).
    rewrite <- B0. rewrite <- B0 in Hsb, A4.
    rewrite <- B4 in A4. rewrite <- B2 in Hreg. rewrite <- Bc.
    rewrite <- Bc in Ba.
    assert (Htop2 : scrollTop (B u) < rows t) by (rewrite <- A1; lia).
    destruct Hreg as [Htop _].
    clear B0 B1 Bc B2 B4 Hall Hcols Hbot Hrows A1.
    revert A4 B6. generalize (Js.len (lines u)). intros n0 A4 B6.
    generalize dependent (B u). intros v Hsb Htop Ba Htop2 A4 B6.
    assert (B6' : (ybase t < o_scrollback (opts v) /\ ybase v = ybase t + 1
                   /\ Js.len (lines v) = ybase t + rows t + 1)
                  \/ (ybase t = o_scrollback (opts v) /\ ybase v = ybase t
                      /\ Js.len (lines v) = ybase t + rows t)).
    { destruct A4 as [(P1 & P2 & P3) | (P1 & P2 & P3)]; [left | right];
        (split; [exact P1 |]); (split; [exact P2 |]); rewrite B6, P3; ring. }
    clear A4 B6. rename B6' into B6.
    assert (HC : opts (C v) = opts v
                 /\ 0 <= ybase (C v) <= o_scrollback (opts v)
                 /\ Js.len (lines (C v)) = ybase (C v) + rows t
                 /\ allLen (cols v) (lines (C v))).
    { unfold C. destruct (scrollTop v =? 0) eqn:E;
        [apply Z.eqb_eq in E | apply Z.eqb_neq in E]; cbn [negb].
      - split; [reflexivity |]. split; [lia |]. split; [lia | exact Ba].
      - assert (Hv : ybase v <> 0) by lia.
        replace (ybase v =? 0) with false by (symmetry; apply Z.eqb_neq; exact Hv).
        cbn [negb]. cbv zeta.
        split; [reflexivity |].
        split; [change (0 <= ybase v - 1 <= o_scrollback (opts v)); lia |].
        split.
        + change (Js.len (Js.splice (lines v) (ybase v - 1 + scrollTop v) 1 [])
                  = ybase v - 1 + rows t).
          rewrite len_splice_delete by lia. lia.
        + change (allLen (cols v)
                    (Js.splice (lines v) (ybase v - 1 + scrollTop v) 1 [])).
          apply allLen_splice; [exact Ba | constructor]. }
    destruct HC as (C0 & C1 & C2 & C3).
    rewrite <- C0. rewrite <- C0 in C1.
    clear C0 Ba B6 Hsb Htop Htop2.
    revert C3. generalize (cols v). intros n C3.
    generalize dependent (C v). intros w C1 C2 C3.
    unfold D.
    destruct (updateRange_twice (scrollBottom w) (scrollTop w) w) as [rr E]. rewrite E.
    split; [reflexivity |]. split; [exact C1 |]. split; [exact C2 | exact C3]. }
  apply (G (A t)); try assumption. lia.
Qed.

Lemma inShape_intro (t u : Terminal) :
  inShape t ->
  opts u = opts t -> chs u = chs t -> modes u = modes t -> psr u = psr t ->
  cols u = cols t -> rows u = rows t ->
  scrollTop u = scrollTop t -> scrollBottom u = scrollBottom t ->
  0 <= ybase u <= scrollback t -> Js.len (lines u) = ybase u + rows t ->
  allLen (cols t) (lines u) ->
  0 <= x u <= cols t -> 0 <= y u < rows t ->
  inShape u.
Proof.
  intros (I1 & I2 & I3 & I4 & I5 & I6 & I7 & I8 & I9 & I10 & I11 & I12 & I13)
         Eo Ec Em Ep Ecols Erows Etop Ebot Hyb Hlen Hall Hx Hy.
  unfold inShape, physicalScroll, scrollback, charset, insertMode, state in *.
  rewrite Eo, Ec, Em, Ep, Ecols, Erows, Etop, Ebot.
  repeat (split; [assumption || lia |]).
  split; [apply rows_have_cols_iff; rewrite Ecols; exact Hall |].
  split; [apply in_bounds_iff; rewrite Ecols, Erows; split; assumption |].
  repeat (split; [assumption || lia |]). assumption.
Qed.

Lemma inShape_region (t : Terminal) :
  inShape t ->
  1 <= rows t /\ 1 <= cols t /\ 0 <= ybase t <= scrollback t
  /\ Js.len (lines t) = ybase t + rows t /\ allLen (cols t) (lines t)
  /\ 0 <= x t <= cols t /\ 0 <= y t < rows t
  /\ 0 <= scrollTop t <= scrollBottom t /\ scrollBottom t < rows t.
Proof.
  intros (I1 & I2 & I3 & I4 & I5 & I6 & I7 & I8 & I9 & I10 & I11 & I12 & I13).
  apply rows_have_cols_iff in I7. apply in_bounds_iff in I8. tauto.
Qed.

Lemma inShape_scroll (t : Terminal) : inShape t -> inShape (scroll t).
Proof.
  intros H. pose proof (inShape_region t H) as (R1 & R2 & R3 & R4 & R5 & R6 & R7 & R8 & R9).
  pose proof H as (I1 & I2 & _).
  destruct (scroll_keeps t) as (K1 & K2 & K3 & K4 & K5 & K6 & _ & K8 & K9 & K10 & _).
  destruct (scroll_buffer t I1 I2 R1 ltac:(lia) R3 R8 R9 R4 R5) as (S0 & S1 & S2 & S3).
  apply (inShape_intro t); try assumption.
  - rewrite K1. exact R6.
  - rewrite K2. exact R7.
Qed.

Lemma inShape_updateRange (v : Z) (t : Terminal) : inShape t -> inShape (updateRange v t).
Proof.
  intros H. destruct (updateRange_refr v t) as [r E]. rewrite E. exact H.
Qed.

Lemma nextStop_on_the_screen (px : Z) (t : Terminal) :
  1 <= cols t -> 0 <= nextStop px t <= cols t - 1.
Proof.
  intros Hc. unfold nextStop. cbv zeta.
  destruct (cols t <=? _) eqn:E1; [lia |]. apply Z.leb_gt in E1.
  destruct (_ <? 0) eqn:E2; [lia |]. apply Z.ltb_ge in E2. lia.
Qed.

(** A line feed, and the wrap of a printable at the margin: the cursor
    goes down a row, or the region scrolls. *)
Lemma inShape_down (t : Terminal) :
  inShape t ->
  inShape (if scrollBottom t <? y t + 1 then scroll t else set_y (y t + 1) t).
Proof.
  intros H. pose proof (inShape_region t H) as (R1 & R2 & R3 & R4 & R5 & R6 & R7 & R8 & R9).
  destruct (scrollBottom t <? y t + 1) eqn:E;
    [apply Z.ltb_lt in E | apply Z.ltb_ge in E].
  - apply inShape_scroll. exact H.
  - apply (inShape_intro t); try assumption; try reflexivity.
    change (0 <= y t + 1 < rows t). lia.
Qed.

Lemma inShape_column (v : Z) (t : Terminal) :
  inShape t -> 0 <= v <= cols t -> inShape (set_x v t).
Proof.
  intros H Hv. pose proof (inShape_region t H) as (R1 & R2 & R3 & R4 & R5 & R6 & R7 & R8 & R9).
  apply (inShape_intro t); try assumption; reflexivity.
Qed.

Lemma lineFeed_down (t : Terminal) :
  (let t := set_y (y t + 1) t in
   if scrollBottom t <? y t then scroll (set_y (y t - 1) t) else t)
  = if scrollBottom t <? y t + 1 then scroll t else set_y (y t + 1) t.
Proof.
  cbv zeta.
  change (scrollBottom (set_y (y t + 1) t)) with (scrollBottom t).
  change (y (set_y (y t + 1) t)) with (y t + 1).
  destruct (scrollBottom t <? y t + 1); [| reflexivity].
  f_equal. replace (y t + 1 - 1) with (y t) by lia. apply set_y_back.
Qed.

Lemma wrapAtMargin_inside (t : Terminal) : x t < cols t -> wrapAtMargin t = t.
Proof.
  intros H. unfold wrapAtMargin.
  replace (cols t <=? x t) with false by (symmetry; apply Z.leb_gt; exact H).
  reflexivity.
Qed.

Lemma inShape_wrap (t : Terminal) :
  inShape t ->
  inShape (wrapAtMargin t) /\ x (wrapAtMargin t) < cols (wrapAtMargin t).
Proof.
  intros H. pose proof (inShape_region t H) as (R1 & R2 & R3 & R4 & R5 & R6 & R7 & R8 & R9).
  destruct (Z.eq_dec (x t) (cols t)) as [Hx | Hx].
  - rewrite (wrapAtMargin_at_margin t Hx).
    assert (Hu : inShape (updateRange (y t) (set_x 0 t)))
      by (apply inShape_updateRange, inShape_column; [exact H | lia]).
    destruct (updateRange_refr (y t) (set_x 0 t)) as [r E]. rewrite E in *.
    destruct (y t <? scrollBottom t) eqn:Ey;
      [apply Z.ltb_lt in Ey | apply Z.ltb_ge in Ey].
    + split; [| change (0 < cols t); lia].
      apply (inShape_intro (set_refr r (set_x 0 t))); try reflexivity; try assumption.
      * change (0 <= 0 <= cols t). lia.
      * change (0 <= y t + 1 < rows t). lia.
    + split; [apply inShape_scroll; exact Hu |].
      destruct (scroll_keeps (set_refr r (set_x 0 t))) as (K1 & _ & K3 & _).
      rewrite K1, K3. change (0 < cols t). lia.
  - rewrite wrapAtMargin_inside by lia. split; [exact H | lia].
Qed.

Lemma inShape_write (ch : Z) (t : Terminal) :
  inShape t -> x t < cols t -> SP <= ch <= 0xff00 ->
  exists t', normalState ch t = Ok t' /\ inShape t'.
Proof.
  intros H Hx Hch.
  pose proof (inShape_region t H) as (R1 & R2 & R3 & R4 & R5 & R6 & R7 & R8 & R9).
  pose proof H as (_ & _ & _ & _ & _ & _ & _ & _ & _ & _ & I11 & I12 & _).
  destruct (get_inside (lines t) (y t + ybase t)) as [line Hrow]; [lia |].
  assert (Hline : Js.len line = cols t).
  { apply get_Some in Hrow. destruct Hrow as [_ Hn]. apply nth_error_In in Hn.
    unfold allLen in R5. rewrite Forall_forall in R5. apply R5. exact Hn. }
  rewrite (printable_plain ch t line Hch I11 I12 Hx Hrow).
  eexists. split; [reflexivity |].
  apply inShape_updateRange.
  apply (inShape_intro t); try reflexivity; try assumption.
  - change (Js.len (setRow (y t + ybase t) (Js.set line (x t) (curAttr t, ch)) (lines t))
            = ybase t + rows t).
    rewrite len_setRow by lia. exact R4.
  - change (allLen (cols t)
              (setRow (y t + ybase t) (Js.set line (x t) (curAttr t, ch)) (lines t))).
    apply allLen_setRow; [exact R5 |].
    rewrite set_inside_len by lia. exact Hline.
  - change (0 <= x t + 1 <= cols t). lia.
Qed.

(** One character of plain text in the normal state. *)
Lemma plain_step (ch : Z) (t : Terminal) :
  inShape t -> plainChar ch = true ->
  exists t', normalState ch t = Ok t' /\ inShape t'.
Proof.
  intros H Hch.
  pose proof (inShape_region t H) as (R1 & R2 & R3 & R4 & R5 & R6 & R7 & R8 & R9).
  unfold plainChar in Hch. apply orb_prop in Hch. destruct Hch as [Hc | Hc].
  - apply andb_prop in Hc. destruct Hc as [C1 C2]. apply Z.leb_le in C1, C2.
    assert (C : ch = 8 \/ ch = 9 \/ ch = 10 \/ ch = 11 \/ ch = 12 \/ ch = 13) by lia.
    assert (LF : exists t',
               Ok (let t := if convertEol t then set_x 0 t else t in
                   let t := set_y (y t + 1) t in
                   if scrollBottom t <? y t then scroll (set_y (y t - 1) t) else t)
               = Ok t' /\ inShape t').
    { eexists. split; [reflexivity |].
      cbv zeta.
      assert (H0 : inShape (if convertEol t then set_x 0 t else t))
        by (destruct (convertEol t); [apply inShape_column; [exact H | lia] | exact H]).
      revert H0. generalize (if convertEol t then set_x 0 t else t). intros u Hu.
      pose proof (lineFeed_down u) as E. cbv zeta in E. rewrite E.
      apply inShape_down. exact Hu. }
    destruct C as [-> | [-> | [-> | [-> | [-> | ->]]]]].
    + exists (if 0 <? x t then set_x (x t - 1) t else t). split; [reflexivity |].
      destruct (0 <? x t) eqn:E; [| exact H]. apply Z.ltb_lt in E.
      apply inShape_column; [exact H | lia].
    + exists (set_x (nextStop (x t) t) t). split; [reflexivity |].
      apply inShape_column; [exact H |].
      pose proof (nextStop_on_the_screen (x t) t R2). lia.
    + exact LF.
    + exact LF.
    + exact LF.
    + exists (set_x 0 t). split; [reflexivity |].
      apply inShape_column; [exact H | lia].
  - apply andb_prop in Hc. destruct Hc as [C1 C2]. apply Z.leb_le in C1, C2.
    destruct (inShape_wrap t H) as [HW Hx].
    destruct (inShape_write ch (wrapAtMargin t) HW Hx (conj C1 C2)) as (t' & E & Ht').
    exists t'. split; [| exact Ht'].
    rewrite <- E.
    pose proof H as (_ & _ & _ & _ & _ & _ & _ & _ & _ & _ & I11 & _).
    pose proof HW as (_ & _ & _ & _ & _ & _ & _ & _ & _ & _ & W11 & _).
    rewrite !normalState_printable by exact C1.
    unfold printable. rewrite I11, W11. cbn [translate].
    rewrite (wrapAtMargin_inside (wrapAtMargin t) Hx). reflexivity.
Qed.

Lemma inShape_afterByte (t : Terminal) : inShape t -> inShape (afterByte t).
Proof.
  intros H. unfold afterByte. destruct (negb (y t =? oldy t)); [| exact H].
  destruct (updateRange_twice (y t) (oldy t) t) as [r E]. rewrite E. exact H.
Qed.

Lemma plain_run (s : list Z) :
  forall t : Terminal,
    inShape t -> forallb plainChar s = true ->
    exists t', processLoop s O t = Ok (t', O) /\ inShape t'.
Proof.
  induction s as [| ch s IH]; intros t H Hs.
  - exists t. split; [reflexivity | exact H].
  - cbn [forallb] in Hs. apply andb_prop in Hs. destruct Hs as [Hch Hs].
    destruct (plain_step ch t H Hch) as (t1 & E1 & H1).
    destruct (IH (afterByte t1) (inShape_afterByte t1 H1) Hs) as (t' & E' & H').
    exists t'. split; [| exact H'].
    erewrite loop_step; [exact E' |].
    unfold oneByte, dispatch.
    pose proof H as (_ & _ & _ & _ & _ & _ & _ & _ & _ & _ & _ & _ & I13).
    rewrite I13, E1. reflexivity.
Qed.

Lemma inShape_beforeLoop (t : Terminal) : inShape t -> inShape (beforeLoop t).
Proof.
  intros H. unfold beforeLoop. destruct (negb (ybase t =? ydisp t)); exact H.
Qed.

(** X27.  Plain text keeps the engine in shape, and is never an error.  From
    an engine in shape, a chunk of printable characters that are not wide
    and of the controls BS, HT, LF, VT, FF and CR, of any length, is
    processed to the end; afterwards the engine is in shape again: every
    row of the buffer has [cols] cells, the buffer holds exactly the rows
    of the scrollback and of the screen, the scrollback is within its
    limit, and the cursor is on the screen. *)
Theorem plain_text_keeps_the_engine_in_shape (s : list Z) (t : Terminal) :
  inShape t -> forallb plainChar s = true ->
  exists t', _processWriteData s t = Ok t' /\ inShape t'.
Proof.
  intros H Hs.
  destruct (plain_run s (beforeLoop t) (inShape_beforeLoop t H) Hs) as (t' & E & H').
  unfold _processWriteData. rewrite E. cbn [bind].
  eexists. split; [reflexivity |]. apply inShape_updateRange. exact H'.
Qed.

Lemma plain_text_keeps_the_engine_in_shape_witness :
  exists t',
    _processWriteData (Js.str "total 12" ++ [13; 10] ++ Js.str "drwxr-xr-x" ++ [9; 8; 10; 10])
                      fresh = Ok t'
    /\ inShape t'.
Proof.
  apply (plain_text_keeps_the_engine_in_shape
           (Js.str "total 12" ++ [13; 10] ++ Js.str "drwxr-xr-x" ++ [9; 8; 10; 10]) fresh).
  - unfold inShape. vm_compute. repeat split; discriminate.
  - vm_compute. reflexivity.
Defined.

(** ** Character sets *)

Lemma get_put_same {A} (a : list (option A)) (g : Z) (v : option A) :
  0 <= g -> Js.get (Js.put a g v) g = Some v.
Proof.
  intros Hg. unfold Js.get, Js.put.
  replace (g <? 0) with false by (symmetry; apply Z.ltb_ge; exact Hg).
  destruct (Z.to_nat g <? length a)%nat eqn:E;
    [apply Nat.ltb_lt in E | apply Nat.ltb_ge in E].
  - rewrite nth_error_app2 by (rewrite length_firstn; lia).
    rewrite length_firstn.
    replace (Z.to_nat g - Nat.min (Z.to_nat g) (length a))%nat with O by lia.
    reflexivity.
  - rewrite nth_error_app2 by lia.
    rewrite nth_error_app2 by (rewrite repeat_length; lia).
    rewrite repeat_length.
    replace (Z.to_nat g - length a - (Z.to_nat g - length a))%nat with O by lia.
    reflexivity.
Qed.

Lemma get_put_other {A} (a : list (option A)) (g g' : Z) (v : option A) :
  0 <= g -> 0 <= g' -> g' <> g ->
  match Js.get (Js.put a g v) g' with Some c => c | None => None end
  = match Js.get a g' with Some c => c | None => None end.
Proof.
  intros Hg Hg' Hne. unfold Js.get, Js.put.
  replace (g <? 0) with false by (symmetry; apply Z.ltb_ge; exact Hg).
  replace (g' <? 0) with false by (symmetry; apply Z.ltb_ge; exact Hg').
  assert (Hn : Z.to_nat g' <> Z.to_nat g) by lia.
  destruct (Z.to_nat g <? length a)%nat eqn:E;
    [apply Nat.ltb_lt in E | apply Nat.ltb_ge in E].
  - destruct (Nat.lt_ge_cases (Z.to_nat g') (Z.to_nat g)) as [H | H].
    + rewrite nth_error_app1 by (rewrite length_firstn; lia).
      rewrite nth_error_firstn.
      replace (Z.to_nat g' <? Z.to_nat g)%nat with true
        by (symmetry; apply Nat.ltb_lt; exact H).
      reflexivity.
    + rewrite nth_error_app2 by (rewrite length_firstn; lia).
      rewrite length_firstn.
      replace (Nat.min (Z.to_nat g) (length a)) with (Z.to_nat g) by lia.
      destruct (Z.to_nat g' - Z.to_nat g)%nat as [| k] eqn:Ek; [lia |].
      cbn [nth_error]. rewrite nth_error_skipn.
      replace (S (Z.to_nat g) + k)%nat with (Z.to_nat g') by lia. reflexivity.
  - destruct (Nat.lt_ge_cases (Z.to_nat g') (length a)) as [H | H].
    + rewrite nth_error_app1 by exact H. reflexivity.
    + rewrite (proj2 (nth_error_None a (Z.to_nat g')) H).
      rewrite nth_error_app2 by exact H.
      destruct (Nat.lt_ge_cases (Z.to_nat g' - length a) (Z.to_nat g - length a))
        as [H2 | H2].
      * rewrite nth_error_app1 by (rewrite repeat_length; exact H2).
        rewrite nth_error_repeat by exact H2. reflexivity.
      * rewrite nth_error_app2 by (rewrite repeat_length; exact H2).
        rewrite repeat_length.
        destruct (Z.to_nat g' - length a - (Z.to_nat g - length a))%nat as [| k] eqn:Ek;
          [lia |].
        cbn [nth_error]. destruct k; reflexivity.
Qed.

Section CharsetSteps.
Variable t : Terminal.
Hypothesis Hy : y t = oldy t.
Variables (ps : list Param) (cp : Param) (pre post rest : list Z).

Lemma step_designate (d g : Z) :
  designated d = Some g ->
  oneByte d rest (set_psr (mkParser STATE_ESCAPE ps cp pre post) t)
  = Ok (set_psr (mkParser STATE_CHARSET ps cp pre post) (set_gcharset (Some g) t), Fwd 0).
Proof.
  intros Hd. unfold oneByte, dispatch.
  change (state (set_psr (mkParser STATE_ESCAPE ps cp pre post) t)) with STATE_ESCAPE.
  cbv beta iota.
  assert (E : _processDataEscape d (set_psr (mkParser STATE_ESCAPE ps cp pre post) t)
              = (set_psr (mkParser STATE_CHARSET ps cp pre post) (set_gcharset (Some g) t),
                 Fwd 0)).
  { unfold designated in Hd.
    destruct d as [| p |]; try discriminate.
    do 6 (destruct p as [p | p |]; try discriminate);
      injection Hd as <-; reflexivity. }
  rewrite E. cbn [bind].
  rewrite afterByte_same by exact Hy. reflexivity.
Qed.

Lemma step_charset (f : Z) (g : option Z) :
  gcharset t = g ->
  oneByte f rest (set_psr (mkParser STATE_CHARSET ps cp pre post) t)
  = Ok (set_psr (mkParser STATE_NORMAL ps cp pre post)
                (set_gcharset None
                   (setgCharset g (if f =? 48 then Some SCLD else None) t)),
        Fwd (if f =? 47 then 1 else 0)).
Proof.
  intros Hg. unfold oneByte, dispatch.
  change (state (set_psr (mkParser STATE_CHARSET ps cp pre post) t)) with STATE_CHARSET.
  cbv beta iota. unfold _processDataCharset. cbv zeta.
  change (gcharset (set_psr (mkParser STATE_CHARSET ps cp pre post) t)) with (gcharset t).
  rewrite Hg. cbn [bind].
  assert (E : forall cs,
             set_state STATE_NORMAL
               (set_gcharset None
                  (setgCharset g cs (set_psr (mkParser STATE_CHARSET ps cp pre post) t)))
             = set_psr (mkParser STATE_NORMAL ps cp pre post)
                 (set_gcharset None (setgCharset g cs t))).
  { intros cs. unfold setgCharset. destruct g as [g0 |]; [| reflexivity].
    cbv zeta.
    change (glevel (set_charsets ?a (set_psr ?p t))) with (glevel t).
    change (glevel (set_charsets ?a t)) with (glevel t).
    destruct (glevel t =? g0); reflexivity. }
  rewrite E.
  rewrite afterByte_same; [reflexivity |].
  unfold setgCharset. destruct g as [g0 |]; [| exact Hy].
  cbv zeta. change (glevel (set_charsets ?a t)) with (glevel t).
  destruct (glevel t =? g0); exact Hy.
Qed.
End CharsetSteps.

(** X28.  Designating a character set and invoking it.  With the parser idle,
    ESC d f, where [d] is a designator of the bank [g], is processed
    without error and stores the set that [f] names in that bank: the line
    drawing set for [f = 0], no set for every other [f].  The set in effect
    changes at once when [g] is the bank in use and not otherwise; invoking
    the bank [g] afterwards (SI for G0, SO for G1, ESC n for G2, ESC o for
    G3, all of them [setgLevel]) puts that set in effect, and invoking any
    other bank gives what it gave before.  The screen and the cursor are
    as before. *)
Theorem a_designated_charset_is_what_its_bank_invokes (d f g : Z) (t : Terminal) :
  state t = STATE_NORMAL -> designated d = Some g ->
  let cs := if f =? 48 then Some SCLD else None in
  exists t',
    _processWriteData [ESC; d; f] t = Ok t'
    /\ state t' = STATE_NORMAL /\ glevel t' = glevel t
    /\ charset t' = (if glevel t =? g then cs else charset t)
    /\ charset (setgLevel g t') = cs
    /\ (forall g', 0 <= g' -> g' <> g ->
          charset (setgLevel g' t') = charset (setgLevel g' t))
    /\ lines t' = lines t /\ x t' = x t /\ y t' = y t.
Proof.
  intros Hs Hd cs.
  assert (Hg : 0 <= g).
  { unfold designated in Hd. destruct d as [| p |]; try discriminate.
    do 6 (destruct p as [p | p |]; try discriminate); injection Hd as <-; lia. }
  destruct (beforeLoop_keeps t) as (K1 & K2 & _ & _ & K5 & _ & K7 & K8 & _).
  pose proof (beforeLoop_oldy t) as Hy.
  assert (Hs' : state (beforeLoop t) = STATE_NORMAL) by (unfold state; rewrite K1; exact Hs).
  unfold _processWriteData.
  assert (Hc : forall g', charset (setgLevel g' (beforeLoop t)) = charset (setgLevel g' t)).
  { intros g'. unfold setgLevel. cbv zeta.
    change (charset (set_charset ?c ?u)) with c.
    change (charsets (set_glevel ?a ?u)) with (charsets u).
    unfold charsets. rewrite K2. reflexivity. }
  assert (Hl : glevel (beforeLoop t) = glevel t) by (unfold glevel; rewrite K2; reflexivity).
  assert (Hch : charset (beforeLoop t) = charset t) by (unfold charset; rewrite K2; reflexivity).
  rewrite <- Hl, <- Hch, <- K5, <- K7, <- K8.
  assert (G : forall T : Terminal,
            y T = oldy T -> state T = STATE_NORMAL ->
            exists t',
              (v <- processLoop [ESC; d; f] 0 T ;;
               (let '(t0, _) := v in Ok (updateRange (y t0) t0))) = Ok t'
              /\ state t' = STATE_NORMAL /\ glevel t' = glevel T
              /\ charset t' = (if glevel T =? g then cs else charset T)
              /\ charset (setgLevel g t') = cs
              /\ (forall g', 0 <= g' -> g' <> g ->
                    charset (setgLevel g' t') = charset (setgLevel g' T))
              /\ lines t' = lines T /\ x t' = x T /\ y t' = y T).
  { clear - Hd Hg. intros T Hy Hs'.
    assert (Run0 : processLoop [ESC; d; f] 0 T
                   = processLoop [ESC; d; f] 0
                       (set_psr (mkParser STATE_NORMAL (params T) (currentParam T)
                                          (prefix T) (postfix T)) T))
      by (rewrite <- Hs', <- psr_eta; reflexivity).
    rewrite Run0. clear Run0.
    erewrite loop_step by (apply step_ESC; exact Hy).
    erewrite loop_step by (apply step_designate; [exact Hy | exact Hd]).
    erewrite loop_step by (apply step_charset; [exact Hy | reflexivity]).
    change (gcharset (set_gcharset (Some g) T)) with (Some g).
    assert (E : forall k, processLoop [] k
                  (set_psr (mkParser STATE_NORMAL (params T) (currentParam T)
                                     (prefix T) (postfix T))
                     (set_gcharset None (setgCharset (Some g) cs (set_gcharset (Some g) T))))
                = Ok (set_psr (mkParser STATE_NORMAL (params T) (currentParam T)
                                        (prefix T) (postfix T))
                        (set_gcharset None
                           (setgCharset (Some g) cs (set_gcharset (Some g) T))), k))
      by reflexivity.
    fold cs. rewrite E. cbn [bind].
    match goal with
    | |- exists t', Ok (updateRange ?v ?u) = Ok t' /\ _ =>
        destruct (updateRange_refr v u) as [r Er]; rewrite Er
    end.
    eexists. split; [reflexivity |].
    unfold setgCharset. cbv zeta.
    change (glevel (set_charsets ?a (set_gcharset ?b T))) with (glevel T).
    destruct (glevel T =? g) eqn:El.
    - split; [reflexivity |]. split; [reflexivity |]. split; [reflexivity |].
      split; [| split; [| repeat split]].
      + unfold setgLevel. cbv zeta.
        change (charset (set_charset ?c ?u)) with c.
        change (charsets (set_glevel g ?u)) with (charsets u).
        change (charsets (set_refr ?a (set_psr ?b (set_gcharset ?c (set_charset ?e (set_charsets ?l ?u))))))
          with l.
        rewrite get_put_same by exact Hg. reflexivity.
      + intros g' Hg' Hne. unfold setgLevel. cbv zeta.
        change (charset (set_charset ?c ?u)) with c.
        change (charsets (set_glevel g' ?u)) with (charsets u).
        change (charsets (set_refr ?a (set_psr ?b (set_gcharset ?c (set_charset ?e (set_charsets ?l ?u))))))
          with l.
        change (charsets (set_gcharset (Some g) T)) with (charsets T).
        apply get_put_other; assumption.
    - split; [reflexivity |]. split; [reflexivity |]. split; [reflexivity |].
      split; [| split; [| repeat split]].
      + unfold setgLevel. cbv zeta.
        change (charset (set_charset ?c ?u)) with c.
        change (charsets (set_glevel g ?u)) with (charsets u).
        change (charsets (set_refr ?a (set_psr ?b (set_gcharset ?c (set_charsets ?l ?u)))))
          with l.
        rewrite get_put_same by exact Hg. reflexivity.
      + intros g' Hg' Hne. unfold setgLevel. cbv zeta.
        change (charset (set_charset ?c ?u)) with c.
        change (charsets (set_glevel g' ?u)) with (charsets u).
        change (charsets (set_refr ?a (set_psr ?b (set_gcharset ?c (set_charsets ?l ?u)))))
          with l.
        change (charsets (set_gcharset (Some g) T)) with (charsets T).
        apply get_put_other; assumption. }
  destruct (G (beforeLoop t) Hy Hs') as (t' & E & G1 & G2 & G3 & G4 & G5 & G6).
  exists t'. split; [exact E |]. split; [exact G1 |]. split; [exact G2 |].
  split; [exact G3 |]. split; [exact G4 |]. split; [| exact G6].
  intros g' Hg' Hne. rewrite (G5 g' Hg' Hne). apply Hc.
Qed.

Lemma a_designated_charset_is_what_its_bank_invokes_witness :
  exists t',
    _processWriteData [ESC; 41; 48] fresh = Ok t'
    /\ charset t' = (if glevel fresh =? 1 then Some SCLD else charset fresh)
    /\ charset (setgLevel 1 t') = Some SCLD.
Proof.
  destruct (a_designated_charset_is_what_its_bank_invokes 41 48 1 fresh)
    as (t' & E & _ & _ & H3 & H4 & _);
    [vm_compute; reflexivity | reflexivity |].
  exists t'. split; [exact E |]. split; [exact H3 | exact H4].
Defined.

(** ** Index and reverse index *)

(** X29.  RI (ESC M) and IND (ESC D).  Below the first row of the scroll
    region, [reverseIndex] moves the cursor up a row and touches nothing
    else, and [index] after it brings the cursor back.  On the first row
    of the region (or above it), with the buffer split into the rows above
    the cursor, the rows from the cursor to the bottom of the region and
    the rows below, [reverseIndex] leaves the cursor where it is and
    scrolls those rows down: a blank row in the erase attribute stands at
    the cursor, the last row of the region is gone, and the rows above the
    cursor and below the region are untouched. *)
Theorem reverseIndex_moves_up_or_scrolls_down
    (above region below : list Row) (r : Row) (t : Terminal) :
  (scrollTop t < y t ->
     reverseIndex t = set_state STATE_NORMAL (set_y (y t - 1) t)
     /\ (y t <= scrollBottom t ->
         index (reverseIndex t) = set_state STATE_NORMAL t))
  /\ (y t <= scrollTop t ->
      lines t = above ++ (region ++ [r]) ++ below ->
      Js.len above = y t + ybase t ->
      Js.len (region ++ [r]) = scrollBottom t - y t + 1 ->
      exists r0,
        reverseIndex t
        = set_state STATE_NORMAL
            (set_refr r0 (set_lines (above ++ (blankLine true t :: region) ++ below) t))).
Proof.
  split.
  - intros Hy.
    assert (E : reverseIndex t = set_state STATE_NORMAL (set_y (y t - 1) t)).
    { unfold reverseIndex. cbv zeta.
      change (y (set_y (y t - 1) t)) with (y t - 1).
      change (scrollTop (set_y (y t - 1) t)) with (scrollTop t).
      replace (y t - 1 <? scrollTop t) with false by (symmetry; apply Z.ltb_ge; lia).
      reflexivity. }
    split; [exact E |]. intros Hb. rewrite E.
    unfold index. cbv zeta.
    change (y (set_state STATE_NORMAL (set_y (y t - 1) t))) with (y t - 1).
    change (scrollBottom (set_y (y t - 1 + 1) (set_state STATE_NORMAL (set_y (y t - 1) t))))
      with (scrollBottom t).
    change (y (set_y (y t - 1 + 1) (set_state STATE_NORMAL (set_y (y t - 1) t))))
      with (y t - 1 + 1).
    replace (scrollBottom t <? y t - 1 + 1) with false by (symmetry; apply Z.ltb_ge; lia).
    replace (y t - 1 + 1) with (y t) by lia.
    change (set_state STATE_NORMAL
              (set_y (y t) (set_state STATE_NORMAL (set_y (y t - 1) t))))
      with (set_state STATE_NORMAL (set_y (y t) (set_y (y t - 1) t))).
    rewrite set_y_back. reflexivity.
  - intros Hy Hl Ha Hr.
    unfold reverseIndex. cbv zeta.
    change (y (set_y (y t - 1) t)) with (y t - 1).
    change (scrollTop (set_y (y t - 1) t)) with (scrollTop t).
    replace (y t - 1 <? scrollTop t) with true by (symmetry; apply Z.ltb_lt; lia).
    replace (y t - 1 + 1) with (y t) by lia.
    rewrite set_y_back.
    change (blankLine true (set_lines ?l t)) with (blankLine true t).
    change (rows (set_lines ?l t)) with (rows t).
    change (ybase (set_lines ?l t)) with (ybase t).
    change (scrollBottom (set_lines ?l t)) with (scrollBottom t).
    change (lines (set_lines ?l t)) with l.
    rewrite Hl.
    rewrite (splice_insert_at above _ (y t + ybase t) _ Ha).
    rewrite <- (app_assoc region [r] below). cbn [app].
    change (above ++ blankLine true t :: region ++ r :: below)
      with (above ++ (blankLine true t :: region) ++ r :: below).
    rewrite (app_assoc above).
    rewrite splice_delete_at
      by (unfold Js.len in *; rewrite !length_app in *; cbn [length] in *; lia).
    change (set_lines ?a (set_lines ?b t)) with (set_lines a t).
    rewrite <- app_assoc.
    match goal with
    | |- exists r0, set_state _ (updateRange ?a (updateRange ?b ?u)) = _ =>
        destruct (updateRange_twice a b u) as [r0 E]; rewrite E
    end.
    exists r0. reflexivity.
Qed.

Lemma reverseIndex_moves_up_or_scrolls_down_witness :
  exists r0,
    reverseIndex fresh
    = set_state STATE_NORMAL
        (set_refr r0
           (set_lines ([] ++ (blankLine true fresh :: firstn 23 (lines fresh)) ++ []) fresh)).
Proof.
  apply (proj2 (reverseIndex_moves_up_or_scrolls_down
                  [] (firstn 23 (lines fresh)) [] (blankLine false fresh) fresh));
    vm_compute; try reflexivity; discriminate.
Defined.
